(** * Izypower Cloud: the authenticated client and the snapshot aggregator

    A shallow embedding of [custom_components/izypower_cloud/client.py]
    (class [IzyClient]) and of [async_update_data] in
    [custom_components/izypower_cloud/__init__.py].

    Python values are embedded as the inductive type [value]; dictionaries
    are association lists in insertion order, with Python's key equality.
    Numbers are rationals: an [int] is the integer itself and a finite
    [float] is the rational that it denotes.  The conversion [float(x)] and
    the arithmetic of the back-off delay round as binary64 does
    ([Float.round]: 53 significant bits, to nearest, ties to even) and
    [float] of an integer too large for the format raises [OverflowError];
    infinities and NaN have no counterpart.  The sum [time.time() + 600]
    is a float sum as well; the difference [expiry - 10] of the validity
    check is taken exactly.  The effects of the program
    (HTTP requests, the clock, the random generator, the client's token
    fields) are threaded through a state-and-exception monad that also
    records the events performed. *)

From Stdlib Require Import List String Ascii Bool Arith ZArith QArith Lia Lqa.
From Stdlib Require Import Qround Qabs Qpower.
From Stdlib Require Import DecimalString.
From Stdlib Require DecimalNat.
Import ListNotations.

Set Implicit Arguments.
Set Warnings "-register-all".

(** ** Python values *)

Module Py.

Inductive value : Type :=
| VNone
| VBool (b : bool)
| VNum (q : Q)
| VStr (s : string)
| VList (l : list value)
| VDict (d : list (value * value)).

Definition pydict := list (value * value).

(** The empty dictionary literal [{}]. *)
Definition empty_dict : value := VDict [].

(** Truth value testing ([if x:], [not x], [x or y]). *)
Definition truthy (v : value) : bool :=
  match v with
  | VNone => false
  | VBool b => b
  | VNum q => negb (Qeq_bool q 0)
  | VStr s => negb (String.eqb s "")
  | VList l => match l with [] => false | _ => true end
  | VDict d => match d with [] => false | _ => true end
  end.

(** Lists and dictionaries cannot be dictionary keys. *)
Definition hashable (v : value) : bool :=
  match v with
  | VList _ | VDict _ => false
  | _ => true
  end.

Definition num_of_bool (b : bool) : Q := if b then 1 else 0.

(** [==] on the hashable values: numbers and booleans compare by numeric
    value, strings by content. *)
Definition key_eqb (a b : value) : bool :=
  match a, b with
  | VNone, VNone => true
  | VBool x, VBool y => Bool.eqb x y
  | VBool x, VNum y => Qeq_bool (num_of_bool x) y
  | VNum x, VBool y => Qeq_bool x (num_of_bool y)
  | VNum x, VNum y => Qeq_bool x y
  | VStr x, VStr y => String.eqb x y
  | _, _ => false
  end.

(** Exceptions.  Only their being raised matters to the callers, which
    catch [Exception]; the constructors keep the source's classes apart. *)
Inductive exn : Type :=
| TimeoutError
| AttributeError
| TypeError
| ValueError
| OverflowError
| Error (msg : string).

Inductive Res (A : Type) : Type :=
| Ok (a : A)
| Raise (e : exn).
Arguments Raise {A} e.

(** [d.get(k)] on a dictionary proper. *)
Definition dict_get (d : pydict) (k : value) : option value :=
  match find (fun kv => key_eqb (fst kv) k) d with
  | Some kv => Some (snd kv)
  | None => None
  end.

Definition has_key (d : pydict) (k : value) : bool :=
  existsb (fun kv => key_eqb (fst kv) k) d.

(** [d[k] = v] for a hashable [k]: an existing key keeps its place (and
    its key object), a new key goes last. *)
Fixpoint dict_set (d : pydict) (k v : value) : pydict :=
  match d with
  | [] => [(k, v)]
  | (k', v') :: d' =>
      if key_eqb k' k then (k', v) :: d' else (k', v') :: dict_set d' k v
  end.

(** [d[k] = v]: [TypeError] on an unhashable key. *)
Definition setitem (d : pydict) (k v : value) : Res pydict :=
  if hashable k then Ok (dict_set d k v) else Raise TypeError.

(** [x.get(k, default)]: [AttributeError] unless [x] is a dictionary,
    [TypeError] on an unhashable key. *)
Definition py_get (x k default : value) : Res value :=
  match x with
  | VDict d =>
      if hashable k then
        Ok (match dict_get d k with Some v => v | None => default end)
      else Raise TypeError
  | _ => Raise AttributeError
  end.

Fixpoint chars (s : string) : list value :=
  match s with
  | EmptyString => []
  | String c s' => VStr (String c EmptyString) :: chars s'
  end.

(** [for x in v]: the items iterated over. *)
Definition py_iter (v : value) : Res (list value) :=
  match v with
  | VList l => Ok l
  | VDict d => Ok (map fst d)
  | VStr s => Ok (chars s)
  | _ => Raise TypeError
  end.

(** [a or b]. *)
Definition py_or (a b : value) : value := if truthy a then a else b.

(** [==] between arbitrary values, as far as the program uses it: against
    a string literal. *)
Definition eq_str (v : value) (s : string) : bool :=
  match v with
  | VStr t => String.eqb t s
  | _ => false
  end.

(** *** Strings *)

Definition lower_ascii (c : ascii) : ascii :=
  let n := nat_of_ascii c in
  if (65 <=? n)%nat && (n <=? 90)%nat then ascii_of_nat (n + 32) else c.

(** [str.lower()], on ASCII letters. *)
Fixpoint lower (s : string) : string :=
  match s with
  | EmptyString => EmptyString
  | String c s' => String (lower_ascii c) (lower s')
  end.

(** [x.lower()]: [AttributeError] unless [x] is a string. *)
Definition py_lower (x : value) : Res string :=
  match x with
  | VStr s => Ok (lower s)
  | _ => Raise AttributeError
  end.

(** [needle in hay] on strings. *)
Fixpoint contains (needle hay : string) : bool :=
  if String.prefix needle hay then true
  else match hay with
       | EmptyString => false
       | String _ hay' => contains needle hay'
       end.

(** [s.split(sep)] for a one-character separator: [cur] holds the
    characters read so far of the current segment. *)
Fixpoint split_aux (sep : ascii) (cur : string) (s : string) : list string :=
  match s with
  | EmptyString => [cur]
  | String c s' =>
      if Ascii.eqb c sep then cur :: split_aux sep EmptyString s'
      else split_aux sep (cur ++ String c EmptyString) s'
  end.

Definition split (sep : ascii) (s : string) : list string :=
  split_aux sep EmptyString s.

(** ["=" * n]. *)
Fixpoint repeat_eq (n : nat) : string :=
  match n with
  | O => EmptyString
  | S n' => String "="%char (repeat_eq n')
  end.

End Py.

Import Py.

(** ** Binary floating point *)

(** Python's [float] is the IEEE 754 binary64 format: 53 significant bits,
    round to nearest, ties to even.  A finite float is the rational that it
    denotes; [round] gives the float nearest to a rational, the format's
    exponent unbounded above (the callers test [finite]). *)
Module Float.

(** Round to the nearest integer, a tie to the even one. *)
Definition rne (x : Q) : Z :=
  let f := Qfloor x in
  match Qcompare (x - inject_Z f) (1 # 2) with
  | Lt => f
  | Gt => (f + 1)%Z
  | Eq => if Z.even f then f else (f + 1)%Z
  end.

(** The exponent [e] of a non-zero [q]: [2^e <= |q| < 2^(e+1)], and
    [-1022] for the subnormal numbers. *)
Definition binade (q : Q) : Z :=
  let n := Z.abs (Qnum q) in
  let d := Z.pos (Qden q) in
  Z.max (-1022)
    (if (d <=? n)%Z then Z.log2 (n / d)
     else (- Z.log2_up ((d + n - 1) / n))%Z).

(** The distance between neighbouring floats around [q]. *)
Definition ulp (q : Q) : Q := 2 ^ (binade q - 52).

(** The float nearest to [q], in lowest terms. *)
Definition round (q : Q) : Q := Qred (inject_Z (rne (q / ulp q)) * ulp q).

(** Below [2^1024] in magnitude. *)
Definition finite (q : Q) : bool := negb (Qle_bool (2 ^ 1024) (Qabs q)).

(** [a + b] and [a * b] on floats whose result is finite. *)
Definition add (a b : Q) : Q := round (a + b).

Definition mul (a b : Q) : Q := round (a * b).

End Float.

(** ** Effects: the world the client talks to *)

(** The seven resources of the remote API, with the parameters that the
    URL templates of [const.py] take. *)
Inductive Resource : Type :=
| RStations (page limit : Z)
| RDevicePage (component_id : value) (device_type : string) (page limit : Z)
| RComponent (component_id : value) (date : string)
| RStationInfo (component_id : value)
| RReport (component_id : value) (date : string) (time_type : string)
| RDeviceWifi (serial_number : value)
| RBatteryLinks (serial_number : value).

Inductive Request : Type :=
| Post (username password : string)        (* session.post(LOGIN_URL, json=body) *)
| Get (r : Resource) (token : value).      (* session.get(url, headers) *)

(** What [async with session.post/get(...)] and [await resp.text()] give:
    a time-out, some other raised error, or a status and a body. *)
Inductive HttpOutcome : Type :=
| HTimeout
| HError
| HResp (status : Z) (text : string).

(** The fields of a [datetime] that the program formats. *)
Record datetime : Type := {
  year : nat;
  month : nat;
  day : nat
}.

(** The environment of a run.  [http n req] is the outcome of the [n]-th
    HTTP request when that request is [req]; [clock n] is what the [n]-th
    call of [time.time()] returns; [random n] what the [n]-th call of
    [random.random()] returns; [datetime_now] what [datetime.now()] returns
    in the cycle.  The library functions [json.loads],
    [base64.urlsafe_b64decode] and [float] on strings are parameters:
    [None] stands for a raised exception. *)
Record Env : Type := {
  json_loads : string -> option value;
  urlsafe_b64decode : string -> option string;
  float_of_str : string -> option Q;
  http : nat -> Request -> HttpOutcome;
  clock : nat -> Q;
  random : nat -> Q;
  datetime_now : datetime;
  _username : string;
  _password : string
}.

(** The mutable fields of [IzyClient] and the position in the environment. *)
Record State : Type := {
  _token : value;
  _expiry : option Q;
  http_calls : nat;
  clock_reads : nat;
  random_draws : nat
}.

(** [IzyClient.__init__]. *)
Definition init_state : State :=
  {| _token := VNone; _expiry := None;
     http_calls := 0; clock_reads := 0; random_draws := 0 |}.

(** Who sleeps: [async_login] or the fetch of a resource. *)
Inductive Caller : Type :=
| ByLogin
| ByFetch (r : Resource).

(** The events of a run, in the order performed.  [EvLogin] marks a call
    of [async_login]; [EvReturn] and [EvRaise] mark how a fetch ended. *)
Inductive Event : Type :=
| EvLogin
| EvPost (attempt : nat)
| EvGet (r : Resource) (attempt : nat)
| EvSleep (who : Caller) (attempt : nat) (wait : Q)
| EvReturn (r : Resource) (v : value)
| EvRaise (r : Resource).

(** ** The monad: state, exceptions, and the events performed *)

Record Out (A : Type) : Type := mkOut {
  res : Res A;
  post : State;
  evs : list Event
}.

Definition M (A : Type) : Type := State -> Out A.

Definition ret {A} (a : A) : M A := fun s => mkOut (Ok a) s [].

Definition raise {A} (e : exn) : M A := fun s => mkOut (Raise e) s [].

Definition bind {A B} (m : M A) (f : A -> M B) : M B :=
  fun s =>
    let o := m s in
    match res o with
    | Ok a => let o' := f a (post o) in
              mkOut (res o') (post o') (evs o ++ evs o')
    | Raise e => mkOut (Raise e) (post o) (evs o)
    end.

(** [try: m  except Exception: ...]: the outcome of [m] as a value. *)
Definition try {A} (m : M A) : M (Res A) :=
  fun s => let o := m s in mkOut (Ok (res o)) (post o) (evs o).

(** A pure step that may raise. *)
Definition lift {A} (r : Res A) : M A := fun s => mkOut r s [].

Definition emit (e : Event) : M unit := fun s => mkOut (Ok tt) s [e].

Definition get_state : M State := fun s => mkOut (Ok s) s [].

Definition put_state (s' : State) : M unit := fun _ => mkOut (Ok tt) s' [].

Declare Scope monad_scope.
Delimit Scope monad_scope with monad.
Notation "x <- m ;; k" := (bind m (fun x => k))
  (at level 61, m at next level, right associativity) : monad_scope.
Notation "m ;; k" := (bind m (fun _ => k))
  (at level 61, right associativity) : monad_scope.
Open Scope monad_scope.

(** ** The authenticated client ([client.py]) *)

Module Client.

Definition Qlt_bool (a b : Q) : bool := negb (Qle_bool b a).

Section WithEnv.

Variable E : Env.

(** [time.time()]. *)
Definition time_time : M Q :=
  fun s =>
    mkOut (Ok (clock E (clock_reads s)))
          {| _token := _token s; _expiry := _expiry s;
             http_calls := http_calls s;
             clock_reads := S (clock_reads s);
             random_draws := random_draws s |} [].

(** [random.random()]. *)
Definition random_random : M Q :=
  fun s =>
    mkOut (Ok (random E (random_draws s)))
          {| _token := _token s; _expiry := _expiry s;
             http_calls := http_calls s;
             clock_reads := clock_reads s;
             random_draws := S (random_draws s) |} [].

(** One HTTP exchange: the request and the reading of the body. *)
Definition request (req : Request) : M HttpOutcome :=
  fun s =>
    mkOut (Ok (http E (http_calls s) req))
          {| _token := _token s; _expiry := _expiry s;
             http_calls := S (http_calls s);
             clock_reads := clock_reads s;
             random_draws := random_draws s |} [].

(** [self._token = token]. *)
Definition set_token (token : value) : M unit :=
  fun s =>
    mkOut (Ok tt)
          {| _token := token; _expiry := _expiry s;
             http_calls := http_calls s;
             clock_reads := clock_reads s;
             random_draws := random_draws s |} [].

(** [self._expiry = e]. *)
Definition set_expiry (e : Q) : M unit :=
  fun s =>
    mkOut (Ok tt)
          {| _token := _token s; _expiry := Some e;
             http_calls := http_calls s;
             clock_reads := clock_reads s;
             random_draws := random_draws s |} [].

(** [float(x)]: a number is rounded to the nearest float, and an integer
    that rounds beyond the largest float raises [OverflowError]; a string
    that does not parse raises [ValueError]; [None], a list or a dictionary
    raises [TypeError]. *)
Definition float (x : value) : Res Q :=
  match x with
  | VNum q =>
      if Float.finite (Float.round q) then Ok (Float.round q)
      else Raise OverflowError
  | VBool b => Ok (num_of_bool b)
  | VStr s =>
      match float_of_str E s with
      | Some q => Ok q
      | None => Raise ValueError
      end
  | _ => Raise TypeError
  end.

(** [float(x)] under [except Exception]: [None] when it raises. *)
Definition py_float (x : value) : option Q :=
  match float x with
  | Ok q => Some q
  | Raise _ => None
  end.

(** Truth value of a float. *)
Definition float_truthy (q : Q) : bool := negb (Qeq_bool q 0).

(** [_decode_jwt_exp]: [None] is Python's [None], returned on every
    exception as well. *)
Definition _decode_jwt_exp (token : value) : option Q :=
  match token with
  | VStr t =>
      let parts := split "."%char t in
      if (List.length parts <? 2)%nat then None
      else
        let payload_b64 := nth 1 parts EmptyString in
        let padding :=
          repeat_eq ((4 - String.length payload_b64 mod 4) mod 4) in
        match urlsafe_b64decode E (payload_b64 ++ padding) with
        | None => None
        | Some payload_bytes =>
            match json_loads E payload_bytes with
            | None => None
            | Some payload =>
                match py_get payload (VStr "exp") VNone with
                | Raise _ => None
                | Ok exp => if truthy exp then py_float exp else None
                end
            end
        end
  | _ => None
  end.

Definition backoff_base : Q := 1.

(** The wait between attempts:
    [jitter = random.random() * 0.5] and
    [wait = backoff_base * (2 ** (attempt - 1)) + jitter], in floats (the
    power of two of an attempt number is a float). *)
Definition backoff_wait (attempt : nat) (rnd : Q) : Q :=
  let jitter := Float.mul rnd (1 # 2) in
  Float.add (Float.mul backoff_base (inject_Z (Z.of_nat (2 ^ (attempt - 1)))))
            jitter.

(** The sleep at the end of a failed attempt. *)
Definition backoff (who : Caller) (attempt max_attempts : nat) : M unit :=
  if (attempt <? max_attempts)%nat then
    rnd <- random_random ;;
    emit (EvSleep who attempt (backoff_wait attempt rnd))
  else ret tt.

Definition login_max_attempts : nat := 2.

(** The body of the [try] of [async_login], for one attempt. *)
Definition login_attempt (attempt : nat) : M unit :=
  emit (EvPost attempt) ;;
  out <- request (Post (_username E) (_password E)) ;;
  match out with
  | HTimeout => raise TimeoutError
  | HError => raise (Error "request failed")
  | HResp _ text =>
      match json_loads E text with
      | None => raise ValueError
      | Some data =>
          token <- match data with
                   | VDict _ =>
                       inner <- lift (py_get data (VStr "data") empty_dict) ;;
                       lift (py_get inner (VStr "token") VNone)
                   | _ => ret VNone
                   end ;;
          if negb (truthy token) then
            raise (Error "Login failed: no token returned")
          else
            set_token token ;;
            match _decode_jwt_exp token with
            | Some exp =>
                if float_truthy exp then set_expiry exp
                else now <- time_time ;; set_expiry (Float.add now 600)
            | None => now <- time_time ;; set_expiry (Float.add now 600)
            end
      end
  end.

(** [for attempt in range(1, max_attempts + 1)] of [async_login], over the
    attempts still to run. *)
Fixpoint login_loop (attempts : list nat) : M unit :=
  match attempts with
  | [] => raise (Error "Login failed after retries")
  | attempt :: rest =>
      r <- try (login_attempt attempt) ;;
      match r with
      | Ok _ => ret tt
      | Raise _ =>
          backoff ByLogin attempt login_max_attempts ;;
          login_loop rest
      end
  end.

Definition async_login : M unit :=
  emit EvLogin ;;
  login_loop (seq 1 login_max_attempts).

Definition expiry_truthy (e : option Q) : bool :=
  match e with
  | Some q => float_truthy q
  | None => false
  end.

Definition _token_is_valid : M bool :=
  s <- get_state ;;
  if negb (truthy (_token s)) || negb (expiry_truthy (_expiry s)) then
    ret false
  else
    match _expiry s with
    | Some e => now <- time_time ;; ret (Qlt_bool now (e - 10))
    | None => ret false
    end.

Definition fetch_max_attempts : nat := 3.

(** [if not self._token_is_valid(): await self.async_login()]. *)
Definition ensure_token : M unit :=
  valid <- _token_is_valid ;;
  if negb valid then async_login else ret tt.

(** The checks made on the response of a GET, inside [async with]. *)
Definition check_response (out : HttpOutcome) : M value :=
  match out with
  | HTimeout => raise TimeoutError
  | HError => raise (Error "request failed")
  | HResp status text =>
      if (status =? 401)%Z then
        async_login ;; raise (Error "Unauthorized")
      else if ((500 <=? status) && (status <? 600))%Z then
        raise (Error "HTTP 5xx")
      else if negb (status =? 200)%Z then
        raise (Error "HTTP status")
      else
        match json_loads E text with
        | Some v => ret v
        | None => raise ValueError
        end
  end.

(** The body of the [try] shared by the seven [async_get_*] methods, for
    one attempt on resource [r]. *)
Definition fetch_attempt (r : Resource) (attempt : nat) : M value :=
  ensure_token ;;
  s <- get_state ;;
  emit (EvGet r attempt) ;;
  out <- request (Get r (_token s)) ;;
  check_response out.

(** What the messages of the seven methods call their resource. *)
Definition resource_label (r : Resource) : string :=
  match r with
  | RStations _ _ => "stations"
  | RDevicePage _ _ _ _ => "device page"
  | RComponent _ _ => "component"
  | RStationInfo _ => "station info"
  | RReport _ _ _ => "report"
  | RDeviceWifi _ => "device WiFi"
  | RBatteryLinks _ => "battery links"
  end.

(** The exception raised once the attempts are used up. *)
Definition fetch_error (r : Resource) : exn :=
  Error ("Failed to fetch " ++ resource_label r ++ " after retries").

(** [for attempt in range(1, max_attempts + 1)] of a fetch. *)
Fixpoint fetch_loop (r : Resource) (attempts : list nat) : M value :=
  match attempts with
  | [] => raise (fetch_error r)
  | attempt :: rest =>
      x <- try (fetch_attempt r attempt) ;;
      match x with
      | Ok v => ret v
      | Raise _ =>
          backoff (ByFetch r) attempt fetch_max_attempts ;;
          fetch_loop r rest
      end
  end.

(** A fetch of resource [r]; the last event records how it ended. *)
Definition fetch (r : Resource) : M value :=
  x <- try (fetch_loop r (seq 1 fetch_max_attempts)) ;;
  match x with
  | Ok v => emit (EvReturn r v) ;; ret v
  | Raise e => emit (EvRaise r) ;; raise e
  end.

(** The seven methods differ in the URL template and its parameters only. *)
Definition async_get_stations (page limit : Z) : M value :=
  fetch (RStations page limit).

Definition async_get_device_page (component_id : value) (device_type : string)
    (page limit : Z) : M value :=
  fetch (RDevicePage component_id device_type page limit).

Definition async_get_component (component_id : value) (date : string) : M value :=
  fetch (RComponent component_id date).

Definition async_get_station_info (component_id : value) : M value :=
  fetch (RStationInfo component_id).

Definition async_get_report (component_id : value) (date time_type : string)
    : M value :=
  fetch (RReport component_id date time_type).

Definition async_get_device_wifi (serial_number : value) : M value :=
  fetch (RDeviceWifi serial_number).

Definition async_get_battery_links (serial_number : value) : M value :=
  fetch (RBatteryLinks serial_number).

End WithEnv.

End Client.

(** ** The snapshot aggregator ([async_update_data] in [__init__.py]) *)

Module Aggregator.

Import Client.

(** Sequencing of pure steps that may raise. *)
Definition rbind {A B} (r : Res A) (f : A -> Res B) : Res B :=
  match r with
  | Ok a => f a
  | Raise e => Raise e
  end.

Notation "x <-? r ;; k" := (rbind r (fun x => k))
  (at level 61, r at next level, right associativity) : monad_scope.

(** *** [strftime] *)

Definition decimal (n : nat) : string := NilEmpty.string_of_uint (Nat.to_uint n).

Fixpoint zeros (n : nat) : string :=
  match n with
  | O => EmptyString
  | S n' => String "0"%char (zeros n')
  end.

(** [n] in decimal, zero-padded to [width] digits. *)
Definition padded (width n : nat) : string :=
  let d := decimal n in
  zeros (width - String.length d) ++ d.

(** [now.strftime("%Y")], [("%Y-%m")] and [("%Y-%m-%d")]. *)
Definition strftime_Y (now : datetime) : string := padded 4 (year now).

Definition strftime_Ym (now : datetime) : string :=
  strftime_Y now ++ "-" ++ padded 2 (month now).

Definition strftime_Ymd (now : datetime) : string :=
  strftime_Ym now ++ "-" ++ padded 2 (day now).

(** The [if]/[elif]/[else] that formats the date for a report window. *)
Definition search_time (now : datetime) (time_type : string) : string :=
  if String.eqb time_type "all" || String.eqb time_type "day" then
    strftime_Ymd now
  else if String.eqb time_type "month" then strftime_Ym now
  else strftime_Y now.

Definition time_types : list string :=
  ["all"%string; "day"%string; "month"%string; "year"%string].

(** *** Battery classification *)

(** [for device_type_info in device_types_enum: ...]. *)
Fixpoint type_mapping_loop (infos : list value) (device_type_mapping : pydict)
    : Res pydict :=
  match infos with
  | [] => Ok device_type_mapping
  | device_type_info :: rest =>
      type_code <-? py_get device_type_info (VStr "value") VNone ;;
      type_name <-? py_get device_type_info (VStr "name") VNone ;;
      if truthy type_code && truthy type_name then
        mapping' <-? setitem device_type_mapping type_code type_name ;;
        type_mapping_loop rest mapping'
      else type_mapping_loop rest device_type_mapping
  end.

(** [device_type_mapping.get(device_type_code, "").lower()]. *)
Definition device_type_name (device_type_mapping : pydict)
    (device_type_code : value) : Res string :=
  name <-? py_get (VDict device_type_mapping) device_type_code (VStr "") ;;
  py_lower name.

(** ["battery" in device_type_name or device_type_code == "battery"]. *)
Definition is_battery (device_type_name : string) (device_type_code : value)
    : bool :=
  contains "battery" device_type_name || eq_str device_type_code "battery".

Section WithEnv.

Variable E : Env.

(** The four dictionaries that the cycle fills. *)
Record Maps : Type := {
  stations_info : pydict;
  stations_reports : pydict;
  stations_component : pydict;
  stations_devices : pydict
}.

(** The dictionary that the cycle returns. *)
Record Snapshot : Type := {
  stations : value;
  maps : Maps
}.

(** One report window: the inner [try]/[except] of the [time_type] loop.
    [entry] is [stations_reports[station_id]]. *)
Definition fetch_window (now : datetime) (station_id : value) (entry : pydict)
    (time_type : string) : M pydict :=
  x <- try (async_get_report E station_id (search_time now time_type) time_type) ;;
  match x with
  | Ok report_data => ret (dict_set entry (VStr time_type) report_data)
  | Raise _ => ret (dict_set entry (VStr time_type) empty_dict)
  end.

Fixpoint fetch_windows (now : datetime) (station_id : value) (entry : pydict)
    (tts : list string) : M pydict :=
  match tts with
  | [] => ret entry
  | time_type :: rest =>
      entry' <- fetch_window now station_id entry time_type ;;
      fetch_windows now station_id entry' rest
  end.

(** The component [try]/[except]. *)
Definition fetch_component (now : datetime) (station_id : value)
    (component : pydict) : M pydict :=
  x <- try (async_get_component E station_id (strftime_Ymd now)) ;;
  match x with
  | Ok component_data => ret (dict_set component station_id component_data)
  | Raise _ => ret (dict_set component station_id empty_dict)
  end.

(** The body of the loop over the device records.  [wifi] and [links] are
    [stations_devices[station_id]["wifi_data"]] and [["battery_links"]]. *)
Definition process_device (device_type_mapping : pydict) (device_record : value)
    (wl : pydict * pydict) : M (pydict * pydict) :=
  let wifi := fst wl in
  let links := snd wl in
  sn <- lift (py_get device_record (VStr "sn") VNone) ;;
  device_sn <- (if truthy sn then ret sn
                else lift (py_get device_record (VStr "serialNumber") VNone)) ;;
  device_id <- lift (py_get device_record (VStr "deviceId") VNone) ;;
  if truthy device_sn then
    x <- try (wifi_data <- async_get_device_wifi E device_sn ;;
              lift (setitem wifi device_sn wifi_data)) ;;
    wifi' <- match x with
             | Ok w => ret w
             | Raise _ => lift (setitem wifi device_sn empty_dict)
             end ;;
    device_type_code <- lift (py_get device_record (VStr "deviceType") VNone) ;;
    name <- lift (device_type_name device_type_mapping device_type_code) ;;
    if is_battery name device_type_code then
      y <- try (battery_links_data <- async_get_battery_links E device_sn ;;
                if truthy device_id then
                  lift (setitem links device_id battery_links_data)
                else ret links) ;;
      match y with
      | Ok l => ret (wifi', l)
      | Raise _ =>
          if truthy device_id then
            l <- lift (setitem links device_id empty_dict) ;;
            ret (wifi', l)
          else ret (wifi', links)
      end
    else ret (wifi', links)
  else ret (wifi, links).

Fixpoint devices_loop (device_type_mapping : pydict) (device_records : list value)
    (wl : pydict * pydict) : M (pydict * pydict) :=
  match device_records with
  | [] => ret wl
  | device_record :: rest =>
      wl' <- process_device device_type_mapping device_record wl ;;
      devices_loop device_type_mapping rest wl'
  end.

(** The body of the device-page [try]: the value left in
    [stations_devices[station_id]] when nothing is raised. *)
Definition device_page_body (station_info station_id : value) : M value :=
  device_page_data <- async_get_device_page E station_id "all" 1 100 ;;
  device_types_enum <- lift (py_get station_info (VStr "deviceTypes") (VList [])) ;;
  infos <- lift (py_iter device_types_enum) ;;
  device_type_mapping <- lift (type_mapping_loop infos []) ;;
  data <- lift (py_get device_page_data (VStr "data") empty_dict) ;;
  device_records <- lift (py_get data (VStr "records") (VList [])) ;;
  match device_page_data with
  | VDict page =>
      records <- lift (py_iter device_records) ;;
      wl <- devices_loop device_type_mapping records ([], []) ;;
      ret (VDict (dict_set (dict_set page (VStr "wifi_data") (VDict (fst wl)))
                           (VStr "battery_links") (VDict (snd wl))))
  | _ => raise TypeError
  end.

(** The device-page [try]/[except]. *)
Definition fetch_devices (station_info station_id : value) (devices : pydict)
    : M pydict :=
  x <- try (device_page_body station_info station_id) ;;
  match x with
  | Ok page => ret (dict_set devices station_id page)
  | Raise _ => ret (dict_set devices station_id empty_dict)
  end.

(** What follows [stations_info[station_id] = station_info] in the outer
    [try]. *)
Definition station_rest (now : datetime) (station_id station_info : value)
    (m : Maps) : M Maps :=
  entry <- fetch_windows now station_id [] time_types ;;
  component <- fetch_component now station_id (stations_component m) ;;
  devices <- fetch_devices station_info station_id (stations_devices m) ;;
  ret {| stations_info := stations_info m;
         stations_reports := dict_set (stations_reports m) station_id (VDict entry);
         stations_component := component;
         stations_devices := devices |}.

(** The body of the loop over the station records. *)
Definition process_station (now : datetime) (record : value) (m : Maps) : M Maps :=
  station_id <- lift (py_get record (VStr "stationsId") VNone) ;;
  if truthy station_id then
    x <- try (station_info <- async_get_station_info E station_id ;;
              info <- lift (setitem (stations_info m) station_id station_info) ;;
              station_rest now station_id station_info
                {| stations_info := info;
                   stations_reports := stations_reports m;
                   stations_component := stations_component m;
                   stations_devices := stations_devices m |}) ;;
    match x with
    | Ok m' => ret m'
    | Raise _ => ret m
    end
  else ret m.

Fixpoint stations_loop (now : datetime) (records : list value) (m : Maps)
    : M Maps :=
  match records with
  | [] => ret m
  | record :: rest =>
      m' <- process_station now record m ;;
      stations_loop now rest m'
  end.

Definition empty_maps : Maps :=
  {| stations_info := []; stations_reports := [];
     stations_component := []; stations_devices := [] |}.

Definition async_update_data : M Snapshot :=
  stations_data <- async_get_stations E 1 100 ;;
  let now := datetime_now E in
  data <- lift (py_get stations_data (VStr "data") empty_dict) ;;
  records <- lift (py_get data (VStr "records") (VList [])) ;;
  items <- lift (py_iter records) ;;
  m <- stations_loop now items empty_maps ;;
  ret {| stations := stations_data; maps := m |}.

End WithEnv.

End Aggregator.

(** ** Vocabulary of the statements *)

(** [emits P m]: every event that [m] performs satisfies [P]. *)
Definition emits {A} (P : Event -> Prop) (m : M A) : Prop :=
  forall s, Forall P (evs (m s)).

(** Counting the events of one kind. *)
Definition count (p : Event -> bool) (l : list Event) : nat :=
  List.length (filter p l).

Definition is_login (e : Event) : bool :=
  match e with EvLogin => true | _ => false end.

Definition is_post (e : Event) : bool :=
  match e with EvPost _ => true | _ => false end.

Definition is_get (e : Event) : bool :=
  match e with EvGet _ _ => true | _ => false end.

Definition is_sleep (e : Event) : bool :=
  match e with EvSleep _ _ _ => true | _ => false end.

(** The events performed before the first GET. *)
Fixpoint before_get (l : list Event) : list Event :=
  match l with
  | [] => []
  | e :: l' => if is_get e then [] else e :: before_get l'
  end.

(** A sleep after attempt [i] lasts at least [2^(i-1)] seconds and less
    than [2^(i-1) + 0.5] seconds. *)
Definition sleep_in_bounds (e : Event) : Prop :=
  match e with
  | EvSleep _ i w =>
      (1 <= i)%nat /\
      inject_Z (2 ^ (Z.of_nat i - 1)) <= w /\
      w < inject_Z (2 ^ (Z.of_nat i - 1)) + (1 # 2)
  | _ => True
  end.

(** The same with the upper end included: at least [2^(i-1)] seconds and
    at most [2^(i-1) + 0.5] seconds. *)
Definition sleep_within (e : Event) : Prop :=
  match e with
  | EvSleep _ i w =>
      (1 <= i)%nat /\
      inject_Z (2 ^ (Z.of_nat i - 1)) <= w /\
      w <= inject_Z (2 ^ (Z.of_nat i - 1)) + (1 # 2)
  | _ => True
  end.

(** A GET outcome on which the attempt fails whatever the status: no
    200, or a body that is not JSON. *)
Definition get_fails (E : Env) (o : HttpOutcome) : Prop :=
  match o with
  | HResp status text => status <> 200%Z \/ json_loads E text = None
  | _ => True
  end.

(** A POST outcome on which the login attempt fails in transport or in
    parsing. *)
Definition post_fails (E : Env) (o : HttpOutcome) : Prop :=
  match o with
  | HResp _ text => json_loads E text = None
  | _ => True
  end.

(** The events that a call of [async_login] performs. *)
Definition login_event (e : Event) : Prop :=
  match e with
  | EvLogin | EvPost _ | EvSleep ByLogin _ _ => True
  | _ => False
  end.

(** The events of the attempts of a login, the call itself apart. *)
Definition login_inner_event (e : Event) : Prop :=
  match e with
  | EvPost _ | EvSleep ByLogin _ _ => True
  | _ => False
  end.

(** ** Concrete environments *)

Module Examples.

(** The double-quote character, and a string in double quotes. *)
Definition dq : string := String (ascii_of_nat 34) EmptyString.

Definition quoted (s : string) : string := dq ++ s ++ dq.

(** A JSON object with one member, as text: [{"key": member}]. *)
Definition obj1 (key member : string) : string :=
  "{" ++ quoted key ++ ": " ++ member ++ "}".

(** A parser defined on the bodies listed in [table] only. *)
Fixpoint loads_table (table : list (string * value)) (text : string)
    : option value :=
  match table with
  | [] => None
  | (t, v) :: rest => if String.eqb t text then Some v else loads_table rest text
  end.

Definition march_5_2024 : datetime := {| year := 2024; month := 3; day := 5 |}.

(** An environment from a JSON table, a base64 table and an HTTP script:
    the clock advances by one second per reading and every random draw is
    [0.25]. *)
Definition mk_env (json : list (string * value)) (b64 : list (string * string))
    (script : nat -> Request -> HttpOutcome) : Env :=
  {| json_loads := loads_table json;
     urlsafe_b64decode :=
       fun t => match find (fun p => String.eqb (fst p) t) b64 with
                | Some p => Some (snd p)
                | None => None
                end;
     float_of_str := fun _ => None;
     http := script;
     clock := fun n => 1000 + inject_Z (Z.of_nat n);
     random := fun _ => 1 # 4;
     datetime_now := march_5_2024;
     _username := "user";
     _password := "secret" |}.

(** The login answer [{"data": {"token": "opaque"}}] and an empty object
    for every GET. *)
Definition login_body : string := obj1 "data" (obj1 "token" (quoted "opaque")).

Definition json_plain : list (string * value) :=
  [ (login_body, VDict [(VStr "data", VDict [(VStr "token", VStr "opaque")])]);
    ("{}"%string, VDict []) ].

Definition env_plain : Env :=
  mk_env json_plain []
    (fun _ req => match req with
                  | Post _ _ => HResp 200 login_body
                  | Get _ _ => HResp 200 "{}"
                  end).

(** The service is unreachable: every request times out. *)
Definition env_down : Env := mk_env [] [] (fun _ _ => HTimeout).

(** The largest float below 1, [1 - 2^-53]: the largest value that
    [random.random()] returns. *)
Definition largest_draw : Q := (2 ^ 53 - 1) # (2 ^ 53).

(** The service is unreachable and every random draw is the largest. *)
Definition env_down_largest_draw : Env :=
  {| json_loads := json_loads env_down;
     urlsafe_b64decode := urlsafe_b64decode env_down;
     float_of_str := float_of_str env_down;
     http := http env_down;
     clock := clock env_down;
     random := fun _ => largest_draw;
     datetime_now := datetime_now env_down;
     _username := _username env_down;
     _password := _password env_down |}.

(** A login that answers the token [hdr.eyJleHAiOiAwfQ.sig], whose second
    segment is the unpadded base64 of [{"exp": 0}]. *)
Definition exp0_payload : string := obj1 "exp" "0".

Definition exp0_token : string := "hdr.eyJleHAiOiAwfQ.sig".

Definition login_body_exp0 : string := obj1 "data" (obj1 "token" (quoted exp0_token)).

Definition env_exp0 : Env :=
  mk_env
    [ (login_body_exp0, VDict [(VStr "data", VDict [(VStr "token", VStr exp0_token)])]);
      (exp0_payload, VDict [(VStr "exp", VNum 0)]) ]
    [ ("eyJleHAiOiAwfQ=="%string, exp0_payload) ]
    (fun _ _ => HResp 200 login_body_exp0).

(** The same with the claim [{"exp": 1700000000}]. *)
Definition exp_payload : string := obj1 "exp" "1700000000".

Definition exp_token : string := "hdr.eyJleHAiOiAxNzAwMDAwMDAwfQ.sig".

Definition login_body_exp : string := obj1 "data" (obj1 "token" (quoted exp_token)).

Definition env_exp : Env :=
  mk_env
    [ (login_body_exp, VDict [(VStr "data", VDict [(VStr "token", VStr exp_token)])]);
      (exp_payload, VDict [(VStr "exp", VNum 1700000000)]) ]
    [ ("eyJleHAiOiAxNzAwMDAwMDAwfQ=="%string, exp_payload) ]
    (fun _ _ => HResp 200 login_body_exp).

(** The same with the claim [{"exp": 10^309}], an integer beyond the
    largest float. *)
Definition exp_huge : Q := inject_Z (10 ^ 309).

Definition exp_huge_payload : string :=
  obj1 "exp" ("1" ++ Aggregator.zeros 309).

Definition exp_huge_segment : string :=
  "eyJleHAiOiAxMDAwMDAwMDAwMDAwMDAwMDAwMDAwMDAwMDAwMDAwMDAwMDAwMDAwMDAwMDAwMDAwMDAwMDAwMDAwMDAwMDAwMDAwMDAwMDAwMDAwMDAwMDAwMDAwMDAwMDAwMDAwMDAwMDAwMDAwMDAwMDAwMDAwMDAwMDAwMDAwMDAwMDAwMDAwMDAwMDAwMDAwMDAwMDAwMDAwMDAwMDAwMDAwMDAwMDAwMDAwMDAwMDAwMDAwMDAwMDAwMDAwMDAwMDAwMDAwMDAwMDAwMDAwMDAwMDAwMDAwMDAwMDAwMDAwMDAwMDAwMDAwMDAwMDAwMDAwMDAwMDAwMDAwMDAwMDAwMDAwMDAwMDAwMDAwMDAwMDAwMDAwMDAwMDAwMDAwMDAwMDAwMDAwMDAwMDAwMDAwMDAwMDAwMDAwfQ".

Definition exp_huge_token : string := "hdr." ++ exp_huge_segment ++ ".sig".

Definition login_body_exp_huge : string :=
  obj1 "data" (obj1 "token" (quoted exp_huge_token)).

Definition env_exp_huge : Env :=
  mk_env
    [ (login_body_exp_huge,
       VDict [(VStr "data", VDict [(VStr "token", VStr exp_huge_token)])]);
      (exp_huge_payload, VDict [(VStr "exp", VNum exp_huge)]) ]
    [ ((exp_huge_segment ++ "==")%string, exp_huge_payload) ]
    (fun _ _ => HResp 200 login_body_exp_huge).

(** A device-type enumeration as station info gives it. *)
Definition type_mapping : pydict :=
  [ (VStr "BAT", VStr "Battery Pack"); (VStr "INV", VStr "Inverter") ].

(** A JSON object as text, from its members. *)
Fixpoint members (l : list (string * string)) : string :=
  match l with
  | [] => ""
  | [(k, v)] => quoted k ++ ": " ++ v
  | (k, v) :: rest => quoted k ++ ": " ++ v ++ ", " ++ members rest
  end.

Definition obj (l : list (string * string)) : string := "{" ++ members l ++ "}".

(** One station, 42. *)
Definition stations_body : string :=
  obj1 "data" (obj1 "records" ("[" ++ obj1 "stationsId" "42" ++ "]")).

Definition stations_value : value :=
  VDict [(VStr "data",
          VDict [(VStr "records", VList [VDict [(VStr "stationsId", VNum 42)]])])].

Definition info_body : string := obj1 "deviceTypes" "[]".

Definition info_value : value := VDict [(VStr "deviceTypes", VList [])].

Definition wifi_body : string := obj1 "data" (obj1 "ssid" (quoted "home")).

Definition wifi_value : value :=
  VDict [(VStr "data", VDict [(VStr "ssid", VStr "home")])].

(** One device, serial [SN1], type code [battery], device identifier 7. *)
Definition device_record : value :=
  VDict [(VStr "sn", VStr "SN1"); (VStr "deviceType", VStr "battery");
         (VStr "deviceId", VNum 7)].

Definition devices_body : string :=
  obj1 "data"
    (obj1 "records"
       ("[" ++ obj [("sn"%string, quoted "SN1");
                    ("deviceType"%string, quoted "battery");
                    ("deviceId"%string, "7"%string)] ++ "]")).

Definition devices_value : value :=
  VDict [(VStr "data", VDict [(VStr "records", VList [device_record])])].

(** The same device without a device identifier. *)
Definition device_record_no_id : value :=
  VDict [(VStr "sn", VStr "SN1"); (VStr "deviceType", VStr "battery")].

Definition devices_body_no_id : string :=
  obj1 "data"
    (obj1 "records"
       ("[" ++ obj [("sn"%string, quoted "SN1");
                    ("deviceType"%string, quoted "battery")] ++ "]")).

Definition devices_value_no_id : value :=
  VDict [(VStr "data", VDict [(VStr "records", VList [device_record_no_id])])].

Definition json_station : list (string * value) :=
  [ (login_body, VDict [(VStr "data", VDict [(VStr "token", VStr "opaque")])]);
    (stations_body, stations_value);
    (info_body, info_value);
    (wifi_body, wifi_value);
    (devices_body, devices_value);
    (devices_body_no_id, devices_value_no_id);
    ("{}"%string, VDict []) ].

(** Station 42 whose info answers 500. *)
Definition env_info_fails : Env :=
  mk_env json_station []
    (fun _ req => match req with
                  | Post _ _ => HResp 200 login_body
                  | Get (RStations _ _) _ => HResp 200 stations_body
                  | Get (RStationInfo _) _ => HResp 500 ""
                  | Get _ _ => HResp 200 "{}"
                  end).

(** Station 42 with the device [SN1], whose WiFi answers and whose battery
    links answer 500; [devices] is the body of the device page. *)
Definition env_links_fail (devices : string) : Env :=
  mk_env json_station []
    (fun _ req => match req with
                  | Post _ _ => HResp 200 login_body
                  | Get (RStations _ _) _ => HResp 200 stations_body
                  | Get (RStationInfo _) _ => HResp 200 info_body
                  | Get (RDevicePage _ _ _ _) _ => HResp 200 devices
                  | Get (RDeviceWifi _) _ => HResp 200 wifi_body
                  | Get (RBatteryLinks _) _ => HResp 500 ""
                  | Get _ _ => HResp 200 "{}"
                  end).

End Examples.

(** The events of attempt [i] of a fetch of [r]: those of the logins it
    triggers, and its GET. *)
Definition attempt_event (r : Resource) (i : nat) (e : Event) : Prop :=
  login_event e \/ e = EvGet r i.

(** *** Token claims *)

(** A segment with the ["="] signs that bring its length to a multiple of
    four. *)
Definition with_padding (p : string) : string :=
  (p ++ repeat_eq ((4 - String.length p mod 4) mod 4))%string.

(** [token] has three dot-separated segments and the second, padded,
    decodes as urlsafe base64 and then as JSON to [payload]. *)
Definition payload_of (E : Env) (token payload : value) : Prop :=
  exists t h p sig bytes,
    token = VStr t /\
    split "."%char t = [h; p; sig] /\
    urlsafe_b64decode E (with_padding p) = Some bytes /\
    json_loads E bytes = Some payload.

(** The ways in which no expiry claim is recovered from a token. *)
Inductive decode_failure (E : Env) : value -> Prop :=
| not_a_string token :
    (forall t, token <> VStr t) -> decode_failure E token
| no_second_segment t :
    (List.length (split "."%char t) < 2)%nat -> decode_failure E (VStr t)
| bad_base64 t :
    urlsafe_b64decode E (with_padding (nth 1 (split "."%char t) EmptyString)) = None ->
    decode_failure E (VStr t)
| bad_json t bytes :
    urlsafe_b64decode E (with_padding (nth 1 (split "."%char t) EmptyString))
    = Some bytes ->
    json_loads E bytes = None ->
    decode_failure E (VStr t)
| payload_not_an_object t bytes payload :
    urlsafe_b64decode E (with_padding (nth 1 (split "."%char t) EmptyString))
    = Some bytes ->
    json_loads E bytes = Some payload ->
    (forall d, payload <> VDict d) ->
    decode_failure E (VStr t)
| claim_absent t bytes d :
    urlsafe_b64decode E (with_padding (nth 1 (split "."%char t) EmptyString))
    = Some bytes ->
    json_loads E bytes = Some (VDict d) ->
    dict_get d (VStr "exp") = None ->
    decode_failure E (VStr t)
| claim_not_a_number t bytes d c :
    urlsafe_b64decode E (with_padding (nth 1 (split "."%char t) EmptyString))
    = Some bytes ->
    json_loads E bytes = Some (VDict d) ->
    dict_get d (VStr "exp") = Some c ->
    Client.py_float E c = None ->
    decode_failure E (VStr t).

(** *** Battery classification *)

(** [name] has a substring that reads "battery" when case is ignored. *)
Definition contains_battery_ci (name : string) : Prop :=
  exists pre mid post,
    name = (pre ++ mid ++ post)%string /\ lower mid = "battery"%string.

(** *** Events and resources *)

(** The resource that an event of a fetch concerns. *)
Definition resource_of (e : Event) : option Resource :=
  match e with
  | EvGet r _ | EvSleep (ByFetch r) _ _ | EvReturn r _ | EvRaise r => Some r
  | _ => None
  end.

(** [within R e]: if [e] concerns a resource, that resource is in [R]. *)
Definition within (R : Resource -> Prop) (e : Event) : Prop :=
  match resource_of e with
  | Some r => R r
  | None => True
  end.

(** *** Judgements on computations *)

(** [returns m Q]: whenever [m] returns a value, the value satisfies [Q]. *)
Definition returns {A} (m : M A) (Q : A -> Prop) : Prop :=
  forall s a, res (m s) = Ok a -> Q a.

(** [total m Q]: [m] never raises, and its value satisfies [Q]. *)
Definition total {A} (m : M A) (Q : A -> Prop) : Prop :=
  forall s, exists a, res (m s) = Ok a /\ Q a.

(** *** The shape of a snapshot *)

(** The keys of a dictionary after [d[k] = v]. *)
Definition keys_set (ks : list value) (k : value) : list value :=
  if existsb (fun k' => key_eqb k' k) ks then ks else ks ++ [k].

Definition is_dict (v : value) : bool :=
  match v with VDict _ => true | _ => false end.

Definition all_truthy (ks : list value) : Prop :=
  Forall (fun k => truthy k = true) ks.

(** What the cycle leaves in [stations_devices[station_id]]: the empty
    dictionary, or the device page with its two added maps, whose keys
    are truthy. *)
Definition device_entry (v : value) : Prop :=
  v = empty_dict \/
  exists page wifi links,
    v = VDict (dict_set (dict_set page (VStr "wifi_data") (VDict wifi))
                        (VStr "battery_links") (VDict links)) /\
    all_truthy (map fst wifi) /\ all_truthy (map fst links).

(** The resources that the processing of station [sid] may fetch after
    the station's info. *)
Inductive sub_resource (now : datetime) (sid : value) : Resource -> Prop :=
| sub_report tt :
    In tt Aggregator.time_types ->
    sub_resource now sid (RReport sid (Aggregator.search_time now tt) tt)
| sub_component :
    sub_resource now sid (RComponent sid (Aggregator.strftime_Ymd now))
| sub_device_page :
    sub_resource now sid (RDevicePage sid "all" 1 100)
| sub_wifi sn :
    truthy sn = true -> sub_resource now sid (RDeviceWifi sn)
| sub_links sn :
    truthy sn = true -> sub_resource now sid (RBatteryLinks sn).

(** The station whose info must have been fetched before the resource is. *)
Definition station_of (r : Resource) : option value :=
  match r with
  | RReport sid _ _ | RComponent sid _ | RDevicePage sid _ _ _ => Some sid
  | _ => None
  end.

(** What the processing of one station record with a truthy identifier
    [sid] does to the four dictionaries, and the events it performs:
    either nothing is stored and only the station-info fetch is performed
    (it raised, or [sid] is unhashable), or the info is stored and the three
    other dictionaries get their entry for [sid]. *)
Inductive station_step (now : datetime) (sid : value) (m : Aggregator.Maps)
    : Aggregator.Maps -> list Event -> Prop :=
| step_skipped ev :
    Forall (within (eq (RStationInfo sid))) ev ->
    (forall v, ~ In (EvReturn (RStationInfo sid) v) ev) \/ hashable sid = false ->
    station_step now sid m m ev
| step_stored info entry component devices ev1 ev2 :
    hashable sid = true ->
    Forall (within (eq (RStationInfo sid))) ev1 ->
    In (EvReturn (RStationInfo sid) info) ev1 ->
    Forall (within (sub_resource now sid)) ev2 ->
    map fst entry = map VStr Aggregator.time_types ->
    device_entry devices ->
    station_step now sid m
      {| Aggregator.stations_info :=
           dict_set (Aggregator.stations_info m) sid info;
         Aggregator.stations_reports :=
           dict_set (Aggregator.stations_reports m) sid (VDict entry);
         Aggregator.stations_component :=
           dict_set (Aggregator.stations_component m) sid component;
         Aggregator.stations_devices :=
           dict_set (Aggregator.stations_devices m) sid devices |}
      (ev1 ++ ev2).

(** The loop over the station records, as a relation between the
    dictionaries before and after and the events performed. *)
Inductive stations_run (now : datetime)
    : list value -> Aggregator.Maps -> Aggregator.Maps -> list Event -> Prop :=
| run_done m : stations_run now [] m m []
| run_no_id record rest sid m m' ev :
    py_get record (VStr "stationsId") VNone = Ok sid ->
    truthy sid = false ->
    stations_run now rest m m' ev ->
    stations_run now (record :: rest) m m' ev
| run_station record rest sid m m1 m' ev1 ev :
    py_get record (VStr "stationsId") VNone = Ok sid ->
    truthy sid = true ->
    station_step now sid m m1 ev1 ->
    stations_run now rest m1 m' ev ->
    stations_run now (record :: rest) m m' (ev1 ++ ev).

(** The records of a station-list payload:
    [stations_data.get("data", {}).get("records", [])], iterated. *)
Definition records_of (stations_data : value) : Res (list value) :=
  Aggregator.rbind (py_get stations_data (VStr "data") empty_dict) (fun data =>
  Aggregator.rbind (py_get data (VStr "records") (VList [])) (fun records =>
  py_iter records)).

(** *** Devices *)

(** [device_record.get("sn") or device_record.get("serialNumber")]. *)
Definition device_serial (device_record : value) : Res value :=
  Aggregator.rbind (py_get device_record (VStr "sn") VNone) (fun sn =>
  if truthy sn then Ok sn
  else py_get device_record (VStr "serialNumber") VNone).

(** What a wrapped fetch leaves: its value, or the empty dictionary. *)
Definition or_empty (r : Res value) : value :=
  match r with
  | Ok v => v
  | Raise _ => empty_dict
  end.

(** The resources that a cycle over [records] may fetch below the station
    list. *)
Inductive station_resource (now : datetime) (records : list value)
    : Resource -> Prop :=
| res_info record sid :
    In record records ->
    py_get record (VStr "stationsId") VNone = Ok sid ->
    truthy sid = true ->
    station_resource now records (RStationInfo sid)
| res_sub record sid r :
    In record records ->
    py_get record (VStr "stationsId") VNone = Ok sid ->
    truthy sid = true ->
    sub_resource now sid r ->
    station_resource now records r.

(** The key lists of the four dictionaries coincide. *)
Definition same_keys (m : Aggregator.Maps) : Prop :=
  map fst (Aggregator.stations_reports m) = map fst (Aggregator.stations_info m) /\
  map fst (Aggregator.stations_component m) = map fst (Aggregator.stations_info m) /\
  map fst (Aggregator.stations_devices m) = map fst (Aggregator.stations_info m).

(** The resources that a cycle may fetch. *)
Inductive cycle_resource (now : datetime) : Resource -> Prop :=
| cyc_stations : cycle_resource now (RStations 1 100)
| cyc_info sid : truthy sid = true -> cycle_resource now (RStationInfo sid)
| cyc_sub sid r : sub_resource now sid r -> cycle_resource now r.

(** What [process_device] does after the WiFi step, [wifi'] being the
    WiFi map at that point. *)
Definition device_tail (E : Env) (mapping : pydict) (record : value)
    (links : pydict) (sn did : value) (wifi' : pydict) : M (pydict * pydict) :=
  device_type_code <- lift (py_get record (VStr "deviceType") VNone) ;;
  name0 <- lift (Aggregator.device_type_name mapping device_type_code) ;;
  (if Aggregator.is_battery name0 device_type_code
   then
     y <- try (battery_links_data <- Client.async_get_battery_links E sn ;;
               (if truthy did
                then lift (setitem links did battery_links_data)
                else ret links)) ;;
     match y with
     | Ok l => ret (wifi', l)
     | Raise _ =>
         if truthy did
         then l <- lift (setitem links did empty_dict) ;; ret (wifi', l)
         else ret (wifi', links)
     end
   else ret (wifi', links)).

(** *** Where the values of a snapshot come from *)

(** [yields m Q]: whenever [m] returns a value, [Q] holds of the value and
    of the events performed. *)
Definition yields {A} (m : M A) (Q : A -> list Event -> Prop) : Prop :=
  forall s a, res (m s) = Ok a -> Q a (evs (m s)).

(** [v] is the empty dictionary, or the value that a fetch of a resource
    in [R] returned among the events [ev]. *)
Definition from_fetch (ev : list Event) (R : Resource -> Prop) (v : value) : Prop :=
  v = empty_dict \/ exists r, R r /\ In (EvReturn r v) ev.

(** The key [k] under which the value for [x] is found in a dictionary:
    [x] itself, or an earlier key equal to it. *)
Definition key_for (k x : value) : Prop := k = x \/ key_eqb k x = true.

Definition wifi_origin (ev : list Event) (wifi : pydict) : Prop :=
  forall k v, In (k, v) wifi ->
    from_fetch ev (fun r => exists sn, r = RDeviceWifi sn /\ key_for k sn) v.

Definition links_origin (ev : list Event) (links : pydict) : Prop :=
  forall k v, In (k, v) links ->
    truthy k = true /\ from_fetch ev (fun r => exists sn, r = RBatteryLinks sn) v.

Definition entry_origin (now : datetime) (sid : value) (ev : list Event)
    (entry : pydict) : Prop :=
  forall k v, In (k, v) entry ->
    exists tt, k = VStr tt /\
      from_fetch ev (eq (RReport sid (Aggregator.search_time now tt) tt)) v.

Definition device_origin (sid : value) (ev : list Event) (v : value) : Prop :=
  v = empty_dict \/
  exists page wifi links,
    v = VDict (dict_set (dict_set page (VStr "wifi_data") (VDict wifi))
                        (VStr "battery_links") (VDict links)) /\
    In (EvReturn (RDevicePage sid "all" 1 100) (VDict page)) ev /\
    wifi_origin ev wifi /\ links_origin ev links.

(** Every value in the three per-station dictionaries filled by
    sub-fetches is the empty dictionary or comes from a fetch, made during
    the events [ev], of the sub-resource it stands for. *)
Definition provenance (now : datetime) (m : Aggregator.Maps) (ev : list Event)
    : Prop :=
  (forall k v, In (k, v) (Aggregator.stations_reports m) ->
     exists sid entry, key_for k sid /\ v = VDict entry /\
                       entry_origin now sid ev entry) /\
  (forall k v, In (k, v) (Aggregator.stations_component m) ->
     exists sid, key_for k sid /\
       from_fetch ev (eq (RComponent sid (Aggregator.strftime_Ymd now))) v) /\
  (forall k v, In (k, v) (Aggregator.stations_devices m) ->
     exists sid, key_for k sid /\ device_origin sid ev v).

(** ** The rest of the client *)

Module Headers.

(** [_get_language_header]; [language] is [self.hass.config.language]. *)
Definition _get_language_header (language : value) : Res string :=
  Aggregator.rbind (py_lower (py_or language (VStr "en"))) (fun lang =>
  Ok (if String.prefix "fr" lang then "fr"%string else "en"%string)).

End Headers.

(** *** How a computation moves the client *)

(** The client after one more HTTP exchange, clock reading or random
    draw. *)
Definition after_request (s : State) : State :=
  {| _token := _token s; _expiry := _expiry s;
     http_calls := S (http_calls s);
     clock_reads := clock_reads s;
     random_draws := random_draws s |}.

Definition after_clock (s : State) : State :=
  {| _token := _token s; _expiry := _expiry s;
     http_calls := http_calls s;
     clock_reads := S (clock_reads s);
     random_draws := random_draws s |}.

Definition after_random (s : State) : State :=
  {| _token := _token s; _expiry := _expiry s;
     http_calls := http_calls s;
     clock_reads := clock_reads s;
     random_draws := S (random_draws s) |}.

Definition same_credentials (s s' : State) : Prop :=
  _token s' = _token s /\ _expiry s' = _expiry s.

(** [keeps I m]: the state before, the state after and the events of every
    run of [m] are related by [I]. *)
Definition keeps {A} (I : State -> State -> list Event -> Prop) (m : M A)
    : Prop :=
  forall s, I s (post (m s)) (evs (m s)).

(** The counters of the client's world move with the events: one HTTP
    exchange for each POST and each GET, one random draw for each sleep. *)
Definition accounted (s s' : State) (ev : list Event) : Prop :=
  http_calls s' = (http_calls s + count is_post ev + count is_get ev)%nat /\
  random_draws s' = (random_draws s + count is_sleep ev)%nat /\
  (clock_reads s <= clock_reads s')%nat.

(** Without a login among the events the credentials are those before. *)
Definition login_or_same (s s' : State) (ev : list Event) : Prop :=
  count is_login ev = 0%nat -> same_credentials s s'.

(** The seconds slept. *)
Fixpoint sleep_total (l : list Event) : Q :=
  match l with
  | [] => 0
  | EvSleep _ _ w :: l' => w + sleep_total l'
  | _ :: l' => sleep_total l'
  end.

(** The longest sleep after attempt [a] of [maxa], and the most that a
    fetch with the attempts [attempts] still to run can sleep: each attempt
    may log in twice. *)
Definition longest_sleep (a maxa : nat) : Q :=
  if (a <? maxa)%nat then inject_Z (Z.of_nat (2 ^ (a - 1))) + (1 # 2) else 0.

Fixpoint sleep_budget (attempts : list nat) : Q :=
  match attempts with
  | [] => 0
  | a :: rest => 3 + longest_sleep a Client.fetch_max_attempts + sleep_budget rest
  end.

(** *** More environments *)

Module MoreExamples.

Import Examples.

(** A client that holds the token [opaque], good until second 5000. *)
Definition logged_in : State :=
  {| _token := VStr "opaque"; _expiry := Some 5000;
     http_calls := 0; clock_reads := 0; random_draws := 0 |}.

(** The login answers status 500 with a body that carries a token. *)
Definition env_login_500 : Env :=
  mk_env json_plain []
    (fun _ req => match req with
                  | Post _ _ => HResp 500 login_body
                  | Get _ _ => HResp 200 "{}"
                  end).

(** Every GET answers 401; the login works. *)
Definition env_unauthorized : Env :=
  mk_env json_plain []
    (fun _ req => match req with
                  | Post _ _ => HResp 200 login_body
                  | Get _ _ => HResp 401 ""
                  end).

End MoreExamples.


(** A device page whose only record is the number 7. *)
Module EdgeExamples.

Import Examples.

Definition bad_page_body : string := obj1 "data" (obj1 "records" "[7]").

Definition bad_page_value : value :=
  VDict [(VStr "data", VDict [(VStr "records", VList [VNum 7])])].

Definition env_bad_record : Env :=
  mk_env ((bad_page_body, bad_page_value) :: json_station) []
    (fun _ req => match req with
                  | Post _ _ => HResp 200 login_body
                  | Get (RDevicePage _ _ _ _) _ => HResp 200 bad_page_body
                  | Get _ _ => HResp 200 "{}"
                  end).

End EdgeExamples.


(** ** The sensors ([sensor.py]) *)

(** The dictionary that [async_update_data] returns, as the coordinator
    hands it to the sensors. *)
Definition snapshot_value (snap : Aggregator.Snapshot) : value :=
  VDict
    [ (VStr "stations", Aggregator.stations snap);
      (VStr "stations_info",
       VDict (Aggregator.stations_info (Aggregator.maps snap)));
      (VStr "stations_reports",
       VDict (Aggregator.stations_reports (Aggregator.maps snap)));
      (VStr "stations_component",
       VDict (Aggregator.stations_component (Aggregator.maps snap)));
      (VStr "stations_devices",
       VDict (Aggregator.stations_devices (Aggregator.maps snap))) ].

Module Sensor.

Import Aggregator.

(** *** What the sensors use of Python *)

(** [a == b]: numbers and booleans by value, strings by content, lists
    element by element, dictionaries key by key. *)
Fixpoint py_eq (a b : value) {struct a} : bool :=
  match a, b with
  | VList x, VList y =>
      (fix go (x y : list value) {struct x} : bool :=
         match x, y with
         | [], [] => true
         | u :: x', v :: y' => py_eq u v && go x' y'
         | _, _ => false
         end) x y
  | VDict x, VDict y =>
      Nat.eqb (List.length x) (List.length y) &&
      (fix go (x : list (value * value)) {struct x} : bool :=
         match x with
         | [] => true
         | (k, u) :: x' =>
             match dict_get y k with
             | Some v => py_eq u v
             | None => false
             end && go x'
         end) x
  | VList _, _ | VDict _, _ | _, VList _ | _, VDict _ => false
  | _, _ => key_eqb a b
  end.

(** [s.rstrip(c)] for a single character [c]. *)
Fixpoint rstrip (c : ascii) (s : string) : string :=
  match s with
  | EmptyString => EmptyString
  | String a s' =>
      match rstrip c s' with
      | EmptyString =>
          if Ascii.eqb a c then EmptyString else String a EmptyString
      | r => String a r
      end
  end.

(** [a - b]: [TypeError] unless both are numbers (or booleans). *)
Definition py_sub (a b : value) : Res value :=
  match a, b with
  | VNum x, VNum y => Ok (VNum (x - y))
  | VNum x, VBool y => Ok (VNum (x - num_of_bool y))
  | VBool x, VNum y => Ok (VNum (num_of_bool x - y))
  | VBool x, VBool y => Ok (VNum (num_of_bool x - num_of_bool y))
  | _, _ => Raise TypeError
  end.

(** [max(0, x)]: the first of the two unless the second is greater. *)
Definition max_zero (x : value) : Res value :=
  match x with
  | VNum q => Ok (if Client.Qlt_bool 0 q then VNum q else VNum 0)
  | VBool b => Ok (if b then VBool b else VNum 0)
  | _ => Raise TypeError
  end.

(** [x if x is not None else default]. *)
Definition unless_none (x default : value) : value :=
  match x with
  | VNone => default
  | _ => x
  end.

(** [coordinator.data or {}]. *)
Definition coordinator_data (data : value) : value := py_or data empty_dict.

(** The parsing shared by the rate and the state-of-charge sensors:
    [None] stays [None], a string loses its trailing percent signs, and
    [float] decides, [ValueError] and [TypeError] giving [None]; any other
    exception of [float] is not caught. *)
Definition parse_percentage (E : Env) (v : value) : Res value :=
  match v with
  | VNone => Ok VNone
  | _ =>
      let v' := match v with
                | VStr s => VStr (rstrip "%"%char s)
                | _ => v
                end in
      match Client.float E v' with
      | Ok q => Ok (VNum q)
      | Raise ValueError | Raise TypeError => Ok VNone
      | Raise e => Raise e
      end
  end.

(** *** The station sensors *)

Module StationBaseSensor.

Definition _get_station_info (data station_id : value) : Res value :=
  stations_info <-? py_get (coordinator_data data) (VStr "stations_info")
                      empty_dict ;;
  py_get stations_info station_id empty_dict.

End StationBaseSensor.

Module StationEnergySensor.

Definition native_value (data station_id : value)
    (data_category period : string) : Res value :=
  info <-? StationBaseSensor._get_station_info data station_id ;;
  extra <-? py_get info (VStr "extraData") empty_dict ;;
  category <-? py_get extra (VStr data_category) empty_dict ;;
  py_get category (VStr period) (VNum 0).

End StationEnergySensor.

Module StationCalculatedEnergySensor.

(** The [fields] dictionary given to the constructor: the three period
    keys under ["consumption"], ["battery"] and ["grid"]. *)
Record Fields : Type := {
  consumption : string;
  battery : string;
  grid : string
}.

(** [extra_data.get(category, {}).get(field, 0) or 0]. *)
Definition field_or_zero (extra_data : value) (category field : string)
    : Res value :=
  c <-? py_get extra_data (VStr category) empty_dict ;;
  x <-? py_get c (VStr field) (VNum 0) ;;
  Ok (py_or x (VNum 0)).

Definition native_value (data station_id : value) (_period_fields : Fields)
    : Res value :=
  info <-? StationBaseSensor._get_station_info data station_id ;;
  extra_data <-? py_get info (VStr "extraData") empty_dict ;;
  consumption <-? field_or_zero extra_data "consumption"
                    (consumption _period_fields) ;;
  battery_discharge <-? field_or_zero extra_data "battery"
                          (battery _period_fields) ;;
  grid_import <-? field_or_zero extra_data "grid" (grid _period_fields) ;;
  partial <-? py_sub consumption battery_discharge ;;
  result <-? py_sub partial grid_import ;;
  max_zero result.

End StationCalculatedEnergySensor.

Module StationRateSensor.

Definition _get_report_data (data station_id : value) (time_type : string)
    : Res value :=
  stations_reports <-? py_get (coordinator_data data) (VStr "stations_reports")
                         empty_dict ;;
  station_reports <-? py_get stations_reports station_id empty_dict ;;
  py_get station_reports (VStr time_type) empty_dict.

Definition native_value (E : Env) (data station_id : value)
    (time_type field_name : string) : Res value :=
  report <-? _get_report_data data station_id time_type ;;
  v <-? py_get report (VStr field_name) VNone ;;
  parse_percentage E v.

End StationRateSensor.

Module StationDirectFieldSensor.

Definition native_value (data station_id : value) (field_name : string)
    (default_value : value) : Res value :=
  info <-? StationBaseSensor._get_station_info data station_id ;;
  v <-? py_get info (VStr field_name) VNone ;;
  Ok (unless_none v default_value).

End StationDirectFieldSensor.

Module StationDeviceSensor.

(** [next((r for r in records if r.get("stationsId") == station_id), {})]. *)
Fixpoint first_station (records : list value) (station_id : value) : Res value :=
  match records with
  | [] => Ok empty_dict
  | r :: rest =>
      id <-? py_get r (VStr "stationsId") VNone ;;
      if py_eq id station_id then Ok r else first_station rest station_id
  end.

Definition _get_station_record (data station_id : value) : Res value :=
  stations_data <-? py_get (coordinator_data data) (VStr "stations")
                      empty_dict ;;
  d <-? py_get stations_data (VStr "data") empty_dict ;;
  recs <-? py_get d (VStr "records") (VList []) ;;
  records <-? py_iter recs ;;
  first_station records station_id.

Definition native_value (data station_id : value) : Res value :=
  station_record <-? _get_station_record data station_id ;;
  py_get station_record (VStr "installedCapacity") VNone.

End StationDeviceSensor.

(** *** The device sensors *)

Module DeviceBaseSensor.

(** [for device_record in device_records: if ... == self._device_id]. *)
Fixpoint first_device (device_records : list value) (_device_id : value)
    : Res value :=
  match device_records with
  | [] => Ok empty_dict
  | device_record :: rest =>
      id <-? py_get device_record (VStr "deviceId") VNone ;;
      if py_eq id _device_id then Ok device_record
      else first_device rest _device_id
  end.

Definition _get_device_record (data station_id _device_id : value)
    : Res value :=
  stations_devices <-? py_get (coordinator_data data) (VStr "stations_devices")
                         empty_dict ;;
  device_page_data <-? py_get stations_devices station_id empty_dict ;;
  d <-? py_get device_page_data (VStr "data") empty_dict ;;
  recs <-? py_get d (VStr "records") (VList []) ;;
  device_records <-? py_iter recs ;;
  first_device device_records _device_id.

End DeviceBaseSensor.

Module DeviceOnlineStateSensor.

Definition native_value (data station_id _device_id : value) : Res value :=
  device_record <-? DeviceBaseSensor._get_device_record data station_id
                      _device_id ;;
  py_get device_record (VStr "onlineState") VNone.

End DeviceOnlineStateSensor.

Module DeviceDataDtoSensor.

(** [for dto in data_dtos: if dto.get("key") == self._dto_key: ...]. *)
Fixpoint first_dto (data_dtos : list value) (_dto_key : string) : Res value :=
  match data_dtos with
  | [] => Ok VNone
  | dto :: rest =>
      k <-? py_get dto (VStr "key") VNone ;;
      if eq_str k _dto_key then py_get dto (VStr "value") VNone
      else first_dto rest _dto_key
  end.

Definition native_value (data station_id _device_id : value)
    (_dto_key : string) : Res value :=
  device_record <-? DeviceBaseSensor._get_device_record data station_id
                      _device_id ;;
  dtos <-? py_get device_record (VStr "dataDtos") (VList []) ;;
  data_dtos <-? py_iter dtos ;;
  first_dto data_dtos _dto_key.

End DeviceDataDtoSensor.

Module DeviceBatterySOCSensor.

(** The loop returns at the first entry with key ["6002"]. *)
Fixpoint first_soc (E : Env) (data_dtos : list value) : Res value :=
  match data_dtos with
  | [] => Ok VNone
  | dto :: rest =>
      k <-? py_get dto (VStr "key") VNone ;;
      if eq_str k "6002" then
        v <-? py_get dto (VStr "value") VNone ;;
        parse_percentage E v
      else first_soc E rest
  end.

Definition native_value (E : Env) (data station_id _device_id : value)
    : Res value :=
  device_record <-? DeviceBaseSensor._get_device_record data station_id
                      _device_id ;;
  dtos <-? py_get device_record (VStr "dataDtos") (VList []) ;;
  data_dtos <-? py_iter dtos ;;
  first_soc E data_dtos.

End DeviceBatterySOCSensor.

Module DeviceWiFiDataSensor.

Definition _get_wifi_data (data station_id _device_sn : value) : Res value :=
  stations_devices <-? py_get (coordinator_data data) (VStr "stations_devices")
                         empty_dict ;;
  device_page_data <-? py_get stations_devices station_id empty_dict ;;
  wifi_data_dict <-? py_get device_page_data (VStr "wifi_data") empty_dict ;;
  py_get wifi_data_dict _device_sn empty_dict.

Definition native_value (data station_id _device_sn : value)
    (field_name : string) : Res value :=
  wifi_data <-? _get_wifi_data data station_id _device_sn ;;
  py_get wifi_data (VStr field_name) VNone.

End DeviceWiFiDataSensor.

(** *** The battery-links sensors *)

Module BatteryLinksBaseSensor.

Definition _get_battery_links_data (data station_id _device_id : value)
    : Res value :=
  stations_devices <-? py_get (coordinator_data data) (VStr "stations_devices")
                         empty_dict ;;
  device_data <-? py_get stations_devices station_id empty_dict ;;
  battery_links <-? py_get device_data (VStr "battery_links") empty_dict ;;
  py_get battery_links _device_id empty_dict.

(** [for item in items: if item.get("sn") == self._link_sn: return
    item.get(field)], shared by the two link sensors. *)
Fixpoint first_link (items : list value) (_link_sn : value) (field : string)
    : Res value :=
  match items with
  | [] => Ok VNone
  | item :: rest =>
      sn <-? py_get item (VStr "sn") VNone ;;
      if py_eq sn _link_sn then py_get item (VStr field) VNone
      else first_link rest _link_sn field
  end.

Definition link_value (data station_id _device_id _link_sn : value)
    (field : string) : Res value :=
  battery_links_data <-? _get_battery_links_data data station_id _device_id ;;
  d <-? py_get battery_links_data (VStr "data") empty_dict ;;
  its <-? py_get d (VStr "items") (VList []) ;;
  items <-? py_iter its ;;
  first_link items _link_sn field.

(** [battery_links_data.get("data", {}).get(field)]. *)
Definition device_value (data station_id _device_id : value) (field : string)
    : Res value :=
  battery_links_data <-? _get_battery_links_data data station_id _device_id ;;
  d <-? py_get battery_links_data (VStr "data") empty_dict ;;
  py_get d (VStr field) VNone.

End BatteryLinksBaseSensor.

Module BatteryLinkSOCSensor.

Definition native_value (data station_id _device_id _link_sn : value)
    : Res value :=
  BatteryLinksBaseSensor.link_value data station_id _device_id _link_sn "soc".

End BatteryLinkSOCSensor.

Module BatteryLinkEnergySensor.

Definition native_value (data station_id _device_id _link_sn : value)
    : Res value :=
  BatteryLinksBaseSensor.link_value data station_id _device_id _link_sn "kwh".

End BatteryLinkEnergySensor.

Module BatteryDeviceEnergySensor.

Definition native_value (data station_id _device_id : value) : Res value :=
  BatteryLinksBaseSensor.device_value data station_id _device_id "socKwh".

End BatteryDeviceEnergySensor.

Module BatteryDeviceSOCSensor.

Definition native_value (data station_id _device_id : value) : Res value :=
  BatteryLinksBaseSensor.device_value data station_id _device_id "soc".

End BatteryDeviceSOCSensor.

End Sensor.

(** What the cycle leaves in [stations_devices[station_id]], as the device
    sensors read it: the empty dictionary, or a device page whose records
    are objects, with its two added maps. *)
Definition readable_page (v : value) : Prop :=
  v = empty_dict \/
  exists page wifi links records,
    v = VDict (dict_set (dict_set page (VStr "wifi_data") (VDict wifi))
                        (VStr "battery_links") (VDict links)) /\
    records_of (VDict page) = Ok records /\
    forallb is_dict records = true.

Definition readable_devices (devices : pydict) : Prop :=
  forall k v, In (k, v) devices -> readable_page v.


(** ** Setting up and configuring ([__init__.py], [config_flow.py],
    [options_flow.py]) *)

Module Flows.

Import Aggregator.

(** [int(x)]: truncation towards zero. *)
Definition py_int (q : Q) : Z := Z.quot (Qnum q) (Z.pos (Qden q)).

(** [DEFAULT_SCAN_INTERVAL.total_seconds()] for [timedelta(minutes=3)],
    and [int(DEFAULT_SCAN_INTERVAL.total_seconds() / 60)]. *)
Definition DEFAULT_SCAN_INTERVAL_total_seconds : Q := 180.

Definition default_minutes : Z := py_int (DEFAULT_SCAN_INTERVAL_total_seconds / 60).

Definition DISPLAY_NAME_PREFIX : string := "Izypower Cloud".

(** A config entry, as far as the integration reads it. *)
Record ConfigEntry : Type := {
  entry_id : string;
  title : string;
  data : pydict;
  options : pydict
}.

(** [entry.options.get("refresh_period",
       entry.data.get("refresh_period", default_minutes))] in
    [async_setup_entry]. *)
Definition refresh_period (entry : ConfigEntry) : Res value :=
  inner <-? py_get (VDict (data entry)) (VStr "refresh_period")
              (VNum (inject_Z default_minutes)) ;;
  py_get (VDict (options entry)) (VStr "refresh_period") inner.

(** What the form's schema lets through to a step: a username and a
    password that are strings and a refresh period that is an integer
    (the optional keys come with their defaults). *)
Record UserInput : Type := {
  username : string;
  password : string;
  input_refresh_period : Z
}.

(** [user_input] as the dictionary that it is. *)
Definition input_dict (u : UserInput) : pydict :=
  [ (VStr "username", VStr (username u));
    (VStr "password", VStr (password u));
    (VStr "refresh_period", VNum (inject_Z (input_refresh_period u))) ].

(** What a step returns, and what it asks of Home Assistant on the way. *)
Inductive FlowResult : Type :=
| CreateEntry (title : string) (data : pydict)
| ShowForm (step_id : string) (errors : pydict) (defaults : pydict)
| Abort (reason : string).

Inductive Action : Type :=
| UpdateEntry (entry_id : string) (data : pydict)
| Reload (entry_id : string)
| DismissNotification (notification_id : string).

(** [IzyClient(self.hass, username, password)]: the client that a step
    creates has neither token nor expiry, and logs in with the credentials
    given.  The state threaded through a step is that of this client. *)
Definition new_client : M unit :=
  fun s =>
    mkOut (Ok tt)
          {| _token := VNone; _expiry := None;
             http_calls := http_calls s;
             clock_reads := clock_reads s;
             random_draws := random_draws s |} [].

Definition with_credentials (E : Env) (username password : string) : Env :=
  {| json_loads := json_loads E;
     urlsafe_b64decode := urlsafe_b64decode E;
     float_of_str := float_of_str E;
     http := http E;
     clock := clock E;
     random := random E;
     datetime_now := datetime_now E;
     _username := username;
     _password := password |}.

(** The [try]/[except] around [client.async_login()] shared by the steps:
    the errors after it. *)
Definition validate_credentials (E : Env) (username password : string)
    (errors : pydict) : M pydict :=
  new_client ;;
  x <- try (Client.async_login (with_credentials E username password)) ;;
  match x with
  | Ok _ => ret errors
  | Raise TimeoutError =>
      ret (dict_set errors (VStr "base") (VStr "cannot_connect"))
  | Raise _ =>
      ret (dict_set errors (VStr "base") (VStr "invalid_auth"))
  end.

(** *** [IzypowerCloudConfigFlow] *)

Module IzypowerCloudConfigFlow.

(** [for entry in self._async_current_entries(): if ... : ...; break]. *)
Fixpoint check_duplicate (entries : list ConfigEntry) (username : string)
    (errors : pydict) : pydict :=
  match entries with
  | [] => errors
  | entry :: rest =>
      let u := match dict_get (data entry) (VStr "username") with
               | Some v => v
               | None => VNone
               end in
      if Sensor.py_eq u (VStr username) then
        dict_set errors (VStr "username") (VStr "duplicate_username")
      else check_duplicate rest username errors
  end.

(** [while title in titles: title = f"{base_title} {idx}"; idx += 1], run
    for at most [fuel] tests of the condition. *)
Fixpoint next_title (fuel : nat) (titles : list string) (title : string)
    (idx : nat) : option string :=
  match fuel with
  | O => None
  | S fuel' =>
      if existsb (String.eqb title) titles then
        next_title fuel' titles
          (DISPLAY_NAME_PREFIX ++ " " ++ decimal idx) (S idx)
      else Some title
  end.

(** The schema defaults of the user form. *)
Definition user_defaults : pydict :=
  [ (VStr "refresh_period", VNum (inject_Z default_minutes)) ].

Definition async_step_user (E : Env) (entries : list ConfigEntry)
    (user_input : option UserInput) : M FlowResult :=
  match user_input with
  | None => ret (ShowForm "user" [] user_defaults)
  | Some ui =>
      let errors := check_duplicate entries (username ui) [] in
      errors' <- (if negb (truthy (VDict errors)) then
                    validate_credentials E (username ui) (password ui) errors
                  else ret errors) ;;
      if negb (truthy (VDict errors')) then
        let titles := map title entries in
        match next_title (S (List.length titles)) titles
                DISPLAY_NAME_PREFIX 2 with
        | Some t => ret (CreateEntry t (input_dict ui))
        | None => raise (Error "title loop did not end")
        end
      else ret (ShowForm "user" errors' user_defaults)
  end.

(** [_show_reauth_form]; the actions asked of Home Assistant come with
    the result. *)
Definition _show_reauth_form (E : Env) (entries : list ConfigEntry)
    (user_input : option UserInput) : M (FlowResult * list Action) :=
  match user_input with
  | None => ret (ShowForm "reauth_confirm" [] [], [])
  | Some ui =>
      errors <- validate_credentials E (username ui) (password ui) [] ;;
      if negb (truthy (VDict errors)) then
        match entries with
        | entry :: _ =>
            let new_data :=
              dict_set (dict_set (data entry) (VStr "username")
                          (VStr (username ui)))
                       (VStr "password") (VStr (password ui)) in
            ret (Abort "reauth_successful",
                 [ UpdateEntry (entry_id entry) new_data;
                   DismissNotification
                     ("izypower_cloud_reauth_" ++ entry_id entry) ])
        | [] => ret (Abort "reauth_successful", [])
        end
      else ret (ShowForm "reauth_confirm" errors [], [])
  end.

(** [async_step_reauth]: the form, without input. *)
Definition async_step_reauth (E : Env) (entries : list ConfigEntry)
    : M (FlowResult * list Action) :=
  _show_reauth_form E entries None.

End IzypowerCloudConfigFlow.

(** *** [OptionsFlowHandler] *)

Module OptionsFlowHandler.

(** [x.get(key, "")] on the entry's data. *)
Definition get_or (d : pydict) (key : string) (default : value) : value :=
  match dict_get d (VStr key) with
  | Some v => v
  | None => default
  end.

(** The defaults of the options form: the saved options first, then the
    initial data, then 3 minutes. *)
Definition default_refresh (entry : ConfigEntry) : Res value :=
  let current := py_or (VDict (options entry)) empty_dict in
  inner <-? py_get (VDict (data entry)) (VStr "refresh_period") (VNum 3) ;;
  py_get current (VStr "refresh_period") inner.

Definition form (entry : ConfigEntry) (errors : pydict) : Res FlowResult :=
  r <-? default_refresh entry ;;
  Ok (ShowForm "init" errors
        [ (VStr "username", get_or (data entry) "username" (VStr ""));
          (VStr "password", get_or (data entry) "password" (VStr ""));
          (VStr "refresh_period", r) ]).

Definition async_step_init (E : Env) (entry : ConfigEntry)
    (user_input : option UserInput) : M (FlowResult * list Action) :=
  match user_input with
  | None => f <- lift (form entry []) ;; ret (f, [])
  | Some ui =>
      let errors :=
        if (input_refresh_period ui <? 3)%Z then
          dict_set [] (VStr "refresh_period") (VStr "refresh_period_too_low")
        else [] in
      let old_username := get_or (data entry) "username" (VStr "") in
      let old_password := get_or (data entry) "password" (VStr "") in
      errors' <- (if negb (Sensor.py_eq (VStr (username ui)) old_username)
                     || negb (Sensor.py_eq (VStr (password ui)) old_password)
                  then validate_credentials E (username ui) (password ui) errors
                  else ret errors) ;;
      if negb (truthy (VDict errors')) then
        let updated_data :=
          dict_set (dict_set (data entry) (VStr "username")
                      (VStr (username ui)))
                   (VStr "password") (VStr (password ui)) in
        ret (CreateEntry "" (input_dict ui),
             [ UpdateEntry (entry_id entry) updated_data;
               Reload (entry_id entry) ])
      else
        f <- lift (form entry errors') ;; ret (f, [])
  end.

End OptionsFlowHandler.

End Flows.

(** The titles that the title loop tries, in order: the display prefix,
    then the prefix followed by 2, 3, ... *)
Definition title_candidate (i : nat) : string :=
  match i with
  | O => Flows.DISPLAY_NAME_PREFIX
  | S _ => Flows.DISPLAY_NAME_PREFIX ++ " " ++ Aggregator.decimal (S i)
  end.

(** *** Every device is dealt with *)

(** [always m Q]: [Q] holds of the outcome of [m], returned or raised, and
    of the events performed. *)
Definition always {A} (m : M A) (Q : Res A -> list Event -> Prop) : Prop :=
  forall s, Q (res (m s)) (evs (m s)).

(** A fetch of [r] was made among the events [ev]: it returned or it
    raised. *)
Definition fetched (ev : list Event) (r : Resource) : Prop :=
  In (EvRaise r) ev \/ exists v, In (EvReturn r v) ev.

(** Every key of [d] is a key of [d']. *)
Definition keys_kept (d d' : pydict) : Prop :=
  forall k, has_key d k = true -> has_key d' k = true.

(** The device-type mapping that the cycle builds from a station's info:
    [station_info.get("deviceTypes", [])], iterated. *)
Definition device_types_of (station_info : value) : Res pydict :=
  Aggregator.rbind (py_get station_info (VStr "deviceTypes") (VList []))
    (fun device_types_enum =>
  Aggregator.rbind (py_iter device_types_enum) (fun infos =>
  Aggregator.type_mapping_loop infos [])).

(** What the loop over the device records has done for [record] when it
    has a serial number: the WiFi data were fetched and the WiFi map has an
    entry for the serial number; for a battery the battery links were
    fetched, and the battery-links map has an entry for the device
    identifier when that identifier is truthy. *)
Definition device_done (ev : list Event) (mapping wifi links : pydict)
    (record : value) : Prop :=
  forall sn,
    device_serial record = Ok sn -> truthy sn = true ->
    has_key wifi sn = true /\
    fetched ev (RDeviceWifi sn) /\
    (forall did code name,
       py_get record (VStr "deviceId") VNone = Ok did ->
       py_get record (VStr "deviceType") VNone = Ok code ->
       Aggregator.device_type_name mapping code = Ok name ->
       Aggregator.is_battery name code = true ->
       fetched ev (RBatteryLinks sn) /\
       (truthy did = true -> has_key links did = true)).

(** What [process_device] leaves for its own record, and what it keeps. *)
Definition device_post (mapping wifi links : pydict) (record : value)
    (r : Res (pydict * pydict)) (ev : list Event) : Prop :=
  match r with
  | Ok wl =>
      device_done ev mapping (fst wl) (snd wl) record /\
      keys_kept wifi (fst wl) /\ keys_kept links (snd wl)
  | Raise _ => True
  end.

(** What the cycle has done for the devices of a station whose info is
    [info] when it leaves [v] in [stations_devices]: [v] is the empty
    dictionary, or a page with its two maps in which every device record
    has been dealt with. *)
Definition devices_done (ev : list Event) (info v : value) : Prop :=
  v = empty_dict \/
  exists page wifi links mapping records,
    v = VDict page /\
    dict_get page (VStr "wifi_data") = Some (VDict wifi) /\
    dict_get page (VStr "battery_links") = Some (VDict links) /\
    device_types_of info = Ok mapping /\
    records_of v = Ok records /\
    Forall (device_done ev mapping wifi links) records.

(** The same for every station of the four dictionaries. *)
Definition stations_done (ev : list Event) (m : Aggregator.Maps) : Prop :=
  forall k info v,
    dict_get (Aggregator.stations_info m) k = Some info ->
    dict_get (Aggregator.stations_devices m) k = Some v ->
    devices_done ev info v.

(** * Properties *)

(** ** The monad *)

Section MonadFacts.

Context {A B : Type}.

Lemma bind_ok (m : M A) (f : A -> M B) s a :
  res (m s) = Ok a ->
  bind m f s =
  mkOut (res (f a (post (m s)))) (post (f a (post (m s))))
        (evs (m s) ++ evs (f a (post (m s)))).
Proof. intros H. unfold bind. rewrite H. reflexivity. Qed.

Lemma bind_raise (m : M A) (f : A -> M B) s e :
  res (m s) = Raise e ->
  bind m f s = mkOut (Raise e) (post (m s)) (evs (m s)).
Proof. intros H. unfold bind. rewrite H. reflexivity. Qed.

Lemma evs_bind (m : M A) (f : A -> M B) s :
  evs (bind m f s) =
  evs (m s) ++ match res (m s) with
               | Ok a => evs (f a (post (m s)))
               | Raise _ => []
               end.
Proof.
  unfold bind. destruct (res (m s)); simpl; auto using app_nil_r.
Qed.

Lemma res_bind (m : M A) (f : A -> M B) s :
  res (bind m f s) =
  match res (m s) with
  | Ok a => res (f a (post (m s)))
  | Raise e => Raise e
  end.
Proof. unfold bind. destruct (res (m s)); reflexivity. Qed.

Lemma post_bind (m : M A) (f : A -> M B) s :
  post (bind m f s) =
  match res (m s) with
  | Ok a => post (f a (post (m s)))
  | Raise _ => post (m s)
  end.
Proof. unfold bind. destruct (res (m s)); reflexivity. Qed.

Lemma res_try (m : M A) s : res (try m s) = Ok (res (m s)).
Proof. reflexivity. Qed.

Lemma evs_try (m : M A) s : evs (try m s) = evs (m s).
Proof. reflexivity. Qed.

Lemma post_try (m : M A) s : post (try m s) = post (m s).
Proof. reflexivity. Qed.

End MonadFacts.

Section Emits.

Variable P : Event -> Prop.

Lemma emits_ret {A} (a : A) : emits P (ret a).
Proof. intros s. constructor. Qed.

Lemma emits_raise {A} e : emits P (@raise A e).
Proof. intros s. constructor. Qed.

Lemma emits_lift {A} (r : Res A) : emits P (lift r).
Proof. intros s. constructor. Qed.

Lemma emits_get_state : emits P get_state.
Proof. intros s. constructor. Qed.

Lemma emits_emit e : P e -> emits P (emit e).
Proof. intros H s. simpl. auto. Qed.

Lemma emits_bind {A B} (m : M A) (f : A -> M B) :
  emits P m -> (forall a, emits P (f a)) -> emits P (bind m f).
Proof.
  intros Hm Hf s. rewrite evs_bind. apply Forall_app. split; [apply Hm|].
  destruct (res (m s)); [apply Hf | constructor].
Qed.

Lemma emits_try {A} (m : M A) : emits P m -> emits P (try m).
Proof. intros Hm s. apply Hm. Qed.

End Emits.

Lemma emits_impl {A} (P Q : Event -> Prop) (m : M A) :
  (forall e, P e -> Q e) -> emits P m -> emits Q m.
Proof. intros H Hm s. eapply Forall_impl; [apply H | apply Hm]. Qed.

Lemma count_app p l1 l2 : count p (l1 ++ l2) = (count p l1 + count p l2)%nat.
Proof. unfold count. rewrite filter_app, length_app. reflexivity. Qed.

Lemma count_none p l : Forall (fun e => p e = false) l -> count p l = 0%nat.
Proof.
  unfold count. induction 1 as [|e l He _ IH]; simpl; [reflexivity|].
  rewrite He. exact IH.
Qed.


Ltac emits_step :=
  match goal with
  | |- emits _ (ret _) => apply emits_ret
  | |- emits _ (raise _) => apply emits_raise
  | |- emits _ (lift _) => apply emits_lift
  | |- emits _ get_state => apply emits_get_state
  | |- emits _ (emit _) => apply emits_emit
  | |- emits _ (try _) => apply emits_try
  | |- emits _ (bind _ _) => apply emits_bind; [| intros ?]
  | |- emits _ (match ?x with _ => _ end) => destruct x eqn:?
  | |- emits _ _ => solve [intros ?s; simpl; constructor]
  end.

Ltac emits_tac := repeat emits_step.

(** ** Rounding *)

Section Rounding.

Import Float.

Lemma rne_cases x : rne x = Qfloor x \/ rne x = (Qfloor x + 1)%Z.
Proof.
  unfold rne. destruct (_ ?= _); auto. destruct (Z.even _); auto.
Qed.

Lemma rne_le x y : x <= y -> (rne x <= rne y)%Z.
Proof.
  intros Hxy. pose proof (Qfloor_resp_le _ _ Hxy) as Hf.
  destruct (Z.eq_dec (Qfloor x) (Qfloor y)) as [He|Hne].
  - unfold rne. rewrite <- He.
    destruct (Qcompare_spec (x - inject_Z (Qfloor x)) (1 # 2)) as [H1|H1|H1];
      destruct (Qcompare_spec (y - inject_Z (Qfloor x)) (1 # 2)) as [H2|H2|H2];
      try destruct (Z.even (Qfloor x)); try lia; exfalso; lra.
  - destruct (rne_cases x) as [-> | ->], (rne_cases y) as [-> | ->]; lia.
Qed.

Lemma rne_Z n : rne (inject_Z n) = n.
Proof.
  unfold rne. rewrite Qfloor_Z.
  destruct (Qcompare_spec (inject_Z n - inject_Z n) (1 # 2)) as [H|H|H];
    [exfalso; lra | reflexivity | exfalso; lra].
Qed.

Lemma pow2_pos k : 0 < 2 ^ k.
Proof. apply Qpower_0_lt. reflexivity. Qed.

Lemma pow2_plus a b : 2 ^ (a + b) == 2 ^ a * 2 ^ b.
Proof. apply Qpower_plus. discriminate. Qed.

Lemma pow2_le a b : (a <= b)%Z -> 2 ^ a <= 2 ^ b.
Proof. intros H. apply Qpower_le_compat_l; [exact H | discriminate]. Qed.

Lemma pow2_Z k : (0 <= k)%Z -> 2 ^ k == inject_Z (2 ^ k).
Proof. intros H. rewrite Zpower_Qpower by exact H. reflexivity. Qed.

Lemma Q_as_fraction q : q == inject_Z (Qnum q) / inject_Z (Z.pos (Qden q)).
Proof.
  destruct q as [n d]. unfold Qeq, Qdiv, Qmult, Qinv, inject_Z. simpl. lia.
Qed.

Lemma inject_Z_pos n : (0 < n)%Z -> 0 < inject_Z n.
Proof. intros H. change 0 with (inject_Z 0). rewrite <- Zlt_Qlt. exact H. Qed.

Lemma frac_lt_inv n D P :
  (0 < D)%Z -> (0 < P)%Z -> (n * P < D)%Z ->
  inject_Z n / inject_Z D < / inject_Z P.
Proof.
  intros HD HP H. pose proof (inject_Z_pos HD). pose proof (inject_Z_pos HP).
  apply Qlt_shift_div_r; [assumption|].
  setoid_replace (/ inject_Z P * inject_Z D) with (inject_Z D / inject_Z P)
    by (unfold Qdiv; ring).
  apply Qlt_shift_div_l; [assumption|].
  rewrite <- inject_Z_mult, <- Zlt_Qlt. exact H.
Qed.

Lemma frac_ge_inv n D P :
  (0 < D)%Z -> (0 < P)%Z -> (D <= n * P)%Z ->
  / inject_Z P <= inject_Z n / inject_Z D.
Proof.
  intros HD HP H. pose proof (inject_Z_pos HD). pose proof (inject_Z_pos HP).
  apply Qle_shift_div_l; [assumption|].
  setoid_replace (/ inject_Z P * inject_Z D) with (inject_Z D / inject_Z P)
    by (unfold Qdiv; ring).
  apply Qle_shift_div_r; [assumption|].
  rewrite <- inject_Z_mult, <- Zle_Qle. exact H.
Qed.

(** The binade encloses the number from above, and from below unless the
    number is subnormal. *)
Lemma binade_spec q :
  0 < q ->
  q < 2 ^ (binade q + 1) /\ ((-1022 < binade q)%Z -> 2 ^ binade q <= q).
Proof.
  intros Hq. destruct q as [n d]. unfold binade. cbn [Qnum Qden].
  assert (Hn : (0 < n)%Z) by (unfold Qlt in Hq; simpl in Hq; lia).
  rewrite (Z.abs_eq n) by lia.
  set (D := Z.pos d). assert (HD : (0 < D)%Z) by (subst D; lia).
  assert (Hfrac : n # d == inject_Z n / inject_Z D)
    by (apply (Q_as_fraction (n # d))).
  assert (HDq : 0 < inject_Z D)
    by (change 0 with (inject_Z 0); rewrite <- Zlt_Qlt; exact HD).
  destruct (Z.leb_spec D n) as [Hle|Hlt].
  - (* at least 1 *)
    assert (H1 : (1 <= n / D)%Z).
    { apply Z.div_le_lower_bound; lia. }
    destruct (Z.log2_spec (n / D)) as [Hlo Hhi]; [lia|].
    set (e := Z.log2 (n / D)) in *.
    assert (He : (0 <= e)%Z) by (subst e; apply Z.log2_nonneg).
    rewrite Z.max_r by lia. split.
    + rewrite pow2_Z by lia. rewrite Hfrac.
      apply Qlt_shift_div_r; [exact HDq|].
      rewrite <- inject_Z_mult, <- Zlt_Qlt.
      replace (Z.succ e) with (e + 1)%Z in Hhi by lia.
      pose proof (Z.mul_succ_div_gt n D HD). nia.
    + intros _. rewrite pow2_Z by lia. rewrite Hfrac.
      apply Qle_shift_div_l; [exact HDq|].
      rewrite <- inject_Z_mult, <- Zle_Qle.
      pose proof (Z.mul_div_le n D HD). nia.
  - (* below 1 *)
    set (c := ((D + n - 1) / n)%Z).
    assert (Hc1 : (c * n <= D + n - 1)%Z).
    { subst c. pose proof (Z.mul_div_le (D + n - 1) n Hn). lia. }
    assert (Hc2 : (D + n - 1 < (c + 1) * n)%Z).
    { subst c. pose proof (Z.mul_succ_div_gt (D + n - 1) n Hn). lia. }
    assert (Hc : (1 < c)%Z) by nia.
    destruct (Z.log2_up_spec c Hc) as [Hlo Hhi].
    set (m := Z.log2_up c) in *.
    assert (Hm : (0 < m)%Z) by (subst m; apply Z.log2_up_pos; exact Hc).
    assert (Hpm : (0 < 2 ^ (m - 1))%Z) by (apply Z.pow_pos_nonneg; lia).
    assert (Hup : n # d < 2 ^ (- m + 1)).
    { replace (- m + 1)%Z with (- (m - 1))%Z by lia.
      rewrite Qpower_opp, pow2_Z by lia. rewrite Hfrac.
      apply frac_lt_inv; [exact HD | exact Hpm |].
      replace (Z.pred m) with (m - 1)%Z in Hlo by lia. nia. }
    destruct (Z.max_spec (-1022) (- m)) as [[Hcmp ->] | [Hcmp ->]].
    + split.
      * exact Hup.
      * intros _. rewrite Qpower_opp, pow2_Z by lia. rewrite Hfrac.
        assert (Hp : (0 < 2 ^ m)%Z) by (apply Z.pow_pos_nonneg; lia).
        apply frac_ge_inv; [exact HD | exact Hp | nia].
    + split; [|intros H; lia].
      eapply Qlt_le_trans; [exact Hup|]. apply pow2_le. lia.
Qed.

Lemma binade_le a b : 0 < a -> a <= b -> (binade a <= binade b)%Z.
Proof.
  intros Ha Hab.
  destruct (Z.le_gt_cases (binade a) (binade b)) as [H|H]; [exact H|].
  exfalso.
  assert (Hlow : (-1022 <= binade b)%Z) by (unfold binade; lia).
  destruct (binade_spec Ha) as [_ H1].
  destruct (@binade_spec b) as [H2 _]; [lra|].
  specialize (H1 ltac:(lia)).
  assert (H3 : 2 ^ (binade b + 1) <= 2 ^ binade a) by (apply pow2_le; lia).
  lra.
Qed.

Lemma ulp_pos q : 0 < ulp q.
Proof. apply pow2_pos. Qed.

Lemma round_zero q : q == 0 -> round q == 0.
Proof.
  intros H. unfold round. rewrite Qred_correct.
  assert (Hz : q / ulp q == inject_Z 0).
  { assert (Hn : Qnum q = 0%Z) by (unfold Qeq in H; simpl in H; lia).
    unfold Qdiv, Qmult, Qeq. cbn [Qnum Qden inject_Z]. rewrite Hn. ring. }
  assert (Hr : rne (q / ulp q) = 0%Z).
  { apply Z.le_antisymm.
    - apply Z.le_trans with (rne (inject_Z 0)); [|rewrite rne_Z; lia].
      apply rne_le. rewrite Hz. apply Qle_refl.
    - apply Z.le_trans with (rne (inject_Z 0)); [rewrite rne_Z; lia|].
      apply rne_le. rewrite Hz. apply Qle_refl. }
  rewrite Hr. ring.
Qed.

Lemma round_nonneg q : 0 <= q -> 0 <= round q.
Proof.
  intros H. unfold round. rewrite Qred_correct. pose proof (ulp_pos q) as Hu.
  apply Qmult_le_0_compat; [|lra].
  change 0 with (inject_Z 0). rewrite <- Zle_Qle.
  apply Z.le_trans with (rne (inject_Z 0)); [rewrite rne_Z; lia|].
  apply rne_le.
  change (inject_Z 0) with 0. apply Qle_shift_div_l; [exact Hu|]. lra.
Qed.

(** A float in a binade stays within it, its upper end included. *)
Lemma round_upper q : 0 < q -> round q <= 2 ^ (binade q + 1).
Proof.
  intros Hq. destruct (binade_spec Hq) as [Hup _].
  unfold round. rewrite Qred_correct. pose proof (ulp_pos q) as Hu.
  assert (Heq : 2 ^ (binade q + 1) == inject_Z (2 ^ 53) * ulp q).
  { unfold ulp. rewrite <- pow2_Z by lia. rewrite <- pow2_plus.
    replace (53 + (binade q - 52))%Z with (binade q + 1)%Z by lia.
    reflexivity. }
  rewrite Heq. apply Qmult_le_compat_r; [|lra].
  rewrite <- Zle_Qle.
  apply Z.le_trans with (rne (inject_Z (2 ^ 53))); [|rewrite rne_Z; lia].
  apply rne_le.
  apply Qle_shift_div_r; [exact Hu|]. rewrite <- Heq. lra.
Qed.

Lemma round_lower q : 0 < q -> (-1022 < binade q)%Z -> 2 ^ binade q <= round q.
Proof.
  intros Hq He. destruct (binade_spec Hq) as [_ Hlo]. specialize (Hlo He).
  unfold round. rewrite Qred_correct. pose proof (ulp_pos q) as Hu.
  assert (Heq : 2 ^ binade q == inject_Z (2 ^ 52) * ulp q).
  { unfold ulp. rewrite <- pow2_Z by lia. rewrite <- pow2_plus.
    replace (52 + (binade q - 52))%Z with (binade q) by lia.
    reflexivity. }
  rewrite Heq. apply Qmult_le_compat_r; [|lra].
  rewrite <- Zle_Qle.
  apply Z.le_trans with (rne (inject_Z (2 ^ 52))); [rewrite rne_Z; lia|].
  apply rne_le.
  apply Qle_shift_div_l; [exact Hu|]. rewrite <- Heq. exact Hlo.
Qed.

(** Rounding keeps the order of the non-negative numbers. *)
Lemma round_le a b : 0 <= a -> a <= b -> round a <= round b.
Proof.
  intros Ha Hab.
  destruct (Qlt_le_dec 0 a) as [Hpos|Hz].
  - pose proof (binade_le Hpos Hab) as He.
    destruct (Z.eq_dec (binade a) (binade b)) as [Heq|Hne].
    + unfold round, ulp. rewrite !Qred_correct, Heq.
      pose proof (pow2_pos (binade b - 52)) as Hu.
      apply Qmult_le_compat_r; [|lra].
      rewrite <- Zle_Qle. apply rne_le.
      unfold Qdiv. apply Qmult_le_compat_r; [exact Hab|].
      apply Qlt_le_weak, Qinv_lt_0_compat. exact Hu.
    + assert (Hlt : (binade a < binade b)%Z) by lia.
      assert (Hlow : (-1022 <= binade a)%Z) by (unfold binade; lia).
      eapply Qle_trans; [apply round_upper; exact Hpos|].
      eapply Qle_trans; [|apply round_lower; [lra | lia]].
      apply pow2_le. lia.
  - rewrite (@round_zero a) by lra. apply round_nonneg. lra.
Qed.

End Rounding.

Section BackoffRounding.

Import Float.

(** The floats that bound the back-off delays. *)
Lemma round_half : round (1 # 2) == 1 # 2.
Proof. vm_compute. reflexivity. Qed.

Lemma round_fixed_1 : round 1 == 1 /\ round (1 + (1 # 2)) == 1 + (1 # 2).
Proof. split; vm_compute; reflexivity. Qed.

Lemma round_fixed_2 : round 2 == 2 /\ round (2 + (1 # 2)) == 2 + (1 # 2).
Proof. split; vm_compute; reflexivity. Qed.

(** The jitter of a draw in [[0, 1)] lies in [[0, 0.5]]. *)
Lemma jitter_bounds rnd :
  0 <= rnd -> rnd < 1 -> 0 <= mul rnd (1 # 2) /\ mul rnd (1 # 2) <= 1 # 2.
Proof.
  intros H0 H1. unfold mul. split.
  - apply round_nonneg. lra.
  - pose proof round_half as Hh.
    assert (Hr : round (rnd * (1 # 2)) <= round (1 # 2))
      by (apply round_le; lra).
    lra.
Qed.

End BackoffRounding.

(** ** The client *)

Section ClientFacts.

Import Client.

Variable E : Env.

Lemma Qlt_bool_iff a b : Qlt_bool a b = true <-> a < b.
Proof.
  unfold Qlt_bool. rewrite negb_true_iff.
  split.
  - intros H. apply Qnot_le_lt. intros Hle.
    apply Qle_bool_iff in Hle. congruence.
  - intros H. destruct (Qle_bool b a) eqn:Hb; [|reflexivity].
    apply Qle_bool_iff in Hb. exfalso. revert Hb. apply Qlt_not_le. exact H.
Qed.

Lemma float_truthy_iff q : float_truthy q = true <-> ~ q == 0.
Proof.
  unfold float_truthy. rewrite negb_true_iff. split.
  - intros H Hq. apply Qeq_bool_iff in Hq. congruence.
  - intros H. destruct (Qeq_bool q 0) eqn:Hq; [|reflexivity].
    apply Qeq_bool_iff in Hq. contradiction.
Qed.

(** Events of the login: a login performs POSTs and sleeps only. *)
Lemma emits_backoff (P : Event -> Prop) who attempt maxa :
  (forall n, (attempt < maxa)%nat ->
             P (EvSleep who attempt
                  (backoff_wait attempt (random E n)))) ->
  emits P (backoff E who attempt maxa).
Proof.
  intros H. unfold backoff.
  destruct (attempt <? maxa)%nat eqn:Hlt; [|emits_tac].
  intros s. unfold bind. simpl. constructor; [|constructor].
  apply H. apply Nat.ltb_lt. exact Hlt.
Qed.

Lemma backoff_ok who attempt maxa s : res (backoff E who attempt maxa s) = Ok tt.
Proof. unfold backoff. destruct (attempt <? maxa)%nat; reflexivity. Qed.

Lemma emits_login_attempt (P : Event -> Prop) attempt :
  P (EvPost attempt) -> emits P (login_attempt E attempt).
Proof.
  intros H. unfold login_attempt. emits_tac; exact H.
Qed.

Lemma emits_login_loop (P : Event -> Prop) attempts :
  (forall a, In a attempts -> P (EvPost a)) ->
  (forall a n, In a attempts -> (a < login_max_attempts)%nat ->
               P (EvSleep ByLogin a (backoff_wait a (random E n)))) ->
  emits P (login_loop E attempts).
Proof.
  induction attempts as [|a rest IH]; intros Hp Hs; simpl.
  - emits_tac.
  - apply emits_bind.
    + apply emits_try, emits_login_attempt, Hp. now left.
    + intros [u|e]; [emits_tac|].
      apply emits_bind.
      * apply emits_backoff. intros n Hlt. apply Hs; [now left | exact Hlt].
      * intros _. apply IH; intros; [apply Hp | apply Hs]; auto; now right.
Qed.

Lemma emits_async_login (P : Event -> Prop) :
  P EvLogin ->
  (forall a, P (EvPost a)) ->
  (forall a n, (1 <= a < login_max_attempts)%nat ->
               P (EvSleep ByLogin a (backoff_wait a (random E n)))) ->
  emits P (async_login E).
Proof.
  intros Hl Hp Hs. unfold async_login. apply emits_bind.
  - emits_tac. exact Hl.
  - intros _. apply emits_login_loop; [auto|].
    intros a n Hin Hlt. apply Hs. apply in_seq in Hin. lia.
Qed.

Lemma login_events : emits login_event (async_login E).
Proof. apply (@emits_async_login login_event); simpl; auto. Qed.

Lemma login_loop_events attempts : emits login_inner_event (login_loop E attempts).
Proof. apply (@emits_login_loop login_inner_event); simpl; auto. Qed.

Lemma evs_async_login s :
  evs (async_login E s) = EvLogin :: evs (login_loop E (seq 1 login_max_attempts) s).
Proof. unfold async_login. rewrite evs_bind. reflexivity. Qed.

(** The validity check performs no event and never raises. *)
Lemma token_is_valid_silent s :
  evs (_token_is_valid E s) = [] /\ exists b, res (_token_is_valid E s) = Ok b.
Proof.
  unfold _token_is_valid, bind. simpl.
  destruct (negb (truthy (_token s)) || negb (expiry_truthy (_expiry s))); simpl.
  - eauto.
  - destruct (_expiry s) eqn:He; simpl; eauto.
Qed.

Lemma evs_ensure_token s :
  evs (ensure_token E s) =
  match res (_token_is_valid E s) with
  | Ok false => evs (async_login E (post (_token_is_valid E s)))
  | _ => []
  end.
Proof.
  unfold ensure_token. rewrite evs_bind.
  destruct (token_is_valid_silent s) as [He [b Hb]]. rewrite He, Hb.
  destruct b; reflexivity.
Qed.

Lemma res_ensure_token s :
  res (ensure_token E s) =
  match res (_token_is_valid E s) with
  | Ok false => res (async_login E (post (_token_is_valid E s)))
  | _ => Ok tt
  end.
Proof.
  unfold ensure_token.
  destruct (token_is_valid_silent s) as [He [b Hb]].
  rewrite (bind_ok _ _ _ Hb), Hb. destruct b; reflexivity.
Qed.

Lemma ensure_token_events : emits login_event (ensure_token E).
Proof.
  intros s. rewrite evs_ensure_token.
  destruct (res (_token_is_valid E s)) as [[|]|];
    first [apply login_events | constructor].
Qed.

Lemma check_response_events out : emits login_event (check_response E out).
Proof.
  unfold check_response. destruct out as [| |status text]; [emits_tac ..|].
  destruct (status =? 401)%Z.
  - apply emits_bind; [apply login_events | intros; emits_tac].
  - emits_tac.
Qed.

(** One attempt: the token is ensured; then, unless the login raised, the
    GET is issued, and only a re-login on 401 can follow. *)
Lemma fetch_attempt_events r attempt s :
  (exists e, res (ensure_token E s) = Raise e /\
             res (fetch_attempt E r attempt s) = Raise e /\
             evs (fetch_attempt E r attempt s) = evs (ensure_token E s)) \/
  (exists u tail, res (ensure_token E s) = Ok u /\
                  Forall login_event tail /\
                  evs (fetch_attempt E r attempt s) =
                  evs (ensure_token E s) ++ EvGet r attempt :: tail).
Proof.
  unfold fetch_attempt.
  destruct (res (ensure_token E s)) as [u|e] eqn:Hens.
  - right. exists u. eexists. split; [reflexivity|].
    rewrite (bind_ok _ _ _ Hens). cbn [evs].
    rewrite !evs_bind. cbn [get_state evs res post emit app request].
    split; [|reflexivity]. apply check_response_events.
  - left. exists e. rewrite (bind_raise _ _ _ Hens). auto.
Qed.

End ClientFacts.

Section TokenValidity.

Import Client.

Variable E : Env.

Lemma token_is_valid_iff s :
  res (_token_is_valid E s) = Ok true <->
  truthy (_token s) = true /\
  exists e, _expiry s = Some e /\ ~ e == 0 /\ clock E (clock_reads s) < e - 10.
Proof.
  unfold _token_is_valid, bind. simpl.
  destruct (truthy (_token s)); simpl.
  2: { split; [discriminate | intros [H _]; discriminate]. }
  destruct (_expiry s) as [e|]; simpl.
  2: { split; [discriminate | intros [_ [e [H _]]]; discriminate]. }
  destruct (float_truthy e) eqn:Hft; simpl.
  - apply float_truthy_iff in Hft. split.
    + intros H. injection H as H. apply Qlt_bool_iff in H.
      split; [reflexivity|]. exists e. auto.
    + intros [_ [e' [He' [_ Hlt]]]]. injection He' as <-.
      apply Qlt_bool_iff in Hlt. rewrite Hlt. reflexivity.
  - split; [discriminate|]. intros [_ [e' [He' [Hnz _]]]]. injection He' as <-.
    apply float_truthy_iff in Hnz. congruence.
Qed.

Lemma token_expiring_invalid s e :
  _expiry s = Some e -> e <= clock E (clock_reads s) + 10 ->
  res (_token_is_valid E s) = Ok false.
Proof.
  intros He Hle.
  destruct (token_is_valid_silent E s) as [_ [b Hb]]. destruct b; [|exact Hb].
  apply token_is_valid_iff in Hb. destruct Hb as [_ [e' [He' [_ Hlt]]]].
  rewrite He in He'. injection He' as <-. exfalso. lra.
Qed.

End TokenValidity.

Section FirstAttempt.

Import Client.

Variable E : Env.

(** A response that passes the checks triggers nothing further. *)
Lemma check_response_ok_silent out s v :
  res (check_response E out s) = Ok v -> evs (check_response E out s) = [].
Proof.
  unfold check_response. destruct out as [| |status text]; try discriminate.
  destruct (status =? 401)%Z.
  - rewrite res_bind. destruct (res (async_login E s)); discriminate.
  - destruct ((500 <=? status)%Z && (status <? 600)%Z); [discriminate|].
    destruct (negb (status =? 200)%Z); [discriminate|].
    destruct (json_loads E text); [reflexivity | discriminate].
Qed.

(** When the first attempt returns, the fetch returns its value after the
    events of that attempt alone. *)
Lemma fetch_first_attempt_ok r s v :
  res (fetch_attempt E r 1 s) = Ok v ->
  res (fetch E r s) = Ok v /\
  evs (fetch E r s) = evs (fetch_attempt E r 1 s) ++ [EvReturn r v].
Proof.
  intros H. unfold fetch.
  change (seq 1 fetch_max_attempts) with [1; 2; 3]%nat. cbn [fetch_loop].
  rewrite res_bind, evs_bind, res_try, evs_try, post_try.
  rewrite !res_bind, !evs_bind, res_try, evs_try, H. cbn [ret res evs post].
  rewrite res_bind, evs_bind. cbn [emit ret res evs post].
  rewrite !app_nil_r. auto.
Qed.

Lemma fetch_attempt_ok_events r a s v :
  res (fetch_attempt E r a s) = Ok v ->
  evs (fetch_attempt E r a s) = evs (ensure_token E s) ++ [EvGet r a].
Proof.
  unfold fetch_attempt. rewrite res_bind, evs_bind.
  destruct (res (ensure_token E s)) as [u|e]; [|discriminate].
  repeat (rewrite ?res_bind, ?evs_bind;
          cbn [get_state emit request res post evs app]).
  intros H. rewrite (@check_response_ok_silent _ _ v H). reflexivity.
Qed.

Lemma login_inner_no_login l :
  Forall login_inner_event l -> count is_login l = 0%nat.
Proof.
  intros H. apply count_none. eapply Forall_impl; [|exact H].
  intros [] He; simpl in *; auto; contradiction.
Qed.

Lemma fetch_relogin_once r s v :
  res (_token_is_valid E s) = Ok false ->
  res (fetch_attempt E r 1 s) = Ok v ->
  res (fetch E r s) = Ok v /\ count is_login (evs (fetch E r s)) = 1%nat.
Proof.
  intros Hinv Hok. destruct (@fetch_first_attempt_ok r s v Hok) as [Hr He].
  split; [exact Hr|]. rewrite He, (@fetch_attempt_ok_events r 1%nat s v Hok).
  rewrite evs_ensure_token, Hinv, evs_async_login.
  rewrite !count_app. unfold count at 1. cbn [filter is_login List.length].
  fold (count is_login (evs (login_loop E (seq 1 login_max_attempts)
                               (post (_token_is_valid E s))))).
  rewrite login_inner_no_login by apply login_loop_events.
  reflexivity.
Qed.

End FirstAttempt.

(** C1. [_token_is_valid] answers true exactly when a token and an expiry
    are set (truthy) and the clock reads strictly less than the expiry minus
    10 seconds; in particular it answers false when the expiry is at most
    the clock plus 10 seconds.  An attempt of a fetch that finds the token
    invalid begins with one call of [async_login]: the events of the attempt
    are that call, its POSTs and sleeps, and then, when the login returned,
    the GET of the attempt; when the login raised, no GET is issued.  An
    attempt that finds the token valid begins with its GET.  So a fetch
    called with an invalid token, whose first attempt then succeeds, calls
    [async_login] exactly once. *)
Theorem token_validity_and_single_login (E : Env) (s : State) :
  (res (Client._token_is_valid E s) = Ok true <->
   truthy (_token s) = true /\
   exists e, _expiry s = Some e /\ ~ e == 0 /\
             clock E (clock_reads s) < e - 10)
  /\
  (forall e, _expiry s = Some e -> e <= clock E (clock_reads s) + 10 ->
             res (Client._token_is_valid E s) = Ok false)
  /\
  (forall r attempt,
     res (Client._token_is_valid E s) = Ok false ->
     let login := Client.async_login E (post (Client._token_is_valid E s)) in
     let attempt_evs := evs (Client.fetch_attempt E r attempt s) in
     exists inner,
       Forall login_inner_event inner /\
       evs login = EvLogin :: inner /\
       ((exists e, res login = Raise e /\ attempt_evs = EvLogin :: inner) \/
        (res login = Ok tt /\
         exists tail, Forall login_event tail /\
                      attempt_evs = EvLogin :: inner ++ EvGet r attempt :: tail)))
  /\
  (forall r attempt,
     res (Client._token_is_valid E s) = Ok true ->
     exists tail, Forall login_event tail /\
                  evs (Client.fetch_attempt E r attempt s) =
                  EvGet r attempt :: tail)
  /\
  (forall r v,
     res (Client._token_is_valid E s) = Ok false ->
     res (Client.fetch_attempt E r 1 s) = Ok v ->
     res (Client.fetch E r s) = Ok v /\
     count is_login (evs (Client.fetch E r s)) = 1%nat).
Proof.
  split; [apply token_is_valid_iff|].
  split; [intros e; apply token_expiring_invalid|].
  split; [|split; [|intros r v; apply fetch_relogin_once]].
  - intros r attempt Hinv login attempt_evs.
    exists (evs (Client.login_loop E (seq 1 Client.login_max_attempts)
                   (post (Client._token_is_valid E s)))).
    split; [apply login_loop_events|].
    split; [apply evs_async_login|].
    pose proof (evs_ensure_token E s) as Hevs.
    pose proof (res_ensure_token E s) as Hres.
    rewrite Hinv in Hevs, Hres. fold login in Hevs, Hres.
    destruct (fetch_attempt_events E r attempt s)
      as [[e [He [_ Hev]]] | [u [tail [Hu [Htail Hev]]]]].
    + left. exists e. split; [congruence|].
      subst attempt_evs. rewrite Hev, Hevs. apply evs_async_login.
    + right. split; [destruct u; congruence|].
      exists tail. split; [exact Htail|].
      subst attempt_evs. rewrite Hev, Hevs. unfold login.
      rewrite evs_async_login. reflexivity.
  - intros r attempt Hval.
    pose proof (evs_ensure_token E s) as Hevs.
    pose proof (res_ensure_token E s) as Hres.
    rewrite Hval in Hevs, Hres.
    destruct (fetch_attempt_events E r attempt s)
      as [[e [He _]] | [u [tail [Hu [Htail Hev]]]]]; [congruence|].
    exists tail. split; [exact Htail|]. rewrite Hev, Hevs. reflexivity.
Qed.

(** The first attempt of a client that has never logged in. *)
Lemma token_validity_and_single_login_witness :
  exists inner tail,
    evs (Client.fetch_attempt Examples.env_plain (RStations 1 100) 1 init_state) =
    EvLogin :: inner ++ EvGet (RStations 1 100) 1 :: tail.
Proof.
  destruct (token_validity_and_single_login Examples.env_plain init_state)
    as [_ [_ [H _]]].
  destruct (H (RStations 1 100) 1%nat eq_refl)
    as [inner [_ [_ [[e [He _]]|[_ [tail [_ Ht]]]]]]].
  - vm_compute in He. discriminate He.
  - exists inner, tail. exact Ht.
Defined.

(** ** Retries and back-off *)

Section Retries.

Import Client.

Variable E : Env.

(** What a fetch of [r] can perform, stated once for an arbitrary
    property of events. *)
Section FetchEmits.

Variable P : Event -> Prop.
Variable r : Resource.

Hypothesis P_login : P EvLogin.
Hypothesis P_post : forall a, P (EvPost a).
Hypothesis P_login_sleep :
  forall a n, (1 <= a < login_max_attempts)%nat ->
              P (EvSleep ByLogin a (backoff_wait a (random E n))).
Hypothesis P_get : forall a, (1 <= a <= fetch_max_attempts)%nat -> P (EvGet r a).
Hypothesis P_fetch_sleep :
  forall a n, (1 <= a < fetch_max_attempts)%nat ->
              P (EvSleep (ByFetch r) a (backoff_wait a (random E n))).
Hypothesis P_return : forall v, P (EvReturn r v).
Hypothesis P_raise : P (EvRaise r).

Lemma emits_login_P : emits P (async_login E).
Proof. apply emits_async_login; auto. Qed.

Lemma emits_fetch_attempt a :
  (1 <= a <= fetch_max_attempts)%nat -> emits P (fetch_attempt E r a).
Proof.
  intros Ha. unfold fetch_attempt.
  apply emits_bind.
  { unfold ensure_token. apply emits_bind.
    - intros s. destruct (token_is_valid_silent E s) as [-> _]. constructor.
    - intros [|]; simpl; [emits_tac | apply emits_login_P]. }
  intros _. apply emits_bind; [emits_tac|]. intros s.
  apply emits_bind; [apply emits_emit; auto|]. intros _.
  apply emits_bind; [emits_tac|]. intros out.
  unfold check_response. destruct out as [| |status text]; [emits_tac ..|].
  destruct (status =? 401)%Z.
  - apply emits_bind; [apply emits_login_P | intros; emits_tac].
  - emits_tac.
Qed.

Lemma emits_fetch_loop attempts :
  (forall a, In a attempts -> (1 <= a <= fetch_max_attempts)%nat) ->
  emits P (fetch_loop E r attempts).
Proof.
  induction attempts as [|a rest IH]; intros Hin; simpl.
  - emits_tac.
  - apply emits_bind.
    + apply emits_try, emits_fetch_attempt, Hin. now left.
    + intros [v|e]; [emits_tac|].
      apply emits_bind.
      * apply emits_backoff. intros n Hlt. apply P_fetch_sleep.
        specialize (Hin a (or_introl eq_refl)). lia.
      * intros _. apply IH. intros a' Ha'. apply Hin. now right.
Qed.

Lemma emits_fetch : emits P (fetch E r).
Proof.
  unfold fetch. apply emits_bind.
  - apply emits_try, emits_fetch_loop. intros a Ha. apply in_seq in Ha.
    unfold fetch_max_attempts in *. lia.
  - intros [v|e]; (apply emits_bind; [apply emits_emit; auto | intros; emits_tac]).
Qed.

End FetchEmits.

(** The wait computed after the first or the second attempt from a draw
    in [[0, 1)]: the sum is rounded, so that the upper end is included. *)
Lemma backoff_wait_bounds a rnd :
  (1 <= a <= 2)%nat -> 0 <= rnd -> rnd < 1 ->
  inject_Z (2 ^ (Z.of_nat a - 1)) <= backoff_wait a rnd /\
  backoff_wait a rnd <= inject_Z (2 ^ (Z.of_nat a - 1)) + (1 # 2).
Proof.
  intros Ha H0 H1. destruct (jitter_bounds H0 H1) as [J0 J1].
  unfold backoff_wait, backoff_base. cbv zeta.
  set (j := Float.mul rnd (1 # 2)) in *. clearbody j.
  unfold Float.add.
  assert (Hcase : a = 1%nat \/ a = 2%nat) by lia.
  destruct Hcase as [-> | ->].
  - assert (HX : Float.mul 1 (inject_Z (Z.of_nat (2 ^ (1 - 1)))) == 1)
      by (vm_compute; reflexivity).
    change (inject_Z (2 ^ (Z.of_nat 1 - 1))) with 1.
    set (X := Float.mul 1 (inject_Z (Z.of_nat (2 ^ (1 - 1))))) in *.
    clearbody X. destruct round_fixed_1 as [R1 R2].
    assert (Float.round 1 <= Float.round (X + j)) by (apply round_le; lra).
    assert (Float.round (X + j) <= Float.round (1 + (1 # 2)))
      by (apply round_le; lra).
    split; lra.
  - assert (HX : Float.mul 1 (inject_Z (Z.of_nat (2 ^ (2 - 1)))) == 2)
      by (vm_compute; reflexivity).
    change (inject_Z (2 ^ (Z.of_nat 2 - 1))) with 2.
    set (X := Float.mul 1 (inject_Z (Z.of_nat (2 ^ (2 - 1))))) in *.
    clearbody X. destruct round_fixed_2 as [R1 R2].
    assert (Float.round 2 <= Float.round (X + j)) by (apply round_le; lra).
    assert (Float.round (X + j) <= Float.round (2 + (1 # 2)))
      by (apply round_le; lra).
    split; lra.
Qed.

Hypothesis random_range : forall n, 0 <= random E n /\ random E n < 1.

Lemma sleep_bounds who a n :
  (1 <= a <= 2)%nat ->
  sleep_within (EvSleep who a (backoff_wait a (random E n))).
Proof.
  intros Ha. simpl. split; [lia|].
  apply backoff_wait_bounds; [exact Ha | apply random_range ..].
Qed.

Lemma fetch_sleeps_within r : emits sleep_within (fetch E r).
Proof.
  apply emits_fetch; try exact I; try (intros; exact I);
    intros; apply sleep_bounds;
    unfold login_max_attempts, fetch_max_attempts in *; lia.
Qed.

Lemma login_sleeps_within : emits sleep_within (async_login E).
Proof.
  apply emits_async_login; try exact I; try (intros; exact I);
    intros; apply sleep_bounds; unfold login_max_attempts in *; lia.
Qed.

End Retries.


Section RetryCounts.

Import Client.

Variable E : Env.

Lemma silent_evs {A} (m : M A) s : emits (fun _ => False) m -> evs (m s) = [].
Proof.
  intros H. specialize (H s). destruct (evs (m s)) as [|e l]; [reflexivity|].
  inversion H; contradiction.
Qed.

Lemma login_events_no_get l : Forall login_event l -> count is_get l = 0%nat.
Proof.
  intros H. apply count_none. eapply Forall_impl; [|exact H].
  intros [] He; simpl in *; auto; contradiction.
Qed.

Lemma evs_backoff_no_get who a maxa s :
  count is_get (evs (backoff E who a maxa s)) = 0%nat.
Proof.
  apply count_none. apply (@emits_backoff E (fun e => is_get e = false)).
  reflexivity.
Qed.

Lemma evs_backoff_no_post who a maxa s :
  count is_post (evs (backoff E who a maxa s)) = 0%nat.
Proof.
  apply count_none. apply (@emits_backoff E (fun e => is_post e = false)).
  reflexivity.
Qed.

Lemma count_get_fetch_attempt r a s :
  (count is_get (evs (fetch_attempt E r a s)) <= 1)%nat.
Proof.
  pose proof (ensure_token_events E s) as Hens.
  destruct (fetch_attempt_events E r a s)
    as [[e [_ [_ ->]]] | [u [tail [_ [Htail ->]]]]].
  - rewrite login_events_no_get by exact Hens. lia.
  - rewrite count_app, login_events_no_get by exact Hens.
    unfold count at 1. simpl. fold (count is_get tail).
    rewrite login_events_no_get by exact Htail. lia.
Qed.

Lemma count_get_fetch_loop r attempts s :
  (count is_get (evs (fetch_loop E r attempts s)) <= List.length attempts)%nat.
Proof.
  revert s. induction attempts as [|a rest IH]; intros s; cbn [fetch_loop].
  - unfold count. simpl. lia.
  - rewrite evs_bind, count_app, evs_try, res_try, post_try.
    pose proof (count_get_fetch_attempt r a s) as H1. cbv beta iota.
    destruct (res (fetch_attempt E r a s)) as [v|e].
    + unfold count at 2. simpl. lia.
    + rewrite evs_bind, count_app, evs_backoff_no_get, backoff_ok.
      specialize (IH (post (backoff E (ByFetch r) a fetch_max_attempts
                              (post (fetch_attempt E r a s))))).
      simpl List.length. lia.
Qed.

(** A fetch issues at most three GETs. *)
Lemma count_get_fetch r s : (count is_get (evs (fetch E r s)) <= 3)%nat.
Proof.
  unfold fetch. rewrite evs_bind, count_app, evs_try, res_try.
  pose proof (count_get_fetch_loop r (seq 1 fetch_max_attempts) s) as H.
  simpl List.length in H. cbv beta iota.
  set (n := count is_get (evs (fetch_loop E r (seq 1 fetch_max_attempts) s))) in *.
  destruct (res (fetch_loop E r (seq 1 fetch_max_attempts) s));
    rewrite evs_bind; cbn [emit evs res ret raise app];
    unfold count; simpl; lia.
Qed.

(** A login attempt performs its POST and nothing else. *)
Lemma evs_login_attempt a s : evs (login_attempt E a s) = [EvPost a].
Proof.
  unfold login_attempt. rewrite evs_bind. simpl. f_equal.
  apply silent_evs. emits_tac.
Qed.

Lemma count_post_login_loop attempts s :
  (count is_post (evs (login_loop E attempts s)) <= List.length attempts)%nat /\
  (forall e, res (login_loop E attempts s) = Raise e ->
             count is_post (evs (login_loop E attempts s)) = List.length attempts).
Proof.
  revert s. induction attempts as [|a rest IH]; intros s; cbn [login_loop].
  - unfold count. simpl. split; [lia | reflexivity].
  - rewrite evs_bind, res_bind, evs_try, res_try, post_try, evs_login_attempt,
      count_app.
    cbv beta iota. change (count is_post [EvPost a]) with 1%nat.
    simpl List.length.
    destruct (res (login_attempt E a s)) as [v|e].
    + change (count is_post (evs (ret tt (post (login_attempt E a s)))))
        with 0%nat.
      split; [lia | discriminate].
    + rewrite evs_bind, res_bind, count_app, evs_backoff_no_post, backoff_ok.
      cbv beta iota.
      set (s' := post (backoff E ByLogin a login_max_attempts
                         (post (login_attempt E a s)))).
      destruct (IH s') as [IH1 IH2]. split; [lia|].
      intros e' He'. rewrite (IH2 e' He'). reflexivity.
Qed.

(** A login issues at most two POSTs, and exactly two when it raises. *)
Lemma count_post_login s :
  (count is_post (evs (async_login E s)) <= 2)%nat /\
  (forall e, res (async_login E s) = Raise e ->
             count is_post (evs (async_login E s)) = 2%nat).
Proof.
  rewrite evs_async_login.
  change (count is_post (EvLogin :: ?l)) with (count is_post l).
  unfold async_login. rewrite res_bind. cbn [emit res post].
  exact (count_post_login_loop (seq 1 login_max_attempts) s).
Qed.

End RetryCounts.

Section RetryExhaustion.

Import Client.

Variable E : Env.

Lemma check_response_fails out s :
  get_fails E out -> exists e, res (check_response E out s) = Raise e.
Proof.
  unfold check_response, get_fails.
  destruct out as [| |status text]; intros H; simpl; eauto.
  destruct (status =? 401)%Z eqn:H401.
  - rewrite res_bind. destruct (res (async_login E s)); simpl; eauto.
  - destruct ((500 <=? status)%Z && (status <? 600)%Z); simpl; eauto.
    destruct (status =? 200)%Z eqn:H200; simpl; eauto.
    apply Z.eqb_eq in H200. destruct H as [H|H]; [contradiction|].
    rewrite H. simpl. eauto.
Qed.

Hypothesis gets_fail : forall n r tok, get_fails E (http E n (Get r tok)).

Lemma fetch_attempt_fails r a s : exists e, res (fetch_attempt E r a s) = Raise e.
Proof.
  unfold fetch_attempt. rewrite res_bind.
  destruct (res (ensure_token E s)); [|eauto].
  rewrite !res_bind. cbn [get_state emit request res post].
  apply check_response_fails, gets_fail.
Qed.

Lemma fetch_loop_fails r attempts s :
  res (fetch_loop E r attempts s) = Raise (fetch_error r).
Proof.
  revert s. induction attempts as [|a rest IH]; intros s; cbn [fetch_loop].
  - reflexivity.
  - rewrite res_bind, res_try, post_try. cbv beta iota.
    destruct (fetch_attempt_fails r a s) as [e ->].
    rewrite res_bind, backoff_ok. apply IH.
Qed.

Lemma fetch_fails r s :
  res (fetch E r s) = Raise (fetch_error r).
Proof.
  unfold fetch. rewrite res_bind, res_try, fetch_loop_fails. cbv beta iota.
  rewrite res_bind. reflexivity.
Qed.

End RetryExhaustion.

Section LoginExhaustion.

Import Client.

Variable E : Env.

Hypothesis posts_fail : forall n u p, post_fails E (http E n (Post u p)).

Lemma login_attempt_fails a s : exists e, res (login_attempt E a s) = Raise e.
Proof.
  unfold login_attempt. rewrite !res_bind. cbn [emit request res post].
  specialize (posts_fail (http_calls s) (_username E) (_password E)).
  unfold post_fails in posts_fail.
  destruct (http E (http_calls s) (Post (_username E) (_password E)))
    as [| |status text]; simpl; eauto.
  rewrite posts_fail. simpl. eauto.
Qed.

Lemma login_loop_fails attempts s :
  res (login_loop E attempts s) = Raise (Error "Login failed after retries").
Proof.
  revert s. induction attempts as [|a rest IH]; intros s; cbn [login_loop].
  - reflexivity.
  - rewrite res_bind, res_try, post_try. cbv beta iota.
    destruct (login_attempt_fails a s) as [e ->].
    rewrite res_bind, backoff_ok. apply IH.
Qed.

Lemma login_fails s :
  res (async_login E s) = Raise (Error "Login failed after retries").
Proof.
  unfold async_login. rewrite res_bind. cbn [emit res post].
  apply login_loop_fails.
Qed.

End LoginExhaustion.

Section RetryShape.

Import Client.

Variable E : Env.

Lemma evs_backoff who a maxa s :
  evs (backoff E who a maxa s) =
  if (a <? maxa)%nat then
    [EvSleep who a (backoff_wait a (random E (random_draws s)))]
  else [].
Proof. unfold backoff. destruct (a <? maxa)%nat; reflexivity. Qed.

Lemma fetch_attempt_attempt_events r a s :
  Forall (attempt_event r a) (evs (fetch_attempt E r a s)).
Proof.
  assert (Hl : forall l, Forall login_event l -> Forall (attempt_event r a) l).
  { intros l. apply Forall_impl. intros e He. now left. }
  pose proof (ensure_token_events E s) as Hens.
  destruct (fetch_attempt_events E r a s)
    as [[e [_ [_ ->]]] | [u [tail [_ [Htail ->]]]]].
  - auto.
  - apply Forall_app. split; [auto|]. constructor; [now right | auto].
Qed.

Lemma fetch_loop_cons_raise r a rest s e :
  res (fetch_loop E r (a :: rest) s) = Raise e ->
  let s1 := post (fetch_attempt E r a s) in
  let s2 := post (backoff E (ByFetch r) a fetch_max_attempts s1) in
  res (fetch_loop E r rest s2) = Raise e /\
  evs (fetch_loop E r (a :: rest) s) =
  evs (fetch_attempt E r a s) ++
  evs (backoff E (ByFetch r) a fetch_max_attempts s1) ++
  evs (fetch_loop E r rest s2).
Proof.
  cbn [fetch_loop]. rewrite res_bind, evs_bind, res_try, evs_try, post_try.
  cbv beta iota. destruct (res (fetch_attempt E r a s)) as [v|e1].
  - discriminate.
  - rewrite res_bind, evs_bind, backoff_ok. auto.
Qed.

(** A fetch that raises ran its three attempts, with one sleep after the
    first and one after the second. *)
Lemma fetch_raise_shape r s e :
  res (fetch E r s) = Raise e ->
  exists a1 n1 a2 n2 a3,
    evs (fetch E r s) =
    a1 ++ EvSleep (ByFetch r) 1 (backoff_wait 1 (random E n1)) ::
    a2 ++ EvSleep (ByFetch r) 2 (backoff_wait 2 (random E n2)) ::
    a3 ++ [EvRaise r] /\
    Forall (attempt_event r 1) a1 /\
    Forall (attempt_event r 2) a2 /\
    Forall (attempt_event r 3) a3.
Proof.
  unfold fetch. rewrite res_bind, evs_bind, res_try, evs_try. cbv beta iota.
  destruct (res (fetch_loop E r (seq 1 fetch_max_attempts) s)) as [v|e0] eqn:H0.
  { rewrite res_bind. discriminate. }
  intros _. change (seq 1 fetch_max_attempts) with [1;2;3]%nat in *.
  apply fetch_loop_cons_raise in H0. destruct H0 as [H1 ->].
  set (s1 := post (fetch_attempt E r 1 s)) in *.
  set (b1 := post (backoff E (ByFetch r) 1 fetch_max_attempts s1)) in *.
  apply fetch_loop_cons_raise in H1. destruct H1 as [H2 ->].
  set (s2 := post (fetch_attempt E r 2 b1)) in *.
  set (b2 := post (backoff E (ByFetch r) 2 fetch_max_attempts s2)) in *.
  apply fetch_loop_cons_raise in H2. destruct H2 as [_ ->].
  exists (evs (fetch_attempt E r 1 s)), (random_draws s1),
         (evs (fetch_attempt E r 2 b1)), (random_draws s2),
         (evs (fetch_attempt E r 3 b2)).
  split; [|repeat split; apply fetch_attempt_attempt_events].
  rewrite !evs_backoff.
  change (1 <? fetch_max_attempts)%nat with true.
  change (2 <? fetch_max_attempts)%nat with true.
  change (3 <? fetch_max_attempts)%nat with false.
  cbv beta iota.
  rewrite evs_bind.
  change (evs (emit (EvRaise r) ?x)) with [EvRaise r].
  change (res (emit (EvRaise r) ?x)) with (Ok tt).
  cbv beta iota.
  change (evs (fetch_loop E r [] ?x)) with (@nil Event).
  change (evs (raise e0 ?x)) with (@nil Event).
  rewrite !app_nil_r, <- !app_assoc. reflexivity.
Qed.

End RetryShape.

(** C3, as stated, fails at its upper bound.  With every draw of
    [random.random()] equal to the largest float below 1, the sum
    [1.0 + jitter] rounds to [1.5]: the first sleep of a fetch lasts exactly
    1.5 seconds, which is not less than [2^0 + 0.5]. *)
Lemma backoff_upper_bound_counterexample :
  let E := Examples.env_down_largest_draw in
  let r := RStations 1 100 in
  (forall n, 0 <= random E n /\ random E n < 1) /\
  In (EvSleep (ByFetch r) 1 (3 # 2)) (evs (Client.fetch E r init_state)) /\
  ~ sleep_in_bounds (EvSleep (ByFetch r) 1 (3 # 2)) /\
  ~ Forall sleep_in_bounds (evs (Client.fetch E r init_state)).
Proof.
  cbv zeta.
  assert (Hin : In (EvSleep (ByFetch (RStations 1 100)) 1 (3 # 2))
                   (evs (Client.fetch Examples.env_down_largest_draw
                           (RStations 1 100) init_state))).
  { vm_compute. repeat (first [left; reflexivity | right]). }
  assert (Hnot : ~ sleep_in_bounds (EvSleep (ByFetch (RStations 1 100)) 1 (3 # 2))).
  { intros [_ [_ H]]. vm_compute in H. discriminate H. }
  split.
  { intros n. split; [discriminate | reflexivity]. }
  split; [exact Hin|]. split; [exact Hnot|].
  intros H. rewrite Forall_forall in H. exact (Hnot (H _ Hin)).
Qed.

(** C3, amended. A fetch issues at most three GETs and a login at most two
    POSTs (exactly two when it raises).  A fetch that raises has run three
    attempts, with one sleep between the first and the second and one
    between the second and the third.  When every GET fails the fetch does
    raise, and when every POST fails the login does.  With
    [random.random()] in [[0, 1)], every sleep performed after attempt [i],
    by a login or by a fetch, lasts at least [2^(i-1)] seconds and at most
    [2^(i-1) + 0.5] seconds. *)
Theorem retry_and_backoff_bounds (E : Env) :
  (forall r s, (count is_get (evs (Client.fetch E r s)) <= 3)%nat)
  /\
  (forall s,
     (count is_post (evs (Client.async_login E s)) <= 2)%nat /\
     (forall e, res (Client.async_login E s) = Raise e ->
                count is_post (evs (Client.async_login E s)) = 2%nat))
  /\
  (forall r s e,
     res (Client.fetch E r s) = Raise e ->
     exists a1 n1 a2 n2 a3,
       evs (Client.fetch E r s) =
       a1 ++ EvSleep (ByFetch r) 1 (Client.backoff_wait 1 (random E n1)) ::
       a2 ++ EvSleep (ByFetch r) 2 (Client.backoff_wait 2 (random E n2)) ::
       a3 ++ [EvRaise r] /\
       Forall (attempt_event r 1) a1 /\
       Forall (attempt_event r 2) a2 /\
       Forall (attempt_event r 3) a3)
  /\
  ((forall n r tok, get_fails E (http E n (Get r tok))) ->
   forall r s, exists e, res (Client.fetch E r s) = Raise e)
  /\
  ((forall n u p, post_fails E (http E n (Post u p))) ->
   forall s, exists e, res (Client.async_login E s) = Raise e)
  /\
  ((forall n, 0 <= random E n /\ random E n < 1) ->
   forall r s,
     Forall sleep_within (evs (Client.fetch E r s)) /\
     Forall sleep_within (evs (Client.async_login E s))).
Proof.
  split; [apply count_get_fetch|].
  split; [apply count_post_login|].
  split; [apply fetch_raise_shape|].
  split; [intros H r s; eexists; apply fetch_fails; exact H|].
  split; [intros H s; eexists; apply login_fails; exact H|].
  intros H r s. split.
  - apply fetch_sleeps_within. exact H.
  - apply login_sleeps_within. exact H.
Qed.

(** With the service unreachable, the station-list fetch raises, and its
    sleeps are within the bounds. *)
Lemma retry_and_backoff_bounds_witness :
  (exists e, res (Client.fetch Examples.env_down (RStations 1 100) init_state)
             = Raise e) /\
  Forall sleep_within
    (evs (Client.fetch Examples.env_down (RStations 1 100) init_state)).
Proof.
  destruct (retry_and_backoff_bounds Examples.env_down)
    as [_ [_ [_ [Hget [_ Hrand]]]]].
  split.
  - apply Hget. intros n r tok. exact I.
  - apply Hrand. intros n. simpl. split; [discriminate | reflexivity].
Defined.

(** ** The stored expiry *)

Section StoredExpiry.

Import Client.

Variable E : Env.

(** The expiry that a successful login stores for [token], the clock
    reading [now] when it has to fall back. *)
Lemma login_attempt_ok a s :
  res (login_attempt E a s) = Ok tt ->
  let s' := post (login_attempt E a s) in
  truthy (_token s') = true /\
  _expiry s' =
  Some (match _decode_jwt_exp E (_token s') with
        | Some q => if float_truthy q then q
                    else Float.add (clock E (clock_reads s)) 600
        | None => Float.add (clock E (clock_reads s)) 600
        end).
Proof.
  unfold login_attempt, bind. simpl.
  repeat (match goal with
          | |- context [match ?x with _ => _ end] => destruct x eqn:?
          end; simpl; try discriminate);
  intros _; split; try reflexivity;
  match goal with H : truthy _ = false |- _ => discriminate H | _ => idtac end.
  all: try (apply negb_false_iff; assumption).
  all: repeat match goal with H : Some _ = Some _ |- _ => injection H as H; subst end;
       congruence.
Qed.

Lemma login_attempt_raise a s e :
  res (login_attempt E a s) = Raise e ->
  clock_reads (post (login_attempt E a s)) = clock_reads s.
Proof.
  unfold login_attempt, bind. simpl.
  repeat (match goal with
          | |- context [match ?x with _ => _ end] => destruct x eqn:?
          end; simpl; try discriminate); reflexivity.
Qed.

Lemma backoff_keeps who a maxa s :
  clock_reads (post (backoff E who a maxa s)) = clock_reads s.
Proof. unfold backoff. destruct (a <? maxa)%nat; reflexivity. Qed.

Lemma login_loop_ok attempts s :
  res (login_loop E attempts s) = Ok tt ->
  let s' := post (login_loop E attempts s) in
  truthy (_token s') = true /\
  _expiry s' =
  Some (match _decode_jwt_exp E (_token s') with
        | Some q => if float_truthy q then q
                    else Float.add (clock E (clock_reads s)) 600
        | None => Float.add (clock E (clock_reads s)) 600
        end).
Proof.
  revert s. induction attempts as [|a rest IH]; intros s; cbn [login_loop].
  - discriminate.
  - rewrite res_bind, post_bind, res_try, post_try. cbv beta iota.
    destruct (res (login_attempt E a s)) as [[]|e] eqn:Ha.
    + intros _. apply login_attempt_ok. exact Ha.
    + rewrite res_bind, post_bind, backoff_ok. cbv beta iota.
      intros H. apply IH in H. cbv zeta in H.
      rewrite backoff_keeps, (@login_attempt_raise a s e Ha) in H. exact H.
Qed.

Lemma async_login_ok s :
  res (async_login E s) = Ok tt ->
  let s' := post (async_login E s) in
  truthy (_token s') = true /\
  _expiry s' =
  Some (match _decode_jwt_exp E (_token s') with
        | Some q => if float_truthy q then q
                    else Float.add (clock E (clock_reads s)) 600
        | None => Float.add (clock E (clock_reads s)) 600
        end).
Proof.
  unfold async_login. rewrite res_bind, post_bind. cbn [emit res post].
  apply login_loop_ok.
Qed.

Lemma decode_of_payload token d c :
  payload_of E token (VDict d) ->
  dict_get d (VStr "exp") = Some c ->
  _decode_jwt_exp E token = if truthy c then py_float E c else None.
Proof.
  intros [t [h [p [sig [bytes [-> [Hs [Hb Hj]]]]]]]] Hc.
  unfold _decode_jwt_exp. rewrite Hs. cbn [List.length Nat.ltb Nat.leb nth].
  unfold with_padding in Hb. rewrite Hb, Hj.
  unfold py_get. cbn [hashable]. rewrite Hc. reflexivity.
Qed.

Lemma decode_failure_none token :
  decode_failure E token -> _decode_jwt_exp E token = None.
Proof.
  intros H. destruct H; unfold _decode_jwt_exp, with_padding in *.
  - destruct token; try reflexivity. exfalso. eapply H. reflexivity.
  - apply Nat.ltb_lt in H. rewrite H. reflexivity.
  - destruct (_ <? 2)%nat; [reflexivity|]. rewrite H. reflexivity.
  - destruct (_ <? 2)%nat; [reflexivity|]. rewrite H, H0. reflexivity.
  - destruct (_ <? 2)%nat; [reflexivity|]. rewrite H, H0.
    destruct payload; try reflexivity. exfalso. eapply H1. reflexivity.
  - destruct (_ <? 2)%nat; [reflexivity|]. rewrite H, H0.
    unfold py_get. cbn [hashable]. rewrite H1. reflexivity.
  - destruct (_ <? 2)%nat; [reflexivity|]. rewrite H, H0.
    unfold py_get. cbn [hashable]. rewrite H1, H2.
    destruct (truthy c); reflexivity.
Qed.

End StoredExpiry.

(** C2, as stated, fails on a token whose claim is zero: the payload
    [{"exp": 0}] holds a claim that decodes to [0.0], and the login stores
    the clock reading plus 600 seconds instead. *)
Lemma expiry_claim_zero_counterexample :
  let E := Examples.env_exp0 in
  let o := Client.async_login E init_state in
  res o = Ok tt /\
  payload_of E (_token (post o)) (VDict [(VStr "exp", VNum 0)]) /\
  dict_get [(VStr "exp", VNum 0)] (VStr "exp") = Some (VNum 0) /\
  Client.py_float E (VNum 0) = Some 0 /\
  _expiry (post o) = Some (Float.add (clock E 0) 600) /\
  ~ (exists e, _expiry (post o) = Some e /\ e == 0).
Proof.
  cbv zeta. split; [reflexivity|].
  split.
  { exists Examples.exp0_token, "hdr"%string, "eyJleHAiOiAwfQ"%string,
           "sig"%string, Examples.exp0_payload.
    repeat split; reflexivity. }
  split; [reflexivity|]. split; [reflexivity|]. split; [reflexivity|].
  intros [e [He Hz]]. vm_compute in He. injection He as <-.
  vm_compute in Hz. discriminate Hz.
Qed.

(** C2, amended.  After a successful login the stored token is truthy and:
    when the token has three segments whose second decodes to an object
    with a truthy expiry claim that [float] turns into a non-zero number,
    the stored expiry is that number; when the claim is falsy or zero, and
    when no claim is recovered (token not a string, no second segment,
    base64 or JSON failure, payload not an object, claim absent or not
    accepted by [float]), the stored expiry is the clock reading plus 600
    seconds.  For a claim that is a number, [float] gives the nearest
    float, which is what is stored, and an integer beyond the range of the
    floats is not accepted: the stored expiry is then the clock reading
    plus 600 seconds.  That sum is the float sum [time.time() + 600]. *)
Theorem login_stores_expiry (E : Env) (s : State) :
  res (Client.async_login E s) = Ok tt ->
  let s' := post (Client.async_login E s) in
  let fallback := Float.add (clock E (clock_reads s)) 600 in
  truthy (_token s') = true /\
  (forall d c q,
     payload_of E (_token s') (VDict d) ->
     dict_get d (VStr "exp") = Some c ->
     truthy c = true ->
     Client.py_float E c = Some q ->
     ~ q == 0 ->
     _expiry s' = Some q) /\
  (forall d c,
     payload_of E (_token s') (VDict d) ->
     dict_get d (VStr "exp") = Some c ->
     truthy c = false \/ (exists q, Client.py_float E c = Some q /\ q == 0) ->
     _expiry s' = Some fallback) /\
  (decode_failure E (_token s') -> _expiry s' = Some fallback) /\
  (forall d q,
     payload_of E (_token s') (VDict d) ->
     dict_get d (VStr "exp") = Some (VNum q) ->
     ~ q == 0 ->
     (Float.finite (Float.round q) = true -> ~ Float.round q == 0 ->
      _expiry s' = Some (Float.round q)) /\
     (Float.finite (Float.round q) = false -> _expiry s' = Some fallback)).
Proof.
  intros Hok s' fallback.
  destruct (async_login_ok E s Hok) as [Htok Hexp]. fold s' in Htok, Hexp.
  split; [exact Htok|]. split; [|split; [|split]].
  - intros d c q Hp Hc Ht Hf Hnz.
    rewrite Hexp, (decode_of_payload Hp Hc), Ht, Hf.
    apply float_truthy_iff in Hnz. rewrite Hnz. reflexivity.
  - intros d c Hp Hc Hz.
    rewrite Hexp, (decode_of_payload Hp Hc).
    destruct Hz as [Hf | [q [Hq Hz]]].
    + rewrite Hf. reflexivity.
    + destruct (truthy c); [|reflexivity]. rewrite Hq.
      destruct (Client.float_truthy q) eqn:Hft; [|reflexivity].
      apply float_truthy_iff in Hft. contradiction.
  - intros Hfail. rewrite Hexp, (decode_failure_none Hfail). reflexivity.
  - intros d q Hp Hc Hnz.
    assert (Ht : truthy (VNum q) = true).
    { simpl. apply negb_true_iff.
      destruct (Qeq_bool q 0) eqn:Hq; [|reflexivity].
      apply Qeq_bool_iff in Hq. contradiction. }
    rewrite Hexp, (decode_of_payload Hp Hc), Ht.
    unfold Client.py_float, Client.float. split.
    + intros Hfin Hrz. rewrite Hfin.
      apply float_truthy_iff in Hrz. rewrite Hrz. reflexivity.
    + intros Hinf. rewrite Hinf. reflexivity.
Qed.

(** A login whose token carries [{"exp": 1700000000}], and one whose token
    carries [{"exp": 10^309}], the clock reading 1000. *)
Lemma login_stores_expiry_witness :
  _expiry (post (Client.async_login Examples.env_exp init_state))
  = Some 1700000000 /\
  _expiry (post (Client.async_login Examples.env_exp_huge init_state))
  = Some (1000 + 600).
Proof.
  split.
  - destruct (login_stores_expiry Examples.env_exp init_state eq_refl)
      as [_ [H _]].
    apply (H [(VStr "exp", VNum 1700000000)] (VNum 1700000000)).
    + exists Examples.exp_token, "hdr"%string,
             "eyJleHAiOiAxNzAwMDAwMDAwfQ"%string, "sig"%string,
             Examples.exp_payload.
      repeat split; reflexivity.
    + reflexivity.
    + reflexivity.
    + reflexivity.
    + discriminate.
  - assert (Hok : res (Client.async_login Examples.env_exp_huge init_state)
                  = Ok tt) by (vm_compute; reflexivity).
    destruct (login_stores_expiry Examples.env_exp_huge init_state Hok)
      as [_ [_ [_ [_ H]]]].
    destruct (H [(VStr "exp", VNum Examples.exp_huge)] Examples.exp_huge)
      as [_ Hinf].
    + exists Examples.exp_huge_token, "hdr"%string,
             Examples.exp_huge_segment, "sig"%string,
             Examples.exp_huge_payload.
      repeat split; vm_compute; reflexivity.
    + reflexivity.
    + discriminate.
    + apply Hinf. vm_compute. reflexivity.
Defined.

(** ** Battery classification *)

Section Classification.

Import Aggregator.

Lemma prefix_iff a b :
  String.prefix a b = true <-> exists post, b = (a ++ post)%string.
Proof.
  revert b. induction a as [|c a IH]; intros b.
  - split; [intros _; exists b; reflexivity | intros _; destruct b; reflexivity].
  - destruct b as [|c' b]; simpl.
    + split; [discriminate | intros [post H]; discriminate].
    + destruct (Ascii.ascii_dec c c') as [->|Hne].
      * rewrite IH. split; intros [post H]; exists post; congruence.
      * split; [discriminate | intros [post H]; congruence].
Qed.

Lemma contains_nil needle :
  contains needle "" = String.prefix needle "".
Proof. unfold contains. destruct (String.prefix needle ""); reflexivity. Qed.

Lemma contains_cons needle c hay :
  contains needle (String c hay) =
  if String.prefix needle (String c hay) then true else contains needle hay.
Proof. reflexivity. Qed.

Lemma contains_iff needle hay :
  contains needle hay = true <->
  exists pre post, hay = (pre ++ needle ++ post)%string.
Proof.
  induction hay as [|c hay IH].
  - rewrite contains_nil, prefix_iff. split.
    + intros [post Hp]. exists ""%string, post. exact Hp.
    + intros [pre [post H]]. destruct pre; [|discriminate]. eauto.
  - rewrite contains_cons.
    destruct (String.prefix needle (String c hay)) eqn:Hp.
    + apply prefix_iff in Hp. destruct Hp as [post Hp].
      split; [intros _; exists ""%string, post; exact Hp | reflexivity].
    + rewrite IH. split.
      * intros [pre [post H]]. exists (String c pre), post. simpl. congruence.
      * intros [pre [post H]]. destruct pre as [|c' pre].
        -- simpl in H.
           assert (String.prefix needle (String c hay) = true)
             by (apply prefix_iff; eauto).
           congruence.
        -- simpl in H. injection H as _ H. eauto.
Qed.

Lemma lower_app a b : lower (a ++ b) = (lower a ++ lower b)%string.
Proof. induction a; simpl; congruence. Qed.

Lemma lower_split s x y :
  lower s = (x ++ y)%string ->
  exists a b, s = (a ++ b)%string /\ lower a = x /\ lower b = y.
Proof.
  revert s. induction x as [|c x IH]; intros s H; simpl in H.
  - exists ""%string, s. auto.
  - destruct s as [|c' s]; [discriminate|]. simpl in H. injection H as Hc H.
    destruct (IH s H) as [a [b [-> [Ha Hb]]]].
    exists (String c' a), b. simpl. repeat split; congruence.
Qed.

Lemma contains_lower_iff name :
  contains "battery" (lower name) = true <-> contains_battery_ci name.
Proof.
  rewrite contains_iff. unfold contains_battery_ci. split.
  - intros [pre' [post' H]].
    apply lower_split in H. destruct H as [pre [rest [-> [_ H]]]].
    apply lower_split in H. destruct H as [mid [post [-> [H _]]]].
    exists pre, mid, post. auto.
  - intros [pre [mid [post [-> H]]]].
    exists (lower pre), (lower post). rewrite !lower_app, H. reflexivity.
Qed.

Lemma eq_str_iff v s : eq_str v s = true <-> v = VStr s.
Proof.
  destruct v; simpl; try (split; [discriminate | intros H; discriminate]).
  rewrite String.eqb_eq. split; congruence.
Qed.

End Classification.


(** ** Judgements: rules *)

Section Judgements.

Context {A B : Type}.

Lemma returns_ret (a : A) (Q : A -> Prop) : Q a -> returns (ret a) Q.
Proof. intros H s a' Ha. injection Ha as <-. exact H. Qed.

Lemma returns_raise e (Q : A -> Prop) : returns (raise e) Q.
Proof. intros s a Ha. discriminate Ha. Qed.

Lemma returns_lift (r : Res A) (Q : A -> Prop) :
  (forall a, r = Ok a -> Q a) -> returns (lift r) Q.
Proof. intros H s a Ha. apply H. exact Ha. Qed.

Lemma returns_bind (m : M A) (f : A -> M B) (P : A -> Prop) (Q : B -> Prop) :
  returns m P -> (forall a, P a -> returns (f a) Q) -> returns (bind m f) Q.
Proof.
  intros Hm Hf s b. rewrite res_bind.
  destruct (res (m s)) as [a|e] eqn:Ha; [|discriminate].
  apply (Hf a (Hm s a Ha)).
Qed.

Lemma returns_try (m : M A) (P : A -> Prop) (Q : Res A -> Prop) :
  returns m P -> (forall a, P a -> Q (Ok a)) -> (forall e, Q (Raise e)) ->
  returns (try m) Q.
Proof.
  intros Hm Hok Hraise s r. rewrite res_try. intros Hr. injection Hr as <-.
  destruct (res (m s)) as [a|e] eqn:Ha; [apply Hok, (Hm s a Ha) | apply Hraise].
Qed.

Lemma returns_impl (m : M A) (P Q : A -> Prop) :
  (forall a, P a -> Q a) -> returns m P -> returns m Q.
Proof. intros H Hm s a Ha. apply H, (Hm s a Ha). Qed.

Lemma total_ret (a : A) (Q : A -> Prop) : Q a -> total (ret a) Q.
Proof. intros H s. exists a. auto. Qed.

Lemma total_bind (m : M A) (f : A -> M B) (P : A -> Prop) (Q : B -> Prop) :
  total m P -> (forall a, P a -> total (f a) Q) -> total (bind m f) Q.
Proof.
  intros Hm Hf s. destruct (Hm s) as [a [Ha HP]].
  rewrite res_bind, Ha. apply (Hf a HP).
Qed.

Lemma total_try (m : M A) (P : A -> Prop) (Q : Res A -> Prop) :
  returns m P -> (forall a, P a -> Q (Ok a)) -> (forall e, Q (Raise e)) ->
  total (try m) Q.
Proof.
  intros Hm Hok Hraise s. exists (res (m s)). split; [apply res_try|].
  destruct (res (m s)) as [a|e] eqn:Ha; [apply Hok, (Hm s a Ha) | apply Hraise].
Qed.

Lemma total_returns (m : M A) (Q : A -> Prop) : total m Q -> returns m Q.
Proof.
  intros H s a Ha. destruct (H s) as [a' [Ha' HQ]]. congruence.
Qed.

Lemma total_impl (m : M A) (P Q : A -> Prop) :
  (forall a, P a -> Q a) -> total m P -> total m Q.
Proof. intros H Hm s. destruct (Hm s) as [a [Ha HP]]. eauto. Qed.

End Judgements.

(** ** Dictionaries *)

Section Dictionaries.

Lemma key_eqb_refl k : hashable k = true -> key_eqb k k = true.
Proof.
  destruct k; simpl; try discriminate; intros _; auto.
  - apply Bool.eqb_reflx.
  - apply Qeq_bool_iff. reflexivity.
  - apply String.eqb_refl.
Qed.

Lemma num_of_bool_zero b : Qeq_bool (num_of_bool b) 0 = negb b.
Proof. destruct b; reflexivity. Qed.

Lemma Qeq_bool_zero x y : Qeq_bool x y = true -> Qeq_bool x 0 = Qeq_bool y 0.
Proof.
  intros H. apply Qeq_bool_iff in H.
  destruct (Qeq_bool x 0) eqn:Hx, (Qeq_bool y 0) eqn:Hy; auto.
  - apply Qeq_bool_iff in Hx.
    assert (Qeq_bool y 0 = true) by (apply Qeq_bool_iff; rewrite <- H; exact Hx).
    congruence.
  - apply Qeq_bool_iff in Hy.
    assert (Qeq_bool x 0 = true) by (apply Qeq_bool_iff; rewrite H; exact Hy).
    congruence.
Qed.

Lemma key_eqb_truthy a b : key_eqb a b = true -> truthy a = truthy b.
Proof.
  destruct a as [|x|x|x|x|x], b as [|y|y|y|y|y]; simpl; try discriminate; auto.
  - intros H. apply Bool.eqb_prop in H. exact H.
  - intros H. apply Qeq_bool_zero in H. rewrite num_of_bool_zero in H.
    rewrite <- H, negb_involutive. reflexivity.
  - intros H. apply Qeq_bool_zero in H. rewrite num_of_bool_zero in H.
    rewrite H, negb_involutive. reflexivity.
  - intros H. apply Qeq_bool_zero in H. rewrite H. reflexivity.
  - intros H. apply String.eqb_eq in H. subst. reflexivity.
Qed.

Lemma has_key_keys d k :
  has_key d k = existsb (fun k' => key_eqb k' k) (map fst d).
Proof.
  unfold has_key. induction d as [|[k' v'] d IH]; simpl; [reflexivity|].
  rewrite IH. reflexivity.
Qed.

Lemma keys_dict_set d k v : map fst (dict_set d k v) = keys_set (map fst d) k.
Proof.
  unfold keys_set. induction d as [|[k' v'] d IH]; simpl; [reflexivity|].
  destruct (key_eqb k' k); simpl; [reflexivity|].
  rewrite IH. destruct (existsb _ (map fst d)); reflexivity.
Qed.

Lemma in_dict_set d k v k' v' :
  In (k', v') (dict_set d k v) -> In (k', v') d \/ v' = v.
Proof.
  induction d as [|[k0 v0] d IH]; simpl.
  - intros [H|[]]. injection H as _ <-. now right.
  - destruct (key_eqb k0 k); simpl.
    + intros [H|H]; [injection H as _ <-; now right | left; now right].
    + intros [H|H]; [left; now left|].
      destruct (IH H); [left; now right | now right].
Qed.

Lemma has_key_dict_set_same d k v :
  key_eqb k k = true -> has_key (dict_set d k v) k = true.
Proof.
  intros Hk. unfold has_key. induction d as [|[k0 v0] d IH]; simpl.
  - rewrite Hk. reflexivity.
  - destruct (key_eqb k0 k) eqn:H0; simpl; rewrite H0; simpl; auto.
Qed.

Lemma has_key_dict_set_other d k v k' :
  has_key d k' = true -> has_key (dict_set d k v) k' = true.
Proof.
  unfold has_key. induction d as [|[k0 v0] d IH]; simpl; [discriminate|].
  destruct (key_eqb k0 k); simpl; [auto|].
  destruct (key_eqb k0 k'); simpl; auto.
Qed.

Lemma has_key_dict_set_inv d k v k' :
  has_key (dict_set d k v) k' = true ->
  has_key d k' = true \/ key_eqb k k' = true.
Proof.
  unfold has_key. induction d as [|[k0 v0] d IH]; simpl.
  - rewrite orb_false_r. auto.
  - destruct (key_eqb k0 k); simpl; [auto|].
    destruct (key_eqb k0 k'); simpl; auto.
Qed.

Lemma dict_get_set_same d k v :
  key_eqb k k = true -> dict_get (dict_set d k v) k = Some v.
Proof.
  intros Hk. unfold dict_get. induction d as [|[k0 v0] d IH]; simpl.
  - rewrite Hk. reflexivity.
  - destruct (key_eqb k0 k) eqn:H0; simpl; rewrite H0; auto.
Qed.

Lemma all_truthy_set ks k :
  all_truthy ks -> truthy k = true -> all_truthy (keys_set ks k).
Proof.
  unfold all_truthy, keys_set. intros H Hk.
  destruct (existsb _ ks); [exact H|].
  apply Forall_app. split; [exact H | constructor; [exact Hk | constructor]].
Qed.

End Dictionaries.

(** ** What the aggregator relies on from a fetch *)

Section FetchFacts.

Import Client.

Variable E : Env.

(** The events of a fetch of [r] concern [r] only. *)
Lemma fetch_within (R : Resource -> Prop) r : R r -> emits (within R) (fetch E r).
Proof.
  intros HR. apply emits_fetch; unfold within; simpl; auto.
Qed.

Lemma fetch_loop_no_return r attempts :
  emits (fun e => forall r' v, e <> EvReturn r' v) (fetch_loop E r attempts).
Proof.
  induction attempts as [|a rest IH]; cbn [fetch_loop].
  - emits_tac.
  - apply emits_bind.
    + apply emits_try. intros s.
      pose proof (fetch_attempt_attempt_events E r a s) as H.
      eapply Forall_impl; [|exact H].
      intros e [He | ->] r' v Heq; [subst e; exact He | discriminate Heq].
    + intros [v|e]; [emits_tac|].
      apply emits_bind; [|intros _; exact IH].
      apply emits_backoff. intros n _ r' v Heq. discriminate Heq.
Qed.

(** A fetch that returns [v] ends with the event [EvReturn r v]; a fetch
    that raises performs no [EvReturn]. *)
Lemma fetch_return_event r s v :
  res (fetch E r s) = Ok v -> In (EvReturn r v) (evs (fetch E r s)).
Proof.
  unfold fetch. rewrite res_bind, evs_bind, res_try, evs_try. cbv beta iota.
  destruct (res (fetch_loop E r (seq 1 fetch_max_attempts) s)) as [v'|e].
  - rewrite res_bind, evs_bind. cbn [emit ret res evs post].
    intros H. injection H as <-. apply in_or_app. right. now left.
  - rewrite res_bind. discriminate.
Qed.

Lemma fetch_raise_no_return r s e :
  res (fetch E r s) = Raise e ->
  forall r' v, ~ In (EvReturn r' v) (evs (fetch E r s)).
Proof.
  unfold fetch. rewrite res_bind, evs_bind, res_try, evs_try. cbv beta iota.
  pose proof (fetch_loop_no_return r (seq 1 fetch_max_attempts) s) as Hloop.
  destruct (res (fetch_loop E r (seq 1 fetch_max_attempts) s)) as [v'|e'].
  - rewrite res_bind. discriminate.
  - intros _ r' v Hin. rewrite evs_bind in Hin. cbn [emit raise res evs] in Hin.
    apply in_app_or in Hin. destruct Hin as [Hin|Hin].
    + rewrite Forall_forall in Hloop. exact (Hloop _ Hin r' v eq_refl).
    + simpl in Hin. destruct Hin as [Hin|[]]. discriminate Hin.
Qed.

End FetchFacts.

(** ** The aggregator, step by step *)

Section AggregatorFacts.

Import Client Aggregator.

Variable E : Env.
Variable now : datetime.

Ltac agg_emits :=
  repeat first
    [ apply fetch_within; solve [constructor; auto]
    | emits_step ].

(** *** Events: a station's sub-fetches *)

Lemma fetch_window_events sid entry tt :
  In tt time_types ->
  emits (within (sub_resource now sid)) (fetch_window E now sid entry tt).
Proof. intros Hin. unfold fetch_window, async_get_report. agg_emits. Qed.

Lemma fetch_windows_events sid tts entry :
  incl tts time_types ->
  emits (within (sub_resource now sid)) (fetch_windows E now sid entry tts).
Proof.
  revert entry. induction tts as [|tt rest IH]; intros entry Hincl;
    cbn [fetch_windows].
  - emits_tac.
  - apply emits_bind.
    + apply fetch_window_events, Hincl. now left.
    + intros entry'. apply IH. intros x Hx. apply Hincl. now right.
Qed.

Lemma fetch_component_events sid component :
  emits (within (sub_resource now sid)) (fetch_component E now sid component).
Proof. unfold fetch_component, async_get_component. agg_emits. Qed.

Lemma process_device_events sid mapping record wl :
  emits (within (sub_resource now sid)) (process_device E mapping record wl).
Proof.
  unfold process_device, async_get_device_wifi, async_get_battery_links.
  cbv zeta. agg_emits.
Qed.

Lemma devices_loop_events sid mapping records wl :
  emits (within (sub_resource now sid)) (devices_loop E mapping records wl).
Proof.
  revert wl. induction records as [|record rest IH]; intros wl;
    cbn [devices_loop].
  - emits_tac.
  - apply emits_bind; [apply process_device_events | intros wl'; apply IH].
Qed.

Lemma device_page_body_events station_info sid :
  emits (within (sub_resource now sid)) (device_page_body E station_info sid).
Proof.
  unfold device_page_body, async_get_device_page.
  apply emits_bind; [apply fetch_within; constructor|]. intros page.
  do 5 (apply emits_bind; [emits_tac|]; intros ?).
  destruct page; try solve [emits_tac].
  apply emits_bind; [emits_tac|]. intros records.
  apply emits_bind; [apply devices_loop_events | intros; emits_tac].
Qed.

Lemma fetch_devices_events station_info sid devices :
  emits (within (sub_resource now sid)) (fetch_devices E station_info sid devices).
Proof.
  unfold fetch_devices. apply emits_bind.
  - apply emits_try, device_page_body_events.
  - intros [v|e]; emits_tac.
Qed.

Lemma station_rest_events sid station_info m :
  emits (within (sub_resource now sid)) (station_rest E now sid station_info m).
Proof.
  unfold station_rest.
  apply emits_bind; [apply fetch_windows_events, incl_refl|]. intros entry.
  apply emits_bind; [apply fetch_component_events|]. intros component.
  apply emits_bind; [apply fetch_devices_events|]. intros devices.
  emits_tac.
Qed.

End AggregatorFacts.

Section AggregatorResults.

Import Client Aggregator.

Variable E : Env.
Variable now : datetime.

Lemma returns_any {A} (m : M A) : returns m (fun _ => True).
Proof. intros s a _. exact I. Qed.

Ltac skip_bind :=
  apply returns_bind with (P := fun _ => True); [apply returns_any | intros ? _].

Lemma setitem_keys d k v d' :
  setitem d k v = Ok d' -> map fst d' = keys_set (map fst d) k.
Proof.
  unfold setitem. destruct (hashable k); [|discriminate].
  intros H. injection H as <-. apply keys_dict_set.
Qed.

Lemma setitem_truthy d k v d' :
  all_truthy (map fst d) -> truthy k = true -> setitem d k v = Ok d' ->
  all_truthy (map fst d').
Proof.
  intros Hd Hk H. rewrite (@setitem_keys d k v d' H). apply all_truthy_set; auto.
Qed.

(** The two maps of a station's devices only ever get truthy keys. *)
Lemma process_device_returns mapping record wifi links :
  all_truthy (map fst wifi) -> all_truthy (map fst links) ->
  returns (process_device E mapping record (wifi, links))
          (fun wl => all_truthy (map fst (fst wl)) /\
                     all_truthy (map fst (snd wl))).
Proof.
  intros Hw Hl. unfold process_device. cbv zeta. cbn [fst snd].
  skip_bind. skip_bind. skip_bind.
  destruct (truthy a0) eqn:Hsn; [|apply returns_ret; auto].
  apply returns_bind with (P := fun x => match x with
                          | Ok w => all_truthy (map fst w)
                          | Raise _ => True
                          end).
  { apply returns_try with (P := fun w => all_truthy (map fst w)); auto.
    skip_bind. apply returns_lift. intros w. apply setitem_truthy; auto. }
  intros x Hx.
  apply returns_bind with (P := fun w => all_truthy (map fst w)).
  { destruct x; [apply returns_ret; exact Hx|].
    apply returns_lift. intros w. apply setitem_truthy; auto. }
  intros wifi' Hw'. skip_bind. skip_bind.
  destruct (is_battery a3 a2); [|apply returns_ret; auto].
  apply returns_bind with (P := fun y => match y with
                          | Ok l => all_truthy (map fst l)
                          | Raise _ => True
                          end).
  { apply returns_try with (P := fun l => all_truthy (map fst l)); auto.
    skip_bind. destruct (truthy a1) eqn:Hid.
    - apply returns_lift. intros l. apply setitem_truthy; auto.
    - apply returns_ret. exact Hl. }
  intros y Hy. destruct y; [apply returns_ret; auto|].
  destruct (truthy a1) eqn:Hid; [|apply returns_ret; auto].
  apply returns_bind with (P := fun l => all_truthy (map fst l)).
  - apply returns_lift. intros l. apply setitem_truthy; auto.
  - intros l Hl'. apply returns_ret. auto.
Qed.

Lemma devices_loop_returns mapping records wl :
  all_truthy (map fst (fst wl)) -> all_truthy (map fst (snd wl)) ->
  returns (devices_loop E mapping records wl)
          (fun wl => all_truthy (map fst (fst wl)) /\
                     all_truthy (map fst (snd wl))).
Proof.
  revert wl. induction records as [|record rest IH]; intros [wifi links] Hw Hl;
    cbn [devices_loop].
  - apply returns_ret. auto.
  - eapply returns_bind; [apply process_device_returns; assumption|].
    intros wl' [Hw' Hl']. apply IH; assumption.
Qed.

Lemma device_page_body_returns station_info sid :
  returns (device_page_body E station_info sid) device_entry.
Proof.
  unfold device_page_body. do 6 skip_bind.
  destruct a; try apply returns_raise.
  skip_bind.
  eapply returns_bind.
  - apply devices_loop_returns; constructor.
  - intros wl [Hw Hl]. apply returns_ret. right.
    exists d, (fst wl), (snd wl). auto.
Qed.

(** The three wrapped steps never raise. *)
Lemma fetch_window_total sid entry tt :
  total (fetch_window E now sid entry tt)
        (fun entry' => map fst entry' = keys_set (map fst entry) (VStr tt)).
Proof.
  unfold fetch_window.
  apply total_bind with (P := fun _ => True).
  - apply total_try with (P := fun _ => True); auto. apply returns_any.
  - intros [v|e] _; apply total_ret, keys_dict_set.
Qed.

Lemma fetch_windows_total sid tts entry :
  total (fetch_windows E now sid entry tts)
        (fun entry' => map fst entry' =
                       fold_left keys_set (map VStr tts) (map fst entry)).
Proof.
  revert entry. induction tts as [|tt rest IH]; intros entry;
    cbn [fetch_windows].
  - apply total_ret. reflexivity.
  - eapply total_bind; [apply fetch_window_total|].
    intros entry' H. simpl. rewrite <- H. apply IH.
Qed.

Lemma fetch_component_total sid component :
  total (fetch_component E now sid component)
        (fun c => exists v, c = dict_set component sid v).
Proof.
  unfold fetch_component.
  apply total_bind with (P := fun _ => True).
  - apply total_try with (P := fun _ => True); auto. apply returns_any.
  - intros [v|e] _; apply total_ret; eauto.
Qed.

Lemma fetch_devices_total station_info sid devices :
  total (fetch_devices E station_info sid devices)
        (fun d => exists v, d = dict_set devices sid v /\ device_entry v).
Proof.
  unfold fetch_devices.
  apply total_bind with (P := fun x => match x with
                          | Ok v => device_entry v
                          | Raise _ => True
                          end).
  - apply total_try with (P := device_entry); auto.
    apply device_page_body_returns.
  - intros [v|e] H; apply total_ret.
    + exists v. auto.
    + exists empty_dict. split; [reflexivity | now left].
Qed.

(** Once the station info is stored, the rest of the outer [try] cannot
    raise: the handler of the outer [try] only ever runs before anything
    has been stored for the station. *)
Lemma station_rest_total sid station_info m :
  total (station_rest E now sid station_info m)
        (fun m' => exists entry component devices,
           m' = {| stations_info := stations_info m;
                   stations_reports :=
                     dict_set (stations_reports m) sid (VDict entry);
                   stations_component :=
                     dict_set (stations_component m) sid component;
                   stations_devices :=
                     dict_set (stations_devices m) sid devices |} /\
           map fst entry = map VStr time_types /\
           device_entry devices).
Proof.
  unfold station_rest.
  eapply total_bind; [apply fetch_windows_total|]. intros entry Hentry.
  eapply total_bind; [apply fetch_component_total|]. intros c [cv ->].
  eapply total_bind; [apply fetch_devices_total|]. intros d [dv [-> Hdv]].
  apply total_ret. exists entry, cv, dv. auto.
Qed.

End AggregatorResults.

Section StationLoop.

Import Client Aggregator.

Variable E : Env.
Variable now : datetime.

(** The outer [try] body for a station with identifier [sid]. *)
Lemma station_body_step sid m s :
  let body :=
    (station_info <- async_get_station_info E sid ;;
     info <- lift (setitem (stations_info m) sid station_info) ;;
     station_rest E now sid station_info
       {| stations_info := info;
          stations_reports := stations_reports m;
          stations_component := stations_component m;
          stations_devices := stations_devices m |}) in
  (exists m', res (body s) = Ok m' /\ station_step now sid m m' (evs (body s))) \/
  (exists e, res (body s) = Raise e /\ station_step now sid m m (evs (body s))).
Proof.
  intros body. subst body. unfold async_get_station_info.
  rewrite res_bind, evs_bind.
  pose proof (@fetch_within E (eq (RStationInfo sid)) _ eq_refl s) as Hwithin.
  destruct (res (fetch E (RStationInfo sid) s)) as [info|e] eqn:Hinfo.
  - rewrite res_bind, evs_bind. cbn [lift res post evs app].
    unfold setitem. destruct (hashable sid) eqn:Hh.
    + left.
      destruct (station_rest_total E now sid info
                  {| stations_info := dict_set (stations_info m) sid info;
                     stations_reports := stations_reports m;
                     stations_component := stations_component m;
                     stations_devices := stations_devices m |}
                  (post (fetch E (RStationInfo sid) s)))
        as [m' [Hm' [entry [component [devices [-> [Hentry Hdev]]]]]]].
      rewrite Hm'. eexists. split; [reflexivity|].
      cbn [stations_info stations_reports stations_component stations_devices].
      apply step_stored; auto.
      * apply fetch_return_event. exact Hinfo.
      * apply station_rest_events.
    + right. exists TypeError. split; [reflexivity|].
      rewrite app_nil_r. apply step_skipped; auto.
  - right. exists e. split; [reflexivity|].
    rewrite app_nil_r. apply step_skipped; [exact Hwithin|].
    left. intros v. apply (@fetch_raise_no_return E _ _ _ Hinfo).
Qed.

Lemma process_station_step record sid m s :
  py_get record (VStr "stationsId") VNone = Ok sid ->
  truthy sid = true ->
  exists m', res (process_station E now record m s) = Ok m' /\
             station_step now sid m m' (evs (process_station E now record m s)).
Proof.
  intros Hget Htruthy. unfold process_station.
  rewrite res_bind, evs_bind. cbn [lift res post evs app]. rewrite Hget, Htruthy.
  rewrite res_bind, evs_bind, res_try, evs_try, post_try.
  destruct (station_body_step sid m s) as [[m' [Hres Hstep]] | [e [Hres Hstep]]];
    cbv zeta in Hres, Hstep; rewrite Hres.
  - exists m'. split; [reflexivity|]. cbn [ret evs]. rewrite app_nil_r.
    exact Hstep.
  - exists m. split; [reflexivity|]. cbn [ret evs]. rewrite app_nil_r.
    exact Hstep.
Qed.

Lemma process_station_no_id record sid m s :
  py_get record (VStr "stationsId") VNone = Ok sid ->
  truthy sid = false ->
  process_station E now record m s = mkOut (Ok m) s [].
Proof.
  intros Hget Htruthy. unfold process_station, bind at 1.
  cbn [lift res post evs]. rewrite Hget, Htruthy. reflexivity.
Qed.

Lemma process_station_raise record m s e :
  py_get record (VStr "stationsId") VNone = Raise e ->
  process_station E now record m s = mkOut (Raise e) s [].
Proof.
  intros Hget. unfold process_station, bind at 1.
  cbn [lift res post evs]. rewrite Hget. reflexivity.
Qed.

Lemma py_get_dict record k default :
  hashable k = true ->
  (exists v, py_get record k default = Ok v) <-> is_dict record = true.
Proof.
  intros Hk. unfold py_get. destruct record; simpl;
    try (split; [intros [v H]; discriminate | discriminate]).
  rewrite Hk. split; eauto.
Qed.

(** The loop returns exactly when every record is a dictionary, and then
    it ran as [stations_run] says. *)
Lemma stations_loop_run records m s :
  forallb is_dict records = true ->
  exists m', res (stations_loop E now records m s) = Ok m' /\
             stations_run now records m m' (evs (stations_loop E now records m s)).
Proof.
  revert m s. induction records as [|record rest IH]; intros m s Hall;
    cbn [stations_loop].
  - exists m. split; [reflexivity | constructor].
  - simpl in Hall. apply andb_true_iff in Hall. destruct Hall as [Hd Hall].
    apply (py_get_dict record (VStr "stationsId") VNone eq_refl) in Hd.
    destruct Hd as [sid Hsid].
    rewrite res_bind, evs_bind.
    destruct (truthy sid) eqn:Htruthy.
    + destruct (@process_station_step record sid m s Hsid Htruthy)
        as [m1 [Hres Hstep]].
      rewrite Hres.
      destruct (IH m1 (post (process_station E now record m s)) Hall)
        as [m' [Hres' Hrun]].
      exists m'. split; [exact Hres'|].
      eapply run_station; eauto.
    + rewrite (@process_station_no_id record sid m s Hsid Htruthy). cbn [res post evs app].
      destruct (IH m s Hall) as [m' [Hres' Hrun]].
      exists m'. split; [exact Hres'|].
      eapply run_no_id; eauto.
Qed.

Lemma stations_loop_raise records m s :
  forallb is_dict records = false ->
  res (stations_loop E now records m s) = Raise AttributeError.
Proof.
  revert m s. induction records as [|record rest IH]; intros m s Hall;
    cbn [stations_loop]; [discriminate|].
  simpl in Hall. rewrite res_bind.
  destruct (is_dict record) eqn:Hd.
  - apply (py_get_dict record (VStr "stationsId") VNone eq_refl) in Hd.
    destruct Hd as [sid Hsid].
    destruct (truthy sid) eqn:Htruthy.
    + destruct (@process_station_step record sid m s Hsid Htruthy) as [m1 [-> _]].
      apply IH. exact Hall.
    + rewrite (@process_station_no_id record sid m s Hsid Htruthy). cbn [res post].
      apply IH. exact Hall.
  - rewrite (@process_station_raise record m s AttributeError); [reflexivity|].
    destruct record; try reflexivity. discriminate Hd.
Qed.

End StationLoop.

(** ** One device *)

Section DeviceStep.

Import Client Aggregator.

Variable E : Env.

Lemma bind_lift_ok {A B} (a : A) (f : A -> M B) s : bind (lift (Ok a)) f s = f a s.
Proof. unfold bind, lift. simpl. destruct (f a s); reflexivity. Qed.

Lemma bind_ret {A B} (a : A) (f : A -> M B) s : bind (ret a) f s = f a s.
Proof. unfold bind, ret. simpl. destruct (f a s); reflexivity. Qed.

Lemma process_device_prelude mapping record wifi links s sn did :
  device_serial record = Ok sn ->
  py_get record (VStr "deviceId") VNone = Ok did ->
  process_device E mapping record (wifi, links) s =
  (if truthy sn then
     x <- try (wifi_data <- async_get_device_wifi E sn ;;
               lift (setitem wifi sn wifi_data)) ;;
     wifi' <- match x with
              | Ok w => ret w
              | Raise _ => lift (setitem wifi sn empty_dict)
              end ;;
     device_tail E mapping record links sn did wifi'
   else ret (wifi, links)) s.
Proof.
  intros Hsn Hdid.
  unfold device_serial, rbind in Hsn.
  unfold process_device. cbv zeta. cbn [fst snd].
  destruct (py_get record (VStr "sn") VNone) as [sn1|] eqn:Hsn1; [|discriminate].
  rewrite bind_lift_ok.
  assert (Hpre : forall B (f : value -> M B),
             bind (if truthy sn1 then ret sn1
                   else lift (py_get record (VStr "serialNumber") VNone)) f s
             = f sn s).
  { intros B f. destruct (truthy sn1).
    - injection Hsn as ->. apply bind_ret.
    - rewrite Hsn. apply bind_lift_ok. }
  rewrite Hpre, Hdid, bind_lift_ok. reflexivity.
Qed.

(** The WiFi step: the fetch is made, and its value or the empty
    dictionary is stored under the serial number. *)
Lemma process_device_wifi mapping record wifi links s sn did :
  device_serial record = Ok sn ->
  truthy sn = true ->
  hashable sn = true ->
  py_get record (VStr "deviceId") VNone = Ok did ->
  let o := process_device E mapping record (wifi, links) s in
  let w := async_get_device_wifi E sn s in
  let t := device_tail E mapping record links sn did
             (dict_set wifi sn (or_empty (res w))) (post w) in
  res o = res t /\ evs o = evs w ++ evs t /\ post o = post t.
Proof.
  intros Hsn Ht Hh Hdid o w t. subst o.
  rewrite (@process_device_prelude mapping record wifi links s sn did Hsn Hdid), Ht.
  set (W := (wifi_data <- async_get_device_wifi E sn ;;
             lift (setitem wifi sn wifi_data))).
  assert (HW : res (W s) = match res w with
                           | Ok v => Ok (dict_set wifi sn v)
                           | Raise e => Raise e
                           end /\
               post (W s) = post w /\ evs (W s) = evs w).
  { subst W. rewrite res_bind, post_bind, evs_bind. fold w.
    unfold setitem. rewrite Hh.
    destruct (res w); cbn [lift res post evs]; rewrite ?app_nil_r; auto. }
  destruct HW as [HWr [HWp HWe]].
  rewrite res_bind, evs_bind, post_bind, res_try, evs_try, post_try.
  cbv beta iota. rewrite HWp, HWe, HWr.
  assert (Hmid : forall s',
             bind match (match res w with
                         | Ok v => Ok (dict_set wifi sn v)
                         | Raise e => Raise e
                         end) with
                  | Ok w0 => ret w0
                  | Raise _ => lift (setitem wifi sn empty_dict)
                  end (device_tail E mapping record links sn did) s'
             = device_tail E mapping record links sn did
                 (dict_set wifi sn (or_empty (res w))) s').
  { intros s'. destruct (res w) as [v|e]; cbn [or_empty].
    - apply bind_ret.
    - unfold setitem. rewrite Hh. apply bind_lift_ok. }
  rewrite Hmid. auto.
Qed.

Lemma device_tail_battery mapping record links sn did wifi' s code name :
  (truthy did = true -> hashable did = true) ->
  py_get record (VStr "deviceType") VNone = Ok code ->
  device_type_name mapping code = Ok name ->
  is_battery name code = true ->
  let t := device_tail E mapping record links sn did wifi' s in
  let b := async_get_battery_links E sn s in
  res t = Ok (wifi', if truthy did then dict_set links did (or_empty (res b))
                     else links) /\
  evs t = evs b /\ post t = post b.
Proof.
  intros Hhd Hcode Hname Hbat t b. subst t. unfold device_tail.
  rewrite Hcode, bind_lift_ok, Hname, bind_lift_ok, Hbat.
  rewrite res_bind, evs_bind, post_bind, res_try, evs_try, post_try.
  rewrite res_bind, evs_bind, post_bind. fold b. cbv beta iota.
  destruct (res b) as [v|e]; destruct (truthy did) eqn:Htd;
    unfold setitem; rewrite ?(Hhd eq_refl);
    cbn [lift ret res post evs or_empty]; rewrite ?app_nil_r;
    try rewrite bind_lift_ok; cbn [lift ret res post evs];
    rewrite ?app_nil_r; auto.
Qed.

Lemma device_tail_plain mapping record links sn did wifi' s code name :
  py_get record (VStr "deviceType") VNone = Ok code ->
  device_type_name mapping code = Ok name ->
  is_battery name code = false ->
  device_tail E mapping record links sn did wifi' s = mkOut (Ok (wifi', links)) s [].
Proof.
  intros Hcode Hname Hbat. unfold device_tail.
  rewrite Hcode, bind_lift_ok, Hname, bind_lift_ok, Hbat. reflexivity.
Qed.

(** A battery: both fetches are made, whatever the device identifier. *)
Lemma process_device_battery mapping record wifi links s sn did code name :
  device_serial record = Ok sn ->
  truthy sn = true ->
  hashable sn = true ->
  py_get record (VStr "deviceId") VNone = Ok did ->
  (truthy did = true -> hashable did = true) ->
  py_get record (VStr "deviceType") VNone = Ok code ->
  device_type_name mapping code = Ok name ->
  is_battery name code = true ->
  let o := process_device E mapping record (wifi, links) s in
  let w := async_get_device_wifi E sn s in
  let b := async_get_battery_links E sn (post w) in
  res o = Ok (dict_set wifi sn (or_empty (res w)),
              if truthy did then dict_set links did (or_empty (res b))
              else links) /\
  evs o = evs w ++ evs b /\
  post o = post b.
Proof.
  intros Hsn Ht Hh Hdid Hhd Hcode Hname Hbat o w b.
  destruct (@process_device_wifi mapping record wifi links s sn did Hsn Ht Hh Hdid)
    as [Hr [He Hp]].
  destruct (@device_tail_battery mapping record links sn did
              (dict_set wifi sn (or_empty (res w))) (post w) code name
              Hhd Hcode Hname Hbat) as [Hr' [He' Hp']].
  cbv zeta in *. subst o w b. rewrite Hr, He, Hp, Hr', He', Hp'. auto.
Qed.

(** A device that is not a battery: only the WiFi fetch is made. *)
Lemma process_device_plain mapping record wifi links s sn did code name :
  device_serial record = Ok sn ->
  truthy sn = true ->
  hashable sn = true ->
  py_get record (VStr "deviceId") VNone = Ok did ->
  py_get record (VStr "deviceType") VNone = Ok code ->
  device_type_name mapping code = Ok name ->
  is_battery name code = false ->
  let o := process_device E mapping record (wifi, links) s in
  let w := async_get_device_wifi E sn s in
  res o = Ok (dict_set wifi sn (or_empty (res w)), links) /\
  evs o = evs w /\
  post o = post w.
Proof.
  intros Hsn Ht Hh Hdid Hcode Hname Hbat o w.
  destruct (@process_device_wifi mapping record wifi links s sn did Hsn Ht Hh Hdid)
    as [Hr [He Hp]].
  cbv zeta in *. subst o w. rewrite Hr, He, Hp.
  rewrite (@device_tail_plain mapping record links sn did _ _ code name Hcode Hname Hbat).
  cbn [res post evs]. rewrite app_nil_r. auto.
Qed.

End DeviceStep.

(** ** The loop over the stations, as a relation *)

Section StationsRun.

Import Aggregator.

Variable now : datetime.

Lemma in_keys_set ks k x : In x (keys_set ks k) -> In x ks \/ x = k.
Proof.
  unfold keys_set. destruct (existsb _ ks); [auto|].
  intros H. apply in_app_or in H. destruct H as [H|[H|[]]]; auto.
Qed.

Lemma station_step_same_keys sid m m' ev :
  station_step now sid m m' ev -> same_keys m -> same_keys m'.
Proof.
  intros [ev0 _ _ | info entry component devices ev1 ev2 _ _ _ _ _ _]; [auto|].
  unfold same_keys. cbn [stations_info stations_reports stations_component
                         stations_devices].
  rewrite !keys_dict_set. intros [-> [-> ->]]. auto.
Qed.

Lemma stations_run_same_keys records m m' ev :
  stations_run now records m m' ev -> same_keys m -> same_keys m'.
Proof.
  induction 1; auto. intros Hm. apply IHstations_run.
  eapply station_step_same_keys; eauto.
Qed.

(** Every report entry written by the run has the four windows as keys. *)
Lemma stations_run_reports records m m' ev :
  stations_run now records m m' ev ->
  forall k v, In (k, v) (stations_reports m') ->
  In (k, v) (stations_reports m) \/
  exists entry, v = VDict entry /\ map fst entry = map VStr time_types.
Proof.
  induction 1 as [m | record rest sid m m' ev _ _ _ IH
                    | record rest sid m m1 m' ev1 ev _ _ Hstep _ IH];
    intros k v Hin; auto.
  destruct (IH k v Hin) as [Hin1|Hnew]; [|now right].
  destruct Hstep as [ev0 _ _ | info entry component devices e1 e2 _ _ _ _ He _];
    [auto|].
  cbn [stations_reports] in Hin1. apply in_dict_set in Hin1.
  destruct Hin1 as [Hin1| ->]; [now left | right; eauto].
Qed.

(** Every device entry written by the run is a [device_entry]. *)
Lemma stations_run_devices records m m' ev :
  stations_run now records m m' ev ->
  forall k v, In (k, v) (stations_devices m') ->
  In (k, v) (stations_devices m) \/ device_entry v.
Proof.
  induction 1 as [m | record rest sid m m' ev _ _ _ IH
                    | record rest sid m m1 m' ev1 ev _ _ Hstep _ IH];
    intros k v Hin; auto.
  destruct (IH k v Hin) as [Hin1|Hnew]; [|now right].
  destruct Hstep as [ev0 _ _ | info entry component devices e1 e2 _ _ _ _ _ Hd];
    [auto|].
  cbn [stations_devices] in Hin1. apply in_dict_set in Hin1.
  destruct Hin1 as [Hin1| ->]; [now left | now right].
Qed.

(** A key of [stations_info] is the identifier of a record whose
    station-info fetch returned. *)
Lemma stations_run_key_origin records m m' ev :
  stations_run now records m m' ev ->
  forall k, In k (map fst (stations_info m')) ->
  In k (map fst (stations_info m)) \/
  (truthy k = true /\ hashable k = true /\
   (exists record, In record records /\
                   py_get record (VStr "stationsId") VNone = Ok k) /\
   exists v, In (EvReturn (RStationInfo k) v) ev).
Proof.
  induction 1 as [m | record rest sid m m' ev Hid _ _ IH
                    | record rest sid m m1 m' ev1 ev Hid Ht Hstep _ IH];
    intros k Hin; auto.
  - destruct (IH k Hin) as [H|[H1 [H2 [[r [Hr1 Hr2]] H4]]]]; [now left|].
    right. repeat split; auto. exists r. split; [now right | exact Hr2].
  - destruct (IH k Hin) as [H|[H1 [H2 [[r [Hr1 Hr2]] [v H4]]]]].
    + destruct Hstep as [ev0 _ _ | info entry component devices e1 e2 Hh _ Hret _ _ _];
        [now left|].
      cbn [stations_info] in H. rewrite keys_dict_set in H.
      apply in_keys_set in H. destruct H as [H | ->]; [now left|].
      right. repeat split; auto.
      * exists record. split; [now left | exact Hid].
      * exists info. apply in_or_app. left. apply in_or_app. now left.
    + right. repeat split; auto.
      * exists r. split; [now right | exact Hr2].
      * exists v. apply in_or_app. now right.
Qed.

(** A station whose info fetch returned, and whose identifier is
    hashable, is a key of [stations_info]. *)
Lemma station_step_has_key sid m m' ev k :
  station_step now sid m m' ev ->
  has_key (stations_info m) k = true -> has_key (stations_info m') k = true.
Proof.
  intros [ev0 _ _ | info entry component devices e1 e2 _ _ _ _ _ _] H; [auto|].
  cbn [stations_info]. apply has_key_dict_set_other. exact H.
Qed.

Lemma stations_run_has_key records m m' ev k :
  stations_run now records m m' ev ->
  has_key (stations_info m) k = true -> has_key (stations_info m') k = true.
Proof.
  induction 1; auto. intros Hk. apply IHstations_run.
  eapply station_step_has_key; eauto.
Qed.

Lemma within_info_return sid ev r v :
  Forall (within (eq (RStationInfo sid))) ev ->
  In (EvReturn r v) ev -> r = RStationInfo sid.
Proof.
  intros H Hin. rewrite Forall_forall in H. specialize (H _ Hin).
  unfold within in H. simpl in H. congruence.
Qed.

Lemma within_sub_not_info sid ev sid' v :
  Forall (within (sub_resource now sid)) ev ->
  ~ In (EvReturn (RStationInfo sid') v) ev.
Proof.
  intros H Hin. rewrite Forall_forall in H. specialize (H _ Hin).
  unfold within in H. simpl in H. inversion H.
Qed.

Lemma stations_run_returned_key records m m' ev :
  stations_run now records m m' ev ->
  forall sid v, In (EvReturn (RStationInfo sid) v) ev ->
  hashable sid = true -> has_key (stations_info m') sid = true.
Proof.
  induction 1 as [m | record rest sid0 m m' ev _ _ _ IH
                    | record rest sid0 m m1 m' ev1 ev _ _ Hstep Hrun IH];
    intros sid v Hin Hh; [destruct Hin | eauto |].
  apply in_app_or in Hin. destruct Hin as [Hin|Hin]; [|eauto].
  eapply stations_run_has_key; [exact Hrun|].
  destruct Hstep as [ev0 Hw Hno | info entry component devices e1 e2 Hh0 Hw Hret Hsub _ _].
  - pose proof (@within_info_return _ _ _ _ Hw Hin) as Heq. injection Heq as ->.
    destruct Hno as [Hno|Hno]; [exfalso; eapply Hno; eauto | congruence].
  - apply in_app_or in Hin. destruct Hin as [Hin|Hin].
    + pose proof (@within_info_return _ _ _ _ Hw Hin) as Heq. injection Heq as ->.
      cbn [stations_info]. apply has_key_dict_set_same, key_eqb_refl. exact Hh.
    + exfalso. eapply within_sub_not_info; eauto.
Qed.

(** The events of a run concern station resources only. *)
Lemma stations_run_events records m m' ev :
  stations_run now records m m' ev ->
  Forall (within (station_resource now records)) ev.
Proof.
  assert (Hmono : forall record rest l,
             Forall (within (station_resource now rest)) l ->
             Forall (within (station_resource now (record :: rest))) l).
  { intros record rest l. apply Forall_impl. intros e. unfold within.
    destruct (resource_of e) as [r|]; [|auto].
    intros [rec sid Hin Hid Ht | rec sid r' Hin Hid Ht Hsub].
    - eapply res_info; eauto. now right.
    - eapply res_sub; eauto. now right. }
  induction 1 as [m | record rest sid m m' ev Hid _ _ IH
                    | record rest sid m m1 m' ev1 ev Hid Ht Hstep _ IH].
  - constructor.
  - apply Hmono, IH.
  - apply Forall_app. split; [|apply Hmono, IH].
    assert (Hinfo : forall l, Forall (within (eq (RStationInfo sid))) l ->
                              Forall (within (station_resource now (record :: rest))) l).
    { intros l. apply Forall_impl. intros e. unfold within.
      destruct (resource_of e) as [r|]; [|auto]. intros <-.
      eapply res_info; eauto. now left. }
    destruct Hstep as [ev0 Hw _ | info entry component devices e1 e2 _ Hw _ Hsub _ _];
      [auto|].
    apply Forall_app. split; [auto|].
    eapply Forall_impl; [|exact Hsub]. intros e. unfold within.
    destruct (resource_of e) as [r|]; [|auto]. intros Hr.
    eapply res_sub; eauto. now left.
Qed.

(** A report, component or device-page fetch is made for a station only
    after a station-info fetch for that identifier returned. *)
Lemma stations_run_gated records m m' ev :
  stations_run now records m m' ev ->
  forall e r sid, In e ev -> resource_of e = Some r -> station_of r = Some sid ->
  hashable sid = true /\ exists v, In (EvReturn (RStationInfo sid) v) ev.
Proof.
  induction 1 as [m | record rest sid0 m m' ev _ _ _ IH
                    | record rest sid0 m m1 m' ev1 ev _ _ Hstep _ IH];
    intros e r sid Hin Hr Hs; [destruct Hin | eauto |].
  apply in_app_or in Hin. destruct Hin as [Hin|Hin].
  - assert (Hnot : forall l, Forall (within (eq (RStationInfo sid0))) l ->
                             In e l -> False).
    { intros l Hl Hinl. rewrite Forall_forall in Hl. specialize (Hl _ Hinl).
      unfold within in Hl. rewrite Hr in Hl. subst r. discriminate Hs. }
    destruct Hstep as [ev0 Hw _ | info entry component devices e1 e2 Hh Hw Hret Hsub _ _].
    + exfalso. eauto.
    + apply in_app_or in Hin. destruct Hin as [Hin|Hin]; [exfalso; eauto|].
      rewrite Forall_forall in Hsub. specialize (Hsub _ Hin).
      unfold within in Hsub. rewrite Hr in Hsub.
      assert (sid = sid0) as ->.
      { destruct Hsub; simpl in Hs; congruence. }
      split; [exact Hh|].
      exists info. apply in_or_app. left. apply in_or_app. now left.
  - destruct (IH e r sid Hin Hr Hs) as [Hh [v Hv]].
    split; [exact Hh|]. exists v. apply in_or_app. now right.
Qed.

End StationsRun.

(** ** One cycle *)

Section Cycle.

Import Client Aggregator.

Variable E : Env.

(** The four ways in which a cycle can end. *)
Lemma cycle_cases s :
  let g := async_get_stations E 1 100 s in
  let o := async_update_data E s in
  (exists e, res g = Raise e /\
             res o = Raise e /\ evs o = evs g /\ post o = post g) \/
  (exists sd e, res g = Ok sd /\ records_of sd = Raise e /\
                res o = Raise e /\ evs o = evs g) \/
  (exists sd records, res g = Ok sd /\ records_of sd = Ok records /\
                      forallb is_dict records = false /\
                      res o = Raise AttributeError) \/
  (exists sd records m ev,
     res g = Ok sd /\ records_of sd = Ok records /\
     forallb is_dict records = true /\
     res o = Ok {| stations := sd; maps := m |} /\
     evs o = evs g ++ ev /\
     stations_run (datetime_now E) records empty_maps m ev).
Proof.
  intros g o. subst o g. unfold async_update_data.
  set (g := async_get_stations E 1 100 s).
  destruct (res g) as [sd|e] eqn:Hg.
  2: { left. exists e. rewrite (bind_raise _ _ _ Hg). auto. }
  right. rewrite (bind_ok _ _ _ Hg). cbn [res evs post]. cbv zeta.
  destruct (py_get sd (VStr "data") empty_dict) as [data|e] eqn:Hdata.
  2: { left. exists sd, e. rewrite (@bind_raise _ _ (lift (Raise e)) _ _ e eq_refl).
       cbn [lift res evs]. rewrite app_nil_r.
       unfold records_of, rbind. rewrite ?Hdata, ?Hrecs, ?Hiter. auto. }
  rewrite bind_lift_ok.
  destruct (py_get data (VStr "records") (VList [])) as [recs|e] eqn:Hrecs.
  2: { left. exists sd, e. rewrite (@bind_raise _ _ (lift (Raise e)) _ _ e eq_refl).
       cbn [lift res evs]. rewrite app_nil_r.
       unfold records_of, rbind. rewrite ?Hdata, ?Hrecs, ?Hiter. auto. }
  rewrite bind_lift_ok.
  destruct (py_iter recs) as [records|e] eqn:Hiter.
  2: { left. exists sd, e. rewrite (@bind_raise _ _ (lift (Raise e)) _ _ e eq_refl).
       cbn [lift res evs]. rewrite app_nil_r.
       unfold records_of, rbind. rewrite ?Hdata, ?Hrecs, ?Hiter. auto. }
  rewrite bind_lift_ok. right.
  rewrite res_bind, evs_bind. subst g.
  destruct (forallb is_dict records) eqn:Hall.
  - right. exists sd, records.
    destruct (stations_loop_run E (datetime_now E) records empty_maps
                (post (async_get_stations E 1 100 s)) Hall)
      as [m [Hres Hrun]].
    exists m, (evs (stations_loop E (datetime_now E) records empty_maps
                (post (async_get_stations E 1 100 s)))).
    rewrite Hres. cbn [ret res evs]. rewrite app_nil_r.
    unfold records_of, rbind. rewrite Hdata, Hrecs, Hiter. repeat split; auto.
  - left. exists sd, records.
    rewrite (@stations_loop_raise E (datetime_now E) records empty_maps
                (post (async_get_stations E 1 100 s)) Hall).
    unfold records_of, rbind. rewrite Hdata, Hrecs, Hiter. auto.
Qed.

Lemma cycle_ok_inv s snap :
  res (async_update_data E s) = Ok snap ->
  exists records ev,
    res (async_get_stations E 1 100 s) = Ok (stations snap) /\
    records_of (stations snap) = Ok records /\
    forallb is_dict records = true /\
    evs (async_update_data E s) = evs (async_get_stations E 1 100 s) ++ ev /\
    stations_run (datetime_now E) records empty_maps (maps snap) ev.
Proof.
  intros Hok.
  destruct (cycle_cases s)
    as [[e [_ [H _]]] | [[sd [e [_ [_ [H _]]]]] | [[sd [records [_ [_ [_ H]]]]]
       | [sd [records [m [ev [Hg [Hrec [Hall [H [Hev Hrun]]]]]]]]]]]];
    cbv zeta in *; try congruence.
  rewrite Hok in H. injection H as ->. exists records, ev. auto.
Qed.

(** The only exception that a fetch lets through is the one raised after
    the last attempt. *)
Lemma fetch_loop_raise_exn r attempts s e :
  res (fetch_loop E r attempts s) = Raise e ->
  e = fetch_error r.
Proof.
  revert s. induction attempts as [|a rest IH]; intros s; cbn [fetch_loop].
  - intros H. injection H as <-. reflexivity.
  - rewrite res_bind, res_try, post_try. cbv beta iota.
    destruct (res (fetch_attempt E r a s)); [discriminate|].
    rewrite res_bind, backoff_ok. apply IH.
Qed.

Lemma fetch_raise_exn r s e :
  res (fetch E r s) = Raise e -> e = fetch_error r.
Proof.
  unfold fetch. rewrite res_bind, res_try. cbv beta iota.
  destruct (res (fetch_loop E r (seq 1 fetch_max_attempts) s)) as [v|e'] eqn:H.
  - rewrite res_bind. discriminate.
  - rewrite res_bind. cbn [emit raise res]. intros H'. injection H' as <-.
    eapply fetch_loop_raise_exn. exact H.
Qed.

Lemma fetch_raise_event r s e :
  res (fetch E r s) = Raise e -> In (EvRaise r) (evs (fetch E r s)).
Proof.
  unfold fetch. rewrite res_bind, evs_bind, res_try, evs_try. cbv beta iota.
  destruct (res (fetch_loop E r (seq 1 fetch_max_attempts) s)) as [v'|e'].
  - rewrite res_bind. discriminate.
  - intros _. rewrite evs_bind. cbn [emit raise res evs post].
    apply in_or_app. right. now left.
Qed.

End Cycle.

Section CycleEvents.

Import Client Aggregator.

Variable E : Env.
Variable now : datetime.

Lemma sub_within_cycle sid l :
  Forall (within (sub_resource now sid)) l ->
  Forall (within (cycle_resource now)) l.
Proof.
  apply Forall_impl. intros e. unfold within.
  destruct (resource_of e); [|auto]. apply cyc_sub.
Qed.

Lemma process_station_events record m :
  emits (within (cycle_resource now)) (process_station E now record m).
Proof.
  unfold process_station. apply emits_bind; [emits_tac|]. intros sid.
  destruct (truthy sid) eqn:Ht; [|emits_tac].
  apply emits_bind; [|intros [m'|e]; emits_tac].
  apply emits_try. apply emits_bind.
  - apply fetch_within. apply cyc_info. exact Ht.
  - intros info. apply emits_bind; [emits_tac|]. intros info'.
    intros s. apply (@sub_within_cycle sid). apply station_rest_events.
Qed.

Lemma stations_loop_events records m :
  emits (within (cycle_resource now)) (stations_loop E now records m).
Proof.
  revert m. induction records as [|record rest IH]; intros m;
    cbn [stations_loop].
  - emits_tac.
  - apply emits_bind; [apply process_station_events | intros m'; apply IH].
Qed.

End CycleEvents.

Section WholeCycleEvents.

Import Client Aggregator.

Variable E : Env.

Lemma cycle_events :
  emits (within (cycle_resource (datetime_now E))) (async_update_data E).
Proof.
  unfold async_update_data. apply emits_bind.
  - apply fetch_within. constructor.
  - intros sd. cbv zeta.
    do 3 (apply emits_bind; [emits_tac|]; intros ?).
    apply emits_bind; [apply stations_loop_events | intros; emits_tac].
Qed.

End WholeCycleEvents.

Lemma string_app_assoc (a b c : string) :
  ((a ++ b) ++ c = a ++ (b ++ c))%string.
Proof. induction a; simpl; congruence. Qed.

(** C8. The date passed to the report fetch is [now] formatted by
    window: year-month-day for "day" and "all", year-month for "month",
    the year for "year"; on March 5, 2024 these are "2024-03-05", "2024-03"
    and "2024".  Every report request of a cycle carries one of the four
    windows and the date so formatted for it. *)
Theorem report_date_formats (E : Env) (s : State) :
  let now := datetime_now E in
  (Aggregator.search_time now "day" = Aggregator.strftime_Ymd now /\
   Aggregator.search_time now "all" = Aggregator.strftime_Ymd now /\
   Aggregator.search_time now "month" = Aggregator.strftime_Ym now /\
   Aggregator.search_time now "year" = Aggregator.strftime_Y now)
  /\
  (Aggregator.strftime_Y now = Aggregator.padded 4 (year now) /\
   Aggregator.strftime_Ym now =
     (Aggregator.padded 4 (year now) ++ "-" ++ Aggregator.padded 2 (month now))%string /\
   Aggregator.strftime_Ymd now =
     (Aggregator.padded 4 (year now) ++ "-" ++ Aggregator.padded 2 (month now)
      ++ "-" ++ Aggregator.padded 2 (day now))%string)
  /\
  (Aggregator.search_time Examples.march_5_2024 "day" = "2024-03-05"%string /\
   Aggregator.search_time Examples.march_5_2024 "all" = "2024-03-05"%string /\
   Aggregator.search_time Examples.march_5_2024 "month" = "2024-03"%string /\
   Aggregator.search_time Examples.march_5_2024 "year" = "2024"%string)
  /\
  (forall e sid date tt,
     In e (evs (Aggregator.async_update_data E s)) ->
     resource_of e = Some (RReport sid date tt) ->
     In tt Aggregator.time_types /\ date = Aggregator.search_time now tt).
Proof.
  intros now. split; [repeat split|]. split.
  { unfold Aggregator.strftime_Ymd, Aggregator.strftime_Ym.
    repeat split. rewrite string_app_assoc. reflexivity. }
  split; [repeat split|].
  intros e sid date tt Hin Hr.
  pose proof (cycle_events E s) as H. rewrite Forall_forall in H.
  specialize (H e Hin). unfold within in H. rewrite Hr in H.
  inversion H as [| |sid' r Hsub]; subst.
  inversion Hsub; subst. auto.
Qed.

(** In a cycle over station 42 on March 5, 2024, the first GET of the
    "day" report carries "2024-03-05". *)
Lemma report_date_formats_witness :
  In "day"%string Aggregator.time_types /\
  "2024-03-05"%string = Aggregator.search_time Examples.march_5_2024 "day".
Proof.
  destruct (report_date_formats (Examples.env_links_fail Examples.devices_body)
              init_state) as [_ [_ [_ H]]].
  apply (H (EvGet (RReport (VNum 42) "2024-03-05" "day") 1)
           (VNum 42) "2024-03-05"%string "day"%string).
  - vm_compute. repeat (first [left; reflexivity | right]).
  - reflexivity.
Defined.

(** C5. When the station-list fetch raises (which it does only after its
    last attempt, with the after-retries error), the cycle raises that
    error, having done nothing else: no snapshot is produced.  And the
    cycle returns a snapshot exactly when the station-list fetch returned a
    payload whose records can be iterated and are all objects: whether any
    other fetch fails plays no part. *)
Theorem station_list_failure_is_fatal (E : Env) (s : State) :
  let g := Client.async_get_stations E 1 100 s in
  let o := Aggregator.async_update_data E s in
  (forall e, res g = Raise e ->
             e = Error "Failed to fetch stations after retries" /\
             res o = Raise e /\ evs o = evs g /\ post o = post g)
  /\
  ((exists snap, res o = Ok snap) <->
   (exists sd records,
      res g = Ok sd /\ records_of sd = Ok records /\
      forallb is_dict records = true)).
Proof.
  intros g o. split.
  - intros e Hg. split; [exact (fetch_raise_exn E _ s Hg)|].
    destruct (cycle_cases E s)
      as [[e' [Hg' H]] | [[sd [e' [Hg' _]]] | [[sd [records [Hg' _]]]
         | [sd [records [m [ev [Hg' _]]]]]]]];
      cbv zeta in *; fold g in Hg'; try congruence.
    assert (e' = e) as -> by congruence. exact H.
  - split.
    + intros [snap Hok]. destruct (cycle_ok_inv E s Hok)
        as [records [ev [Hg [Hrec [Hall _]]]]].
      exists (Aggregator.stations snap), records. auto.
    + intros [sd [records [Hg [Hrec Hall]]]].
      destruct (cycle_cases E s)
        as [[e' [Hg' _]] | [[sd' [e' [Hg' [Hrec' _]]]]
           | [[sd' [records' [Hg' [Hrec' [Hall' _]]]]]
           | [sd' [records' [m [ev [Hg' [_ [_ [H _]]]]]]]]]]];
        cbv zeta in *; fold g in Hg'; try congruence.
      eexists. exact H.
Qed.

(** With the service unreachable, the cycle raises the station-list error. *)
Lemma station_list_failure_is_fatal_witness :
  res (Aggregator.async_update_data Examples.env_down init_state)
  = Raise (Error "Failed to fetch stations after retries").
Proof.
  destruct (station_list_failure_is_fatal Examples.env_down init_state)
    as [H _].
  destruct (H (Error "Failed to fetch stations after retries") eq_refl)
    as [_ [Hres _]].
  exact Hres.
Defined.

Section StationFailure.

Import Client Aggregator.

Variable E : Env.
Variable now : datetime.

(** A station whose info fetch raises: nothing is stored and nothing else
    is fetched. *)
Lemma process_station_info_raises record sid m s e :
  py_get record (VStr "stationsId") VNone = Ok sid ->
  truthy sid = true ->
  res (async_get_station_info E sid s) = Raise e ->
  let f := async_get_station_info E sid s in
  let o := process_station E now record m s in
  res o = Ok m /\ evs o = evs f /\ post o = post f.
Proof.
  intros Hget Ht Hf f o. subst o. unfold process_station.
  rewrite Hget, bind_lift_ok, Ht.
  rewrite res_bind, evs_bind, post_bind, res_try, evs_try, post_try.
  rewrite (bind_raise _ _ _ Hf). cbn [ret res evs post].
  rewrite app_nil_r. auto.
Qed.

Lemma stations_loop_info_raises record rest sid m s e :
  py_get record (VStr "stationsId") VNone = Ok sid ->
  truthy sid = true ->
  res (async_get_station_info E sid s) = Raise e ->
  let f := async_get_station_info E sid s in
  let l := stations_loop E now (record :: rest) m s in
  let l' := stations_loop E now rest m (post f) in
  res l = res l' /\ evs l = evs f ++ evs l' /\ post l = post l'.
Proof.
  intros Hget Ht Hf f l l'. subst l l'. cbn [stations_loop].
  destruct (@process_station_info_raises record sid m s e Hget Ht Hf)
    as [Hr [He Hp]]. cbv zeta in Hr, He, Hp.
  rewrite res_bind, evs_bind, post_bind, Hr, He, Hp. auto.
Qed.

End StationFailure.

Section SnapshotFacts.

Import Client Aggregator.

Variable E : Env.

Lemma stations_events_only s e r :
  In e (evs (async_get_stations E 1 100 s)) -> resource_of e = Some r ->
  r = RStations 1 100.
Proof.
  intros Hin Hr.
  pose proof (@fetch_within E (eq (RStations 1 100)) _ eq_refl s) as H.
  rewrite Forall_forall in H. specialize (H e Hin). unfold within in H.
  rewrite Hr in H. congruence.
Qed.

Lemma has_key_in d k :
  has_key d k = true -> exists k', In k' (map fst d) /\ key_eqb k' k = true.
Proof.
  rewrite has_key_keys. intros H. apply existsb_exists in H. exact H.
Qed.

End SnapshotFacts.

(** C9. In the snapshot that a cycle returns, the four per-station
    dictionaries have the same keys, in the same order, and every entry of
    [stations_reports] is a dictionary whose keys are "all", "day", "month"
    and "year".  A key is the truthy (and hashable) identifier of a station
    record whose station-info fetch returned; conversely every hashable
    identifier whose station-info fetch returned is a key, and station
    info is only fetched for the truthy identifiers of the records. *)
Theorem snapshot_key_sets (E : Env) (s : State) (snap : Aggregator.Snapshot) :
  res (Aggregator.async_update_data E s) = Ok snap ->
  let m := Aggregator.maps snap in
  let ev := evs (Aggregator.async_update_data E s) in
  (map fst (Aggregator.stations_reports m) = map fst (Aggregator.stations_info m) /\
   map fst (Aggregator.stations_component m) = map fst (Aggregator.stations_info m) /\
   map fst (Aggregator.stations_devices m) = map fst (Aggregator.stations_info m))
  /\
  (forall k v,
     In (k, v) (Aggregator.stations_reports m) ->
     exists entry,
       v = VDict entry /\
       map fst entry = [VStr "all"; VStr "day"; VStr "month"; VStr "year"])
  /\
  (exists records,
     records_of (Aggregator.stations snap) = Ok records /\
     (forall k,
        In k (map fst (Aggregator.stations_info m)) ->
        truthy k = true /\ hashable k = true /\
        (exists record,
           In record records /\
           py_get record (VStr "stationsId") VNone = Ok k) /\
        (exists v, In (EvReturn (RStationInfo k) v) ev)) /\
     (forall e sid,
        In e ev -> resource_of e = Some (RStationInfo sid) ->
        truthy sid = true /\
        exists record,
          In record records /\
          py_get record (VStr "stationsId") VNone = Ok sid))
  /\
  (forall sid v,
     In (EvReturn (RStationInfo sid) v) ev -> hashable sid = true ->
     has_key (Aggregator.stations_info m) sid = true).
Proof.
  intros Hok m ev.
  destruct (cycle_ok_inv E s Hok) as [records [evl [Hg [Hrec [Hall [Hev Hrun]]]]]].
  fold m in Hrun. fold ev in Hev.
  assert (Hsame : same_keys Aggregator.empty_maps) by (repeat split).
  split; [exact (stations_run_same_keys Hrun Hsame)|].
  split.
  { intros k v Hin.
    destruct (stations_run_reports Hrun k v Hin) as [[]|H]. exact H. }
  split.
  { exists records. split; [exact Hrec|]. split.
    - intros k Hin.
      destruct (stations_run_key_origin Hrun k Hin)
        as [[]|[H1 [H2 [H3 [v H4]]]]].
      repeat split; auto. exists v. rewrite Hev. apply in_or_app. now right.
    - intros e sid Hin Hr. rewrite Hev in Hin. apply in_app_or in Hin.
      destruct Hin as [Hin|Hin].
      + pose proof (@stations_events_only E s e _ Hin Hr). discriminate.
      + pose proof (stations_run_events Hrun) as Hw.
        rewrite Forall_forall in Hw. specialize (Hw e Hin).
        unfold within in Hw. rewrite Hr in Hw.
        inversion Hw as [record sid' Hinr Hid Ht | record sid' r Hinr Hid Ht Hsub];
          subst.
        * split; [exact Ht|]. exists record. auto.
        * inversion Hsub. }
  intros sid v Hin Hh. rewrite Hev in Hin. apply in_app_or in Hin.
  destruct Hin as [Hin|Hin].
  - pose proof (@stations_events_only E s _ _ Hin eq_refl). discriminate.
  - exact (stations_run_returned_key Hrun sid v Hin Hh).
Qed.

(** A cycle over station 42 with its device [SN1]. *)
Lemma snapshot_key_sets_witness :
  exists snap,
    res (Aggregator.async_update_data
           (Examples.env_links_fail Examples.devices_body) init_state) = Ok snap /\
    map fst (Aggregator.stations_reports (Aggregator.maps snap)) =
    map fst (Aggregator.stations_info (Aggregator.maps snap)).
Proof.
  destruct (res (Aggregator.async_update_data
                   (Examples.env_links_fail Examples.devices_body) init_state))
    as [snap|e] eqn:Hres; [|vm_compute in Hres; discriminate Hres].
  exists snap. split; [reflexivity|].
  destruct (@snapshot_key_sets _ _ snap Hres) as [[H _] _]. exact H.
Defined.

(** C6. A station whose station-info fetch raises leaves the four
    dictionaries as they were, and the processing of its record performs
    the events of that fetch and no other; the loop then goes on with the
    remaining records exactly as it would without this record, from the
    state that the fetch left.  In the snapshot of a cycle, an identifier
    for which no station-info fetch returned is a key of none of the four
    dictionaries, and no report, component or device-page fetch was
    attempted for it. *)
Theorem station_info_failure_skips_station (E : Env) (s : State) :
  (forall record rest sid m e,
     py_get record (VStr "stationsId") VNone = Ok sid ->
     truthy sid = true ->
     res (Client.async_get_station_info E sid s) = Raise e ->
     let now := datetime_now E in
     let f := Client.async_get_station_info E sid s in
     let o := Aggregator.process_station E now record m s in
     let l := Aggregator.stations_loop E now (record :: rest) m s in
     let l' := Aggregator.stations_loop E now rest m (post f) in
     (res o = Ok m /\ evs o = evs f /\ post o = post f) /\
     (res l = res l' /\ evs l = evs f ++ evs l' /\ post l = post l'))
  /\
  (forall snap sid,
     res (Aggregator.async_update_data E s) = Ok snap ->
     let m := Aggregator.maps snap in
     let ev := evs (Aggregator.async_update_data E s) in
     (forall sid' v, key_eqb sid' sid = true ->
                     ~ In (EvReturn (RStationInfo sid') v) ev) ->
     (has_key (Aggregator.stations_info m) sid = false /\
      has_key (Aggregator.stations_reports m) sid = false /\
      has_key (Aggregator.stations_component m) sid = false /\
      has_key (Aggregator.stations_devices m) sid = false) /\
     (forall e r, In e ev -> resource_of e = Some r ->
                  station_of r <> Some sid)).
Proof.
  split.
  - intros record rest sid m e Hget Ht Hf now f o l l'. split.
    + exact (@process_station_info_raises E now record sid m s e Hget Ht Hf).
    + exact (@stations_loop_info_raises E now record rest sid m s e Hget Ht Hf).
  - intros snap sid Hok m ev Hnone.
    destruct (cycle_ok_inv E s Hok)
      as [records [evl [Hg [Hrec [Hall [Hev Hrun]]]]]].
    fold m in Hrun. fold ev in Hev.
    assert (Hinfo : has_key (Aggregator.stations_info m) sid = false).
    { destruct (has_key (Aggregator.stations_info m) sid) eqn:Hk; [|reflexivity].
      exfalso. apply has_key_in in Hk. destruct Hk as [k [Hin Heq]].
      destruct (stations_run_key_origin Hrun k Hin)
        as [[]|[_ [_ [_ [v Hv]]]]].
      apply (Hnone k v Heq). rewrite Hev. apply in_or_app. now right. }
    assert (Hsame : same_keys Aggregator.empty_maps) by (repeat split).
    destruct (stations_run_same_keys Hrun Hsame) as [K1 [K2 K3]].
    split.
    + rewrite !has_key_keys in *. rewrite K1, K2, K3. auto.
    + intros e r Hin Hr Hs. rewrite Hev in Hin. apply in_app_or in Hin.
      destruct Hin as [Hin|Hin].
      * pose proof (@stations_events_only E s e r Hin Hr). subst r.
        discriminate Hs.
      * destruct (stations_run_gated Hrun e Hin Hr Hs) as [Hh [v Hv]].
        apply (Hnone sid v (key_eqb_refl sid Hh)).
        rewrite Hev. apply in_or_app. now right.
Qed.

(** Station 42 whose info answers 500: the snapshot has no entry for 42. *)
Lemma station_info_failure_skips_station_witness :
  exists snap,
    res (Aggregator.async_update_data Examples.env_info_fails init_state)
    = Ok snap /\
    has_key (Aggregator.stations_info (Aggregator.maps snap)) (VNum 42) = false.
Proof.
  destruct (res (Aggregator.async_update_data Examples.env_info_fails init_state))
    as [snap|e] eqn:Hres; [|vm_compute in Hres; discriminate Hres].
  exists snap. split; [reflexivity|].
  destruct (station_info_failure_skips_station Examples.env_info_fails init_state)
    as [_ H].
  destruct (H snap (VNum 42) Hres) as [[H1 _] _]; [|exact H1].
  intros sid' v Hk Hin.
  assert (Hev : Forall (fun e => forall r v, e <> EvReturn (RStationInfo r) v)
                  (evs (Aggregator.async_update_data Examples.env_info_fails
                          init_state))).
  { vm_compute. repeat (constructor; [intros r' v' Hc; discriminate Hc|]).
    constructor. }
  rewrite Forall_forall in Hev. exact (Hev _ Hin sid' v eq_refl).
Defined.

Section Placeholders.

Import Client Aggregator.

Variable E : Env.
Variable now : datetime.

Lemma fetch_window_raises sid entry tt s e :
  res (async_get_report E sid (search_time now tt) tt s) = Raise e ->
  res (fetch_window E now sid entry tt s) = Ok (dict_set entry (VStr tt) empty_dict).
Proof.
  intros H. unfold fetch_window. rewrite res_bind, res_try, H. reflexivity.
Qed.

Lemma fetch_component_raises sid component s e :
  res (async_get_component E sid (strftime_Ymd now) s) = Raise e ->
  res (fetch_component E now sid component s) =
  Ok (dict_set component sid empty_dict).
Proof.
  intros H. unfold fetch_component. rewrite res_bind, res_try, H. reflexivity.
Qed.

Lemma fetch_devices_raises info sid devices s e :
  res (async_get_device_page E sid "all" 1 100 s) = Raise e ->
  res (fetch_devices E info sid devices s) = Ok (dict_set devices sid empty_dict).
Proof.
  intros H. unfold fetch_devices, device_page_body.
  rewrite res_bind, res_try, (bind_raise _ _ _ H). reflexivity.
Qed.

Lemma device_entry_links v page links did :
  device_entry v -> v = VDict page ->
  dict_get page (VStr "battery_links") = Some (VDict links) ->
  truthy did = false -> has_key links did = false.
Proof.
  intros [-> | [p [wifi [links0 [-> [_ Hl]]]]]] Hv Hget Hd.
  - injection Hv as <-. discriminate Hget.
  - injection Hv as <-.
    rewrite dict_get_set_same in Hget by apply String.eqb_refl.
    injection Hget as <-.
    destruct (has_key links0 did) eqn:Hk; [|reflexivity].
    apply has_key_in in Hk. destruct Hk as [k [Hin Heq]].
    unfold all_truthy in Hl. rewrite Forall_forall in Hl.
    apply key_eqb_truthy in Heq. rewrite (Hl k Hin) in Heq. congruence.
Qed.

End Placeholders.

(** C4, as stated, fails for a battery without a device identifier: the
    battery-links fetch of device [SN1] raises, the cycle returns, and the
    battery-links map of station 42 is empty, so the snapshot holds no
    placeholder for the failed fetch. *)
Lemma battery_placeholder_counterexample :
  let E := Examples.env_links_fail Examples.devices_body_no_id in
  let o := Aggregator.async_update_data E init_state in
  In (EvRaise (RBatteryLinks (VStr "SN1"))) (evs o) /\
  device_serial Examples.device_record_no_id = Ok (VStr "SN1") /\
  py_get Examples.device_record_no_id (VStr "deviceId") VNone = Ok VNone /\
  exists snap page,
    res o = Ok snap /\
    dict_get (Aggregator.stations_devices (Aggregator.maps snap)) (VNum 42)
    = Some (VDict page) /\
    dict_get page (VStr "wifi_data")
    = Some (VDict [(VStr "SN1", Examples.wifi_value)]) /\
    dict_get page (VStr "battery_links") = Some (VDict []).
Proof.
  cbv zeta. split.
  { vm_compute. repeat (first [left; reflexivity | right]). }
  split; [reflexivity|]. split; [reflexivity|].
  eexists. eexists. split; [vm_compute; reflexivity|].
  split; [vm_compute; reflexivity|]. split; reflexivity.
Qed.

Lemma cycle_returns (E : Env) (s : State) sd records :
  res (Client.async_get_stations E 1 100 s) = Ok sd ->
  records_of sd = Ok records ->
  forallb is_dict records = true ->
  exists snap, res (Aggregator.async_update_data E s) = Ok snap.
Proof.
  intros Hg Hrec Hall.
  destruct (cycle_cases E s)
    as [[e' [Hg' _]] | [[sd' [e' [Hg' [Hrec' _]]]]
       | [[sd' [records' [Hg' [Hrec' [Hall' _]]]]]
       | [sd' [records' [m [ev [Hg' [_ [_ [H _]]]]]]]]]]];
    cbv zeta in *; try congruence.
  eexists. exact H.
Qed.

(** ** Classification, as the aggregator acts on it *)

Section ClassificationInLoop.

Import Client Aggregator.

Variable E : Env.

(** The battery-links fetch is made exactly for the devices classified as
    batteries. *)
Lemma process_device_fetches_links mapping record wifi links s sn did code name :
  device_serial record = Ok sn ->
  truthy sn = true ->
  hashable sn = true ->
  py_get record (VStr "deviceId") VNone = Ok did ->
  (truthy did = true -> hashable did = true) ->
  py_get record (VStr "deviceType") VNone = Ok code ->
  device_type_name mapping code = Ok name ->
  let o := process_device E mapping record (wifi, links) s in
  (exists e, In e (evs o) /\ resource_of e = Some (RBatteryLinks sn)) <->
  is_battery name code = true.
Proof.
  intros Hsn Ht Hh Hdid Hhd Hcode Hname o.
  destruct (is_battery name code) eqn:Hbat.
  - destruct (@process_device_battery E mapping record wifi links s sn did code
                name Hsn Ht Hh Hdid Hhd Hcode Hname Hbat) as [_ [He _]].
    cbv zeta in He. subst o. rewrite He.
    split; [reflexivity|]. intros _.
    set (w := async_get_device_wifi E sn s).
    unfold async_get_battery_links.
    destruct (res (fetch E (RBatteryLinks sn) (post w))) as [v|e] eqn:Hb.
    + exists (EvReturn (RBatteryLinks sn) v). split; [|reflexivity].
      apply in_or_app. right. apply fetch_return_event. exact Hb.
    + exists (EvRaise (RBatteryLinks sn)). split; [|reflexivity].
      apply in_or_app. right. eapply fetch_raise_event. exact Hb.
  - destruct (@process_device_plain E mapping record wifi links s sn did code
                name Hsn Ht Hh Hdid Hcode Hname Hbat) as [_ [He _]].
    cbv zeta in He. subst o. rewrite He.
    split; [|discriminate]. intros [e [Hin Hr]]. exfalso.
    pose proof (@fetch_within E (eq (RDeviceWifi sn)) _ eq_refl s) as Hw.
    rewrite Forall_forall in Hw. specialize (Hw e Hin). unfold within in Hw.
    rewrite Hr in Hw. discriminate Hw.
Qed.

End ClassificationInLoop.

(** C7. When the station's code-to-name map resolves the device-type code
    to the string [raw] (the empty string for an unknown code), the device
    is classified as a battery exactly when [raw] contains "battery" with
    case ignored or the code is the string "battery".  So a device whose
    type resolves to "Battery Pack" is a battery, one whose code is
    "battery" is a battery whatever the map, and one that resolves to
    "Inverter" under another code is not.  The aggregator acts on this
    classification: for a device record with a serial number, it fetches
    the battery links exactly when the device is so classified. *)
Theorem battery_classification (mapping : pydict) (code : value) (raw : string) :
  py_get (VDict mapping) code (VStr "") = Ok (VStr raw) ->
  Aggregator.device_type_name mapping code = Ok (lower raw) /\
  (Aggregator.is_battery (lower raw) code = true <->
   contains_battery_ci raw \/ code = VStr "battery") /\
  (raw = "Battery Pack"%string -> Aggregator.is_battery (lower raw) code = true) /\
  (code = VStr "battery" -> Aggregator.is_battery (lower raw) code = true) /\
  (raw = "Inverter"%string -> code <> VStr "battery" ->
   Aggregator.is_battery (lower raw) code = false) /\
  (forall E s record wifi links sn did,
     device_serial record = Ok sn ->
     truthy sn = true ->
     hashable sn = true ->
     py_get record (VStr "deviceId") VNone = Ok did ->
     (truthy did = true -> hashable did = true) ->
     py_get record (VStr "deviceType") VNone = Ok code ->
     let o := Aggregator.process_device E mapping record (wifi, links) s in
     (exists e, In e (evs o) /\ resource_of e = Some (RBatteryLinks sn)) <->
     contains_battery_ci raw \/ code = VStr "battery").
Proof.
  intros Hget.
  assert (Hiff : Aggregator.is_battery (lower raw) code = true <->
                 contains_battery_ci raw \/ code = VStr "battery").
  { unfold Aggregator.is_battery.
    rewrite orb_true_iff, contains_lower_iff, eq_str_iff. reflexivity. }
  assert (Hname : Aggregator.device_type_name mapping code = Ok (lower raw)).
  { unfold Aggregator.device_type_name, Aggregator.rbind. rewrite Hget.
    reflexivity. }
  split; [exact Hname|].
  split; [exact Hiff|]. split; [|split; [|split]].
  - intros ->. reflexivity.
  - intros Hc. apply Hiff. now right.
  - intros -> Hc. unfold Aggregator.is_battery.
    destruct (eq_str code "battery") eqn:He.
    + apply eq_str_iff in He. contradiction.
    + reflexivity.
  - intros E s record wifi links sn did Hsn Ht Hh Hdid Hhd Hcode o.
    rewrite <- Hiff.
    exact (@process_device_fetches_links E mapping record wifi links s sn did
             code (lower raw) Hsn Ht Hh Hdid Hhd Hcode Hname).
Qed.

(** A device of type code "BAT", which the map resolves to "Battery Pack". *)
Lemma battery_classification_witness :
  Aggregator.device_type_name Examples.type_mapping (VStr "BAT")
  = Ok "battery pack"%string /\
  Aggregator.is_battery "battery pack" (VStr "BAT") = true.
Proof.
  destruct (@battery_classification Examples.type_mapping (VStr "BAT")
              "Battery Pack" eq_refl) as [H1 [_ [H2 _]]].
  split; [exact H1 | exact (H2 eq_refl)].
Defined.

(** ** Where the values of a snapshot come from *)

Section YieldsRules.

Context {A B : Type}.

Lemma yields_ret (a : A) (Q : A -> list Event -> Prop) :
  Q a [] -> yields (ret a) Q.
Proof. intros H s a' Ha. injection Ha as <-. exact H. Qed.

Lemma yields_raise e (Q : A -> list Event -> Prop) : yields (raise e) Q.
Proof. intros s a Ha. discriminate Ha. Qed.

Lemma yields_lift (r : Res A) (Q : A -> list Event -> Prop) :
  (forall a, r = Ok a -> Q a []) -> yields (lift r) Q.
Proof. intros H s a Ha. apply H. exact Ha. Qed.

Lemma yields_bind (m : M A) (f : A -> M B) (P : A -> list Event -> Prop)
    (Q : B -> list Event -> Prop) :
  yields m P ->
  (forall a ev1, P a ev1 -> yields (f a) (fun b ev2 => Q b (ev1 ++ ev2))) ->
  yields (bind m f) Q.
Proof.
  intros Hm Hf s b. rewrite res_bind, evs_bind.
  destruct (res (m s)) as [a|e] eqn:Ha; [|discriminate].
  apply (Hf a (evs (m s)) (Hm s a Ha)).
Qed.

Lemma yields_bind_lift (r : Res A) (f : A -> M B) (Q : B -> list Event -> Prop) :
  (forall a, r = Ok a -> yields (f a) Q) -> yields (bind (lift r) f) Q.
Proof.
  intros Hf s b. rewrite res_bind, evs_bind. cbn [lift res post evs app].
  destruct r as [a|e]; [|discriminate]. apply (Hf a eq_refl).
Qed.

Lemma yields_bind_ret (a : A) (f : A -> M B) (Q : B -> list Event -> Prop) :
  yields (f a) Q -> yields (bind (ret a) f) Q.
Proof.
  intros Hf s b. rewrite res_bind, evs_bind. cbn [ret res post evs app].
  apply Hf.
Qed.

Lemma yields_try (m : M A) (Q : Res A -> list Event -> Prop) :
  yields m (fun a ev => Q (Ok a) ev) ->
  (forall e ev, Q (Raise e) ev) ->
  yields (try m) Q.
Proof.
  intros Hm Hraise s r. rewrite res_try, evs_try. intros Hr. injection Hr as <-.
  destruct (res (m s)) as [a|e] eqn:Ha; [apply (Hm s a Ha) | apply Hraise].
Qed.

Lemma yields_impl (m : M A) (P Q : A -> list Event -> Prop) :
  (forall a ev, P a ev -> Q a ev) -> yields m P -> yields m Q.
Proof. intros H Hm s a Ha. apply H, (Hm s a Ha). Qed.

End YieldsRules.

Section Origins.

Import Client Aggregator.

Variable E : Env.
Variable now : datetime.

Lemma yields_fetch r : yields (fetch E r) (fun v ev => In (EvReturn r v) ev).
Proof. intros s v H. apply fetch_return_event. exact H. Qed.

Lemma from_fetch_mono ev ev' R v :
  (forall e, In e ev -> In e ev') -> from_fetch ev R v -> from_fetch ev' R v.
Proof.
  intros Hsub [H | [r [HR Hin]]]; [now left | right; eauto].
Qed.

Lemma wifi_origin_mono ev ev' wifi :
  (forall e, In e ev -> In e ev') -> wifi_origin ev wifi -> wifi_origin ev' wifi.
Proof. intros Hsub H k v Hin. eapply from_fetch_mono; eauto. Qed.

Lemma links_origin_mono ev ev' links :
  (forall e, In e ev -> In e ev') -> links_origin ev links -> links_origin ev' links.
Proof.
  intros Hsub H k v Hin. destruct (H k v Hin) as [Ht Hf].
  split; [exact Ht | eapply from_fetch_mono; eauto].
Qed.

Lemma entry_origin_mono sid ev ev' entry :
  (forall e, In e ev -> In e ev') ->
  entry_origin now sid ev entry -> entry_origin now sid ev' entry.
Proof.
  intros Hsub H k v Hin. destruct (H k v Hin) as [tt [Hk Hf]].
  exists tt. split; [exact Hk | eapply from_fetch_mono; eauto].
Qed.

Lemma device_origin_mono sid ev ev' v :
  (forall e, In e ev -> In e ev') -> device_origin sid ev v -> device_origin sid ev' v.
Proof.
  intros Hsub [H | [page [wifi [links [Hv [Hin [Hw Hl]]]]]]]; [now left|].
  right. exists page, wifi, links.
  split; [exact Hv|]. split; [auto|]. split.
  - eapply wifi_origin_mono; eauto.
  - eapply links_origin_mono; eauto.
Qed.

Lemma provenance_mono m ev ev' :
  (forall e, In e ev -> In e ev') -> provenance now m ev -> provenance now m ev'.
Proof.
  intros Hsub [H1 [H2 H3]]. split; [|split]; intros k v Hin.
  - destruct (H1 k v Hin) as [sid [entry [Hk [Hv Ho]]]].
    exists sid, entry. repeat split; auto. eapply entry_origin_mono; eauto.
  - destruct (H2 k v Hin) as [sid [Hk Ho]].
    exists sid. split; auto. eapply from_fetch_mono; eauto.
  - destruct (H3 k v Hin) as [sid [Hk Ho]].
    exists sid. split; auto. eapply device_origin_mono; eauto.
Qed.

(** The key under which [d[k] = v] stores [v]. *)
Lemma in_dict_set_key d k v k' v' :
  In (k', v') (dict_set d k v) -> In (k', v') d \/ (v' = v /\ key_for k' k).
Proof.
  induction d as [|[k0 v0] d IH]; simpl.
  - intros [H|[]]. injection H as <- <-. right. split; [reflexivity | now left].
  - destruct (key_eqb k0 k) eqn:Hk; simpl.
    + intros [H|H]; [|left; now right].
      injection H as <- <-. right. split; [reflexivity | now right].
    + intros [H|H]; [left; now left|].
      destruct (IH H) as [H'|H']; [left; now right | now right].
Qed.

Lemma setitem_in d k v d' k' v' :
  setitem d k v = Ok d' -> In (k', v') d' ->
  In (k', v') d \/ (v' = v /\ key_for k' k).
Proof.
  unfold setitem. destruct (hashable k); [|discriminate].
  intros H. injection H as <-. apply in_dict_set_key.
Qed.

End Origins.

Section DeviceOrigins.

Import Client Aggregator.

Variable E : Env.

Ltac sub_events :=
  let e := fresh "e" in
  let He := fresh "He" in
  intros e He; simpl in *; rewrite ?in_app_iff in *; tauto.

Lemma wifi_set_origin ev wifi sn v w :
  wifi_origin ev wifi ->
  from_fetch ev (eq (RDeviceWifi sn)) v ->
  setitem wifi sn v = Ok w ->
  wifi_origin ev w.
Proof.
  intros Hw Hv Hset k' v' Hin.
  destruct (setitem_in _ _ _ _ _ Hset Hin) as [Hold | [-> Hkey]]; [auto|].
  destruct Hv as [Hv | [r [<- Hr]]]; [now left|].
  right. exists (RDeviceWifi sn). split; [eauto | exact Hr].
Qed.

Lemma links_set_origin ev links did v l :
  links_origin ev links ->
  truthy did = true ->
  from_fetch ev (fun r => exists sn, r = RBatteryLinks sn) v ->
  setitem links did v = Ok l ->
  links_origin ev l.
Proof.
  intros Hl Ht Hv Hset k' v' Hin.
  destruct (setitem_in _ _ _ _ _ Hset Hin) as [Hold | [-> Hkey]]; [auto|].
  split; [|exact Hv].
  destruct Hkey as [-> | Hkey]; [exact Ht|].
  rewrite (key_eqb_truthy _ _ Hkey). exact Ht.
Qed.

Lemma process_device_origin mapping record wifi links ev0 :
  wifi_origin ev0 wifi -> links_origin ev0 links ->
  yields (process_device E mapping record (wifi, links))
         (fun wl ev => wifi_origin (ev0 ++ ev) (fst wl) /\
                       links_origin (ev0 ++ ev) (snd wl)).
Proof.
  intros Hw Hl. unfold process_device. cbv zeta. cbn [fst snd].
  apply yields_bind_lift. intros sn1 _.
  assert (Hk : forall device_sn,
    yields
      (device_id <- lift (py_get record (VStr "deviceId") VNone) ;;
       (if truthy device_sn
        then
         x <- try (wifi_data <- async_get_device_wifi E device_sn ;;
                   lift (setitem wifi device_sn wifi_data)) ;;
         wifi' <- match x with
                  | Ok w => ret w
                  | Raise _ => lift (setitem wifi device_sn empty_dict)
                  end ;;
         device_type_code <- lift (py_get record (VStr "deviceType") VNone) ;;
         name <- lift (device_type_name mapping device_type_code) ;;
         (if is_battery name device_type_code
          then
           y <- try (battery_links_data <- async_get_battery_links E device_sn ;;
                     (if truthy device_id
                      then lift (setitem links device_id battery_links_data)
                      else ret links)) ;;
           match y with
           | Ok l => ret (wifi', l)
           | Raise _ =>
               if truthy device_id
               then l <- lift (setitem links device_id empty_dict) ;; ret (wifi', l)
               else ret (wifi', links)
           end
          else ret (wifi', links))
        else ret (wifi, links)))
      (fun wl ev => wifi_origin (ev0 ++ ev) (fst wl) /\
                    links_origin (ev0 ++ ev) (snd wl))).
  { intros device_sn. apply yields_bind_lift. intros did _.
    destruct (truthy device_sn) eqn:Hsn.
    2: { apply yields_ret. rewrite app_nil_r. auto. }
    apply yields_bind
      with (P := fun x ev1 => match x with
                              | Ok w => wifi_origin (ev0 ++ ev1) w
                              | Raise _ => True
                              end).
    { apply yields_try; [|auto].
      apply yields_bind
        with (P := fun v ev => In (EvReturn (RDeviceWifi device_sn) v) ev);
        [apply yields_fetch|].
      intros v ev1 Hin. apply yields_lift. intros w Hset.
      eapply wifi_set_origin; [| |exact Hset].
      - eapply wifi_origin_mono; [|exact Hw]. sub_events.
      - right. exists (RDeviceWifi device_sn). split; [reflexivity|].
        rewrite !in_app_iff. auto. }
    intros x ev1 Hx.
    apply yields_bind
      with (P := fun w ev => ev = [] /\ wifi_origin (ev0 ++ ev1) w).
    { destruct x as [w|e].
      - apply yields_ret. auto.
      - apply yields_lift. intros w Hset. split; [reflexivity|].
        eapply wifi_set_origin; [| |exact Hset].
        + eapply wifi_origin_mono; [|exact Hw]. sub_events.
        + now left. }
    intros wifi' ev2 [-> Hw'].
    apply yields_bind_lift. intros code _.
    apply yields_bind_lift. intros name _.
    destruct (is_battery name code).
    2: { apply yields_ret. cbn [fst snd]. split.
         - eapply wifi_origin_mono; [|exact Hw']. sub_events.
         - eapply links_origin_mono; [|exact Hl]. sub_events. }
    apply yields_bind
      with (P := fun y ev => match y with
                             | Ok l => links_origin (ev0 ++ ev1 ++ ev) l
                             | Raise _ => True
                             end).
    { apply yields_try; [|auto].
      apply yields_bind
        with (P := fun v ev => In (EvReturn (RBatteryLinks device_sn) v) ev);
        [apply yields_fetch|].
      intros v ev3 Hin. destruct (truthy did) eqn:Hdid.
      - apply yields_lift. intros l Hset.
        eapply links_set_origin; [| exact Hdid | |exact Hset].
        + eapply links_origin_mono; [|exact Hl]. sub_events.
        + right. exists (RBatteryLinks device_sn). split; [eauto|].
          rewrite !in_app_iff. auto.
      - apply yields_ret. eapply links_origin_mono; [|exact Hl]. sub_events. }
    intros y ev3 Hy. destruct y as [l|e].
    - apply yields_ret. cbn [fst snd]. split.
      + eapply wifi_origin_mono; [|exact Hw']. sub_events.
      + eapply links_origin_mono; [|exact Hy]. sub_events.
    - destruct (truthy did) eqn:Hdid.
      + apply yields_bind_lift. intros l Hset. apply yields_ret.
        cbn [fst snd]. split.
        * eapply wifi_origin_mono; [|exact Hw']. sub_events.
        * eapply links_set_origin; [| exact Hdid | |exact Hset].
          -- eapply links_origin_mono; [|exact Hl]. sub_events.
          -- now left.
      + apply yields_ret. cbn [fst snd]. split.
        * eapply wifi_origin_mono; [|exact Hw']. sub_events.
        * eapply links_origin_mono; [|exact Hl]. sub_events. }
  destruct (truthy sn1).
  - apply yields_bind_ret. apply Hk.
  - apply yields_bind_lift. intros sn2 _. apply Hk.
Qed.

Lemma devices_loop_origin mapping records wl ev0 :
  wifi_origin ev0 (fst wl) -> links_origin ev0 (snd wl) ->
  yields (devices_loop E mapping records wl)
         (fun wl' ev => wifi_origin (ev0 ++ ev) (fst wl') /\
                        links_origin (ev0 ++ ev) (snd wl')).
Proof.
  revert wl ev0. induction records as [|record rest IH];
    intros [wifi links] ev0 Hw Hl; cbn [devices_loop].
  - apply yields_ret. rewrite app_nil_r. auto.
  - eapply yields_bind; [apply process_device_origin; eassumption|].
    intros wl' ev1 [Hw' Hl']. cbv beta.
    eapply yields_impl; [|apply (IH wl' (ev0 ++ ev1) Hw' Hl')].
    intros wl'' ev2. rewrite app_assoc. auto.
Qed.

Lemma device_page_body_origin station_info sid :
  yields (device_page_body E station_info sid)
         (fun v ev => device_origin sid ev v).
Proof.
  unfold device_page_body.
  apply yields_bind
    with (P := fun v ev => In (EvReturn (RDevicePage sid "all" 1 100) v) ev);
    [apply yields_fetch|].
  intros page ev1 Hpage.
  do 5 (apply yields_bind_lift; intros ? _).
  destruct page as [| | | | |page]; try apply yields_raise.
  apply yields_bind_lift. intros records _.
  eapply yields_bind.
  - apply (@devices_loop_origin _ _ ([], []) []); intros k v [].
  - intros wl ev2 [Hw Hl]. apply yields_ret. right.
    exists page, (fst wl), (snd wl). split; [reflexivity|].
    split; [rewrite !in_app_iff; auto|]. split.
    + eapply wifi_origin_mono; [|exact Hw]. sub_events.
    + eapply links_origin_mono; [|exact Hl]. sub_events.
Qed.

End DeviceOrigins.

Section StationOrigins.

Import Client Aggregator.

Variable E : Env.
Variable now : datetime.

Ltac sub_events :=
  let e := fresh "e" in
  let He := fresh "He" in
  intros e He; simpl in *; rewrite ?in_app_iff in *; tauto.

Lemma entry_set_origin sid ev entry tt v :
  entry_origin now sid ev entry ->
  from_fetch ev (eq (RReport sid (search_time now tt) tt)) v ->
  entry_origin now sid ev (dict_set entry (VStr tt) v).
Proof.
  intros He Hv k' v' Hin.
  destruct (in_dict_set_key _ _ _ _ _ Hin) as [Hold | [-> Hkey]]; [auto|].
  exists tt. split; [|exact Hv].
  destruct Hkey as [-> | Hkey]; [reflexivity|].
  destruct k'; simpl in Hkey; try discriminate.
  apply String.eqb_eq in Hkey. now subst.
Qed.

Lemma fetch_window_origin sid entry tt ev0 :
  entry_origin now sid ev0 entry ->
  yields (fetch_window E now sid entry tt)
         (fun entry' ev => entry_origin now sid (ev0 ++ ev) entry').
Proof.
  intros He. unfold fetch_window.
  apply yields_bind
    with (P := fun x ev => match x with
                           | Ok v => In (EvReturn (RReport sid (search_time now tt) tt) v) ev
                           | Raise _ => True
                           end).
  { apply yields_try; [|auto]. apply yields_fetch. }
  intros x ev1 Hx. destruct x as [v|e]; apply yields_ret;
    apply entry_set_origin;
    try (eapply entry_origin_mono; [|exact He]; sub_events).
  - right. eexists. split; [reflexivity|]. rewrite !in_app_iff. auto.
  - now left.
Qed.

Lemma fetch_windows_origin sid tts : forall entry ev0,
  entry_origin now sid ev0 entry ->
  yields (fetch_windows E now sid entry tts)
         (fun entry' ev => entry_origin now sid (ev0 ++ ev) entry').
Proof.
  induction tts as [|tt rest IH]; intros entry ev0 He; cbn [fetch_windows].
  - apply yields_ret. now rewrite app_nil_r.
  - eapply yields_bind; [apply fetch_window_origin; exact He|].
    intros entry' ev1 He'. cbv beta.
    eapply yields_impl; [|apply (IH entry' (ev0 ++ ev1) He')].
    intros entry'' ev2. now rewrite app_assoc.
Qed.

Lemma yields_any A (m : M A) : yields m (fun _ _ => True).
Proof. intros s a _. exact I. Qed.

Lemma fetch_component_origin sid component ev0 :
  (forall k v, In (k, v) component ->
     exists sid', key_for k sid' /\
       from_fetch ev0 (eq (RComponent sid' (strftime_Ymd now))) v) ->
  yields (fetch_component E now sid component)
    (fun c ev => forall k v, In (k, v) c ->
       exists sid', key_for k sid' /\
         from_fetch (ev0 ++ ev) (eq (RComponent sid' (strftime_Ymd now))) v).
Proof.
  intros Hc. unfold fetch_component.
  apply yields_bind
    with (P := fun x ev => match x with
                           | Ok v => In (EvReturn (RComponent sid (strftime_Ymd now)) v) ev
                           | Raise _ => True
                           end).
  { apply yields_try; [|auto]. apply yields_fetch. }
  intros x ev1 Hx.
  destruct x as [c|e]; apply yields_ret; intros k v Hin;
    (destruct (in_dict_set_key _ _ _ _ _ Hin) as [Hold | [-> Hkey]];
     [destruct (Hc _ _ Hold) as [sid' [Hk Hv]]; exists sid'; split; [exact Hk|];
      eapply from_fetch_mono; [|exact Hv]; sub_events
     | exists sid; split; [exact Hkey|]]).
  - right. eexists. split; [reflexivity|]. rewrite !in_app_iff. auto.
  - now left.
Qed.

Lemma fetch_devices_origin info sid devices ev0 :
  (forall k v, In (k, v) devices ->
     exists sid', key_for k sid' /\ device_origin sid' ev0 v) ->
  yields (fetch_devices E info sid devices)
    (fun d ev => forall k v, In (k, v) d ->
       exists sid', key_for k sid' /\ device_origin sid' (ev0 ++ ev) v).
Proof.
  intros Hd. unfold fetch_devices.
  apply yields_bind
    with (P := fun x ev => match x with
                           | Ok v => device_origin sid ev v
                           | Raise _ => True
                           end).
  { apply yields_try; [|auto]. apply device_page_body_origin. }
  intros x ev1 Hx.
  destruct x as [c|e]; apply yields_ret; intros k v Hin;
    (destruct (in_dict_set_key _ _ _ _ _ Hin) as [Hold | [-> Hkey]];
     [destruct (Hd _ _ Hold) as [sid' [Hk Hv]]; exists sid'; split; [exact Hk|];
      eapply device_origin_mono; [|exact Hv]; sub_events
     | exists sid; split; [exact Hkey|]]).
  - eapply device_origin_mono; [|exact Hx]. sub_events.
  - now left.
Qed.

Lemma station_rest_origin sid info m ev0 :
  provenance now m ev0 ->
  yields (station_rest E now sid info m)
         (fun m' ev => provenance now m' (ev0 ++ ev)).
Proof.
  intros [Hr [Hc Hd]]. unfold station_rest.
  apply yields_bind with (P := fun entry ev => entry_origin now sid ev entry).
  { apply (@fetch_windows_origin sid time_types [] []). intros k v []. }
  intros entry ev1 He.
  eapply yields_bind; [apply (@fetch_component_origin sid _ (ev0 ++ ev1))|].
  { intros k v Hin. destruct (Hc _ _ Hin) as [sid' [Hk Hv]].
    exists sid'. split; [exact Hk|].
    eapply from_fetch_mono; [|exact Hv]; sub_events. }
  intros component ev2 Hc'. cbv beta.
  eapply yields_bind;
    [apply (@fetch_devices_origin info sid _ (ev0 ++ ev1 ++ ev2))|].
  { intros k v Hin. destruct (Hd _ _ Hin) as [sid' [Hk Hv]].
    exists sid'. split; [exact Hk|].
    eapply device_origin_mono; [|exact Hv]. sub_events. }
  intros devices ev3 Hd'. cbv beta. apply yields_ret.
  split; [|split]; cbn [stations_reports stations_component stations_devices].
  - intros k v Hin.
    destruct (in_dict_set_key _ _ _ _ _ Hin) as [Hold | [-> Hkey]].
    + destruct (Hr _ _ Hold) as [sid' [entry' [Hk [Hv Ho]]]].
      exists sid', entry'. split; [exact Hk|]. split; [exact Hv|].
      eapply entry_origin_mono; [|exact Ho]. sub_events.
    + exists sid, entry. split; [exact Hkey|]. split; [reflexivity|].
      eapply entry_origin_mono; [|exact He]. sub_events.
  - intros k v Hin. destruct (Hc' _ _ Hin) as [sid' [Hk Hv]].
    exists sid'. split; [exact Hk|].
    eapply from_fetch_mono; [|exact Hv]; sub_events.
  - intros k v Hin. destruct (Hd' _ _ Hin) as [sid' [Hk Hv]].
    exists sid'. split; [exact Hk|].
    eapply device_origin_mono; [|exact Hv]. sub_events.
Qed.

Lemma process_station_origin record m ev0 :
  provenance now m ev0 ->
  yields (process_station E now record m)
         (fun m' ev => provenance now m' (ev0 ++ ev)).
Proof.
  intros Hm. unfold process_station.
  apply yields_bind_lift. intros sid _.
  destruct (truthy sid).
  2: { apply yields_ret. now rewrite app_nil_r. }
  apply yields_bind
    with (P := fun x ev => match x with
                           | Ok m' => provenance now m' (ev0 ++ ev)
                           | Raise _ => True
                           end).
  { apply yields_try; [|auto].
    eapply yields_bind; [apply yields_any|].
    intros info ev1 _. apply yields_bind_lift. intros info' _.
    eapply yields_impl; [|apply (@station_rest_origin sid info _ (ev0 ++ ev1))].
    - intros m' ev2. now rewrite app_assoc.
    - eapply provenance_mono; [|exact Hm]. sub_events. }
  intros x ev1 Hx. destruct x as [m'|e]; apply yields_ret; rewrite app_nil_r.
  - exact Hx.
  - eapply provenance_mono; [|exact Hm]. sub_events.
Qed.

Lemma stations_loop_origin records : forall m ev0,
  provenance now m ev0 ->
  yields (stations_loop E now records m)
         (fun m' ev => provenance now m' (ev0 ++ ev)).
Proof.
  induction records as [|record rest IH]; intros m ev0 Hm; cbn [stations_loop].
  - apply yields_ret. now rewrite app_nil_r.
  - eapply yields_bind; [apply process_station_origin; exact Hm|].
    intros m' ev1 Hm'. cbv beta.
    eapply yields_impl; [|apply (IH m' (ev0 ++ ev1) Hm')].
    intros m'' ev2. now rewrite app_assoc.
Qed.

End StationOrigins.

Section CycleOrigins.

Import Client Aggregator.

Variable E : Env.

Lemma cycle_provenance :
  yields (async_update_data E)
         (fun snap ev => provenance (datetime_now E) (maps snap) ev).
Proof.
  unfold async_update_data. cbv zeta.
  eapply yields_bind; [apply yields_any|].
  intros stations_data ev1 _.
  do 3 (apply yields_bind_lift; intros ? _).
  eapply yields_bind;
    [apply (@stations_loop_origin E (datetime_now E) _ empty_maps ev1)|].
  - split; [|split]; intros k v [].
  - intros m ev2 Hm. cbv beta. apply yields_ret. cbn [maps].
    now rewrite app_nil_r.
Qed.

End CycleOrigins.

(** * Further properties of the client *)

Section LanguageHeader.

Import Headers.

Lemma prefix_fr s :
  String.prefix "fr" (lower s) = true <->
  exists c1 c2 rest, s = String c1 (String c2 rest) /\
                     lower_ascii c1 = "f"%char /\ lower_ascii c2 = "r"%char.
Proof.
  rewrite prefix_iff. split.
  - intros [rest H]. destruct s as [|c1 [|c2 s]]; try discriminate H.
    simpl in H. injection H as H1 H2 _. exists c1, c2, s. auto.
  - intros (c1 & c2 & rest & -> & H1 & H2). exists (lower rest).
    simpl. rewrite H1, H2. reflexivity.
Qed.

End LanguageHeader.

(** X1.  [_get_language_header] answers ["en"] when no language is
    configured (none, or the empty string); for a language that is a string
    it answers ["fr"] or ["en"], and ["fr"] exactly when the first two
    characters are [f] and [r] in either (ASCII) case; a truthy language
    that is not a string makes [.lower()] raise [AttributeError]. *)
Theorem language_header_cases (language : value) :
  (truthy language = false ->
   Headers._get_language_header language = Ok "en"%string) /\
  (forall s, language = VStr s ->
     exists h, Headers._get_language_header language = Ok h /\
               (h = "fr"%string \/ h = "en"%string) /\
               (h = "fr"%string <->
                exists c1 c2 rest,
                  s = String c1 (String c2 rest) /\
                  lower_ascii c1 = "f"%char /\ lower_ascii c2 = "r"%char)) /\
  (truthy language = true -> (forall s, language <> VStr s) ->
   Headers._get_language_header language = Raise AttributeError).
Proof.
  unfold Headers._get_language_header, py_or. split; [|split].
  - intros ->. reflexivity.
  - intros s ->. simpl truthy. destruct (String.eqb_spec s "") as [->|Hne].
    + simpl. exists "en"%string. split; [reflexivity|]. split; [now right|].
      split; [discriminate|]. intros (? & ? & ? & H & _). discriminate.
    + cbn [negb py_lower Aggregator.rbind].
      destruct (String.prefix "fr" (lower s)) eqn:Hp.
      * exists "fr"%string. split; [reflexivity|]. split; [now left|].
        split; [intros _; apply prefix_fr; exact Hp | reflexivity].
      * exists "en"%string. split; [reflexivity|]. split; [now right|].
        split; [discriminate|]. intros H. apply prefix_fr in H. congruence.
  - intros Ht Hns. rewrite Ht.
    destruct language; try reflexivity; try discriminate.
    exfalso. eapply Hns. reflexivity.
Qed.

(** The header for a Belgian French locale written in capitals. *)
Lemma language_header_cases_witness :
  Headers._get_language_header (VStr "FR-be") = Ok "fr"%string.
Proof.
  destruct (language_header_cases (VStr "FR-be")) as [_ [H _]].
  destruct (H "FR-be"%string eq_refl) as [h [Hh [_ Hiff]]].
  rewrite Hh. f_equal. apply Hiff.
  exists "F"%char, "R"%char, "-be"%string. repeat split.
Defined.

(** ** Relating the state before and after *)

Section Keeps.

Variable I : State -> State -> list Event -> Prop.

Hypothesis I_refl : forall s, I s s [].
Hypothesis I_trans :
  forall s s1 s2 e1 e2, I s s1 e1 -> I s1 s2 e2 -> I s s2 (e1 ++ e2).

Lemma keeps_ret {A} (a : A) : keeps I (ret a).
Proof. intros s. apply I_refl. Qed.

Lemma keeps_raise {A} e : keeps I (@raise A e).
Proof. intros s. apply I_refl. Qed.

Lemma keeps_lift {A} (r : Res A) : keeps I (lift r).
Proof. intros s. apply I_refl. Qed.

Lemma keeps_get_state : keeps I get_state.
Proof. intros s. apply I_refl. Qed.

Lemma keeps_bind {A B} (m : M A) (f : A -> M B) :
  keeps I m -> (forall a, keeps I (f a)) -> keeps I (bind m f).
Proof.
  intros Hm Hf s. rewrite evs_bind, post_bind.
  destruct (res (m s)) as [a|e].
  - apply I_trans with (post (m s)); [apply Hm | apply Hf].
  - rewrite app_nil_r. apply Hm.
Qed.

Lemma keeps_try {A} (m : M A) : keeps I m -> keeps I (try m).
Proof. intros Hm s. apply Hm. Qed.

Lemma keeps_emit e : (forall s, I s s [e]) -> keeps I (emit e).
Proof. intros H s. apply H. Qed.

(** An event followed by the step that it announces. *)
Lemma keeps_emit_then {A B} e (m : M A) (f : A -> M B) :
  (forall s, evs (m s) = [] /\ exists a, res (m s) = Ok a) ->
  (forall s, I s (post (m s)) [e]) ->
  (forall a, keeps I (f a)) ->
  keeps I (bind (emit e) (fun _ => bind m f)).
Proof.
  intros Hm He Hf s. rewrite evs_bind, post_bind. cbn [emit evs res post].
  rewrite evs_bind, post_bind.
  destruct (Hm s) as [Hev [a Ha]]. rewrite Hev, Ha. cbn [app].
  change (e :: evs (f a (post (m s)))) with ([e] ++ evs (f a (post (m s)))).
  apply I_trans with (post (m s)); [apply He | apply Hf].
Qed.

End Keeps.

Ltac keeps_step :=
  match goal with
  | |- keeps _ (ret _) => apply keeps_ret
  | |- keeps _ (raise _) => apply keeps_raise
  | |- keeps _ (lift _) => apply keeps_lift
  | |- keeps _ get_state => apply keeps_get_state
  | |- keeps _ (try _) => apply keeps_try
  | |- keeps _ (bind _ _) => apply keeps_bind; [| | | intros ?]
  | |- keeps _ (match ?x with _ => _ end) => destruct x eqn:?
  | |- keeps _ (if ?x then _ else _) => destruct x eqn:?
  end.

Section ClientKeeps.

Import Client.

Variable E : Env.
Variable I : State -> State -> list Event -> Prop.

Hypothesis I_refl : forall s, I s s [].
Hypothesis I_trans :
  forall s s1 s2 e1 e2, I s s1 e1 -> I s1 s2 e2 -> I s s2 (e1 ++ e2).
Hypothesis I_clock : forall s, I s (after_clock s) [].
Hypothesis I_sleep : forall s who a w, I s (after_random s) [EvSleep who a w].
Hypothesis I_get : forall s r a, I s (after_request s) [EvGet r a].
Hypothesis I_return : forall s r v, I s s [EvReturn r v].
Hypothesis I_raise : forall s r, I s s [EvRaise r].
Hypothesis I_login : keeps I (async_login E).

Lemma keeps_backoff who a maxa : keeps I (backoff E who a maxa).
Proof.
  unfold backoff. destruct (a <? maxa)%nat; [|apply keeps_ret; auto].
  intros s. unfold bind. simpl. apply I_sleep.
Qed.

Lemma keeps_token_is_valid : keeps I (_token_is_valid E).
Proof.
  intros s. unfold _token_is_valid, bind. simpl.
  destruct (negb (truthy (_token s)) || negb (expiry_truthy (_expiry s)));
    simpl; [apply I_refl|].
  destruct (_expiry s); simpl; [apply I_clock | apply I_refl].
Qed.

Lemma keeps_ensure_token : keeps I (ensure_token E).
Proof.
  unfold ensure_token.
  apply keeps_bind; [exact I_trans | apply keeps_token_is_valid |].
  intros [|]; simpl; [apply keeps_ret; auto | exact I_login].
Qed.

Lemma keeps_check_response out : keeps I (check_response E out).
Proof.
  unfold check_response. destruct out as [| |status text];
    try (apply keeps_raise; auto).
  destruct (status =? 401)%Z.
  - apply keeps_bind; [exact I_trans | exact I_login |].
    intros _. apply keeps_raise; auto.
  - destruct ((500 <=? status)%Z && (status <? 600)%Z);
      [apply keeps_raise; auto|].
    destruct (negb (status =? 200)%Z); [apply keeps_raise; auto|].
    destruct (json_loads E text); [apply keeps_ret | apply keeps_raise]; auto.
Qed.

Lemma keeps_fetch_attempt r a : keeps I (fetch_attempt E r a).
Proof.
  unfold fetch_attempt.
  apply keeps_bind; [exact I_trans | apply keeps_ensure_token |]. intros _.
  intros s. rewrite evs_bind, post_bind. cbn [get_state res evs post app].
  apply keeps_emit_then
    with (e := EvGet r a) (m := request E (Get r (_token s)))
         (f := check_response E);
    [ exact I_trans
    | intros s0; split; [reflexivity | eexists; reflexivity]
    | intros s0; apply I_get
    | intros out; apply keeps_check_response ].
Qed.

Lemma keeps_fetch_loop r attempts : keeps I (fetch_loop E r attempts).
Proof.
  induction attempts as [|a rest IH]; cbn [fetch_loop].
  - apply keeps_raise; auto.
  - apply keeps_bind; [exact I_trans | |].
    + apply keeps_try, keeps_fetch_attempt.
    + intros [v|e]; [apply keeps_ret; auto|].
      apply keeps_bind; [exact I_trans | apply keeps_backoff | auto].
Qed.

Lemma keeps_fetch r : keeps I (fetch E r).
Proof.
  unfold fetch. apply keeps_bind; [exact I_trans | |].
  - apply keeps_try, keeps_fetch_loop.
  - intros [v|e];
      (apply keeps_bind; [exact I_trans | apply keeps_emit; auto | intros _]);
      [apply keeps_ret | apply keeps_raise]; auto.
Qed.

End ClientKeeps.

Section LoginKeeps.

Import Client.

Variable E : Env.
Variable I : State -> State -> list Event -> Prop.

Hypothesis I_refl : forall s, I s s [].
Hypothesis I_trans :
  forall s s1 s2 e1 e2, I s s1 e1 -> I s1 s2 e2 -> I s s2 (e1 ++ e2).
Hypothesis I_clock : forall s, I s (after_clock s) [].
Hypothesis I_sleep : forall s who a w, I s (after_random s) [EvSleep who a w].
Hypothesis I_post : forall s a, I s (after_request s) [EvPost a].
Hypothesis I_mark : forall s, I s s [EvLogin].
Hypothesis I_set_token : forall s t, I s (post (set_token t s)) [].
Hypothesis I_set_expiry : forall s q, I s (post (set_expiry q s)) [].

Lemma keeps_set_token t : keeps I (set_token t).
Proof. intros s. apply I_set_token. Qed.

Lemma keeps_set_expiry q : keeps I (set_expiry q).
Proof. intros s. apply I_set_expiry. Qed.

Lemma keeps_time_time : keeps I (time_time E).
Proof. intros s. apply I_clock. Qed.

Lemma keeps_login_attempt a : keeps I (login_attempt E a).
Proof.
  unfold login_attempt.
  apply keeps_emit_then;
    [ exact I_trans
    | intros s; split; [reflexivity | eexists; reflexivity]
    | intros s; apply I_post
    | ].
  intros [| |status text]; try (apply keeps_raise; auto).
  destruct (json_loads E text) as [data|]; [|apply keeps_raise; auto].
  apply keeps_bind; [exact I_trans | |].
  - destruct data as [| | | | |d]; [apply keeps_ret; exact I_refl ..|].
    apply keeps_bind; [exact I_trans | apply keeps_lift; exact I_refl |].
    intros. apply keeps_lift; exact I_refl.
  - intros token. destruct (negb (truthy token)); [apply keeps_raise; auto|].
    apply keeps_bind; [exact I_trans | apply keeps_set_token |]. intros _.
    destruct (_decode_jwt_exp E token) as [q|];
      [destruct (float_truthy q)|];
      try (apply keeps_set_expiry);
      (apply keeps_bind; [exact I_trans | apply keeps_time_time |]; intros;
       apply keeps_set_expiry).
Qed.

Lemma keeps_login_loop attempts : keeps I (login_loop E attempts).
Proof.
  induction attempts as [|a rest IH]; cbn [login_loop].
  - apply keeps_raise; auto.
  - apply keeps_bind; [exact I_trans | |].
    + apply keeps_try, keeps_login_attempt.
    + intros [v|e]; [apply keeps_ret; auto|].
      apply keeps_bind; [exact I_trans | apply keeps_backoff; auto | auto].
Qed.

Lemma keeps_async_login : keeps I (async_login E).
Proof.
  unfold async_login.
  apply keeps_bind;
    [exact I_trans | apply keeps_emit; auto | intros _; apply keeps_login_loop].
Qed.

End LoginKeeps.

(** ** Requests, draws and credentials across a fetch *)

Section Accounting.

Import Client.

Variable E : Env.

Lemma accounted_refl s : accounted s s [].
Proof. unfold accounted, count. simpl. lia. Qed.

Lemma accounted_trans s s1 s2 e1 e2 :
  accounted s s1 e1 -> accounted s1 s2 e2 -> accounted s s2 (e1 ++ e2).
Proof. unfold accounted. rewrite !count_app. lia. Qed.

Lemma accounted_login : keeps accounted (async_login E).
Proof.
  apply keeps_async_login.
  all: try exact accounted_refl.
  all: try exact accounted_trans.
  all: try exact accounted_login.
  all: intros; unfold accounted, count; simpl; lia.
Qed.

Lemma accounted_fetch r : keeps accounted (fetch E r).
Proof.
  apply keeps_fetch.
  all: try exact accounted_refl.
  all: try exact accounted_trans.
  all: try exact accounted_login.
  all: intros; unfold accounted, count; simpl; lia.
Qed.

Lemma accounted_fetch_attempt r a : keeps accounted (fetch_attempt E r a).
Proof.
  apply keeps_fetch_attempt.
  all: try exact accounted_refl.
  all: try exact accounted_trans.
  all: try exact accounted_login.
  all: intros; unfold accounted, count; simpl; lia.
Qed.

Lemma accounted_ensure_token : keeps accounted (ensure_token E).
Proof.
  apply keeps_ensure_token.
  all: try exact accounted_refl.
  all: try exact accounted_trans.
  all: try exact accounted_login.
  all: intros; unfold accounted, count; simpl; lia.
Qed.

Lemma accounted_backoff who a maxa : keeps accounted (backoff E who a maxa).
Proof.
  apply keeps_backoff.
  all: try exact accounted_refl.
  all: intros; unfold accounted, count; simpl; lia.
Qed.

Lemma same_credentials_refl s : same_credentials s s.
Proof. split; reflexivity. Qed.

Lemma same_credentials_trans s s1 s2 :
  same_credentials s s1 -> same_credentials s1 s2 -> same_credentials s s2.
Proof. unfold same_credentials. intros [-> ->] [-> ->]. auto. Qed.

Lemma login_or_same_refl s : login_or_same s s [].
Proof. intros _. apply same_credentials_refl. Qed.

Lemma login_or_same_trans s s1 s2 e1 e2 :
  login_or_same s s1 e1 -> login_or_same s1 s2 e2 ->
  login_or_same s s2 (e1 ++ e2).
Proof.
  unfold login_or_same. rewrite count_app. intros H1 H2 H.
  apply same_credentials_trans with s1; [apply H1 | apply H2]; lia.
Qed.

Lemma login_or_same_login : keeps login_or_same (async_login E).
Proof.
  intros s. unfold login_or_same. rewrite evs_async_login.
  unfold count. simpl. discriminate.
Qed.

Lemma login_or_same_fetch r : keeps login_or_same (fetch E r).
Proof.
  apply keeps_fetch.
  all: try exact login_or_same_refl.
  all: try exact login_or_same_trans.
  all: try exact login_or_same_login.
  all: intros; intros _; split; reflexivity.
Qed.

End Accounting.

Section AggregatorKeeps.

Import Client Aggregator.

Variable E : Env.
Variable I : State -> State -> list Event -> Prop.

Hypothesis I_refl : forall s, I s s [].
Hypothesis I_trans :
  forall s s1 s2 e1 e2, I s s1 e1 -> I s1 s2 e2 -> I s s2 (e1 ++ e2).
Hypothesis I_fetch : forall r, keeps I (fetch E r).

Ltac agg_keeps :=
  repeat match goal with
  | |- keeps _ (fetch _ _) => apply I_fetch
  | |- keeps _ (ret _) => apply keeps_ret; exact I_refl
  | |- keeps _ (raise _) => apply keeps_raise; exact I_refl
  | |- keeps _ (lift _) => apply keeps_lift; exact I_refl
  | |- keeps _ (try _) => apply keeps_try
  | |- keeps _ (bind _ _) => apply keeps_bind; [exact I_trans | | intros ?]
  | |- keeps _ (match ?x with _ => _ end) => destruct x
  end.

Lemma keeps_fetch_window now sid entry tt :
  keeps I (fetch_window E now sid entry tt).
Proof. unfold fetch_window, async_get_report. agg_keeps. Qed.

Lemma keeps_fetch_windows now sid tts entry :
  keeps I (fetch_windows E now sid entry tts).
Proof.
  revert entry. induction tts as [|tt rest IH]; intros entry;
    cbn [fetch_windows]; [agg_keeps|].
  apply keeps_bind; [exact I_trans | apply keeps_fetch_window | auto].
Qed.

Lemma keeps_fetch_component now sid component :
  keeps I (fetch_component E now sid component).
Proof. unfold fetch_component, async_get_component. agg_keeps. Qed.

Lemma keeps_process_device mapping record wl :
  keeps I (process_device E mapping record wl).
Proof.
  unfold process_device, async_get_device_wifi, async_get_battery_links.
  cbv zeta. agg_keeps.
Qed.

Lemma keeps_devices_loop mapping records wl :
  keeps I (devices_loop E mapping records wl).
Proof.
  revert wl. induction records as [|record rest IH]; intros wl;
    cbn [devices_loop]; [agg_keeps|].
  apply keeps_bind; [exact I_trans | apply keeps_process_device | auto].
Qed.

Lemma keeps_device_page_body station_info sid :
  keeps I (device_page_body E station_info sid).
Proof.
  unfold device_page_body, async_get_device_page.
  apply keeps_bind; [exact I_trans | apply I_fetch |]. intros page.
  do 5 (apply keeps_bind;
        [exact I_trans | apply keeps_lift; exact I_refl |]; intros ?).
  destruct page; try (apply keeps_raise; exact I_refl).
  apply keeps_bind; [exact I_trans | apply keeps_lift; exact I_refl |].
  intros records.
  apply keeps_bind; [exact I_trans | apply keeps_devices_loop |].
  intros wl. apply keeps_ret; exact I_refl.
Qed.

Lemma keeps_fetch_devices station_info sid devices :
  keeps I (fetch_devices E station_info sid devices).
Proof.
  unfold fetch_devices.
  apply keeps_bind;
    [exact I_trans | apply keeps_try, keeps_device_page_body |].
  intros [v|e]; apply keeps_ret; exact I_refl.
Qed.

Lemma keeps_station_rest now sid station_info m :
  keeps I (station_rest E now sid station_info m).
Proof.
  unfold station_rest.
  apply keeps_bind; [exact I_trans | apply keeps_fetch_windows |]. intros ?.
  apply keeps_bind; [exact I_trans | apply keeps_fetch_component |]. intros ?.
  apply keeps_bind; [exact I_trans | apply keeps_fetch_devices |]. intros ?.
  apply keeps_ret; exact I_refl.
Qed.

Lemma keeps_process_station now record m :
  keeps I (process_station E now record m).
Proof.
  unfold process_station, async_get_station_info.
  apply keeps_bind; [exact I_trans | apply keeps_lift; exact I_refl |].
  intros sid. destruct (truthy sid); [|apply keeps_ret; exact I_refl].
  apply keeps_bind; [exact I_trans | apply keeps_try |].
  - apply keeps_bind; [exact I_trans | apply I_fetch |]. intros info.
    apply keeps_bind; [exact I_trans | apply keeps_lift; exact I_refl |].
    intros ?. apply keeps_station_rest.
  - intros [m'|e]; apply keeps_ret; exact I_refl.
Qed.

Lemma keeps_stations_loop now records m :
  keeps I (stations_loop E now records m).
Proof.
  revert m. induction records as [|record rest IH]; intros m;
    cbn [stations_loop]; [apply keeps_ret; exact I_refl|].
  apply keeps_bind; [exact I_trans | apply keeps_process_station | auto].
Qed.

Lemma keeps_async_update_data : keeps I (async_update_data E).
Proof.
  unfold async_update_data, async_get_stations. cbv zeta.
  apply keeps_bind; [exact I_trans | apply I_fetch |]. intros ?.
  do 3 (apply keeps_bind;
        [exact I_trans | apply keeps_lift; exact I_refl |]; intros ?).
  apply keeps_bind; [exact I_trans | apply keeps_stations_loop |]. intros ?.
  apply keeps_ret; exact I_refl.
Qed.

End AggregatorKeeps.

(** ** Logins *)

Section LoginFacts.

Import Client.

Variable E : Env.

Lemma login_attempt_raise_same a s e :
  res (login_attempt E a s) = Raise e ->
  same_credentials s (post (login_attempt E a s)).
Proof.
  unfold login_attempt, bind. simpl.
  repeat (match goal with
          | |- context [match ?x with _ => _ end] => destruct x eqn:?
          end; simpl; try discriminate);
    intros _; split; reflexivity.
Qed.

Lemma backoff_same who a maxa s :
  same_credentials s (post (backoff E who a maxa s)).
Proof. unfold backoff. destruct (a <? maxa)%nat; split; reflexivity. Qed.

Lemma login_loop_raise attempts s e :
  res (login_loop E attempts s) = Raise e ->
  e = Error "Login failed after retries" /\
  same_credentials s (post (login_loop E attempts s)).
Proof.
  revert s. induction attempts as [|a rest IH]; intros s; cbn [login_loop].
  - intros H. injection H as <-. split; [reflexivity | split; reflexivity].
  - rewrite res_bind, post_bind, res_try, post_try. cbv beta iota.
    destruct (res (login_attempt E a s)) as [[]|e1] eqn:Ha; [discriminate|].
    rewrite res_bind, post_bind, backoff_ok. cbv beta iota.
    intros H. destruct (IH _ H) as [-> Hs]. split; [reflexivity|].
    eapply same_credentials_trans; [|exact Hs].
    eapply same_credentials_trans;
      [exact (login_attempt_raise_same _ _ Ha) | apply backoff_same].
Qed.

Lemma async_login_raise s e :
  res (async_login E s) = Raise e ->
  e = Error "Login failed after retries" /\
  same_credentials s (post (async_login E s)).
Proof.
  unfold async_login. rewrite res_bind, post_bind. cbn [emit res post].
  apply login_loop_raise.
Qed.

Lemma login_first_attempt_ok s :
  res (login_attempt E 1 s) = Ok tt ->
  res (async_login E s) = Ok tt /\
  post (async_login E s) = post (login_attempt E 1 s) /\
  evs (async_login E s) = [EvLogin; EvPost 1].
Proof.
  intros H. unfold async_login.
  change (seq 1 login_max_attempts) with [1; 2]%nat. cbn [login_loop].
  repeat (rewrite ?res_bind, ?post_bind, ?evs_bind, ?res_try, ?post_try,
            ?evs_try, ?H; cbn [emit ret res post evs]).
  rewrite evs_login_attempt. auto.
Qed.

End LoginFacts.

(** X2.  A login that raises raises [Exception("Login failed after
    retries")], never [asyncio.TimeoutError] (time-outs of the attempts are
    caught inside the loop), and leaves the token and the expiry of the
    client as they were. *)
Theorem login_failure_keeps_credentials (E : Env) (s : State) (e : exn) :
  res (Client.async_login E s) = Raise e ->
  e = Error "Login failed after retries" /\
  e <> TimeoutError /\
  same_credentials s (post (Client.async_login E s)).
Proof.
  intros H. destruct (async_login_raise E s H) as [-> Hs].
  split; [reflexivity|]. split; [discriminate | exact Hs].
Qed.

Lemma login_failure_keeps_credentials_witness :
  same_credentials MoreExamples.logged_in
    (post (Client.async_login Examples.env_down MoreExamples.logged_in)).
Proof.
  apply (@login_failure_keeps_credentials Examples.env_down
           MoreExamples.logged_in (Error "Login failed after retries")).
  vm_compute. reflexivity.
Defined.

(** X3.  [async_login] does not look at the status of the response:
    whatever the status, a first answer whose body is a JSON object with a
    truthy [data.token] makes the login return after that single POST, with
    that token stored. *)
Theorem login_ignores_status (E : Env) (s : State) (status : Z) (text : string)
    (d : pydict) (inner token : value) :
  http E (http_calls s) (Post (_username E) (_password E)) = HResp status text ->
  json_loads E text = Some (VDict d) ->
  py_get (VDict d) (VStr "data") empty_dict = Ok inner ->
  py_get inner (VStr "token") VNone = Ok token ->
  truthy token = true ->
  res (Client.async_login E s) = Ok tt /\
  _token (post (Client.async_login E s)) = token /\
  evs (Client.async_login E s) = [EvLogin; EvPost 1].
Proof.
  intros Hh Hj Hd Ht Htr.
  assert (Ha : res (Client.login_attempt E 1 s) = Ok tt /\
               _token (post (Client.login_attempt E 1 s)) = token).
  { unfold Client.login_attempt, bind.
    cbn -[py_get truthy Client._decode_jwt_exp Client.float_truthy].
    rewrite Hh. cbn -[py_get truthy Client._decode_jwt_exp Client.float_truthy].
    rewrite Hj. cbn -[py_get truthy Client._decode_jwt_exp Client.float_truthy].
    rewrite Hd. cbn -[py_get truthy Client._decode_jwt_exp Client.float_truthy].
    rewrite Ht. cbn -[py_get truthy Client._decode_jwt_exp Client.float_truthy].
    rewrite Htr. cbn -[py_get truthy Client._decode_jwt_exp Client.float_truthy].
    destruct (Client._decode_jwt_exp E token) as [q|];
      [destruct (Client.float_truthy q)|]; simpl; auto. }
  destruct Ha as [Ha Htok].
  destruct (login_first_attempt_ok E s Ha) as [Hr [Hp He]].
  rewrite Hp. auto.
Qed.

Lemma login_ignores_status_witness :
  res (Client.async_login MoreExamples.env_login_500 init_state) = Ok tt /\
  _token (post (Client.async_login MoreExamples.env_login_500 init_state))
  = VStr "opaque" /\
  evs (Client.async_login MoreExamples.env_login_500 init_state)
  = [EvLogin; EvPost 1].
Proof.
  apply (@login_ignores_status MoreExamples.env_login_500 init_state 500
           Examples.login_body
           [(VStr "data", VDict [(VStr "token", VStr "opaque")])]
           (VDict [(VStr "token", VStr "opaque")]) (VStr "opaque"));
    reflexivity.
Defined.

(** ** What an attempt does with the response *)

Section FetchResults.

Import Client.

Variable E : Env.

Lemma evs_check_response out s :
  evs (check_response E out s) =
  match out with
  | HResp status _ =>
      if (status =? 401)%Z then evs (async_login E s) else []
  | _ => []
  end.
Proof.
  unfold check_response. destruct out as [| |status text]; try reflexivity.
  destruct (status =? 401)%Z.
  - rewrite evs_bind. destruct (res (async_login E s));
      cbn [raise evs]; apply app_nil_r.
  - destruct ((500 <=? status)%Z && (status <? 600)%Z); [reflexivity|].
    destruct (negb (status =? 200)%Z); [reflexivity|].
    destruct (json_loads E text); reflexivity.
Qed.

Lemma check_response_ok out s v :
  res (check_response E out s) = Ok v ->
  exists text, out = HResp 200 text /\ json_loads E text = Some v /\
               post (check_response E out s) = s.
Proof.
  unfold check_response. destruct out as [| |status text]; try discriminate.
  destruct (status =? 401)%Z.
  { rewrite res_bind. destruct (res (async_login E s)); discriminate. }
  destruct ((500 <=? status)%Z && (status <? 600)%Z); [discriminate|].
  destruct (status =? 200)%Z eqn:H200; [|discriminate]. cbn [negb].
  apply Z.eqb_eq in H200. subst status.
  destruct (json_loads E text) as [v'|] eqn:Hj; [|discriminate].
  intros H. injection H as ->. exists text. repeat split; auto.
Qed.

Lemma check_response_fails_silent out s :
  get_fails E out -> (forall text, out <> HResp 401 text) ->
  (exists e, res (check_response E out s) = Raise e) /\
  evs (check_response E out s) = [] /\
  post (check_response E out s) = s.
Proof.
  intros Hf H401. unfold check_response.
  assert (Hraise : forall e, (exists e', res (@raise value e s) = Raise e') /\
                             evs (@raise value e s) = [] /\
                             post (@raise value e s) = s).
  { intros e. split; [eexists; reflexivity | split; reflexivity]. }
  destruct out as [| |status text]; [apply Hraise | apply Hraise |].
  destruct (status =? 401)%Z eqn:H1.
  { apply Z.eqb_eq in H1. subst. exfalso. eapply H401. reflexivity. }
  destruct ((500 <=? status)%Z && (status <? 600)%Z); [apply Hraise|].
  destruct (status =? 200)%Z eqn:H200; cbn [negb]; [|apply Hraise].
  apply Z.eqb_eq in H200. destruct Hf as [Hf|Hf]; [contradiction|].
  rewrite Hf. apply Hraise.
Qed.

Lemma token_valid_post s :
  res (_token_is_valid E s) = Ok true ->
  post (_token_is_valid E s) = after_clock s.
Proof.
  unfold _token_is_valid, bind. simpl.
  destruct (negb (truthy (_token s)) || negb (expiry_truthy (_expiry s)));
    simpl; [discriminate|].
  destruct (_expiry s); simpl; [reflexivity | discriminate].
Qed.

Lemma token_check_same s : same_credentials s (post (_token_is_valid E s)).
Proof.
  unfold _token_is_valid, bind. simpl.
  destruct (negb (truthy (_token s)) || negb (expiry_truthy (_expiry s)));
    simpl; [split; reflexivity|].
  destruct (_expiry s); simpl; split; reflexivity.
Qed.

Lemma post_ensure_token s :
  post (ensure_token E s) =
  match res (_token_is_valid E s) with
  | Ok false => post (async_login E (post (_token_is_valid E s)))
  | _ => post (_token_is_valid E s)
  end.
Proof.
  unfold ensure_token. rewrite post_bind.
  destruct (token_is_valid_silent E s) as [_ [b Hb]]. rewrite Hb.
  destruct b; reflexivity.
Qed.

Lemma ensure_token_ok s :
  res (ensure_token E s) = Ok tt ->
  truthy (_token (post (ensure_token E s))) = true /\
  exists e, _expiry (post (ensure_token E s)) = Some e.
Proof.
  rewrite res_ensure_token, post_ensure_token.
  destruct (token_is_valid_silent E s) as [_ [b Hb]]. rewrite Hb.
  destruct b.
  - intros _. destruct (token_check_same s) as [-> ->].
    apply token_is_valid_iff in Hb. destruct Hb as [Ht [e [He _]]]. eauto.
  - intros H. destruct (async_login_ok E _ H) as [Ht He]. eauto.
Qed.

Lemma evs_fetch_attempt r a s :
  evs (fetch_attempt E r a s) =
  evs (ensure_token E s) ++
  match res (ensure_token E s) with
  | Ok _ =>
      let s1 := post (ensure_token E s) in
      EvGet r a ::
      evs (check_response E (http E (http_calls s1) (Get r (_token s1)))
             (after_request s1))
  | Raise _ => []
  end.
Proof.
  unfold fetch_attempt. rewrite evs_bind.
  destruct (res (ensure_token E s)); [|reflexivity].
  repeat (rewrite ?evs_bind; cbn [get_state emit request res post evs app]).
  reflexivity.
Qed.

Lemma res_fetch_attempt r a s :
  res (fetch_attempt E r a s) =
  match res (ensure_token E s) with
  | Ok _ =>
      let s1 := post (ensure_token E s) in
      res (check_response E (http E (http_calls s1) (Get r (_token s1)))
             (after_request s1))
  | Raise e => Raise e
  end.
Proof.
  unfold fetch_attempt. rewrite res_bind.
  destruct (res (ensure_token E s)); [|reflexivity].
  repeat (rewrite ?res_bind; cbn [get_state emit request res post evs app]).
  reflexivity.
Qed.

Lemma post_fetch_attempt r a s :
  post (fetch_attempt E r a s) =
  match res (ensure_token E s) with
  | Ok _ =>
      let s1 := post (ensure_token E s) in
      post (check_response E (http E (http_calls s1) (Get r (_token s1)))
              (after_request s1))
  | Raise e => post (ensure_token E s)
  end.
Proof.
  unfold fetch_attempt. rewrite post_bind.
  destruct (res (ensure_token E s)); [|reflexivity].
  repeat (rewrite ?post_bind; cbn [get_state emit request res post evs app]).
  reflexivity.
Qed.

Lemma fetch_attempt_ok r a s v :
  res (fetch_attempt E r a s) = Ok v ->
  let s1 := post (ensure_token E s) in
  truthy (_token s1) = true /\
  (exists e, _expiry s1 = Some e) /\
  exists text,
    http E (http_calls s1) (Get r (_token s1)) = HResp 200 text /\
    json_loads E text = Some v /\
    post (fetch_attempt E r a s) = after_request s1.
Proof.
  rewrite res_fetch_attempt, post_fetch_attempt.
  destruct (res (ensure_token E s)) as [[]|e] eqn:Hens; [|discriminate].
  cbv zeta. intros H. destruct (ensure_token_ok s Hens) as [Ht He].
  split; [exact Ht|]. split; [exact He|].
  destruct (check_response_ok _ _ H) as [text [Hout [Hj Hp]]].
  exists text. auto.
Qed.

Lemma fetch_loop_ok r attempts s v :
  res (fetch_loop E r attempts s) = Ok v ->
  exists a s0,
    (http_calls s <= http_calls s0)%nat /\
    res (fetch_attempt E r a s0) = Ok v /\
    post (fetch_loop E r attempts s) = post (fetch_attempt E r a s0).
Proof.
  revert s. induction attempts as [|a rest IH]; intros s; cbn [fetch_loop].
  - discriminate.
  - rewrite res_bind, post_bind, res_try, post_try. cbv beta iota.
    destruct (res (fetch_attempt E r a s)) as [v'|e] eqn:Ha.
    + cbn [ret res post]. intros H. injection H as ->.
      exists a, s. split; [lia | auto].
    + rewrite res_bind, post_bind, backoff_ok. cbv beta iota. intros H.
      destruct (IH _ H) as [a' [s0 [Hle [Hok Hp]]]].
      exists a', s0. split; [|auto].
      pose proof (accounted_fetch_attempt E r a s) as [H1 _].
      pose proof (accounted_backoff E (ByFetch r) a fetch_max_attempts
                    (post (fetch_attempt E r a s))) as [H2 _].
      lia.
Qed.

Lemma post_fetch r s :
  post (fetch E r s) = post (fetch_loop E r (seq 1 fetch_max_attempts) s).
Proof.
  unfold fetch. rewrite post_bind, res_try, post_try.
  destruct (res (fetch_loop E r (seq 1 fetch_max_attempts) s));
    rewrite post_bind; reflexivity.
Qed.

Lemma res_fetch r s :
  res (fetch E r s) = res (fetch_loop E r (seq 1 fetch_max_attempts) s).
Proof.
  unfold fetch. rewrite res_bind, res_try.
  destruct (res (fetch_loop E r (seq 1 fetch_max_attempts) s));
    rewrite res_bind; reflexivity.
Qed.

End FetchResults.

(** X4.  A value that a fetch returns is the parsed body of a response
    with status 200 to a GET of that very resource, made during the call
    with the token that the client holds when the fetch returns; that token
    is truthy and an expiry is set. *)
Theorem fetch_returns_parsed_200 (E : Env) (r : Resource) (s : State)
    (v : value) :
  res (Client.fetch E r s) = Ok v ->
  let s' := post (Client.fetch E r s) in
  exists n text,
    (http_calls s <= n < http_calls s')%nat /\
    http E n (Get r (_token s')) = HResp 200 text /\
    json_loads E text = Some v /\
    truthy (_token s') = true /\
    exists e, _expiry s' = Some e.
Proof.
  rewrite res_fetch, post_fetch. intros H.
  destruct (fetch_loop_ok E _ _ _ H) as [a [s0 [Hle [Hok Hp]]]].
  destruct (fetch_attempt_ok E _ _ _ Hok) as [Ht [He [text [Hh [Hj Hq]]]]].
  cbv zeta in *. rewrite Hp, Hq.
  exists (http_calls (post (Client.ensure_token E s0))), text.
  pose proof (accounted_ensure_token E s0) as [H1 _].
  cbn [after_request http_calls _token _expiry].
  split; [lia|]. auto.
Qed.

Lemma fetch_returns_parsed_200_witness :
  exists n text,
    (0 <= n < 2)%nat /\
    http Examples.env_plain n (Get (RStations 1 100) (VStr "opaque"))
    = HResp 200 text /\
    json_loads Examples.env_plain text = Some (VDict []).
Proof.
  destruct (@fetch_returns_parsed_200 Examples.env_plain (RStations 1 100)
              init_state (VDict []) eq_refl)
    as [n [text [Hn [Hh [Hj _]]]]].
  exists n, text. auto.
Defined.

(** X5.  An attempt that finds the token valid issues its GET at once.
    On status 200 with a JSON body it returns the parsed body and does
    nothing else.  On status 401 it calls [async_login] once, after the
    GET, and raises whether or not that login succeeds ([Unauthorized] when
    it does).  On a time-out, a transport error, any other status, or a 200
    whose body is not JSON, it raises without logging in and without
    touching the credentials. *)
Theorem attempt_by_response (E : Env) (r : Resource) (a : nat) (s : State) :
  res (Client._token_is_valid E s) = Ok true ->
  let out := http E (http_calls s) (Get r (_token s)) in
  let s1 := after_request (after_clock s) in
  let o := Client.fetch_attempt E r a s in
  (forall text v, out = HResp 200 text -> json_loads E text = Some v ->
     res o = Ok v /\ evs o = [EvGet r a] /\ post o = s1) /\
  (forall text, out = HResp 401 text ->
     (exists e, res o = Raise e) /\
     (res (Client.async_login E s1) = Ok tt ->
      res o = Raise (Error "Unauthorized")) /\
     evs o = EvGet r a :: evs (Client.async_login E s1) /\
     post o = post (Client.async_login E s1)) /\
  (get_fails E out -> (forall text, out <> HResp 401 text) ->
     (exists e, res o = Raise e) /\ evs o = [EvGet r a] /\ post o = s1).
Proof.
  intros Hv out s1 o. subst o.
  rewrite res_fetch_attempt, evs_fetch_attempt, post_fetch_attempt.
  rewrite res_ensure_token, evs_ensure_token, post_ensure_token, Hv.
  rewrite (token_valid_post E s Hv). cbv zeta.
  cbn [after_clock http_calls _token app]. fold out.
  change (after_request (after_clock s)) with s1.
  split; [|split].
  - intros text v Ho Hj. rewrite Ho. unfold Client.check_response.
    cbn [Z.eqb Pos.eqb Z.leb Z.ltb Z.compare Pos.compare Pos.compare_cont
         andb negb]. rewrite Hj. auto.
  - intros text Ho. rewrite Ho. unfold Client.check_response.
    cbn [Z.eqb Pos.eqb]. rewrite res_bind, evs_bind, post_bind.
    destruct (res (Client.async_login E s1)) as [[]|e];
      cbn [raise res evs post]; rewrite ?app_nil_r;
      (split; [eauto|]); (split; [|auto]); [reflexivity | discriminate].
  - intros Hf H401.
    destruct (check_response_fails_silent E s1 Hf H401) as [Hr [He Hp]].
    rewrite He, Hp. auto.
Qed.

Lemma attempt_by_response_witness :
  evs (Client.fetch_attempt MoreExamples.env_unauthorized
         (RStationInfo (VNum 42)) 1 MoreExamples.logged_in)
  = [EvGet (RStationInfo (VNum 42)) 1; EvLogin; EvPost 1].
Proof.
  destruct (@attempt_by_response MoreExamples.env_unauthorized
              (RStationInfo (VNum 42)) 1 MoreExamples.logged_in eq_refl)
    as [_ [H _]].
  destruct (H ""%string eq_refl) as [_ [_ [He _]]].
  etransitivity; [exact He|]. vm_compute. reflexivity.
Defined.

(** ** No request for data without a token *)

Section NoToken.

Import Client.

Variable E : Env.

Lemma login_events_no_get_in r a l : Forall login_event l -> ~ In (EvGet r a) l.
Proof.
  intros H Hin. rewrite Forall_forall in H. exact (H _ Hin).
Qed.

Lemma get_needs_token r a a' s :
  In (EvGet r a') (evs (fetch_attempt E r a s)) ->
  res (ensure_token E s) = Ok tt /\
  truthy (_token (post (ensure_token E s))) = true.
Proof.
  rewrite evs_fetch_attempt. intros Hin.
  destruct (res (ensure_token E s)) as [[]|e] eqn:Hens.
  - split; [reflexivity|]. apply (ensure_token_ok E s Hens).
  - rewrite app_nil_r in Hin. exfalso.
    exact (@login_events_no_get_in r a' _ (ensure_token_events E s) Hin).
Qed.

Lemma count_login_async s :
  count is_login (evs (async_login E s)) = 1%nat.
Proof.
  rewrite evs_async_login.
  change (count is_login (EvLogin :: ?l)) with (S (count is_login l)).
  rewrite login_inner_no_login by apply login_loop_events. reflexivity.
Qed.

Hypothesis posts_fail : forall n u p, post_fails E (http E n (Post u p)).

Lemma token_missing_invalid s :
  truthy (_token s) = false ->
  _token_is_valid E s = mkOut (Ok false) s [].
Proof.
  intros Ht. unfold _token_is_valid, bind. simpl. rewrite Ht. reflexivity.
Qed.

Lemma attempt_without_token r a s :
  truthy (_token s) = false ->
  (exists e, res (fetch_attempt E r a s) = Raise e) /\
  evs (fetch_attempt E r a s) = evs (async_login E s) /\
  truthy (_token (post (fetch_attempt E r a s))) = false.
Proof.
  intros Ht.
  rewrite res_fetch_attempt, evs_fetch_attempt, post_fetch_attempt.
  rewrite res_ensure_token, evs_ensure_token, post_ensure_token.
  rewrite (@token_missing_invalid s Ht). cbn [res post evs].
  pose proof (@login_fails E posts_fail s) as Hl. rewrite Hl.
  rewrite app_nil_r. split; [eauto|]. split; [reflexivity|].
  destruct (async_login_raise E s Hl) as [_ [-> _]]. exact Ht.
Qed.

Lemma loop_without_token r attempts s :
  truthy (_token s) = false ->
  res (fetch_loop E r attempts s) = Raise (fetch_error r) /\
  count is_get (evs (fetch_loop E r attempts s)) = 0%nat /\
  count is_login (evs (fetch_loop E r attempts s)) = List.length attempts.
Proof.
  revert s. induction attempts as [|a rest IH]; intros s Ht;
    cbn [fetch_loop].
  - repeat split; reflexivity.
  - rewrite res_bind, evs_bind, res_try, evs_try, post_try. cbv beta iota.
    destruct (@attempt_without_token r a s Ht) as [[e He] [Hev Hp]].
    rewrite He, Hev. rewrite res_bind, evs_bind, backoff_ok. cbv beta iota.
    set (s1 := post (backoff E (ByFetch r) a fetch_max_attempts
                       (post (fetch_attempt E r a s)))).
    assert (Ht1 : truthy (_token s1) = false).
    { subst s1. destruct (backoff_same E (ByFetch r) a fetch_max_attempts
                            (post (fetch_attempt E r a s))) as [-> _].
      exact Hp. }
    destruct (IH s1 Ht1) as [Hr [Hg Hl]].
    rewrite !count_app, Hr, Hg, Hl, count_login_async.
    rewrite (login_events_no_get (login_events E s)).
    rewrite evs_backoff_no_get.
    split; [reflexivity|]. split; [reflexivity|].
    rewrite evs_backoff. destruct (a <? fetch_max_attempts)%nat; reflexivity.
Qed.

End NoToken.

(** X6.  No GET is issued without a token: an attempt issues its GET
    only after [ensure_token] returned, and the client then holds a truthy
    token.  A client without a token whose login requests all fail in
    transport or parsing issues no GET at all: the fetch tries to log in
    three times, once per attempt, and raises its after-retries error. *)
Theorem no_get_without_token (E : Env) (r : Resource) (s : State) :
  (forall a a',
     In (EvGet r a') (evs (Client.fetch_attempt E r a s)) ->
     res (Client.ensure_token E s) = Ok tt /\
     truthy (_token (post (Client.ensure_token E s))) = true) /\
  ((forall n u p, post_fails E (http E n (Post u p))) ->
   truthy (_token s) = false ->
   res (Client.fetch E r s) = Raise (Client.fetch_error r) /\
   count is_get (evs (Client.fetch E r s)) = 0%nat /\
   count is_login (evs (Client.fetch E r s)) = 3%nat).
Proof.
  split.
  - intros a a'. apply get_needs_token.
  - intros Hp Ht.
    destruct (@loop_without_token E Hp r (seq 1 Client.fetch_max_attempts) s Ht)
      as [Hr [Hg Hl]].
    unfold Client.fetch.
    rewrite res_bind, evs_bind, res_try, evs_try, Hr.
    rewrite res_bind, evs_bind. cbn [emit raise res evs post].
    rewrite !count_app, Hg, Hl. repeat split.
Qed.

Lemma no_get_without_token_witness :
  count is_get (evs (Client.fetch Examples.env_down (RStations 1 100) init_state))
  = 0%nat.
Proof.
  destruct (no_get_without_token Examples.env_down (RStations 1 100) init_state)
    as [_ H].
  apply H; [intros n u p; exact I | reflexivity].
Defined.

(** X7.  The fetch methods never write the token or the expiry
    themselves: a fetch, and a whole update cycle, in which [async_login]
    is not called leaves both as they were. *)
Theorem credentials_change_only_by_login (E : Env) (s : State) :
  (forall r, count is_login (evs (Client.fetch E r s)) = 0%nat ->
             same_credentials s (post (Client.fetch E r s))) /\
  (count is_login (evs (Aggregator.async_update_data E s)) = 0%nat ->
   same_credentials s (post (Aggregator.async_update_data E s))).
Proof.
  split.
  - intros r. apply login_or_same_fetch.
  - apply (@keeps_async_update_data E login_or_same login_or_same_refl
             login_or_same_trans (login_or_same_fetch E)).
Qed.

Lemma credentials_change_only_by_login_witness :
  same_credentials MoreExamples.logged_in
    (post (Aggregator.async_update_data Examples.env_plain
             MoreExamples.logged_in)).
Proof.
  destruct (credentials_change_only_by_login Examples.env_plain
              MoreExamples.logged_in) as [_ H].
  apply H. vm_compute. reflexivity.
Defined.

(** ** The cost of a fetch *)

Section Budget.

Import Client.

Variable E : Env.

Lemma count_ensure_token s :
  (count is_login (evs (ensure_token E s)) <= 1)%nat /\
  (count is_post (evs (ensure_token E s)) <= 2)%nat.
Proof.
  rewrite evs_ensure_token.
  destruct (res (_token_is_valid E s)) as [[|]|]; try (split; apply Nat.le_0_l).
  rewrite count_login_async. split; [lia | apply count_post_login].
Qed.

Lemma count_check_response out s :
  (count is_login (evs (check_response E out s)) <= 1)%nat /\
  (count is_post (evs (check_response E out s)) <= 2)%nat.
Proof.
  rewrite evs_check_response.
  destruct out as [| |status text]; try (split; apply Nat.le_0_l).
  destruct (status =? 401)%Z; [|split; apply Nat.le_0_l].
  rewrite count_login_async. split; [lia | apply count_post_login].
Qed.

Lemma count_fetch_attempt r a s :
  (count is_login (evs (fetch_attempt E r a s)) <= 2)%nat /\
  (count is_post (evs (fetch_attempt E r a s)) <= 4)%nat.
Proof.
  rewrite evs_fetch_attempt, !count_app.
  destruct (count_ensure_token s) as [H1 H2].
  destruct (res (ensure_token E s)) as [u|e].
  - cbv zeta.
    match goal with
    | |- context [check_response E ?out ?s1] =>
        destruct (count_check_response out s1) as [H3 H4];
        set (l := evs (check_response E out s1)) in *
    end.
    change (count is_login (EvGet r a :: l)) with (count is_login l).
    change (count is_post (EvGet r a :: l)) with (count is_post l).
    lia.
  - change (count is_login []) with 0%nat.
    change (count is_post []) with 0%nat. lia.
Qed.

Lemma count_backoff who a maxa s :
  count is_login (evs (backoff E who a maxa s)) = 0%nat /\
  count is_post (evs (backoff E who a maxa s)) = 0%nat.
Proof.
  rewrite evs_backoff. destruct (a <? maxa)%nat; split; reflexivity.
Qed.

Lemma count_fetch_loop r attempts s :
  (count is_login (evs (fetch_loop E r attempts s))
   <= 2 * List.length attempts)%nat /\
  (count is_post (evs (fetch_loop E r attempts s))
   <= 4 * List.length attempts)%nat.
Proof.
  revert s. induction attempts as [|a rest IH]; intros s; cbn [fetch_loop].
  - split; apply Nat.le_0_l.
  - rewrite evs_bind, res_try, evs_try, post_try, !count_app. cbv beta iota.
    destruct (count_fetch_attempt r a s) as [H1 H2].
    cbn [List.length].
    destruct (res (fetch_attempt E r a s)) as [v|e].
    + change (evs (ret v ?x)) with (@nil Event).
      change (count is_login []) with 0%nat.
      change (count is_post []) with 0%nat. lia.
    + rewrite evs_bind, backoff_ok, !count_app. cbv beta iota.
      match goal with
      | |- context [fetch_loop E r rest ?s1] =>
          destruct (IH s1) as [H3 H4]
      end.
      destruct (count_backoff (ByFetch r) a fetch_max_attempts
                  (post (fetch_attempt E r a s))) as [-> ->].
      lia.
Qed.

Lemma count_fetch r s :
  (count is_login (evs (fetch E r s)) <= 6)%nat /\
  (count is_post (evs (fetch E r s)) <= 12)%nat.
Proof.
  unfold fetch. rewrite evs_bind, res_try, evs_try, !count_app.
  destruct (count_fetch_loop r (seq 1 fetch_max_attempts) s) as [H1 H2].
  change (List.length (seq 1 fetch_max_attempts)) with 3%nat in *.
  destruct (res (fetch_loop E r (seq 1 fetch_max_attempts) s)) as [v|e];
    rewrite evs_bind; cbn [emit ret raise res evs post app];
    unfold count at 2 4; cbn [filter is_login is_post List.length]; lia.
Qed.

End Budget.

(** X8.  One fetch calls [async_login] at most six times (before the GET
    and after a 401, in each of three attempts) and so issues at most twelve
    POSTs and three GETs: at most fifteen HTTP requests.  The requests made
    are exactly the POSTs and GETs among the events, and one random number
    is drawn for each sleep. *)
Theorem fetch_request_budget (E : Env) (r : Resource) (s : State) :
  let o := Client.fetch E r s in
  (count is_login (evs o) <= 6)%nat /\
  (count is_post (evs o) <= 12)%nat /\
  (count is_get (evs o) <= 3)%nat /\
  http_calls (post o)
  = (http_calls s + count is_post (evs o) + count is_get (evs o))%nat /\
  random_draws (post o) = (random_draws s + count is_sleep (evs o))%nat /\
  (http_calls (post o) <= http_calls s + 15)%nat.
Proof.
  intros o. subst o.
  destruct (count_fetch E r s) as [Hl Hp].
  pose proof (count_get_fetch E r s) as Hg.
  destruct (accounted_fetch E r s) as [Hh [Hr _]].
  repeat split; auto. lia.
Qed.

(** ** The time slept *)

Section Sleeps.

Import Client.

Variable E : Env.

Hypothesis random_unit : forall n, 0 <= random E n /\ random E n < 1.

Lemma sleep_total_app l1 l2 :
  sleep_total (l1 ++ l2) == sleep_total l1 + sleep_total l2.
Proof.
  induction l1 as [|e l1 IH]; simpl; [lra|].
  destruct e; rewrite ?IH; lra.
Qed.

Lemma backoff_wait_range a n :
  (1 <= a <= 2)%nat ->
  inject_Z (Z.of_nat (2 ^ (a - 1))) <= backoff_wait a (random E n) /\
  backoff_wait a (random E n) <= inject_Z (Z.of_nat (2 ^ (a - 1))) + (1 # 2).
Proof.
  intros Ha. destruct (random_unit n) as [H0 H1].
  pose proof (@backoff_wait_bounds a (random E n) Ha H0 H1) as H.
  replace (Z.of_nat (2 ^ (a - 1))) with (2 ^ (Z.of_nat a - 1))%Z; [exact H|].
  rewrite Nat2Z.inj_pow, Nat2Z.inj_sub by lia. reflexivity.
Qed.

Lemma sleep_backoff who a maxa s :
  (1 <= a)%nat -> (maxa <= 3)%nat ->
  0 <= sleep_total (evs (backoff E who a maxa s)) /\
  sleep_total (evs (backoff E who a maxa s)) <= longest_sleep a maxa.
Proof.
  intros Ha Hmax.
  rewrite evs_backoff. unfold longest_sleep.
  destruct (a <? maxa)%nat eqn:Hlt; simpl; [|lra].
  apply Nat.ltb_lt in Hlt.
  destruct (@backoff_wait_range a (random_draws s)) as [H1 H2]; [lia|].
  assert (0 <= inject_Z (Z.of_nat (2 ^ (a - 1)))).
  { change 0 with (inject_Z 0). rewrite <- Zle_Qle. lia. }
  lra.
Qed.

Lemma sleep_login_attempt a s : sleep_total (evs (login_attempt E a s)) = 0.
Proof. rewrite evs_login_attempt. reflexivity. Qed.

Lemma sleep_login s :
  0 <= sleep_total (evs (async_login E s)) /\
  sleep_total (evs (async_login E s)) <= 3 # 2.
Proof.
  rewrite evs_async_login.
  change (sleep_total (EvLogin :: ?l)) with (sleep_total l).
  change (seq 1 login_max_attempts) with [1; 2]%nat. cbn [login_loop].
  rewrite evs_bind, res_try, evs_try, post_try, sleep_total_app,
    sleep_login_attempt.
  cbv beta iota.
  destruct (res (login_attempt E 1 s)) as [u|e]; [simpl; lra|].
  rewrite evs_bind, backoff_ok, sleep_total_app. cbv beta iota.
  set (s1 := post (login_attempt E 1 s)).
  set (s2 := post (backoff E ByLogin 1 login_max_attempts s1)).
  rewrite evs_bind, res_try, evs_try, post_try, sleep_total_app,
    sleep_login_attempt.
  cbv beta iota.
  rewrite evs_backoff.
  change (1 <? login_max_attempts)%nat with true. cbv iota.
  destruct (@backoff_wait_range 1 (random_draws s1)) as [H3 H4]; [lia|].
  change (inject_Z (Z.of_nat (2 ^ (1 - 1)))) with 1 in H3, H4.
  cbn [sleep_total].
  destruct (res (login_attempt E 2 s2)) as [u|e2].
  - change (evs (ret tt ?x)) with (@nil Event). cbn [sleep_total]. lra.
  - rewrite evs_bind, backoff_ok, evs_backoff.
    change (2 <? login_max_attempts)%nat with false.
    cbn [login_loop raise evs app sleep_total]. lra.
Qed.

Lemma sleep_ensure_token s :
  0 <= sleep_total (evs (ensure_token E s)) /\
  sleep_total (evs (ensure_token E s)) <= 3 # 2.
Proof.
  rewrite evs_ensure_token.
  destruct (res (_token_is_valid E s)) as [[|]|]; try (simpl; lra).
  apply sleep_login.
Qed.

Lemma sleep_check_response out s :
  0 <= sleep_total (evs (check_response E out s)) /\
  sleep_total (evs (check_response E out s)) <= 3 # 2.
Proof.
  rewrite evs_check_response.
  destruct out as [| |status text]; try (simpl; lra).
  destruct (status =? 401)%Z; [apply sleep_login | simpl; lra].
Qed.

Lemma sleep_fetch_attempt r a s :
  0 <= sleep_total (evs (fetch_attempt E r a s)) /\
  sleep_total (evs (fetch_attempt E r a s)) <= 3.
Proof.
  rewrite evs_fetch_attempt, sleep_total_app.
  destruct (sleep_ensure_token s) as [H1 H2].
  destruct (res (ensure_token E s)) as [u|e]; [|simpl; lra].
  cbv zeta.
  match goal with
  | |- context [check_response E ?out ?s1] =>
      destruct (sleep_check_response out s1) as [H3 H4];
      set (l := evs (check_response E out s1)) in *
  end.
  change (sleep_total (EvGet r a :: l)) with (sleep_total l). lra.
Qed.

Lemma sleep_fetch_loop r attempts s :
  (forall a, In a attempts -> (1 <= a)%nat) ->
  0 <= sleep_total (evs (fetch_loop E r attempts s)) /\
  sleep_total (evs (fetch_loop E r attempts s)) <= sleep_budget attempts.
Proof.
  revert s. induction attempts as [|a rest IH]; intros s Hin;
    cbn [fetch_loop sleep_budget].
  - simpl. split; lra.
  - rewrite evs_bind, res_try, evs_try, post_try, sleep_total_app.
    cbv beta iota.
    destruct (sleep_fetch_attempt r a s) as [H1 H2].
    assert (Hl : 0 <= longest_sleep a fetch_max_attempts).
    { unfold longest_sleep. destruct (a <? fetch_max_attempts)%nat; [|lra].
      assert (0 <= inject_Z (Z.of_nat (2 ^ (a - 1)))).
      { change 0 with (inject_Z 0). rewrite <- Zle_Qle. lia. }
      lra. }
    assert (Hrest : forall a', In a' rest -> (1 <= a')%nat)
      by (intros a' Ha'; apply Hin; now right).
    assert (Hb : 0 <= sleep_budget rest).
    { destruct (IH s Hrest) as [Ha Hb]. lra. }
    destruct (res (fetch_attempt E r a s)) as [v|e].
    + change (evs (ret v ?x)) with (@nil Event).
      change (sleep_total []) with 0.
      split; lra.
    + rewrite evs_bind, backoff_ok, sleep_total_app. cbv beta iota.
      destruct (@sleep_backoff (ByFetch r) a fetch_max_attempts
                  (post (fetch_attempt E r a s))) as [H3 H4];
        [apply Hin; now left | unfold fetch_max_attempts; lia |].
      match goal with
      | |- context [fetch_loop E r rest ?s1] =>
          destruct (IH s1 Hrest) as [H5 H6]
      end.
      split; lra.
Qed.

Lemma sleep_fetch r s :
  0 <= sleep_total (evs (fetch E r s)) /\
  sleep_total (evs (fetch E r s)) <= 13.
Proof.
  unfold fetch. rewrite evs_bind, res_try, evs_try, sleep_total_app.
  destruct (@sleep_fetch_loop r (seq 1 fetch_max_attempts) s)
    as [H1 H2].
  { intros a Ha. apply in_seq in Ha. lia. }
  assert (H3 : sleep_total (evs (fetch_loop E r (seq 1 fetch_max_attempts) s))
               <= 13).
  { eapply Qle_trans; [exact H2|]. vm_compute. discriminate. }
  destruct (res (fetch_loop E r (seq 1 fetch_max_attempts) s)) as [v|e];
    rewrite evs_bind; cbn [emit ret raise res evs post app sleep_total]; lra.
Qed.

Lemma sleep_fetch_raise r s e :
  res (fetch E r s) = Raise e -> 3 <= sleep_total (evs (fetch E r s)).
Proof.
  intros H. unfold fetch in *.
  rewrite res_bind, res_try in H. rewrite evs_bind, res_try, evs_try.
  cbv beta iota in *.
  destruct (res (fetch_loop E r (seq 1 fetch_max_attempts) s))
    as [v|e0] eqn:H0.
  { rewrite res_bind in H. discriminate. }
  clear H. rewrite sleep_total_app, evs_bind.
  cbn [emit raise res evs post app sleep_total].
  change (seq 1 fetch_max_attempts) with [1;2;3]%nat in *.
  apply fetch_loop_cons_raise in H0. destruct H0 as [H1 ->].
  set (s1 := post (fetch_attempt E r 1 s)) in *.
  set (b1 := post (backoff E (ByFetch r) 1 fetch_max_attempts s1)) in *.
  apply fetch_loop_cons_raise in H1. destruct H1 as [H2 ->].
  set (s2 := post (fetch_attempt E r 2 b1)) in *.
  set (b2 := post (backoff E (ByFetch r) 2 fetch_max_attempts s2)) in *.
  rewrite !sleep_total_app.
  destruct (sleep_fetch_attempt r 1 s) as [A1 _].
  destruct (sleep_fetch_attempt r 2 b1) as [A2 _].
  destruct (@sleep_fetch_loop r [3]%nat b2) as [A3 _].
  { intros a [<- | []]. lia. }
  rewrite !evs_backoff.
  change (1 <? fetch_max_attempts)%nat with true.
  change (2 <? fetch_max_attempts)%nat with true.
  cbv beta iota. cbn [sleep_total].
  destruct (@backoff_wait_range 1 (random_draws s1)) as [W1 _]; [lia|].
  destruct (@backoff_wait_range 2 (random_draws s2)) as [W2 _]; [lia|].
  change (inject_Z (Z.of_nat (2 ^ (1 - 1)))) with 1 in W1.
  change (inject_Z (Z.of_nat (2 ^ (2 - 1)))) with 2 in W2.
  lra.
Qed.

End Sleeps.

(** X9.  With [random.random()] in [[0, 1)], the sleeps of one fetch add
    up to at most 13 seconds (those of one login to at most 1.5), and a
    fetch that raises has slept at least 3 seconds: 1 and 2 seconds after
    its first and second attempts.  The delays are rounded sums, so that
    the two upper bounds are not strict. *)
Theorem fetch_sleep_budget (E : Env) (r : Resource) (s : State) :
  (forall n, 0 <= random E n /\ random E n < 1) ->
  let o := Client.fetch E r s in
  0 <= sleep_total (evs o) /\
  sleep_total (evs o) <= 13 /\
  (forall e, res o = Raise e -> 3 <= sleep_total (evs o)) /\
  (forall s0, sleep_total (evs (Client.async_login E s0)) <= 3 # 2).
Proof.
  intros Hr o. subst o.
  destruct (@sleep_fetch E Hr r s) as [H1 H2].
  split; [exact H1|]. split; [exact H2|]. split.
  - intros e. apply (@sleep_fetch_raise E Hr r s e).
  - intros s0. apply (@sleep_login E Hr s0).
Qed.

Lemma fetch_sleep_budget_witness :
  3 <= sleep_total
         (evs (Client.fetch Examples.env_down (RStations 1 100) init_state)).
Proof.
  destruct (@fetch_sleep_budget Examples.env_down (RStations 1 100) init_state)
    as [_ [_ [H _]]].
  - intros n. simpl. lra.
  - eapply H. vm_compute. reflexivity.
Defined.


(** * Further properties of the aggregator *)

(** ** Dictionaries: keys that are equal, keys that differ *)

Section KeyEquality.

Lemma num_of_bool_inj x y : num_of_bool x == num_of_bool y -> x = y.
Proof. destruct x, y; simpl; intros H; auto; discriminate H. Qed.

Lemma key_eqb_sym a b : key_eqb a b = key_eqb b a.
Proof.
  destruct a as [|x|x|x|x|x], b as [|y|y|y|y|y]; simpl; auto.
  - destruct x, y; reflexivity.
  - destruct (Qeq_bool (num_of_bool x) y) eqn:H1,
             (Qeq_bool y (num_of_bool x)) eqn:H2; auto.
    + apply Qeq_bool_iff in H1. symmetry in H1. apply Qeq_bool_iff in H1.
      congruence.
    + apply Qeq_bool_iff in H2. symmetry in H2. apply Qeq_bool_iff in H2.
      congruence.
  - destruct (Qeq_bool x (num_of_bool y)) eqn:H1,
             (Qeq_bool (num_of_bool y) x) eqn:H2; auto.
    + apply Qeq_bool_iff in H1. symmetry in H1. apply Qeq_bool_iff in H1.
      congruence.
    + apply Qeq_bool_iff in H2. symmetry in H2. apply Qeq_bool_iff in H2.
      congruence.
  - destruct (Qeq_bool x y) eqn:H1, (Qeq_bool y x) eqn:H2; auto.
    + apply Qeq_bool_iff in H1. symmetry in H1. apply Qeq_bool_iff in H1.
      congruence.
    + apply Qeq_bool_iff in H2. symmetry in H2. apply Qeq_bool_iff in H2.
      congruence.
  - apply String.eqb_sym.
Qed.


Lemma key_eqb_trans a b c :
  key_eqb a b = true -> key_eqb b c = true -> key_eqb a c = true.
Proof.
  destruct a as [|x|x|x|x|x], b as [|y|y|y|y|y], c as [|z|z|z|z|z];
    simpl; try discriminate; auto;
    rewrite ?Qeq_bool_iff, ?String.eqb_eq;
    try (intros H1 H2;
         try apply Bool.eqb_prop in H1; try apply Bool.eqb_prop in H2;
         subst; auto using Bool.eqb_reflx; fail).
  all: intros H1 H2.
  all: try (apply Bool.eqb_prop in H1; subst; assumption).
  all: try (apply Bool.eqb_prop in H2; subst; assumption).
  all: try (rewrite H1; exact H2).
  - assert (H : num_of_bool x == num_of_bool z) by (rewrite H1; exact H2).
    apply num_of_bool_inj in H. subst. apply Bool.eqb_reflx.
Qed.

Lemma key_eqb_left a b c :
  key_eqb a b = true -> key_eqb a c = key_eqb b c.
Proof.
  intros H. destruct (key_eqb a c) eqn:H1, (key_eqb b c) eqn:H2; auto.
  - rewrite key_eqb_sym in H. rewrite (key_eqb_trans _ _ _ H H1) in H2.
    discriminate.
  - rewrite (key_eqb_trans _ _ _ H H2) in H1. discriminate.
Qed.

Lemma dict_get_dict_set d k v k' :
  key_eqb k k = true ->
  dict_get (dict_set d k v) k' =
  if key_eqb k k' then Some v else dict_get d k'.
Proof.
  intros Hk. unfold dict_get. induction d as [|[k0 v0] d IH]; simpl.
  - destruct (key_eqb k k'); reflexivity.
  - destruct (key_eqb k0 k) eqn:H0; simpl.
    + rewrite (key_eqb_left _ _ k' H0).
      destruct (key_eqb k k'); reflexivity.
    + destruct (key_eqb k0 k') eqn:H1; [|exact IH]. simpl.
      destruct (key_eqb k k') eqn:H2; [|reflexivity].
      rewrite key_eqb_sym in H2.
      rewrite (key_eqb_trans _ _ _ H1 H2) in H0. discriminate.
Qed.

Lemma dict_get_set_other d k v k' :
  key_eqb k k' = false -> dict_get (dict_set d k v) k' = dict_get d k'.
Proof.
  intros Hne. unfold dict_get. induction d as [|[k0 v0] d IH]; simpl.
  - rewrite Hne. reflexivity.
  - destruct (key_eqb k0 k) eqn:H0; simpl.
    + rewrite (key_eqb_left _ _ k' H0), Hne. reflexivity.
    + destruct (key_eqb k0 k'); [reflexivity | exact IH].
Qed.

Lemma dict_get_in d k v : dict_get d k = Some v -> exists k0, In (k0, v) d /\ key_eqb k0 k = true.
Proof.
  unfold dict_get. destruct (find _ d) as [[k0 v0]|] eqn:Hf; [|discriminate].
  intros H. injection H as <-. apply find_some in Hf. exists k0. exact Hf.
Qed.

Lemma hashable_key_eqb k : hashable k = true -> key_eqb k k = true.
Proof. apply key_eqb_refl. Qed.

End KeyEquality.

(** ** The device-type mapping *)

Section TypeMapping.

Import Aggregator.

Lemma type_mapping_step info rest m0 m :
  type_mapping_loop (info :: rest) m0 = Ok m ->
  exists c n,
    py_get info (VStr "value") VNone = Ok c /\
    py_get info (VStr "name") VNone = Ok n /\
    ((truthy c && truthy n = true /\ hashable c = true /\
      type_mapping_loop rest (dict_set m0 c n) = Ok m) \/
     (truthy c && truthy n = false /\ type_mapping_loop rest m0 = Ok m)).
Proof.
  cbn [type_mapping_loop]. unfold rbind.
  destruct (py_get info (VStr "value") VNone) as [c|]; [|discriminate].
  destruct (py_get info (VStr "name") VNone) as [n|]; [|discriminate].
  intros H. exists c, n. split; [reflexivity|]. split; [reflexivity|].
  destruct (truthy c && truthy n); [left | right; auto].
  unfold setitem in H. destruct (hashable c); [auto | discriminate].
Qed.

Lemma type_mapping_sound infos : forall m0 m code name,
  type_mapping_loop infos m0 = Ok m ->
  dict_get m code = Some name ->
  dict_get m0 code = Some name \/
  exists info c,
    In info infos /\
    py_get info (VStr "value") VNone = Ok c /\
    py_get info (VStr "name") VNone = Ok name /\
    truthy c = true /\ truthy name = true /\ key_eqb c code = true.
Proof.
  induction infos as [|info rest IH]; intros m0 m code name Hloop Hget.
  - injection Hloop as <-. now left.
  - destruct (type_mapping_step _ _ _ Hloop)
      as [c [n [Hc [Hn [[Ht [Hh Hrest]] | [Ht Hrest]]]]]].
    + destruct (IH _ _ _ _ Hrest Hget) as [H0 | [info' [c' [Hin H']]]].
      * rewrite dict_get_dict_set in H0 by (apply key_eqb_refl; exact Hh).
        destruct (key_eqb c code) eqn:Hcc; [|now left].
        injection H0 as ->. right. exists info, c.
        apply andb_true_iff in Ht. destruct Ht as [Ht1 Ht2].
        repeat split; auto. now left.
      * right. exists info', c'. split; [now right | exact H'].
    + destruct (IH _ _ _ _ Hrest Hget) as [H0 | [info' [c' [Hin H']]]].
      * now left.
      * right. exists info', c'. split; [now right | exact H'].
Qed.

Lemma type_mapping_app pre : forall rest m0 m,
  type_mapping_loop (pre ++ rest) m0 = Ok m ->
  exists m1, type_mapping_loop pre m0 = Ok m1 /\
             type_mapping_loop rest m1 = Ok m.
Proof.
  induction pre as [|info pre IH]; intros rest m0 m H.
  - exists m0. auto.
  - change ((info :: pre) ++ rest) with (info :: (pre ++ rest)) in H.
    cbn [type_mapping_loop] in *. unfold rbind in *.
    destruct (py_get info (VStr "value") VNone) as [c|]; [|discriminate].
    destruct (py_get info (VStr "name") VNone) as [n|]; [|discriminate].
    destruct (truthy c && truthy n); [|apply IH; exact H].
    destruct (setitem m0 c n); [apply IH; exact H | discriminate].
Qed.

(** The entries that the loop skips, and those that carry another code,
    leave the name found for a code as it is. *)
Lemma type_mapping_untouched post : forall m1 m c,
  type_mapping_loop post m1 = Ok m ->
  (forall info' c' n', In info' post ->
                       py_get info' (VStr "value") VNone = Ok c' ->
                       py_get info' (VStr "name") VNone = Ok n' ->
                       truthy c' = true -> truthy n' = true ->
                       key_eqb c' c = false) ->
  dict_get m c = dict_get m1 c.
Proof.
  induction post as [|info post IH]; intros m1 m c Hloop Hne.
  - injection Hloop as <-. reflexivity.
  - destruct (type_mapping_step _ _ _ Hloop)
      as [c' [n [Hc [Hn [[Ht [Hh Hrest]] | [Ht Hrest]]]]]].
    + rewrite (IH _ _ _ Hrest) by (intros; eapply Hne; eauto; now right).
      apply andb_true_iff in Ht. destruct Ht as [Ht1 Ht2].
      apply dict_get_set_other.
      exact (Hne info c' n (or_introl eq_refl) Hc Hn Ht1 Ht2).
    + apply (IH _ _ _ Hrest). intros; eapply Hne; eauto. now right.
Qed.

End TypeMapping.

(** X10.  The device-type mapping built from a station's [deviceTypes]
    holds only truthy codes and names taken from one of the entries, and
    for a code it answers the name of the last entry that carries that
    code with a truthy name: later entries win over earlier ones, and
    entries with a falsy code or a falsy name are skipped, also when they
    carry the same code and come later.  A code that no entry carries with
    a truthy name is not in the mapping. *)
Theorem type_mapping_lookup (infos : list value) (m : pydict) :
  Aggregator.type_mapping_loop infos [] = Ok m ->
  (forall code name,
     dict_get m code = Some name ->
     exists info c,
       In info infos /\
       py_get info (VStr "value") VNone = Ok c /\
       py_get info (VStr "name") VNone = Ok name /\
       truthy c = true /\ truthy name = true /\ key_eqb c code = true) /\
  (forall pre info post c name,
     infos = pre ++ info :: post ->
     py_get info (VStr "value") VNone = Ok c ->
     py_get info (VStr "name") VNone = Ok name ->
     truthy c = true -> truthy name = true ->
     (forall info' c' n', In info' post ->
                          py_get info' (VStr "value") VNone = Ok c' ->
                          py_get info' (VStr "name") VNone = Ok n' ->
                          truthy c' = true -> truthy n' = true ->
                          key_eqb c' c = false) ->
     dict_get m c = Some name) /\
  (forall code,
     (forall info c n, In info infos ->
                       py_get info (VStr "value") VNone = Ok c ->
                       py_get info (VStr "name") VNone = Ok n ->
                       truthy c = true -> truthy n = true ->
                       key_eqb c code = false) ->
     dict_get m code = None).
Proof.
  intros Hloop. split; [|split].
  - intros code name Hget.
    destruct (@type_mapping_sound infos [] m code name Hloop Hget) as [H|H];
      [discriminate H | exact H].
  - intros pre info post c name -> Hc Hn Htc Htn Hne.
    destruct (@type_mapping_app pre (info :: post) [] m Hloop)
      as [m1 [_ Hrest]].
    destruct (@type_mapping_step info post m1 m Hrest)
      as [c' [n' [Hc' [Hn' [[Ht [Hh Hpost]] | [Ht _]]]]]];
      rewrite Hc in Hc'; rewrite Hn in Hn';
      injection Hc' as <-; injection Hn' as <-.
    + rewrite (@type_mapping_untouched post _ m c Hpost Hne).
      apply dict_get_set_same, key_eqb_refl, Hh.
    + rewrite Htc, Htn in Ht. discriminate.
  - intros code Hnone.
    rewrite (@type_mapping_untouched infos [] m code Hloop Hnone).
    reflexivity.
Qed.

(** Three entries for the code [BAT], the last with an empty name: the
    second name is the one found. *)
Lemma type_mapping_lookup_witness :
  dict_get [(VStr "BAT", VStr "Battery")] (VStr "BAT") = Some (VStr "Battery").
Proof.
  destruct (@type_mapping_lookup
              [VDict [(VStr "value", VStr "BAT"); (VStr "name", VStr "Storage")];
               VDict [(VStr "value", VStr "BAT"); (VStr "name", VStr "Battery")];
               VDict [(VStr "value", VStr "BAT"); (VStr "name", VStr "")]]
              [(VStr "BAT", VStr "Battery")] eq_refl) as [_ [H _]].
  apply (H [VDict [(VStr "value", VStr "BAT"); (VStr "name", VStr "Storage")]]
           (VDict [(VStr "value", VStr "BAT"); (VStr "name", VStr "Battery")])
           [VDict [(VStr "value", VStr "BAT"); (VStr "name", VStr "")]]
           (VStr "BAT") (VStr "Battery")); try reflexivity.
  intros info' c' n' [<- | []] _ Hn _ Htn.
  injection Hn as <-. discriminate Htn.
Defined.

(** ** Edges of the cycle *)

Section CycleEdges.

Import Client Aggregator.

Variable E : Env.

Lemma devices_loop_malformed mapping records rec :
  In rec records -> is_dict rec = false ->
  forall wl s, exists e, res (devices_loop E mapping records wl s) = Raise e.
Proof.
  induction records as [|record rest IH]; intros Hin Hnd wl s; [destruct Hin|].
  cbn [devices_loop]. rewrite res_bind.
  destruct (res (process_device E mapping record wl s)) as [wl'|e] eqn:Hp;
    [|eauto].
  destruct Hin as [->|Hin]; [|apply IH; assumption].
  exfalso. unfold process_device in Hp. cbv zeta in Hp.
  rewrite res_bind in Hp. destruct rec; try discriminate Hnd; discriminate Hp.
Qed.

Lemma device_page_body_malformed info sid s page records rec :
  res (async_get_device_page E sid "all" 1 100 s) = Ok page ->
  records_of page = Ok records ->
  In rec records -> is_dict rec = false ->
  exists e, res (device_page_body E info sid s) = Raise e.
Proof.
  intros Hg Hrec Hin Hnd. unfold device_page_body.
  rewrite (bind_ok _ _ _ Hg). cbn [res]. cbv beta.
  set (s1 := post (async_get_device_page E sid "all" 1 100 s)).
  unfold records_of, rbind in Hrec.
  destruct (py_get page (VStr "data") empty_dict) as [data|] eqn:Hdata;
    [|discriminate].
  destruct (py_get data (VStr "records") (VList [])) as [recs|] eqn:Hrecs;
    [|discriminate].
  destruct page as [| | | | |d]; try discriminate Hdata.
  destruct (py_get info (VStr "deviceTypes") (VList [])) as [enum|e];
    [rewrite bind_lift_ok | rewrite res_bind; cbn [lift res]; eauto].
  destruct (py_iter enum) as [infos|e];
    [rewrite bind_lift_ok | rewrite res_bind; cbn [lift res]; eauto].
  destruct (type_mapping_loop infos []) as [mapping|e];
    [rewrite bind_lift_ok | rewrite res_bind; cbn [lift res]; eauto].
  rewrite bind_lift_ok, Hrecs, bind_lift_ok, Hrec, bind_lift_ok, res_bind.
  destruct (@devices_loop_malformed mapping records rec Hin Hnd ([], []) s1)
    as [e ->].
  eauto.
Qed.

Lemma process_device_no_serial mapping record wl s sn :
  device_serial record = Ok sn -> truthy sn = false ->
  process_device E mapping record wl s = mkOut (Ok wl) s [].
Proof.
  intros Hsn Ht. destruct wl as [wifi links].
  assert (Hdid : exists did, py_get record (VStr "deviceId") VNone = Ok did).
  { unfold device_serial, rbind in Hsn.
    destruct record; try discriminate Hsn. simpl. eauto. }
  destruct Hdid as [did Hdid].
  rewrite (@process_device_prelude E mapping record wifi links s sn did Hsn Hdid).
  rewrite Ht. reflexivity.
Qed.

End CycleEdges.

(** X11.  A station list without records gives the empty snapshot and no
    further request: that is the case when the payload is an object
    without [data], or whose [data] is an object without [records], or
    whose records are an empty list. *)
Theorem empty_station_list (E : Env) (s : State) (sd : value) :
  (res (Client.async_get_stations E 1 100 s) = Ok sd ->
   records_of sd = Ok [] ->
   let o := Aggregator.async_update_data E s in
   let g := Client.async_get_stations E 1 100 s in
   res o = Ok {| Aggregator.stations := sd;
                 Aggregator.maps := Aggregator.empty_maps |} /\
   evs o = evs g /\ post o = post g) /\
  (forall d, sd = VDict d -> dict_get d (VStr "data") = None ->
             records_of sd = Ok []) /\
  (forall d d', sd = VDict d ->
                dict_get d (VStr "data") = Some (VDict d') ->
                dict_get d' (VStr "records") = None ->
                records_of sd = Ok []).
Proof.
  split; [|split].
  - intros Hg Hrec o g. subst o g. unfold Aggregator.async_update_data.
    rewrite (bind_ok _ _ _ Hg). cbv zeta.
    unfold records_of, Aggregator.rbind in Hrec.
    destruct (py_get sd (VStr "data") empty_dict) as [data|] eqn:Hdata;
      [|discriminate].
    destruct (py_get data (VStr "records") (VList [])) as [recs|] eqn:Hrecs;
      [|discriminate].
    rewrite ?Hdata, bind_lift_ok, Hrecs, bind_lift_ok, Hrec, bind_lift_ok.
    cbn [Aggregator.stations_loop]. rewrite bind_ret.
    cbn [ret res evs post]. rewrite app_nil_r. auto.
  - intros d -> Hd. unfold records_of, Aggregator.rbind. simpl. rewrite Hd.
    reflexivity.
  - intros d d' -> Hd Hd'. unfold records_of, Aggregator.rbind. simpl.
    rewrite Hd. simpl. rewrite Hd'. reflexivity.
Qed.

Lemma empty_station_list_witness :
  res (Aggregator.async_update_data Examples.env_plain init_state)
  = Ok {| Aggregator.stations := VDict [];
          Aggregator.maps := Aggregator.empty_maps |}.
Proof.
  destruct (empty_station_list Examples.env_plain init_state (VDict []))
    as [H _].
  apply H; reflexivity.
Defined.

(** X12.  A device record without a serial number (no truthy [sn] and no
    truthy [serialNumber]) is skipped: neither WiFi data nor battery links
    are requested for it and both maps stay as they are, whatever its type
    and identifier. *)
Theorem device_without_serial_skipped (E : Env) (mapping : pydict)
    (record : value) (wl : pydict * pydict) (s : State) (sn : value) :
  device_serial record = Ok sn ->
  truthy sn = false ->
  let o := Aggregator.process_device E mapping record wl s in
  res o = Ok wl /\ evs o = [] /\ post o = s.
Proof.
  intros Hsn Ht o. subst o.
  rewrite (@process_device_no_serial E mapping record wl s sn Hsn Ht). auto.
Qed.

Lemma device_without_serial_skipped_witness :
  evs (Aggregator.process_device Examples.env_plain []
         (VDict [(VStr "deviceId", VNum 7); (VStr "deviceType", VStr "battery");
                 (VStr "sn", VStr "")])
         ([], []) init_state) = [].
Proof.
  apply (@device_without_serial_skipped Examples.env_plain []
           (VDict [(VStr "deviceId", VNum 7); (VStr "deviceType", VStr "battery");
                   (VStr "sn", VStr "")])
           ([], []) init_state VNone); reflexivity.
Defined.

(** X13.  One device record that is not an object voids the device data of
    its station: when the device page is fetched and one of its records is
    not an object, the whole entry of the station in [stations_devices] is
    the empty dictionary, the page and the WiFi data gathered for the other
    devices included. *)
Theorem malformed_device_record_voids_page (E : Env) (info sid : value)
    (devices : pydict) (s : State) (page : value) (records : list value)
    (rec : value) :
  res (Client.async_get_device_page E sid "all" 1 100 s) = Ok page ->
  records_of page = Ok records ->
  In rec records ->
  is_dict rec = false ->
  res (Aggregator.fetch_devices E info sid devices s)
  = Ok (dict_set devices sid empty_dict).
Proof.
  intros Hg Hrec Hin Hnd. unfold Aggregator.fetch_devices.
  rewrite res_bind, res_try, post_try.
  destruct (@device_page_body_malformed E info sid s page records rec Hg Hrec Hin Hnd)
    as [e ->].
  reflexivity.
Qed.

Lemma malformed_device_record_voids_page_witness :
  res (Aggregator.fetch_devices EdgeExamples.env_bad_record
         Examples.info_value (VNum 42) [] init_state)
  = Ok [(VNum 42, empty_dict)].
Proof.
  apply (@malformed_device_record_voids_page EdgeExamples.env_bad_record
           Examples.info_value (VNum 42) [] init_state
           EdgeExamples.bad_page_value [VNum 7] (VNum 7)).
  - vm_compute. reflexivity.
  - reflexivity.
  - now left.
  - reflexivity.
Defined.


(** * The sensors on the snapshots of the aggregator *)

Section ReadablePages.

Import Client Aggregator.

Variable E : Env.
Variable now : datetime.

Lemma process_device_dict mapping record wl s wl' :
  res (process_device E mapping record wl s) = Ok wl' -> is_dict record = true.
Proof.
  unfold process_device. cbv zeta. rewrite res_bind.
  destruct record; try discriminate. reflexivity.
Qed.

Lemma devices_loop_dicts mapping records : forall wl s wl',
  res (devices_loop E mapping records wl s) = Ok wl' ->
  forallb is_dict records = true.
Proof.
  induction records as [|record rest IH]; intros wl s wl'; [reflexivity|].
  cbn [devices_loop forallb]. rewrite res_bind.
  destruct (res (process_device E mapping record wl s)) as [wl1|e] eqn:Hp;
    [|discriminate].
  intros H. rewrite (process_device_dict _ _ _ _ Hp), (IH _ _ _ H). reflexivity.
Qed.

Lemma device_page_body_readable station_info sid :
  returns (device_page_body E station_info sid) readable_page.
Proof.
  unfold device_page_body. intros s v. rewrite res_bind.
  destruct (res (async_get_device_page E sid "all" 1 100 s)) as [page|e];
    [|discriminate].
  set (s1 := post (async_get_device_page E sid "all" 1 100 s)).
  repeat (rewrite res_bind; cbn [lift res post];
          match goal with
          | |- context [match ?x with Ok _ => _ | Raise _ => _ end] =>
              destruct x eqn:?; [|discriminate]
          end).
  destruct page as [| | | | |d]; [discriminate ..|].
  rewrite res_bind. cbn [lift res post].
  destruct (py_iter a3) as [records|] eqn:Hiter; [|discriminate].
  rewrite res_bind.
  destruct (res (devices_loop E a1 records ([], []) s1)) as [wl|] eqn:Hloop;
    [|discriminate].
  cbn [ret res]. intros H. injection H as <-. right.
  exists d, (fst wl), (snd wl), records. split; [reflexivity|]. split.
  - unfold records_of, rbind.
    match goal with H : py_get (VDict d) (VStr "data") _ = Ok _ |- _ =>
      rewrite H end.
    match goal with H : py_get _ (VStr "records") _ = Ok _ |- _ =>
      rewrite H end.
    exact Hiter.
  - exact (devices_loop_dicts _ _ _ _ Hloop).
Qed.

Lemma readable_set devices sid v :
  readable_devices devices -> readable_page v ->
  readable_devices (dict_set devices sid v).
Proof.
  intros Hd Hv k' v' Hin. apply in_dict_set in Hin.
  destruct Hin as [Hin| ->]; [exact (Hd _ _ Hin) | exact Hv].
Qed.

Lemma fetch_devices_readable station_info sid devices :
  readable_devices devices ->
  returns (fetch_devices E station_info sid devices) readable_devices.
Proof.
  intros Hd. unfold fetch_devices.
  apply returns_bind with (P := fun x => match x with
                                         | Ok v => readable_page v
                                         | Raise _ => True
                                         end).
  - apply returns_try with (P := readable_page); auto.
    apply device_page_body_readable.
  - intros [v|e] H; apply returns_ret; apply readable_set; auto. now left.
Qed.

Lemma station_rest_readable sid station_info m :
  readable_devices (stations_devices m) ->
  returns (station_rest E now sid station_info m)
          (fun m' => readable_devices (stations_devices m')).
Proof.
  intros Hm. unfold station_rest.
  apply returns_bind with (P := fun _ => True); [apply returns_any | intros ? _].
  apply returns_bind with (P := fun _ => True); [apply returns_any | intros ? _].
  eapply returns_bind; [apply fetch_devices_readable; exact Hm|].
  intros devices Hd. apply returns_ret. exact Hd.
Qed.

Lemma process_station_readable record m :
  readable_devices (stations_devices m) ->
  returns (process_station E now record m)
          (fun m' => readable_devices (stations_devices m')).
Proof.
  intros Hm. unfold process_station.
  apply returns_bind with (P := fun _ => True); [apply returns_any | intros sid _].
  destruct (truthy sid); [|apply returns_ret; exact Hm].
  apply returns_bind
    with (P := fun x => match x with
                        | Ok m' => readable_devices (stations_devices m')
                        | Raise _ => True
                        end).
  - apply returns_try
      with (P := fun m' => readable_devices (stations_devices m')); auto.
    apply returns_bind with (P := fun _ => True);
      [apply returns_any | intros info _].
    apply returns_bind with (P := fun _ => True);
      [apply returns_any | intros info' _].
    apply station_rest_readable. exact Hm.
  - intros [m'|e] H; apply returns_ret; auto.
Qed.

Lemma stations_loop_readable records : forall m,
  readable_devices (stations_devices m) ->
  returns (stations_loop E now records m)
          (fun m' => readable_devices (stations_devices m')).
Proof.
  induction records as [|record rest IH]; intros m Hm; cbn [stations_loop].
  - apply returns_ret. exact Hm.
  - eapply returns_bind; [apply process_station_readable; exact Hm|].
    intros m' Hm'. apply IH. exact Hm'.
Qed.

End ReadablePages.

Section SnapshotReadable.

Import Client Aggregator.

Variable E : Env.

Lemma cycle_readable :
  returns (async_update_data E)
          (fun snap => readable_devices (stations_devices (maps snap))).
Proof.
  unfold async_update_data. cbv zeta.
  apply returns_bind with (P := fun _ => True); [apply returns_any | intros ? _].
  do 3 (apply returns_bind with (P := fun _ => True);
        [apply returns_any | intros ? _]).
  eapply returns_bind.
  - apply stations_loop_readable. intros k v [].
  - intros m Hm. apply returns_ret. exact Hm.
Qed.

End SnapshotReadable.

Section Getters.

Import Aggregator Sensor.

Lemma py_get_dict_ok d k default :
  hashable k = true ->
  py_get (VDict d) k default =
  Ok (match dict_get d k with Some v => v | None => default end).
Proof. intros H. simpl. rewrite H. reflexivity. Qed.

Lemma first_device_total records id :
  forallb is_dict records = true ->
  exists r, DeviceBaseSensor.first_device records id = Ok r /\
            (r = empty_dict \/ In r records).
Proof.
  induction records as [|rec rest IH]; intros Hall.
  - exists empty_dict. split; [reflexivity | now left].
  - simpl in Hall. apply andb_true_iff in Hall. destruct Hall as [Hd Hall].
    destruct rec as [| | | | |d]; try discriminate Hd.
    cbn [DeviceBaseSensor.first_device]. unfold rbind.
    rewrite py_get_dict_ok by reflexivity.
    destruct (py_eq _ id).
    + eexists. split; [reflexivity | right; now left].
    + destruct (IH Hall) as [r [Hr Hin]]. exists r. split; [exact Hr|].
      destruct Hin; [now left | right; now right].
Qed.

Lemma first_station_total records id :
  forallb is_dict records = true ->
  exists r, StationDeviceSensor.first_station records id = Ok r /\
            (r = empty_dict \/ In r records).
Proof.
  induction records as [|rec rest IH]; intros Hall.
  - exists empty_dict. split; [reflexivity | now left].
  - simpl in Hall. apply andb_true_iff in Hall. destruct Hall as [Hd Hall].
    destruct rec as [| | | | |d]; try discriminate Hd.
    cbn [StationDeviceSensor.first_station]. unfold rbind.
    rewrite py_get_dict_ok by reflexivity.
    destruct (py_eq _ id).
    + eexists. split; [reflexivity | right; now left].
    + destruct (IH Hall) as [r [Hr Hin]]. exists r. split; [exact Hr|].
      destruct Hin; [now left | right; now right].
Qed.

(** The station's entry in a dictionary of readable pages. *)
Lemma readable_lookup devices sid :
  readable_devices devices ->
  readable_page (match dict_get devices sid with
                 | Some v => v
                 | None => empty_dict
                 end).
Proof.
  intros Hd. destruct (dict_get devices sid) as [v|] eqn:Hg; [|now left].
  destruct (dict_get_in _ _ Hg) as [k0 [Hin _]]. exact (Hd _ _ Hin).
Qed.

Lemma page_wifi page wifi links :
  dict_get (dict_set (dict_set page (VStr "wifi_data") (VDict wifi))
              (VStr "battery_links") (VDict links)) (VStr "wifi_data")
  = Some (VDict wifi).
Proof.
  rewrite dict_get_set_other by reflexivity.
  apply dict_get_set_same. reflexivity.
Qed.

Lemma page_links page wifi links :
  dict_get (dict_set (dict_set page (VStr "wifi_data") (VDict wifi))
              (VStr "battery_links") (VDict links)) (VStr "battery_links")
  = Some (VDict links).
Proof. apply dict_get_set_same. reflexivity. Qed.

Lemma page_data page wifi links :
  dict_get (dict_set (dict_set page (VStr "wifi_data") (VDict wifi))
              (VStr "battery_links") (VDict links)) (VStr "data")
  = dict_get page (VStr "data").
Proof. rewrite !dict_get_set_other by reflexivity. reflexivity. Qed.

Lemma wifi_of_readable v sn :
  readable_page v -> hashable sn = true ->
  exists w, (wifi_data_dict <-? py_get v (VStr "wifi_data") empty_dict ;;
             py_get wifi_data_dict sn empty_dict) = Ok w.
Proof.
  intros [->|[page [wifi [links [records [-> _]]]]]] Hh; unfold rbind.
  - simpl. rewrite Hh. eauto.
  - rewrite py_get_dict_ok by reflexivity. rewrite page_wifi.
    rewrite py_get_dict_ok by exact Hh. eauto.
Qed.

Lemma links_of_readable v did :
  readable_page v -> hashable did = true ->
  exists l, (battery_links <-? py_get v (VStr "battery_links") empty_dict ;;
             py_get battery_links did empty_dict) = Ok l.
Proof.
  intros [->|[page [wifi [links [records [-> _]]]]]] Hh; unfold rbind.
  - simpl. rewrite Hh. eauto.
  - rewrite py_get_dict_ok by reflexivity. rewrite page_links.
    rewrite py_get_dict_ok by exact Hh. eauto.
Qed.

Lemma records_of_readable v :
  readable_page v ->
  exists records, records_of v = Ok records /\ forallb is_dict records = true.
Proof.
  intros [->|[page [wifi [links [records [-> [Hrec Hall]]]]]]].
  - exists []. split; reflexivity.
  - exists records. split; [|exact Hall].
    unfold records_of, rbind in *.
    rewrite py_get_dict_ok in * by reflexivity. rewrite page_data. exact Hrec.
Qed.

End Getters.

(** X14.  On the dictionary that a cycle returns, the getters of the sensor
    classes never raise, for any (hashable) station identifier, serial
    number and device identifier: the station info, the report data of a
    window, the WiFi data and the battery-links data of a device, the
    device record with a given identifier (for which the device page's
    records are searched) and the station record.  Each lookup that finds
    nothing gives the empty dictionary. *)
Theorem getters_never_raise_on_snapshots (E : Env) (s : State)
    (snap : Aggregator.Snapshot) :
  res (Aggregator.async_update_data E s) = Ok snap ->
  let data := snapshot_value snap in
  (forall sid, hashable sid = true ->
     exists v, Sensor.StationBaseSensor._get_station_info data sid = Ok v) /\
  (forall sid tt, hashable sid = true ->
     exists v, Sensor.StationRateSensor._get_report_data data sid tt = Ok v) /\
  (forall sid sn, hashable sid = true -> hashable sn = true ->
     exists v, Sensor.DeviceWiFiDataSensor._get_wifi_data data sid sn = Ok v) /\
  (forall sid did, hashable sid = true -> hashable did = true ->
     exists v,
       Sensor.BatteryLinksBaseSensor._get_battery_links_data data sid did
       = Ok v) /\
  (forall sid did, hashable sid = true ->
     exists v,
       Sensor.DeviceBaseSensor._get_device_record data sid did = Ok v /\
       (v = empty_dict \/ is_dict v = true)) /\
  (forall sid,
     exists v,
       Sensor.StationDeviceSensor._get_station_record data sid = Ok v /\
       (v = empty_dict \/ is_dict v = true)).
Proof.
  intros Hok data.
  pose proof (@cycle_readable E s snap Hok) as Hread.
  destruct (cycle_ok_inv E s Hok) as [records [ev [_ [Hrec [Hall [_ Hrun]]]]]].
  assert (Hdicts : forall l r, forallb is_dict l = true -> In r l ->
                               is_dict r = true).
  { intros l r Hl Hin. rewrite forallb_forall in Hl. exact (Hl r Hin). }
  repeat split.
  - intros sid Hh. unfold Sensor.StationBaseSensor._get_station_info.
    unfold Aggregator.rbind. subst data. simpl. rewrite Hh. eauto.
  - intros sid tt Hh. unfold Sensor.StationRateSensor._get_report_data.
    unfold Aggregator.rbind. subst data.
    change (py_get (Sensor.coordinator_data (snapshot_value snap))
              (VStr "stations_reports") empty_dict)
      with (Ok (VDict (Aggregator.stations_reports (Aggregator.maps snap)))).
    cbv beta iota.
    rewrite py_get_dict_ok by exact Hh.
    destruct (dict_get _ sid) as [v|] eqn:Hg; [|simpl; eauto].
    destruct (dict_get_in _ _ Hg) as [k0 [Hin _]].
    destruct (stations_run_reports Hrun _ _ Hin) as [[]|[entry [-> _]]].
    rewrite py_get_dict_ok by reflexivity. eauto.
  - intros sid sn Hh Hsn. unfold Sensor.DeviceWiFiDataSensor._get_wifi_data.
    unfold Aggregator.rbind at 1 2. subst data.
    change (py_get (Sensor.coordinator_data (snapshot_value snap))
              (VStr "stations_devices") empty_dict)
      with (Ok (VDict (Aggregator.stations_devices (Aggregator.maps snap)))).
    cbv beta iota.
    rewrite py_get_dict_ok by exact Hh.
    apply wifi_of_readable; [apply readable_lookup, Hread | exact Hsn].
  - intros sid did Hh Hd.
    unfold Sensor.BatteryLinksBaseSensor._get_battery_links_data.
    unfold Aggregator.rbind at 1 2. subst data.
    change (py_get (Sensor.coordinator_data (snapshot_value snap))
              (VStr "stations_devices") empty_dict)
      with (Ok (VDict (Aggregator.stations_devices (Aggregator.maps snap)))).
    cbv beta iota.
    rewrite py_get_dict_ok by exact Hh.
    apply links_of_readable; [apply readable_lookup, Hread | exact Hd].
  - intros sid did Hh.
    unfold Sensor.DeviceBaseSensor._get_device_record.
    unfold Aggregator.rbind at 1 2. subst data.
    change (py_get (Sensor.coordinator_data (snapshot_value snap))
              (VStr "stations_devices") empty_dict)
      with (Ok (VDict (Aggregator.stations_devices (Aggregator.maps snap)))).
    cbv beta iota.
    rewrite py_get_dict_ok by exact Hh.
    destruct (records_of_readable
                (readable_lookup sid Hread)) as [recs [Hrecs Hd]].
    unfold records_of in Hrecs.
    set (v := match dict_get _ sid with Some v => v | None => empty_dict end)
      in *.
    unfold Aggregator.rbind in *.
    destruct (py_get v (VStr "data") empty_dict) as [d|]; [|discriminate].
    destruct (py_get d (VStr "records") (VList [])) as [rs|]; [|discriminate].
    rewrite Hrecs.
    destruct (@first_device_total recs did Hd) as [r [Hr [->|Hin]]];
      [exists empty_dict | exists r]; (split; [exact Hr|]);
      [now left | right; exact (Hdicts _ _ Hd Hin)].
  - intros sid.
    unfold Sensor.StationDeviceSensor._get_station_record.
    unfold Aggregator.rbind at 1. subst data.
    change (py_get (Sensor.coordinator_data (snapshot_value snap))
              (VStr "stations") empty_dict)
      with (Ok (Aggregator.stations snap)).
    cbv beta iota.
    cbv beta iota.
    unfold records_of in Hrec. unfold Aggregator.rbind in *.
    destruct (py_get (Aggregator.stations snap) (VStr "data") empty_dict)
      as [d|]; [|discriminate].
    destruct (py_get d (VStr "records") (VList [])) as [rs|]; [|discriminate].
    rewrite Hrec.
    destruct (@first_station_total records sid Hall) as [r [Hr [->|Hin]]];
      [exists empty_dict | exists r]; (split; [exact Hr|]);
      [now left | right; exact (Hdicts _ _ Hall Hin)].
Qed.

(** The device [SN1] of station 42 in the snapshot of a cycle. *)
Lemma getters_never_raise_on_snapshots_witness :
  exists snap v,
    res (Aggregator.async_update_data
           (Examples.env_links_fail Examples.devices_body) init_state)
    = Ok snap /\
    Sensor.DeviceBaseSensor._get_device_record (snapshot_value snap)
      (VNum 42) (VNum 7) = Ok v.
Proof.
  destruct (res (Aggregator.async_update_data
                   (Examples.env_links_fail Examples.devices_body) init_state))
    as [snap|e] eqn:Hres; [|vm_compute in Hres; discriminate Hres].
  destruct (@getters_never_raise_on_snapshots _ _ snap Hres)
    as [_ [_ [_ [_ [H _]]]]].
  destruct (H (VNum 42) (VNum 7) eq_refl) as [v [Hv _]].
  exists snap, v. split; [reflexivity | exact Hv].
Defined.

Section SensorValues.

Import Aggregator Sensor.

Lemma py_sub_num a b v :
  py_sub a b = Ok v -> exists q, v = VNum q.
Proof.
  destruct a, b; simpl; try discriminate; intros H; injection H as <-; eauto.
Qed.

Lemma max_zero_num q :
  exists r, max_zero (VNum q) = Ok (VNum r) /\ 0 <= r /\
            (0 < q -> r = q) /\ (q <= 0 -> r = 0).
Proof.
  unfold max_zero. destruct (Client.Qlt_bool 0 q) eqn:Hlt.
  - apply Qlt_bool_iff in Hlt. exists q.
    repeat split; auto; [lra | intros; lra].
  - exists 0. repeat split; auto; try lra.
    intros H. apply Qlt_bool_iff in H. congruence.
Qed.

End SensorValues.

(** X15.  The calculated "consumption from PV" is never negative: whenever
    the sensor gives a value, it is a number, the consumption minus the
    battery discharge minus the grid import when that is positive and 0
    otherwise, fields that are missing, [None] or 0 counting as 0.  A field
    that is a non-empty string (or any other truthy non-number) makes the
    subtraction raise [TypeError]. *)
Theorem calculated_energy_never_negative (data station_id : value)
    (fields : Sensor.StationCalculatedEnergySensor.Fields) (v : value) :
  Sensor.StationCalculatedEnergySensor.native_value data station_id fields
  = Ok v ->
  exists extra c b g x y r,
    Aggregator.rbind
      (Sensor.StationBaseSensor._get_station_info data station_id)
      (fun info => py_get info (VStr "extraData") empty_dict) = Ok extra /\
    Sensor.StationCalculatedEnergySensor.field_or_zero extra "consumption"
      (Sensor.StationCalculatedEnergySensor.consumption fields) = Ok c /\
    Sensor.StationCalculatedEnergySensor.field_or_zero extra "battery"
      (Sensor.StationCalculatedEnergySensor.battery fields) = Ok b /\
    Sensor.StationCalculatedEnergySensor.field_or_zero extra "grid"
      (Sensor.StationCalculatedEnergySensor.grid fields) = Ok g /\
    Sensor.py_sub c b = Ok (VNum x) /\
    Sensor.py_sub (VNum x) g = Ok (VNum y) /\
    v = VNum r /\ 0 <= r /\ (0 < y -> r = y) /\ (y <= 0 -> r = 0).
Proof.
  unfold Sensor.StationCalculatedEnergySensor.native_value, Aggregator.rbind.
  destruct (Sensor.StationBaseSensor._get_station_info data station_id)
    as [info|]; [|discriminate].
  destruct (py_get info (VStr "extraData") empty_dict) as [extra|] eqn:He;
    [|discriminate].
  destruct (Sensor.StationCalculatedEnergySensor.field_or_zero extra
              "consumption" _) as [c|] eqn:Hc; [|discriminate].
  destruct (Sensor.StationCalculatedEnergySensor.field_or_zero extra
              "battery" _) as [b|] eqn:Hb; [|discriminate].
  destruct (Sensor.StationCalculatedEnergySensor.field_or_zero extra
              "grid" _) as [g|] eqn:Hg; [|discriminate].
  destruct (Sensor.py_sub c b) as [p|] eqn:Hp; [|discriminate].
  destruct (py_sub_num _ _ Hp) as [x ->].
  destruct (Sensor.py_sub (VNum x) g) as [t|] eqn:Ht; [|discriminate].
  destruct (py_sub_num _ _ Ht) as [y ->].
  destruct (max_zero_num y) as [r [Hr [H0 [H1 H2]]]]. rewrite Hr.
  intros H. injection H as <-.
  exists extra, c, b, g, x, y, r.
  split; [reflexivity|]. split; [exact Hc|]. split; [exact Hb|].
  split; [exact Hg|]. split; [exact Hp|]. split; [exact Ht|].
  split; [reflexivity|]. split; [exact H0|]. split; [exact H1 | exact H2].
Qed.

(** Consumption 5, battery discharge 2, grid import 4: the sensor reads 0. *)
Lemma calculated_energy_never_negative_witness :
  exists r, VNum 0 = VNum r /\ 0 <= r.
Proof.
  destruct (@calculated_energy_never_negative
      (VDict [(VStr "stations_info",
               VDict [(VNum 42,
                 VDict [(VStr "extraData",
                   VDict [(VStr "consumption", VDict [(VStr "day", VNum 5)]);
                          (VStr "battery", VDict [(VStr "day_out", VNum 2)]);
                          (VStr "grid", VDict [(VStr "day2", VNum 4)])])])])])
      (VNum 42)
      {| Sensor.StationCalculatedEnergySensor.consumption := "day";
         Sensor.StationCalculatedEnergySensor.battery := "day_out";
         Sensor.StationCalculatedEnergySensor.grid := "day2" |}
      (VNum 0) eq_refl)
    as (extra & c & b & g & x & y & r & _ & _ & _ & _ & _ & _ & Hv & Hr & _).
  exists r. split; [exact Hv | exact Hr].
Defined.

Section SensorOrigins.

Import Aggregator Sensor.

Lemma key_for_eqb k x y :
  key_for k x -> key_eqb k y = true -> key_eqb x y = true.
Proof.
  intros [->|H] Hy; [exact Hy|].
  rewrite key_eqb_sym in H. exact (key_eqb_trans _ _ _ H Hy).
Qed.

Lemma lookup_in d k :
  (match dict_get d k with Some v => v | None => empty_dict end) = empty_dict \/
  exists k0 v, dict_get d k = Some v /\ In (k0, v) d /\ key_eqb k0 k = true.
Proof.
  destruct (dict_get d k) as [v|] eqn:Hg; [|now left].
  destruct (dict_get_in _ _ Hg) as [k0 [Hin Hk]]. right. eauto.
Qed.

End SensorOrigins.

(** X16.  What the sensors read from the snapshot of a cycle is what the
    API answered during that cycle: the report data of a station and
    window is the empty dictionary or the value returned by the report
    fetch for that station, window and date; the WiFi data of a serial
    number is the empty dictionary or the value returned by the WiFi fetch
    for that serial number; the battery-links data of a device is the empty
    dictionary or the value returned by a battery-links fetch. *)
Theorem sensors_read_fetched_data (E : Env) (s : State)
    (snap : Aggregator.Snapshot) :
  res (Aggregator.async_update_data E s) = Ok snap ->
  let data := snapshot_value snap in
  let ev := evs (Aggregator.async_update_data E s) in
  (forall sid tt v,
     hashable sid = true ->
     Sensor.StationRateSensor._get_report_data data sid tt = Ok v ->
     v = empty_dict \/
     exists sid',
       key_eqb sid' sid = true /\
       In (EvReturn (RReport sid' (Aggregator.search_time (datetime_now E) tt)
                       tt) v) ev) /\
  (forall sid sn v,
     hashable sid = true -> hashable sn = true ->
     Sensor.DeviceWiFiDataSensor._get_wifi_data data sid sn = Ok v ->
     v = empty_dict \/
     exists sn', key_eqb sn' sn = true /\ In (EvReturn (RDeviceWifi sn') v) ev) /\
  (forall sid did v,
     hashable sid = true -> hashable did = true ->
     Sensor.BatteryLinksBaseSensor._get_battery_links_data data sid did = Ok v ->
     v = empty_dict \/
     exists sn, In (EvReturn (RBatteryLinks sn) v) ev).
Proof.
  intros Hok data ev.
  destruct (@cycle_provenance E s snap Hok) as [Hrep [_ Hdev]].
  fold ev in Hrep, Hdev.
  split; [|split].
  - intros sid tt v Hh.
    unfold Sensor.StationRateSensor._get_report_data, Aggregator.rbind.
    subst data.
    change (py_get (Sensor.coordinator_data (snapshot_value snap))
              (VStr "stations_reports") empty_dict)
      with (Ok (VDict (Aggregator.stations_reports (Aggregator.maps snap)))).
    cbv beta iota. rewrite py_get_dict_ok by exact Hh.
    destruct (lookup_in (Aggregator.stations_reports (Aggregator.maps snap)) sid)
      as [-> | [k0 [v0 [-> [Hin Hk]]]]].
    { simpl. intros H. injection H as <-. now left. }
    destruct (Hrep _ _ Hin) as [sid0 [entry [Hkf [-> Ho]]]].
    rewrite py_get_dict_ok by reflexivity. intros H. injection H as <-.
    destruct (lookup_in entry (VStr tt)) as [-> | [k1 [v1 [-> [Hin1 Hk1]]]]];
      [now left|].
    destruct (Ho _ _ Hin1) as [tt' [-> Hf]].
    simpl in Hk1. apply String.eqb_eq in Hk1. subst tt'.
    destruct Hf as [->|[r [<- Hr]]]; [now left|]. right.
    exists sid0. split; [exact (@key_for_eqb _ _ _ Hkf Hk) | exact Hr].
  - intros sid sn v Hh Hsn.
    unfold Sensor.DeviceWiFiDataSensor._get_wifi_data, Aggregator.rbind.
    subst data.
    change (py_get (Sensor.coordinator_data (snapshot_value snap))
              (VStr "stations_devices") empty_dict)
      with (Ok (VDict (Aggregator.stations_devices (Aggregator.maps snap)))).
    cbv beta iota. rewrite py_get_dict_ok by exact Hh.
    destruct (lookup_in (Aggregator.stations_devices (Aggregator.maps snap)) sid)
      as [-> | [k0 [v0 [-> [Hin Hk]]]]].
    { simpl. rewrite Hsn. intros H. injection H as <-. now left. }
    destruct (Hdev _ _ Hin) as [sid0 [_ [-> | Ho]]].
    { simpl. rewrite Hsn. intros H. injection H as <-. now left. }
    destruct Ho as [page [wifi [links [-> [_ [Hw _]]]]]].
    rewrite py_get_dict_ok by reflexivity. rewrite page_wifi.
    rewrite py_get_dict_ok by exact Hsn. intros H. injection H as <-.
    destruct (lookup_in wifi sn) as [-> | [k1 [v1 [-> [Hin1 Hk1]]]]];
      [now left|].
    destruct (Hw _ _ Hin1) as [->|[r [[sn' [-> Hkf]] Hr]]]; [now left|].
    right. exists sn'. split; [exact (@key_for_eqb _ _ _ Hkf Hk1) | exact Hr].
  - intros sid did v Hh Hd.
    unfold Sensor.BatteryLinksBaseSensor._get_battery_links_data,
      Aggregator.rbind.
    subst data.
    change (py_get (Sensor.coordinator_data (snapshot_value snap))
              (VStr "stations_devices") empty_dict)
      with (Ok (VDict (Aggregator.stations_devices (Aggregator.maps snap)))).
    cbv beta iota. rewrite py_get_dict_ok by exact Hh.
    destruct (lookup_in (Aggregator.stations_devices (Aggregator.maps snap)) sid)
      as [-> | [k0 [v0 [-> [Hin Hk]]]]].
    { simpl. rewrite Hd. intros H. injection H as <-. now left. }
    destruct (Hdev _ _ Hin) as [sid0 [_ [-> | Ho]]].
    { simpl. rewrite Hd. intros H. injection H as <-. now left. }
    destruct Ho as [page [wifi [links [-> [_ [_ Hl]]]]]].
    rewrite py_get_dict_ok by reflexivity. rewrite page_links.
    rewrite py_get_dict_ok by exact Hd. intros H. injection H as <-.
    destruct (lookup_in links did) as [-> | [k1 [v1 [-> [Hin1 Hk1]]]]];
      [now left|].
    destruct (Hl _ _ Hin1) as [_ [->|[r [[sn ->] Hr]]]]; [now left|].
    right. exists sn. exact Hr.
Qed.

(** The WiFi data of the device [SN1] of station 42. *)
Lemma sensors_read_fetched_data_witness :
  exists snap,
    res (Aggregator.async_update_data
           (Examples.env_links_fail Examples.devices_body) init_state)
    = Ok snap /\
    exists sn',
      key_eqb sn' (VStr "SN1") = true /\
      In (EvReturn (RDeviceWifi sn') Examples.wifi_value)
         (evs (Aggregator.async_update_data
                 (Examples.env_links_fail Examples.devices_body) init_state)).
Proof.
  destruct (res (Aggregator.async_update_data
                   (Examples.env_links_fail Examples.devices_body) init_state))
    as [snap|e] eqn:Hres; [|vm_compute in Hres; discriminate Hres].
  exists snap. split; [reflexivity|].
  destruct (@sensors_read_fetched_data _ _ snap Hres) as [_ [H _]].
  assert (Hw : Sensor.DeviceWiFiDataSensor._get_wifi_data (snapshot_value snap)
                 (VNum 42) (VStr "SN1") = Ok Examples.wifi_value).
  { vm_compute in Hres. injection Hres as <-. vm_compute. reflexivity. }
  destruct (H (VNum 42) (VStr "SN1") Examples.wifi_value eq_refl eq_refl Hw)
    as [Hempty | Hfound]; [discriminate Hempty | exact Hfound].
Defined.

(** X17.  Sensors degrade to "unknown" instead of raising.  Without
    coordinator data ([None] or an empty dictionary) every getter gives the
    empty dictionary; and wherever a getter gives the empty dictionary (no
    data, a station or device the snapshot does not know, or the
    placeholder of a failed fetch) the energy sensors read 0, the
    direct-field sensor its default, and the rate, online-state, data-DTO,
    state-of-charge, WiFi and battery sensors read [None]. *)
Theorem sensors_default_without_data (E : Env) (data sid : value) :
  (truthy data = false -> hashable sid = true ->
   Sensor.StationBaseSensor._get_station_info data sid = Ok empty_dict /\
   (forall tt,
      Sensor.StationRateSensor._get_report_data data sid tt = Ok empty_dict) /\
   (forall did,
      Sensor.DeviceBaseSensor._get_device_record data sid did = Ok empty_dict) /\
   (forall sn, hashable sn = true ->
      Sensor.DeviceWiFiDataSensor._get_wifi_data data sid sn = Ok empty_dict) /\
   (forall did, hashable did = true ->
      Sensor.BatteryLinksBaseSensor._get_battery_links_data data sid did
      = Ok empty_dict) /\
   Sensor.StationDeviceSensor._get_station_record data sid = Ok empty_dict) /\
  (Sensor.StationBaseSensor._get_station_info data sid = Ok empty_dict ->
   (forall category period,
      Sensor.StationEnergySensor.native_value data sid category period
      = Ok (VNum 0)) /\
   (forall fields,
      Sensor.StationCalculatedEnergySensor.native_value data sid fields
      = Ok (VNum 0)) /\
   (forall field default,
      Sensor.StationDirectFieldSensor.native_value data sid field default
      = Ok default)) /\
  (forall tt field,
     Sensor.StationRateSensor._get_report_data data sid tt = Ok empty_dict ->
     Sensor.StationRateSensor.native_value E data sid tt field = Ok VNone) /\
  (forall did,
     Sensor.DeviceBaseSensor._get_device_record data sid did = Ok empty_dict ->
     Sensor.DeviceOnlineStateSensor.native_value data sid did = Ok VNone /\
     (forall key,
        Sensor.DeviceDataDtoSensor.native_value data sid did key = Ok VNone) /\
     Sensor.DeviceBatterySOCSensor.native_value E data sid did = Ok VNone) /\
  (forall sn field,
     Sensor.DeviceWiFiDataSensor._get_wifi_data data sid sn = Ok empty_dict ->
     Sensor.DeviceWiFiDataSensor.native_value data sid sn field = Ok VNone) /\
  (forall did,
     Sensor.BatteryLinksBaseSensor._get_battery_links_data data sid did
     = Ok empty_dict ->
     (forall link_sn,
        Sensor.BatteryLinkSOCSensor.native_value data sid did link_sn
        = Ok VNone /\
        Sensor.BatteryLinkEnergySensor.native_value data sid did link_sn
        = Ok VNone) /\
     Sensor.BatteryDeviceEnergySensor.native_value data sid did = Ok VNone /\
     Sensor.BatteryDeviceSOCSensor.native_value data sid did = Ok VNone) /\
  (Sensor.StationDeviceSensor._get_station_record data sid = Ok empty_dict ->
   Sensor.StationDeviceSensor.native_value data sid = Ok VNone).
Proof.
  split; [|split; [|split; [|split; [|split; [|split]]]]].
  - intros Ht Hh.
    assert (Hc : Sensor.coordinator_data data = empty_dict).
    { unfold Sensor.coordinator_data, py_or. rewrite Ht. reflexivity. }
    unfold Sensor.StationBaseSensor._get_station_info,
      Sensor.StationRateSensor._get_report_data,
      Sensor.DeviceBaseSensor._get_device_record,
      Sensor.DeviceWiFiDataSensor._get_wifi_data,
      Sensor.BatteryLinksBaseSensor._get_battery_links_data,
      Sensor.StationDeviceSensor._get_station_record.
    rewrite Hc.
    split; [simpl; rewrite Hh; reflexivity|].
    split; [intros tt; simpl; rewrite Hh; reflexivity|].
    split; [intros did; simpl; rewrite Hh; reflexivity|].
    split; [intros sn Hsn; simpl; rewrite Hh; simpl; rewrite Hsn; reflexivity|].
    split; [intros did Hd; simpl; rewrite Hh; simpl; rewrite Hd; reflexivity|].
    reflexivity.
  - intros H.
    unfold Sensor.StationEnergySensor.native_value,
      Sensor.StationCalculatedEnergySensor.native_value,
      Sensor.StationDirectFieldSensor.native_value.
    rewrite H. repeat split; reflexivity.
  - intros tt field H. unfold Sensor.StationRateSensor.native_value.
    rewrite H. reflexivity.
  - intros did H.
    unfold Sensor.DeviceOnlineStateSensor.native_value,
      Sensor.DeviceDataDtoSensor.native_value,
      Sensor.DeviceBatterySOCSensor.native_value.
    rewrite H. repeat split; reflexivity.
  - intros sn field H. unfold Sensor.DeviceWiFiDataSensor.native_value.
    rewrite H. reflexivity.
  - intros did H.
    unfold Sensor.BatteryLinkSOCSensor.native_value,
      Sensor.BatteryLinkEnergySensor.native_value,
      Sensor.BatteryDeviceEnergySensor.native_value,
      Sensor.BatteryDeviceSOCSensor.native_value,
      Sensor.BatteryLinksBaseSensor.link_value,
      Sensor.BatteryLinksBaseSensor.device_value.
    rewrite H. repeat split; reflexivity.
  - intros H. unfold Sensor.StationDeviceSensor.native_value.
    rewrite H. reflexivity.
Qed.

(** Before the first refresh ([coordinator.data] is [None]) the rate
    sensor of station 42 reads [None]. *)
Lemma sensors_default_without_data_witness :
  Sensor.StationRateSensor.native_value Examples.env_plain VNone (VNum 42)
    "day" "cover_rate" = Ok VNone.
Proof.
  destruct (sensors_default_without_data Examples.env_plain VNone (VNum 42))
    as [H1 [_ [H2 _]]].
  destruct (H1 eq_refl eq_refl) as [_ [Hr _]].
  apply H2, Hr.
Defined.

(** ** Percentages *)

Section Percentages.

Import Sensor.

Lemma rstrip_percent_app s :
  rstrip "%" (s ++ "%") = rstrip "%" s.
Proof.
  induction s as [|a s IH]; [reflexivity|].
  simpl. rewrite IH. reflexivity.
Qed.

Lemma rstrip_idem c s : rstrip c (rstrip c s) = rstrip c s.
Proof.
  induction s as [|a s IH]; [reflexivity|].
  simpl. destruct (rstrip c s) as [|b r] eqn:Hr.
  - destruct (Ascii.eqb a c) eqn:Ha; simpl; [reflexivity|].
    rewrite Ha. reflexivity.
  - simpl in IH. simpl.
    destruct (rstrip c r) as [|b' r'] eqn:Hr'.
    + destruct (Ascii.eqb b c) eqn:Hb; [discriminate IH|].
      injection IH as ->. reflexivity.
    + rewrite IH. reflexivity.
Qed.

Lemma rstrip_no_trailing c s t :
  rstrip c s = (t ++ String c "")%string -> False.
Proof.
  revert t. induction s as [|a s IH]; intros t H; simpl in H.
  - destruct t; discriminate H.
  - destruct (rstrip c s) as [|b r] eqn:Hr.
    + destruct (Ascii.eqb a c) eqn:Ha.
      * destruct t; discriminate H.
      * destruct t as [|x [|y t]]; simpl in H; try discriminate H.
        injection H as ->. rewrite Ascii.eqb_refl in Ha. discriminate.
    + destruct t as [|x t]; simpl in H; [discriminate H|].
      injection H as _ H. exact (IH t H).
Qed.

End Percentages.

(** X18.  The rate and state-of-charge sensors parse percentages the same
    with and without their percent signs: any number of trailing [%] is
    dropped before [float] is applied (and only trailing ones).  A number
    is converted by [float]: it is rounded to the nearest float, and an
    integer beyond the range of the floats raises [OverflowError], which
    the sensors do not catch, so that the rate sensor raises it.  [None], a
    string that [float] rejects, a list or an object give [None] instead
    of an exception. *)
Theorem percentages_parse_without_sign (E : Env) :
  (forall s, Sensor.parse_percentage E (VStr (s ++ "%"))
             = Sensor.parse_percentage E (VStr s)) /\
  (forall s, exists t,
     Sensor.parse_percentage E (VStr s)
     = Ok (match float_of_str E t with Some q => VNum q | None => VNone end) /\
     (forall u, t <> (u ++ "%")%string) /\
     Sensor.rstrip "%" t = t /\
     Sensor.rstrip "%" s = t) /\
  (forall q, Float.finite (Float.round q) = true ->
     Sensor.parse_percentage E (VNum q) = Ok (VNum (Float.round q))) /\
  (forall q, Float.finite (Float.round q) = false ->
     Sensor.parse_percentage E (VNum q) = Raise OverflowError /\
     forall data sid tt field report,
       Sensor.StationRateSensor._get_report_data data sid tt = Ok report ->
       py_get report (VStr field) VNone = Ok (VNum q) ->
       Sensor.StationRateSensor.native_value E data sid tt field
       = Raise OverflowError) /\
  Sensor.parse_percentage E VNone = Ok VNone /\
  (forall l, Sensor.parse_percentage E (VList l) = Ok VNone) /\
  (forall d, Sensor.parse_percentage E (VDict d) = Ok VNone).
Proof.
  split; [|split; [|split; [|split; [|split; [|split]]]]]; try reflexivity.
  - intros s. unfold Sensor.parse_percentage. cbv zeta.
    rewrite rstrip_percent_app. reflexivity.
  - intros s. exists (Sensor.rstrip "%" s).
    split; [|split; [|split; [apply rstrip_idem | reflexivity]]].
    + unfold Sensor.parse_percentage, Client.float. cbv zeta.
      destruct (float_of_str E (Sensor.rstrip "%" s)); reflexivity.
    + intros u Hu. exact (@rstrip_no_trailing _ _ _ Hu).
  - intros q Hq. unfold Sensor.parse_percentage, Client.float. cbv zeta.
    rewrite Hq. reflexivity.
  - intros q Hq.
    assert (Hp : Sensor.parse_percentage E (VNum q) = Raise OverflowError).
    { unfold Sensor.parse_percentage, Client.float. cbv zeta.
      rewrite Hq. reflexivity. }
    split; [exact Hp|].
    intros data sid tt field report Hrep Hget.
    unfold Sensor.StationRateSensor.native_value, Aggregator.rbind.
    rewrite Hrep, Hget. exact Hp.
Qed.

(** The integer [10^309], found in a report, makes the rate sensor
    raise. *)
Lemma percentages_parse_without_sign_witness :
  Sensor.StationRateSensor.native_value Examples.env_plain
    (VDict [(VStr "stations_reports",
             VDict [(VNum 42,
                     VDict [(VStr "day",
                             VDict [(VStr "rate", VNum Examples.exp_huge)])])])])
    (VNum 42) "day" "rate"
  = Raise OverflowError.
Proof.
  destruct (percentages_parse_without_sign Examples.env_plain)
    as [_ [_ [_ [H _]]]].
  destruct (H Examples.exp_huge) as [_ Hs]; [vm_compute; reflexivity|].
  apply (Hs _ _ _ _ (VDict [(VStr "rate", VNum Examples.exp_huge)]));
    reflexivity.
Defined.


(** * The configuration flows *)

(** ** The title of a new entry *)

Section Titles.

Import Aggregator Flows Flows.IzypowerCloudConfigFlow.

Lemma decimal_inj a b : decimal a = decimal b -> a = b.
Proof.
  unfold decimal. intros H.
  assert (H' : Nat.to_uint a = Nat.to_uint b).
  { apply (f_equal NilEmpty.uint_of_string) in H.
    rewrite !NilEmpty.usu in H. congruence. }
  apply (f_equal Nat.of_uint) in H'.
  rewrite !DecimalNat.Unsigned.of_to in H'. exact H'.
Qed.

Lemma append_cancel (p a b : string) : (p ++ a = p ++ b)%string -> a = b.
Proof. induction p as [|c p IH]; simpl; intros H; [exact H|]. injection H as H. auto. Qed.

Lemma length_append (a b : string) :
  String.length (a ++ b) = (String.length a + String.length b)%nat.
Proof. induction a as [|c a IH]; simpl; [reflexivity | now rewrite IH]. Qed.

Lemma append_not_self (p a : string) : a <> EmptyString -> (p ++ a)%string <> p.
Proof.
  intros Ha H. apply (f_equal String.length) in H.
  rewrite length_append in H. destruct a; [congruence|]. simpl in H. lia.
Qed.

Lemma NoDup_map_injective {A B} (f : A -> B) (l : list A) :
  (forall a b, f a = f b -> a = b) -> NoDup l -> NoDup (map f l).
Proof.
  intros Hf. induction 1 as [|a l Hnot Hl IH]; simpl; constructor; auto.
  intros Hin. apply in_map_iff in Hin. destruct Hin as [b [Hb Hin]].
  apply Hf in Hb. subst. contradiction.
Qed.

Lemma candidate_inj i j : title_candidate i = title_candidate j -> i = j.
Proof.
  destruct i as [|i], j as [|j]; unfold title_candidate; intros H; auto.
  - symmetry in H. apply append_not_self in H; [contradiction | discriminate].
  - apply append_not_self in H; [contradiction | discriminate].
  - apply append_cancel in H. injection H as H. apply decimal_inj in H. lia.
Qed.

Lemma in_titles title titles :
  existsb (String.eqb title) titles = true <-> In title titles.
Proof.
  rewrite existsb_exists. split.
  - intros [x [Hin Hx]]. apply String.eqb_eq in Hx. congruence.
  - intros Hin. exists title. split; [exact Hin | apply String.eqb_refl].
Qed.

Lemma candidates_bounded titles n :
  (forall j, (j < n)%nat -> In (title_candidate j) titles) ->
  (n <= List.length titles)%nat.
Proof.
  intros H.
  assert (Hn : NoDup (map title_candidate (seq 0 n))).
  { apply NoDup_map_injective; [|apply seq_NoDup].
    intros a b. apply candidate_inj. }
  apply NoDup_incl_length with (l' := titles) in Hn.
  - rewrite length_map, length_seq in Hn. exact Hn.
  - intros x Hx. apply in_map_iff in Hx. destruct Hx as [j [<- Hj]].
    apply in_seq in Hj. apply H. lia.
Qed.

Lemma next_title_from titles fuel : forall i,
  (forall j, (j < i)%nat -> In (title_candidate j) titles) ->
  (i + fuel = S (List.length titles))%nat ->
  exists k,
    next_title fuel titles (title_candidate i) (i + 2) = Some (title_candidate k) /\
    (i <= k)%nat /\
    ~ In (title_candidate k) titles /\
    (forall j, (j < k)%nat -> In (title_candidate j) titles).
Proof.
  induction fuel as [|fuel IH]; intros i Hbelow Hfuel.
  - apply candidates_bounded in Hbelow. lia.
  - cbn [next_title].
    destruct (existsb (String.eqb (title_candidate i)) titles) eqn:Hex.
    + apply in_titles in Hex.
      assert (Hc : (DISPLAY_NAME_PREFIX ++ " " ++ decimal (i + 2))%string
                   = title_candidate (S i)).
      { simpl. replace (i + 2)%nat with (S (S i)) by lia. reflexivity. }
      rewrite Hc. change (S (i + 2)) with (S i + 2)%nat.
      destruct (IH (S i)) as [k [Hk [Hle [Hnot Hall]]]].
      * intros j Hj. destruct (Nat.eq_dec j i) as [->|]; [exact Hex|].
        apply Hbelow. lia.
      * lia.
      * exists k. repeat split; auto. lia.
    + exists i. repeat split; auto.
      intros Hin. apply in_titles in Hin. congruence.
Qed.

Lemma next_title_fresh titles :
  exists k,
    next_title (S (List.length titles)) titles DISPLAY_NAME_PREFIX 2
    = Some (title_candidate k) /\
    ~ In (title_candidate k) titles /\
    (forall j, (j < k)%nat -> In (title_candidate j) titles).
Proof.
  destruct (@next_title_from titles (S (List.length titles)) 0)
    as [k [Hk [_ [Hnot Hall]]]]; [intros j Hj; lia | lia |].
  exists k. auto.
Qed.

Lemma entry_title_fresh_aux titles :
  exists t,
    next_title (S (List.length titles)) titles DISPLAY_NAME_PREFIX 2 = Some t /\
    ~ In t titles.
Proof.
  destruct (next_title_fresh titles) as [k [Hk [Hnot _]]]. eauto.
Qed.

End Titles.

(** X19.  The title loop of the user step always ends, within one test
    more than there are entries, and gives a title that no existing entry
    has: the display prefix when it is free, otherwise the prefix followed
    by the smallest number from 2 on that makes a free title. *)
Theorem entry_title_is_fresh (titles : list string) :
  exists t,
    Flows.IzypowerCloudConfigFlow.next_title (S (List.length titles)) titles
      Flows.DISPLAY_NAME_PREFIX 2 = Some t /\
    ~ In t titles /\
    ((t = Flows.DISPLAY_NAME_PREFIX) \/
     (exists k, (2 <= k)%nat /\
        t = (Flows.DISPLAY_NAME_PREFIX ++ " " ++ Aggregator.decimal k)%string /\
        In Flows.DISPLAY_NAME_PREFIX titles /\
        forall j, (2 <= j < k)%nat ->
          In (Flows.DISPLAY_NAME_PREFIX ++ " " ++ Aggregator.decimal j)%string
             titles)).
Proof.
  destruct (next_title_fresh titles) as [k [Hk [Hnot Hall]]].
  eexists. split; [exact Hk|]. split; [exact Hnot|].
  destruct k as [|k]; [now left|]. right.
  exists (S (S k)). split; [lia|]. split; [reflexivity|]. split.
  - apply (Hall 0%nat). lia.
  - intros j Hj. destruct j as [|[|j]]; try lia.
    apply (Hall (S j)). lia.
Qed.

(** Two entries, titled with the prefix and with the prefix and 2. *)
Lemma entry_title_is_fresh_witness :
  exists t,
    Flows.IzypowerCloudConfigFlow.next_title 3
      ["Izypower Cloud"%string; "Izypower Cloud 2"%string]
      Flows.DISPLAY_NAME_PREFIX 2 = Some t /\
    ~ In t ["Izypower Cloud"%string; "Izypower Cloud 2"%string].
Proof.
  destruct (entry_title_is_fresh
              ["Izypower Cloud"%string; "Izypower Cloud 2"%string])
    as [t [Ht [Hnot _]]].
  exists t. split; [exact Ht | exact Hnot].
Defined.

(** ** The steps *)

Section Steps.

Import Aggregator Flows.

Variable E : Env.

Lemma py_eq_str v s : Sensor.py_eq v (VStr s) = true <-> v = VStr s.
Proof.
  destruct v; simpl; try (split; [discriminate | intros H; discriminate H]).
  rewrite String.eqb_eq. split; congruence.
Qed.

Lemma py_eq_str_sym v s : Sensor.py_eq (VStr s) v = true <-> v = VStr s.
Proof.
  destruct v; simpl; try (split; [discriminate | intros H; discriminate H]).
  rewrite String.eqb_eq. split; congruence.
Qed.

Lemma validate_credentials_cases u p errors s :
  let login := Client.async_login (with_credentials E u p)
                 (post (new_client s)) in
  let o := validate_credentials E u p errors s in
  evs o = evs login /\ post o = post login /\
  ((res login = Ok tt /\ res o = Ok errors) \/
   (exists e, res login = Raise e /\
              res o = Ok (dict_set errors (VStr "base") (VStr "invalid_auth")))).
Proof.
  intros login o. subst o login. unfold validate_credentials.
  rewrite evs_bind, post_bind, res_bind. cbn [new_client res evs post app].
  rewrite evs_bind, post_bind, res_bind, res_try, evs_try, post_try.
  set (login := Client.async_login (with_credentials E u p) _).
  destruct (res login) as [[]|e] eqn:Hl; cbn [ret res evs post].
  - rewrite app_nil_r. split; [reflexivity|]. split; [reflexivity|]. now left.
  - destruct (async_login_raise _ _ Hl) as [-> _]. cbn [ret res evs post].
    rewrite app_nil_r. split; [reflexivity|]. split; [reflexivity|].
    right. exists (Error "Login failed after retries"). auto.
Qed.

Lemma check_duplicate_found entries username :
  (exists entry, In entry entries /\
                 dict_get (data entry) (VStr "username") = Some (VStr username)) ->
  IzypowerCloudConfigFlow.check_duplicate entries username []
  = [(VStr "username", VStr "duplicate_username")].
Proof.
  induction entries as [|entry rest IH]; intros [e [Hin He]]; [destruct Hin|].
  cbn [IzypowerCloudConfigFlow.check_duplicate]. cbv zeta.
  destruct (Sensor.py_eq _ (VStr username)) eqn:Heq; [reflexivity|].
  destruct Hin as [->|Hin].
  - rewrite He in Heq.
    assert (H : Sensor.py_eq (VStr username) (VStr username) = true)
      by (apply py_eq_str; reflexivity).
    congruence.
  - apply IH. eauto.
Qed.

Lemma check_duplicate_none entries username :
  (forall entry, In entry entries ->
     dict_get (data entry) (VStr "username") <> Some (VStr username)) ->
  IzypowerCloudConfigFlow.check_duplicate entries username [] = [].
Proof.
  induction entries as [|entry rest IH]; intros H; [reflexivity|].
  cbn [IzypowerCloudConfigFlow.check_duplicate]. cbv zeta.
  destruct (Sensor.py_eq _ (VStr username)) eqn:Heq.
  - exfalso. apply py_eq_str in Heq. apply (H entry); [now left|].
    destruct (dict_get (data entry) (VStr "username")); congruence.
  - apply IH. intros e He. apply H. now right.
Qed.

Lemma form_ok entry errors :
  exists defaults,
    OptionsFlowHandler.form entry errors = Ok (ShowForm "init" errors defaults).
Proof.
  unfold OptionsFlowHandler.form, OptionsFlowHandler.default_refresh, rbind.
  cbv zeta.
  assert (H1 : exists a, py_get (VDict (data entry)) (VStr "refresh_period")
                           (VNum 3) = Ok a).
  { rewrite py_get_dict_ok by reflexivity. eauto. }
  destruct H1 as [a Ha].
  assert (H2 : exists b, py_get (py_or (VDict (options entry)) empty_dict)
                           (VStr "refresh_period") a = Ok b).
  { unfold py_or, empty_dict. destruct (truthy (VDict (options entry)));
      rewrite py_get_dict_ok by reflexivity; eauto. }
  destruct H2 as [b Hb].
  eexists. rewrite Ha, Hb. reflexivity.
Qed.

End Steps.

(** X20.  The user step of the configuration flow.  When an existing
    entry has the username entered, the form comes back with
    [duplicate_username] and nothing is requested from the service.
    Otherwise a new client logs in with the credentials entered: when the
    login raises, the form comes back with [invalid_auth] under [base]
    ([cannot_connect] is never reported, since [async_login] does not let
    a time-out through); when it returns, the entry is created with the
    input as its data, whatever the refresh period entered, under a title
    that no existing entry has. *)
Theorem user_step_outcomes (E : Env) (entries : list Flows.ConfigEntry)
    (ui : Flows.UserInput) (s : State) :
  let o := Flows.IzypowerCloudConfigFlow.async_step_user E entries (Some ui) s in
  let login :=
    Client.async_login
      (Flows.with_credentials E (Flows.username ui) (Flows.password ui))
      (post (Flows.new_client s)) in
  ((exists entry,
      In entry entries /\
      dict_get (Flows.data entry) (VStr "username")
      = Some (VStr (Flows.username ui))) ->
   res o = Ok (Flows.ShowForm "user"
                 [(VStr "username", VStr "duplicate_username")]
                 Flows.IzypowerCloudConfigFlow.user_defaults) /\
   evs o = [] /\ post o = s) /\
  ((forall entry,
      In entry entries ->
      dict_get (Flows.data entry) (VStr "username")
      <> Some (VStr (Flows.username ui))) ->
   evs o = evs login /\
   (forall e, res login = Raise e ->
      res o = Ok (Flows.ShowForm "user" [(VStr "base", VStr "invalid_auth")]
                    Flows.IzypowerCloudConfigFlow.user_defaults)) /\
   (res login = Ok tt ->
      exists t,
        res o = Ok (Flows.CreateEntry t (Flows.input_dict ui)) /\
        ~ In t (map Flows.title entries))).
Proof.
  intros o login. subst o.
  unfold Flows.IzypowerCloudConfigFlow.async_step_user. cbv zeta. split.
  - intros Hdup. rewrite (@check_duplicate_found entries (Flows.username ui) Hdup).
    cbn [truthy negb]. rewrite bind_ret. cbn [truthy negb ret res evs post].
    auto.
  - intros Hnone. rewrite (@check_duplicate_none entries (Flows.username ui) Hnone).
    cbn [truthy negb].
    destruct (validate_credentials_cases E (Flows.username ui)
                (Flows.password ui) [] s) as [Hev [Hp Hres]].
    cbv zeta in Hev, Hp, Hres. fold login in Hev, Hp, Hres.
    rewrite evs_bind, res_bind.
    destruct Hres as [[Hl Hr] | [e [Hl Hr]]]; rewrite Hr; cbn [truthy negb].
    + destruct (entry_title_fresh_aux (map Flows.title entries))
        as [t [Ht Hnot]].
      rewrite Ht. cbn [ret res evs]. rewrite app_nil_r.
      split; [exact Hev|]. split; [intros e He; congruence|].
      intros _. exists t. auto.
    + cbn [dict_set truthy negb ret res evs]. rewrite app_nil_r.
      split; [exact Hev|]. split; [reflexivity | intros H; congruence].
Qed.

(** The service is unreachable: the form reports [invalid_auth]. *)
Lemma user_step_outcomes_witness :
  res (Flows.IzypowerCloudConfigFlow.async_step_user Examples.env_down []
         (Some {| Flows.username := "u"; Flows.password := "p";
                  Flows.input_refresh_period := 1 |})
         init_state)
  = Ok (Flows.ShowForm "user" [(VStr "base", VStr "invalid_auth")]
          Flows.IzypowerCloudConfigFlow.user_defaults).
Proof.
  destruct (user_step_outcomes Examples.env_down []
              {| Flows.username := "u"; Flows.password := "p";
                 Flows.input_refresh_period := 1 |} init_state) as [_ H].
  destruct H as [_ [Hr _]]; [intros entry []|].
  eapply Hr. vm_compute. reflexivity.
Defined.

(** X21.  The init step of the options flow.  A refresh period below 3 is
    never saved: the form comes back with [refresh_period_too_low] and the
    entry is neither updated nor reloaded.  When the username and the
    password entered are those of the entry, no login is attempted and
    nothing is requested from the service; with a period of at least 3 the
    entry is then updated and reloaded.  When they differ, a new client
    logs in with them: a login that raises brings the form back with
    [invalid_auth] and leaves the entry alone, a login that returns (with a
    period of at least 3) updates the entry's username and password and
    reloads it. *)
Theorem options_step_outcomes (E : Env) (entry : Flows.ConfigEntry)
    (ui : Flows.UserInput) (s : State) :
  let o := Flows.OptionsFlowHandler.async_step_init E entry (Some ui) s in
  let login :=
    Client.async_login
      (Flows.with_credentials E (Flows.username ui) (Flows.password ui))
      (post (Flows.new_client s)) in
  let unchanged :=
    Flows.OptionsFlowHandler.get_or (Flows.data entry) "username" (VStr "")
    = VStr (Flows.username ui) /\
    Flows.OptionsFlowHandler.get_or (Flows.data entry) "password" (VStr "")
    = VStr (Flows.password ui) in
  let saved :=
    (Flows.CreateEntry "" (Flows.input_dict ui),
     [ Flows.UpdateEntry (Flows.entry_id entry)
         (dict_set (dict_set (Flows.data entry) (VStr "username")
                      (VStr (Flows.username ui)))
                   (VStr "password") (VStr (Flows.password ui)));
       Flows.Reload (Flows.entry_id entry) ]) in
  ((Flows.input_refresh_period ui < 3)%Z ->
   exists errors defaults,
     res o = Ok (Flows.ShowForm "init" errors defaults, []) /\
     dict_get errors (VStr "refresh_period")
     = Some (VStr "refresh_period_too_low")) /\
  (unchanged ->
   evs o = [] /\ post o = s /\
   ((3 <= Flows.input_refresh_period ui)%Z -> res o = Ok saved)) /\
  (~ unchanged ->
   evs o = evs login /\
   (forall e, res login = Raise e ->
      exists errors defaults,
        res o = Ok (Flows.ShowForm "init" errors defaults, []) /\
        dict_get errors (VStr "base") = Some (VStr "invalid_auth")) /\
   (res login = Ok tt -> (3 <= Flows.input_refresh_period ui)%Z ->
      res o = Ok saved)).
Proof.
  intros o login unchanged saved. subst o.
  unfold Flows.OptionsFlowHandler.async_step_init. cbv zeta.
  set (errors0 := if (Flows.input_refresh_period ui <? 3)%Z
                  then dict_set [] (VStr "refresh_period")
                         (VStr "refresh_period_too_low")
                  else []).
  set (old_u := Flows.OptionsFlowHandler.get_or (Flows.data entry) "username"
                  (VStr "")) in *.
  set (old_p := Flows.OptionsFlowHandler.get_or (Flows.data entry) "password"
                  (VStr "")) in *.
  match goal with |- context [bind _ ?k] => set (K := k) end.
  assert (HKform : forall errs s1, truthy (VDict errs) = true ->
            exists defaults,
              K errs s1
              = mkOut (Ok (Flows.ShowForm "init" errs defaults, [])) s1 []).
  { intros errs s1 Ht. subst K. cbv beta. rewrite Ht. cbn [negb].
    destruct (@form_ok entry errs) as [defaults Hf].
    exists defaults. rewrite Hf, bind_lift_ok. reflexivity. }
  assert (HKsave : forall s1, K [] s1 = mkOut (Ok saved) s1 []).
  { intros s1. subst K saved. reflexivity. }
  assert (Hlow : (Flows.input_refresh_period ui < 3)%Z ->
            truthy (VDict errors0) = true /\
            dict_get errors0 (VStr "refresh_period")
            = Some (VStr "refresh_period_too_low")).
  { intros H. apply Z.ltb_lt in H. subst errors0. rewrite H.
    split; reflexivity. }
  assert (Hhigh : (3 <= Flows.input_refresh_period ui)%Z -> errors0 = []).
  { intros H. apply Z.ltb_ge in H. subst errors0. rewrite H. reflexivity. }
  assert (Hset : forall d k v, truthy (VDict (dict_set d k v)) = true).
  { intros d k v. destruct d as [|[k0 v0] d]; simpl; [reflexivity|].
    destruct (key_eqb k0 k); reflexivity. }
  assert (Hchanged :
            negb (Sensor.py_eq (VStr (Flows.username ui)) old_u)
            || negb (Sensor.py_eq (VStr (Flows.password ui)) old_p) = false
            <-> unchanged).
  { subst unchanged. rewrite orb_false_iff, !negb_false_iff.
    rewrite !py_eq_str_sym. reflexivity. }
  clearbody K errors0.
  destruct (negb (Sensor.py_eq (VStr (Flows.username ui)) old_u)
            || negb (Sensor.py_eq (VStr (Flows.password ui)) old_p)) eqn:Hc.
  - (* the credentials entered differ from the entry's *)
    assert (Hnot : ~ unchanged).
    { intros Hu. apply Hchanged in Hu. discriminate Hu. }
    destruct (@validate_credentials_cases E (Flows.username ui)
                (Flows.password ui) errors0 s) as [Hev [Hp Hres]].
    cbv zeta in Hev, Hp, Hres. fold login in Hev, Hp, Hres.
    rewrite evs_bind, res_bind.
    set (s1 := post (Flows.validate_credentials E (Flows.username ui)
                       (Flows.password ui) errors0 s)) in *.
    split; [|split; [intros Hu; contradiction|intros _]].
    + intros Hlt. destruct (Hlow Hlt) as [Ht Hg].
      destruct Hres as [[Hl Hr] | [e [Hl Hr]]]; rewrite Hr.
      * destruct (HKform errors0 s1 Ht) as [defaults Hf]. rewrite Hf.
        exists errors0, defaults. split; [reflexivity | exact Hg].
      * destruct (HKform _ s1 (Hset errors0 (VStr "base") (VStr "invalid_auth")))
          as [defaults Hf].
        rewrite Hf. eexists. exists defaults. split; [reflexivity|].
        rewrite dict_get_set_other by reflexivity. exact Hg.
    + split; [|split].
      * destruct Hres as [[Hl Hr] | [e [Hl Hr]]]; rewrite Hr.
        -- destruct (truthy (VDict errors0)) eqn:Ht.
           ++ destruct (HKform errors0 s1 Ht) as [defaults Hf].
              rewrite Hf. cbn [evs]. rewrite app_nil_r. exact Hev.
           ++ assert (He0 : errors0 = []).
              { destruct errors0; [reflexivity | discriminate Ht]. }
              rewrite He0, HKsave. cbn [evs]. rewrite app_nil_r.
              rewrite <- He0. exact Hev.
        -- destruct (HKform _ s1
                       (Hset errors0 (VStr "base") (VStr "invalid_auth")))
             as [defaults Hf].
           rewrite Hf. cbn [evs]. rewrite app_nil_r. exact Hev.
      * intros e He. destruct Hres as [[Hl Hr] | [e' [Hl Hr]]];
          [congruence|]. rewrite Hr.
        destruct (HKform _ s1
                    (Hset errors0 (VStr "base") (VStr "invalid_auth")))
          as [defaults Hf].
        rewrite Hf. cbn [res]. eexists. exists defaults.
        split; [reflexivity|]. apply dict_get_set_same. reflexivity.
      * intros Hl Hge. destruct Hres as [[_ Hr] | [e' [Hl' _]]];
          [|congruence]. rewrite Hr.
        rewrite (Hhigh Hge), HKsave. reflexivity.
  - (* the credentials entered are those of the entry *)
    assert (Hu : unchanged) by (apply Hchanged; reflexivity).
    rewrite bind_ret.
    split; [|split; [intros _|intros Hn; contradiction]].
    + intros Hlt. destruct (Hlow Hlt) as [Ht Hg].
      destruct (HKform errors0 s Ht) as [defaults Hf]. rewrite Hf.
      exists errors0, defaults. split; [reflexivity | exact Hg].
    + destruct (truthy (VDict errors0)) eqn:Ht.
      * destruct (HKform errors0 s Ht) as [defaults Hf]. rewrite Hf.
        cbn [res evs post]. split; [reflexivity|]. split; [reflexivity|].
        intros Hge. rewrite (Hhigh Hge) in Ht. discriminate Ht.
      * assert (He0 : errors0 = []).
        { destruct errors0; [reflexivity | discriminate Ht]. }
        rewrite He0, HKsave. cbn [res evs post]. auto.
Qed.

(** The entry's own credentials with a period of 1 minute: the form comes
    back and nothing is requested. *)
Lemma options_step_outcomes_witness :
  evs (Flows.OptionsFlowHandler.async_step_init Examples.env_down
         {| Flows.entry_id := "e1"; Flows.title := "Izypower Cloud";
            Flows.data := [(VStr "username", VStr "u");
                           (VStr "password", VStr "p")];
            Flows.options := [] |}
         (Some {| Flows.username := "u"; Flows.password := "p";
                  Flows.input_refresh_period := 1 |})
         init_state) = [].
Proof.
  destruct (options_step_outcomes Examples.env_down
         {| Flows.entry_id := "e1"; Flows.title := "Izypower Cloud";
            Flows.data := [(VStr "username", VStr "u");
                           (VStr "password", VStr "p")];
            Flows.options := [] |}
         {| Flows.username := "u"; Flows.password := "p";
            Flows.input_refresh_period := 1 |} init_state) as [_ [H _]].
  destruct H as [He _]; [split; reflexivity | exact He].
Defined.

(** X22.  The refresh period that the integration runs with and the one
    that the options form proposes are the same: the saved option when
    there is one, else the period of the initial data, else 3 minutes. *)
Theorem refresh_period_defaults_agree (entry : Flows.ConfigEntry) :
  Flows.refresh_period entry
  = Flows.OptionsFlowHandler.default_refresh entry /\
  (forall v,
     dict_get (Flows.options entry) (VStr "refresh_period") = Some v ->
     Flows.refresh_period entry = Ok v) /\
  (forall v,
     dict_get (Flows.options entry) (VStr "refresh_period") = None ->
     dict_get (Flows.data entry) (VStr "refresh_period") = Some v ->
     Flows.refresh_period entry = Ok v) /\
  (dict_get (Flows.options entry) (VStr "refresh_period") = None ->
   dict_get (Flows.data entry) (VStr "refresh_period") = None ->
   Flows.refresh_period entry = Ok (VNum 3)).
Proof.
  unfold Flows.refresh_period, Flows.OptionsFlowHandler.default_refresh,
    Aggregator.rbind.
  cbv zeta. rewrite !py_get_dict_ok by reflexivity.
  change (VNum (inject_Z Flows.default_minutes)) with (VNum 3).
  split; [|split; [|split]].
  - unfold py_or. destruct (Flows.options entry) as [|kv d]; reflexivity.
  - intros v Hv. rewrite Hv. reflexivity.
  - intros v Ho Hd. rewrite Ho, Hd. reflexivity.
  - intros Ho Hd. rewrite Ho, Hd. reflexivity.
Qed.

(** An entry set up with 5 minutes and later given the option 10. *)
Lemma refresh_period_defaults_agree_witness :
  Flows.refresh_period
    {| Flows.entry_id := "e1"; Flows.title := "Izypower Cloud";
       Flows.data := [(VStr "refresh_period", VNum 5)];
       Flows.options := [(VStr "refresh_period", VNum 10)] |}
  = Ok (VNum 10).
Proof.
  destruct (refresh_period_defaults_agree
    {| Flows.entry_id := "e1"; Flows.title := "Izypower Cloud";
       Flows.data := [(VStr "refresh_period", VNum 5)];
       Flows.options := [(VStr "refresh_period", VNum 10)] |}) as [_ [H _]].
  apply H. reflexivity.
Defined.

(** X23.  Reauthentication.  Opening the step shows the form and asks
    nothing of the service.  With credentials entered, a new client logs in
    with them and the step's requests are those of that login.  A login
    that raises, a timeout included, brings the form back with
    [invalid_auth] and touches no entry.  A login that returns ends the
    flow with [reauth_successful]: the first entry is updated, its
    username and password are the ones entered, every other key of its data
    is kept, and its reauth notification is dismissed; with no entry at all
    nothing is updated. *)
Theorem reauth_outcomes (E : Env) (entries : list Flows.ConfigEntry)
    (ui : Flows.UserInput) (s : State) :
  let o := Flows.IzypowerCloudConfigFlow._show_reauth_form E entries (Some ui) s in
  let login :=
    Client.async_login
      (Flows.with_credentials E (Flows.username ui) (Flows.password ui))
      (post (Flows.new_client s)) in
  evs (Flows.IzypowerCloudConfigFlow.async_step_reauth E entries s) = [] /\
  evs o = evs login /\
  (forall e, res login = Raise e ->
     res o = Ok (Flows.ShowForm "reauth_confirm"
                   [(VStr "base", VStr "invalid_auth")] [], [])) /\
  (res login = Ok tt ->
   (entries = [] -> res o = Ok (Flows.Abort "reauth_successful", [])) /\
   (forall entry rest, entries = entry :: rest ->
      exists new_data,
        res o = Ok (Flows.Abort "reauth_successful",
                    [ Flows.UpdateEntry (Flows.entry_id entry) new_data;
                      Flows.DismissNotification
                        ("izypower_cloud_reauth_" ++ Flows.entry_id entry) ]) /\
        dict_get new_data (VStr "username") = Some (VStr (Flows.username ui)) /\
        dict_get new_data (VStr "password") = Some (VStr (Flows.password ui)) /\
        (forall k, key_eqb (VStr "username") k = false ->
                   key_eqb (VStr "password") k = false ->
                   dict_get new_data k = dict_get (Flows.data entry) k))).
Proof.
  intros o login. subst o.
  split; [reflexivity|].
  unfold Flows.IzypowerCloudConfigFlow._show_reauth_form.
  destruct (@validate_credentials_cases E (Flows.username ui)
              (Flows.password ui) [] s) as [Hev [Hp Hres]].
  cbv zeta in Hev, Hp, Hres. fold login in Hev, Hp, Hres.
  rewrite evs_bind, res_bind.
  destruct Hres as [[Hl Hr] | [e [Hl Hr]]]; rewrite Hr; cbn [truthy negb].
  - split.
    { destruct entries; cbn [ret evs]; rewrite app_nil_r; exact Hev. }
    split; [intros e He; congruence|]. intros _. split.
    + intros ->. reflexivity.
    + intros entry rest ->. eexists. split; [reflexivity|].
      split; [|split].
      * rewrite dict_get_set_other by reflexivity.
        apply dict_get_set_same. reflexivity.
      * apply dict_get_set_same. reflexivity.
      * intros k Hu Hpw.
        rewrite (@dict_get_set_other _ (VStr "password") _ k Hpw).
        apply (@dict_get_set_other _ (VStr "username") _ k Hu).
  - cbn [dict_set truthy negb ret res evs]. rewrite app_nil_r.
    split; [exact Hev|]. split; [reflexivity | intros H; congruence].
Qed.

(** The service is unreachable: the form comes back with [invalid_auth]
    and no entry is touched. *)
Lemma reauth_outcomes_witness :
  res (Flows.IzypowerCloudConfigFlow._show_reauth_form Examples.env_down
         [ {| Flows.entry_id := "e1"; Flows.title := "Izypower Cloud";
              Flows.data := [(VStr "username", VStr "u");
                             (VStr "password", VStr "p")];
              Flows.options := [] |} ]
         (Some {| Flows.username := "u"; Flows.password := "q";
                  Flows.input_refresh_period := 3 |})
         init_state)
  = Ok (Flows.ShowForm "reauth_confirm"
          [(VStr "base", VStr "invalid_auth")] [], []).
Proof.
  destruct (reauth_outcomes Examples.env_down
         [ {| Flows.entry_id := "e1"; Flows.title := "Izypower Cloud";
              Flows.data := [(VStr "username", VStr "u");
                             (VStr "password", VStr "p")];
              Flows.options := [] |} ]
         {| Flows.username := "u"; Flows.password := "q";
            Flows.input_refresh_period := 3 |} init_state)
    as [_ [_ [H _]]].
  eapply H. vm_compute. reflexivity.
Defined.


(** * Failures of sub-resources, across a cycle *)

(** ** Every station and every device is dealt with *)

Section AlwaysRules.

Context {A B : Type}.

Lemma always_ret (a : A) (Q : Res A -> list Event -> Prop) :
  Q (Ok a) [] -> always (ret a) Q.
Proof. intros H s. exact H. Qed.

Lemma always_lift (r : Res A) (Q : Res A -> list Event -> Prop) :
  Q r [] -> always (lift r) Q.
Proof. intros H s. exact H. Qed.

Lemma always_bind (m : M A) (f : A -> M B) (P : Res A -> list Event -> Prop)
    (Q : Res B -> list Event -> Prop) :
  always m P ->
  (forall a ev1, P (Ok a) ev1 -> always (f a) (fun r ev2 => Q r (ev1 ++ ev2))) ->
  (forall e ev1, P (Raise e) ev1 -> Q (Raise e) ev1) ->
  always (bind m f) Q.
Proof.
  intros Hm Hf Hr s. rewrite res_bind, evs_bind. specialize (Hm s).
  destruct (res (m s)) as [a|e].
  - apply (Hf a _ Hm).
  - rewrite app_nil_r. apply (Hr e _ Hm).
Qed.

Lemma always_bind_lift (r : Res A) (f : A -> M B)
    (Q : Res B -> list Event -> Prop) :
  (forall a, r = Ok a -> always (f a) Q) ->
  (forall e, r = Raise e -> Q (Raise e) []) ->
  always (bind (lift r) f) Q.
Proof.
  intros Hf Hr s. rewrite res_bind, evs_bind. cbn [lift res post evs app].
  destruct r as [a|e]; [apply (Hf a eq_refl) | apply (Hr e eq_refl)].
Qed.

Lemma always_bind_ret (a : A) (f : A -> M B) (Q : Res B -> list Event -> Prop) :
  always (f a) Q -> always (bind (ret a) f) Q.
Proof.
  intros Hf s. rewrite res_bind, evs_bind. cbn [ret res post evs app].
  apply Hf.
Qed.

Lemma always_try (m : M A) (Q : Res (Res A) -> list Event -> Prop) :
  always m (fun r ev => Q (Ok r) ev) -> always (try m) Q.
Proof. intros Hm s. rewrite res_try, evs_try. apply Hm. Qed.

Lemma always_yields (m : M A) (Q : A -> list Event -> Prop) :
  always m (fun r ev => match r with Ok a => Q a ev | Raise _ => True end) ->
  yields m Q.
Proof. intros H s a Ha. specialize (H s). rewrite Ha in H. exact H. Qed.

End AlwaysRules.

Section DevicesDone.

Import Client Aggregator.

Variable E : Env.

Lemma always_fetch r : always (fetch E r) (fun _ ev => fetched ev r).
Proof.
  intros s. destruct (res (fetch E r s)) as [v|e] eqn:H.
  - right. exists v. apply fetch_return_event. exact H.
  - left. eapply fetch_raise_event. exact H.
Qed.

Lemma fetched_mono ev ev' r :
  (forall e, In e ev -> In e ev') -> fetched ev r -> fetched ev' r.
Proof. intros Hsub [H | [v H]]; [left | right; exists v]; auto. Qed.

Lemma keys_kept_refl d : keys_kept d d.
Proof. intros k H. exact H. Qed.

Lemma keys_kept_trans d1 d2 d3 :
  keys_kept d1 d2 -> keys_kept d2 d3 -> keys_kept d1 d3.
Proof. intros H1 H2 k H. auto. Qed.

Lemma setitem_has_key d k v d' :
  setitem d k v = Ok d' -> has_key d' k = true /\ keys_kept d d'.
Proof.
  unfold setitem. destruct (hashable k) eqn:Hh; [|discriminate].
  intros H. injection H as <-. split.
  - apply has_key_dict_set_same, key_eqb_refl, Hh.
  - intros k' Hk'. apply has_key_dict_set_other. exact Hk'.
Qed.

Lemma device_done_mono ev ev' mapping wifi wifi' links links' record :
  (forall e, In e ev -> In e ev') ->
  keys_kept wifi wifi' -> keys_kept links links' ->
  device_done ev mapping wifi links record ->
  device_done ev' mapping wifi' links' record.
Proof.
  intros Hsub Hw Hl H sn Hser Ht.
  destruct (H sn Hser Ht) as [H1 [H2 H3]].
  split; [auto|]. split; [eapply fetched_mono; eauto|].
  intros did code name Hd Hc Hn Hb.
  destruct (H3 did code name Hd Hc Hn Hb) as [H4 H5].
  split; [eapply fetched_mono; eauto | auto].
Qed.

Ltac sub_events :=
  let e := fresh "e" in
  let He := fresh "He" in
  intros e He; simpl in *; rewrite ?in_app_iff in *; tauto.

Lemma process_device_done mapping record wifi links :
  always (process_device E mapping record (wifi, links))
         (device_post mapping wifi links record).
Proof.
  unfold process_device. cbv zeta. cbn [fst snd].
  apply always_bind_lift; [|intros; exact I]. intros sn1 Hsn1.
  assert (Hk : forall device_sn,
    device_serial record = Ok device_sn ->
    always
      (device_id <- lift (py_get record (VStr "deviceId") VNone) ;;
       (if truthy device_sn
        then
         x <- try (wifi_data <- async_get_device_wifi E device_sn ;;
                   lift (setitem wifi device_sn wifi_data)) ;;
         wifi' <- match x with
                  | Ok w => ret w
                  | Raise _ => lift (setitem wifi device_sn empty_dict)
                  end ;;
         device_type_code <- lift (py_get record (VStr "deviceType") VNone) ;;
         name <- lift (device_type_name mapping device_type_code) ;;
         (if is_battery name device_type_code
          then
           y <- try (battery_links_data <- async_get_battery_links E device_sn ;;
                     (if truthy device_id
                      then lift (setitem links device_id battery_links_data)
                      else ret links)) ;;
           match y with
           | Ok l => ret (wifi', l)
           | Raise _ =>
               if truthy device_id
               then l <- lift (setitem links device_id empty_dict) ;; ret (wifi', l)
               else ret (wifi', links)
           end
          else ret (wifi', links))
        else ret (wifi, links)))
      (device_post mapping wifi links record)).
  { intros sn Hser.
    apply always_bind_lift; [|intros; exact I]. intros did Hdid.
    destruct (truthy sn) eqn:Hsn.
    2: { apply always_ret. split; [|split; apply keys_kept_refl].
         intros sn0 Hser0 Ht0. congruence. }
    apply always_bind
      with (P := fun (x : Res (Res pydict)) ev =>
                   fetched ev (RDeviceWifi sn) /\
                   match x with
                   | Ok (Ok w) => has_key w sn = true /\ keys_kept wifi w
                   | _ => True
                   end); [| |intros; exact I].
    { apply always_try.
      apply always_bind with (P := fun _ ev => fetched ev (RDeviceWifi sn)).
      - apply always_fetch.
      - intros v ev1 Hf. apply always_lift. rewrite app_nil_r.
        split; [exact Hf|].
        destruct (setitem wifi sn v) as [w|e] eqn:Hset; [|exact I].
        apply (setitem_has_key _ _ _ Hset).
      - intros e ev1 Hf. split; [exact Hf | exact I]. }
    intros x ev1 [Hf Hx].
    apply always_bind
      with (P := fun (r : Res pydict) ev =>
                   ev = [] /\
                   match r with
                   | Ok w => has_key w sn = true /\ keys_kept wifi w
                   | Raise _ => True
                   end); [| |intros; exact I].
    { destruct x as [w|e].
      - apply always_ret. auto.
      - apply always_lift. split; [reflexivity|].
        destruct (setitem wifi sn empty_dict) as [w|e'] eqn:Hset; [|exact I].
        apply (setitem_has_key _ _ _ Hset). }
    intros wifi' ev2 [-> [Hw Hkw]].
    apply always_bind_lift; [|intros; exact I]. intros code Hcode.
    apply always_bind_lift; [|intros; exact I]. intros name Hname.
    destruct (is_battery name code) eqn:Hbat.
    2: { apply always_ret. cbn [device_post fst snd].
         split; [|split; [exact Hkw | apply keys_kept_refl]].
         intros sn0 Hser0 Ht0.
         assert (sn0 = sn) by congruence. subst sn0.
         split; [exact Hw|]. split; [eapply fetched_mono; [|exact Hf]; sub_events|].
         intros did0 code0 name0 Hd Hc Hn Hb.
         assert (code0 = code) by congruence. subst code0.
         assert (name0 = name) by congruence. subst name0.
         congruence. }
    apply always_bind
      with (P := fun (y : Res (Res pydict)) ev =>
                   fetched ev (RBatteryLinks sn) /\
                   match y with
                   | Ok (Ok l) => (truthy did = true -> has_key l did = true) /\
                                  keys_kept links l
                   | _ => True
                   end); [| |intros; exact I].
    { apply always_try.
      apply always_bind with (P := fun _ ev => fetched ev (RBatteryLinks sn)).
      - apply always_fetch.
      - intros v ev3 Hf3. destruct (truthy did) eqn:Htd.
        + apply always_lift. rewrite app_nil_r. split; [exact Hf3|].
          destruct (setitem links did v) as [l|e] eqn:Hset; [|exact I].
          destruct (setitem_has_key _ _ _ Hset). auto.
        + apply always_ret. rewrite app_nil_r. split; [exact Hf3|].
          split; [discriminate | apply keys_kept_refl].
      - intros e ev3 Hf3. split; [exact Hf3 | exact I]. }
    intros y ev3 [Hf3 Hy].
    assert (Hfin : forall l,
              (truthy did = true -> has_key l did = true) ->
              keys_kept links l ->
              device_post mapping wifi links record (Ok (wifi', l))
                (ev1 ++ [] ++ ev3 ++ [])).
    { intros l Hl Hkl. cbn [device_post fst snd].
      split; [|split; [exact Hkw | exact Hkl]].
      intros sn0 Hser0 Ht0.
      assert (sn0 = sn) by congruence. subst sn0.
      split; [exact Hw|].
      split; [eapply fetched_mono; [|exact Hf]; sub_events|].
      intros did0 code0 name0 Hd Hc Hn Hb.
      assert (did0 = did) by congruence. subst did0.
      split; [eapply fetched_mono; [|exact Hf3]; sub_events | exact Hl]. }
    destruct y as [l|e].
    - apply always_ret. destruct Hy as [Hl Hkl]. apply Hfin; assumption.
    - destruct (truthy did) eqn:Htd.
      + apply always_bind_lift; [|intros; exact I]. intros l Hset.
        apply always_ret. destruct (setitem_has_key _ _ _ Hset) as [Hl Hkl].
        rewrite app_nil_r.
        replace (ev1 ++ [] ++ ev3) with (ev1 ++ [] ++ ev3 ++ [])
          by (now rewrite app_nil_r).
        apply Hfin; auto.
      + apply always_ret. apply Hfin; [discriminate | apply keys_kept_refl]. }
  destruct (truthy sn1) eqn:Ht1.
  - apply always_bind_ret. apply Hk.
    unfold device_serial, rbind. rewrite Hsn1, Ht1. reflexivity.
  - apply always_bind_lift; [|intros; exact I]. intros sn2 Hsn2. apply Hk.
    unfold device_serial, rbind. rewrite Hsn1, Ht1. exact Hsn2.
Qed.

Lemma devices_loop_done mapping records : forall wl ev0 done,
  Forall (device_done ev0 mapping (fst wl) (snd wl)) done ->
  always (devices_loop E mapping records wl)
    (fun r ev =>
       match r with
       | Ok wl' =>
           Forall (device_done (ev0 ++ ev) mapping (fst wl') (snd wl'))
                  (done ++ records)
       | Raise _ => True
       end).
Proof.
  induction records as [|record rest IH]; intros [wifi links] ev0 done Hdone;
    cbn [devices_loop].
  - apply always_ret. rewrite !app_nil_r. exact Hdone.
  - eapply always_bind; [apply process_device_done| |intros; exact I].
    intros [wifi' links'] ev1 [Hd [Hkw Hkl]]. cbn [fst snd] in *.
    assert (Hdone' : Forall (device_done (ev0 ++ ev1) mapping wifi' links')
                            (done ++ [record])).
    { apply Forall_app. split.
      - eapply Forall_impl; [|exact Hdone]. intros r Hr.
        eapply device_done_mono; [| exact Hkw | exact Hkl | exact Hr].
        sub_events.
      - constructor; [|constructor].
        eapply device_done_mono;
          [| apply keys_kept_refl | apply keys_kept_refl | exact Hd].
        sub_events. }
    intros s. specialize (IH (wifi', links') (ev0 ++ ev1) (done ++ [record])
                            Hdone' s).
    cbv beta. destruct (res (devices_loop E mapping rest (wifi', links') s));
      [|exact I].
    rewrite <- !app_assoc in IH. cbn [app] in IH. exact IH.
Qed.

Lemma stored_page_get page wifi links k :
  key_eqb (VStr "wifi_data") k = false ->
  key_eqb (VStr "battery_links") k = false ->
  dict_get (dict_set (dict_set page (VStr "wifi_data") (VDict wifi))
                     (VStr "battery_links") (VDict links)) k
  = dict_get page k.
Proof.
  intros H1 H2. rewrite dict_get_set_other by exact H2.
  apply dict_get_set_other. exact H1.
Qed.

Lemma device_page_body_done info sid :
  yields (device_page_body E info sid) (fun v ev => devices_done ev info v).
Proof.
  unfold device_page_body.
  eapply yields_bind; [apply yields_any|]. intros page0 ev1 _.
  apply yields_bind_lift. intros enum Henum.
  apply yields_bind_lift. intros infos Hinfos.
  apply yields_bind_lift. intros mapping Hmap.
  apply yields_bind_lift. intros data Hdata.
  apply yields_bind_lift. intros recs Hrecs.
  destruct page0 as [| | | | |page]; try apply yields_raise.
  apply yields_bind_lift. intros records Hrecords.
  eapply yields_bind.
  - apply always_yields.
    apply (@devices_loop_done mapping records ([], []) [] []). constructor.
  - intros [wifi links] ev2 Hdone. cbn [fst snd app] in Hdone.
    apply yields_ret. cbn [fst snd]. right.
    exists (dict_set (dict_set page (VStr "wifi_data") (VDict wifi))
                     (VStr "battery_links") (VDict links)),
           wifi, links, mapping, records.
    split; [reflexivity|]. split.
    { rewrite dict_get_set_other by reflexivity.
      apply dict_get_set_same. reflexivity. }
    split; [apply dict_get_set_same; reflexivity|].
    split.
    { unfold device_types_of, rbind. rewrite Henum, Hinfos. exact Hmap. }
    split.
    { unfold records_of, rbind.
      assert (Hd : py_get (VDict (dict_set (dict_set page (VStr "wifi_data")
                                               (VDict wifi))
                                     (VStr "battery_links") (VDict links)))
                     (VStr "data") empty_dict = Ok data).
      { rewrite <- Hdata. unfold py_get. cbn [hashable].
        rewrite stored_page_get by reflexivity. reflexivity. }
      rewrite Hd, Hrecs. exact Hrecords. }
    eapply Forall_impl; [|exact Hdone]. intros r Hr.
    eapply device_done_mono;
      [| apply keys_kept_refl | apply keys_kept_refl | exact Hr].
    sub_events.
Qed.

Lemma devices_done_mono ev ev' info v :
  (forall e, In e ev -> In e ev') -> devices_done ev info v ->
  devices_done ev' info v.
Proof.
  intros Hsub [H | [page [wifi [links [mapping [records H]]]]]]; [now left|].
  destruct H as [Hv [Hw [Hl [Hm [Hr Hd]]]]].
  right. exists page, wifi, links, mapping, records.
  repeat (split; [assumption|]).
  eapply Forall_impl; [|exact Hd]. intros r Hr'.
  eapply device_done_mono;
    [exact Hsub | apply keys_kept_refl | apply keys_kept_refl | exact Hr'].
Qed.

Lemma fetch_devices_done info sid devices :
  yields (fetch_devices E info sid devices)
    (fun d ev => exists v, d = dict_set devices sid v /\ devices_done ev info v).
Proof.
  unfold fetch_devices.
  apply yields_bind
    with (P := fun x ev => match x with
                           | Ok v => devices_done ev info v
                           | Raise _ => True
                           end).
  { apply yields_try; [|auto]. apply device_page_body_done. }
  intros x ev1 Hx. destruct x as [v|e]; apply yields_ret.
  - exists v. split; [reflexivity|]. rewrite app_nil_r. exact Hx.
  - exists empty_dict. split; [reflexivity | now left].
Qed.

Variable now : datetime.

Lemma station_rest_done sid info m :
  yields (station_rest E now sid info m)
    (fun m' ev =>
       stations_info m' = stations_info m /\
       exists v, stations_devices m' = dict_set (stations_devices m) sid v /\
                 devices_done ev info v).
Proof.
  unfold station_rest.
  eapply yields_bind; [apply yields_any|]. intros entry ev1 _.
  eapply yields_bind; [apply yields_any|]. intros component ev2 _.
  eapply yields_bind; [apply fetch_devices_done|].
  intros devices ev3 [v [-> Hv]]. cbv beta. apply yields_ret.
  split; [reflexivity|]. exists v. split; [reflexivity|].
  eapply devices_done_mono; [|exact Hv]. sub_events.
Qed.

Lemma stations_done_mono ev ev' m :
  (forall e, In e ev -> In e ev') -> stations_done ev m -> stations_done ev' m.
Proof.
  intros Hsub H k info v Hi Hd. eapply devices_done_mono; eauto.
Qed.

Lemma process_station_done record m ev0 :
  stations_done ev0 m ->
  yields (process_station E now record m)
         (fun m' ev => stations_done (ev0 ++ ev) m').
Proof.
  intros Hm. unfold process_station.
  apply yields_bind_lift. intros sid _.
  destruct (truthy sid).
  2: { apply yields_ret. now rewrite app_nil_r. }
  apply yields_bind
    with (P := fun x ev => match x with
                           | Ok m' => stations_done (ev0 ++ ev) m'
                           | Raise _ => True
                           end).
  { apply yields_try; [|auto].
    eapply yields_bind; [apply yields_any|].
    intros info ev1 _. apply yields_bind_lift. intros info' Hset.
    unfold setitem in Hset. destruct (hashable sid) eqn:Hh; [|discriminate].
    injection Hset as <-.
    eapply yields_impl; [|apply station_rest_done].
    intros m' ev2 [Hi [v [Hd Hv]]] k info0 v0 Hk Hk'.
    rewrite Hi in Hk. rewrite Hd in Hk'.
    cbn [stations_info stations_devices] in Hk, Hk'.
    rewrite dict_get_dict_set in Hk by (apply key_eqb_refl; exact Hh).
    rewrite dict_get_dict_set in Hk' by (apply key_eqb_refl; exact Hh).
    destruct (key_eqb sid k).
    - injection Hk as <-. injection Hk' as <-.
      eapply devices_done_mono; [|exact Hv]. sub_events.
    - eapply devices_done_mono; [|exact (Hm k info0 v0 Hk Hk')]. sub_events. }
  intros x ev1 Hx. destruct x as [m'|e]; apply yields_ret; rewrite app_nil_r.
  - exact Hx.
  - eapply stations_done_mono; [|exact Hm]. sub_events.
Qed.

Lemma stations_loop_done records : forall m ev0,
  stations_done ev0 m ->
  yields (stations_loop E now records m)
         (fun m' ev => stations_done (ev0 ++ ev) m').
Proof.
  induction records as [|record rest IH]; intros m ev0 Hm; cbn [stations_loop].
  - apply yields_ret. now rewrite app_nil_r.
  - eapply yields_bind; [apply process_station_done; exact Hm|].
    intros m' ev1 Hm'. cbv beta.
    eapply yields_impl; [|apply (IH m' (ev0 ++ ev1) Hm')].
    intros m'' ev2. now rewrite app_assoc.
Qed.

End DevicesDone.

Section CycleDone.

Import Client Aggregator.

Variable E : Env.

Lemma cycle_stations_done :
  yields (async_update_data E) (fun snap ev => stations_done ev (maps snap)).
Proof.
  unfold async_update_data. cbv zeta.
  eapply yields_bind; [apply yields_any|].
  intros stations_data ev1 _.
  do 3 (apply yields_bind_lift; intros ? _).
  eapply yields_bind;
    [apply (@stations_loop_done E (datetime_now E) _ empty_maps ev1)|].
  - intros k info v Hk. discriminate Hk.
  - intros m ev2 Hm. cbv beta. apply yields_ret. cbn [maps].
    now rewrite app_nil_r.
Qed.

(** The loops go on to the next record with what the body returned. *)
Lemma devices_loop_cons mapping record rest wl s wl' :
  res (process_device E mapping record wl s) = Ok wl' ->
  let o := process_device E mapping record wl s in
  let l := devices_loop E mapping rest wl' (post o) in
  res (devices_loop E mapping (record :: rest) wl s) = res l /\
  evs (devices_loop E mapping (record :: rest) wl s) = evs o ++ evs l /\
  post (devices_loop E mapping (record :: rest) wl s) = post l.
Proof.
  intros H o l. cbn [devices_loop].
  rewrite res_bind, evs_bind, post_bind, H. auto.
Qed.

Lemma stations_loop_cons now record rest m s m1 :
  res (process_station E now record m s) = Ok m1 ->
  let o := process_station E now record m s in
  let l := stations_loop E now rest m1 (post o) in
  res (stations_loop E now (record :: rest) m s) = res l /\
  evs (stations_loop E now (record :: rest) m s) = evs o ++ evs l /\
  post (stations_loop E now (record :: rest) m s) = post l.
Proof.
  intros H o l. cbn [stations_loop].
  rewrite res_bind, evs_bind, post_bind, H. auto.
Qed.

Lemma process_station_returns now record sid m s :
  py_get record (VStr "stationsId") VNone = Ok sid ->
  exists m1, res (process_station E now record m s) = Ok m1.
Proof.
  intros Hsid. destruct (truthy sid) eqn:Ht.
  - destruct (@process_station_step E now record sid m s Hsid Ht)
      as [m1 [H _]]. eauto.
  - rewrite (@process_station_no_id E now record sid m s Hsid Ht).
    exists m. reflexivity.
Qed.

(** A value that no fetch returned is the empty dictionary. *)
Lemma from_fetch_none ev (R : Resource -> Prop) v :
  from_fetch ev R v ->
  (forall r v', R r -> ~ In (EvReturn r v') ev) ->
  v = empty_dict.
Proof.
  intros [H | [r [HR Hin]]] Hno; [exact H|]. exfalso. exact (Hno r v HR Hin).
Qed.

End CycleDone.

Section SnapshotPlaceholders.

Import Client Aggregator.

Variable E : Env.
Variable s : State.
Variable snap : Snapshot.

Hypothesis Hok : res (async_update_data E s) = Ok snap.

Lemma snapshot_same_keys : same_keys (maps snap).
Proof.
  destruct (cycle_ok_inv E s Hok) as [records [evl [_ [_ [_ [_ Hrun]]]]]].
  apply (stations_run_same_keys Hrun). repeat split.
Qed.

Lemma snapshot_station_key sid v :
  In (EvReturn (RStationInfo sid) v) (evs (async_update_data E s)) -> hashable sid = true ->
  has_key (stations_info (maps snap)) sid = true.
Proof.
  intros Hin Hh.
  destruct (cycle_ok_inv E s Hok) as [records [evl [_ [_ [_ [Hev Hrun]]]]]].
  rewrite Hev in Hin. apply in_app_or in Hin.
  destruct Hin as [Hin|Hin].
  - pose proof (@stations_events_only E s _ _ Hin eq_refl). discriminate.
  - exact (stations_run_returned_key Hrun sid v Hin Hh).
Qed.

Lemma snapshot_windows k v :
  In (k, v) (stations_reports (maps snap)) ->
  exists entry, v = VDict entry /\ map fst entry = map VStr time_types.
Proof.
  intros Hin.
  destruct (cycle_ok_inv E s Hok) as [records [evl [_ [_ [_ [_ Hrun]]]]]].
  destruct (stations_run_reports Hrun k v Hin) as [[]|H]. exact H.
Qed.

Lemma snapshot_devices_done k info page :
  dict_get (stations_info (maps snap)) k = Some info ->
  dict_get (stations_devices (maps snap)) k = Some (VDict page) ->
  page <> [] ->
  exists wifi links mapping records,
    dict_get page (VStr "wifi_data") = Some (VDict wifi) /\
    dict_get page (VStr "battery_links") = Some (VDict links) /\
    device_types_of info = Ok mapping /\
    records_of (VDict page) = Ok records /\
    Forall (device_done (evs (async_update_data E s)) mapping wifi links) records.
Proof.
  intros Hi Hd Hne.
  destruct (@cycle_stations_done E s snap Hok k info (VDict page) Hi Hd)
    as [H | [page' [wifi [links [mapping [records H]]]]]].
  - injection H as ->. contradiction.
  - destruct H as [Hv [Hw [Hl [Hm [Hr Hdone]]]]]. injection Hv as <-.
    exists wifi, links, mapping, records. auto.
Qed.

Lemma snapshot_no_falsy_link k page links did :
  dict_get (stations_devices (maps snap)) k = Some (VDict page) ->
  dict_get page (VStr "battery_links") = Some (VDict links) ->
  truthy did = false ->
  has_key links did = false.
Proof.
  intros Hd Hget Hfalsy.
  destruct (dict_get_in _ _ Hd) as [k0 [Hin _]].
  destruct (cycle_ok_inv E s Hok) as [records [evl [_ [_ [_ [_ Hrun]]]]]].
  destruct (stations_run_devices Hrun k0 (VDict page) Hin) as [[]|Hentry].
  exact (@device_entry_links (VDict page) page links did Hentry eq_refl
           Hget Hfalsy).
Qed.

(** What no fetch returned is held as the empty dictionary. *)
Lemma snapshot_report_placeholder k entry tt v :
  In (k, VDict entry) (stations_reports (maps snap)) ->
  In (VStr tt, v) entry ->
  (forall sid v', key_for k sid ->
     ~ In (EvReturn (RReport sid (search_time (datetime_now E) tt) tt) v') (evs (async_update_data E s))) ->
  v = empty_dict.
Proof.
  intros Hin Hv Hno.
  destruct (@cycle_provenance E s snap Hok) as [Hr _].
  destruct (Hr _ _ Hin) as [sid [entry' [Hk [He Ho]]]]. injection He as <-.
  destruct (Ho _ _ Hv) as [tt' [Htt Hf]]. injection Htt as <-.
  eapply from_fetch_none; [exact Hf|].
  intros r v' <-. apply Hno. exact Hk.
Qed.

Lemma snapshot_component_placeholder k v :
  In (k, v) (stations_component (maps snap)) ->
  (forall sid v', key_for k sid ->
     ~ In (EvReturn (RComponent sid (strftime_Ymd (datetime_now E))) v') (evs (async_update_data E s))) ->
  v = empty_dict.
Proof.
  intros Hin Hno.
  destruct (@cycle_provenance E s snap Hok) as [_ [Hc _]].
  destruct (Hc _ _ Hin) as [sid [Hk Hf]].
  eapply from_fetch_none; [exact Hf|].
  intros r v' <-. apply Hno. exact Hk.
Qed.

Lemma snapshot_page_placeholder k v :
  In (k, v) (stations_devices (maps snap)) ->
  (forall sid v', key_for k sid ->
     ~ In (EvReturn (RDevicePage sid "all" 1 100) v') (evs (async_update_data E s))) ->
  v = empty_dict.
Proof.
  intros Hin Hno.
  destruct (@cycle_provenance E s snap Hok) as [_ [_ Hd]].
  destruct (Hd _ _ Hin) as [sid [Hk [H | [page [wifi [links [_ [Hp _]]]]]]]];
    [exact H|].
  exfalso. exact (Hno sid _ Hk Hp).
Qed.

Lemma snapshot_device_placeholders k page wifi links :
  In (k, VDict page) (stations_devices (maps snap)) ->
  dict_get page (VStr "wifi_data") = Some (VDict wifi) ->
  dict_get page (VStr "battery_links") = Some (VDict links) ->
  (forall key v, In (key, v) wifi ->
     (forall sn v', key_for key sn -> ~ In (EvReturn (RDeviceWifi sn) v') (evs (async_update_data E s))) ->
     v = empty_dict) /\
  (forall key v, In (key, v) links ->
     (forall sn v', ~ In (EvReturn (RBatteryLinks sn) v') (evs (async_update_data E s))) ->
     v = empty_dict).
Proof.
  intros Hin Hw Hl.
  destruct (@cycle_provenance E s snap Hok) as [_ [_ Hd]].
  destruct (Hd _ _ Hin) as [sid [Hk [H | [page0 [wifi0 [links0 H]]]]]].
  - injection H as ->. discriminate Hw.
  - destruct H as [Hv [_ [Hwo Hlo]]]. injection Hv as ->.
    rewrite dict_get_set_other in Hw by reflexivity.
    rewrite dict_get_set_same in Hw by reflexivity.
    rewrite dict_get_set_same in Hl by reflexivity.
    injection Hw as <-. injection Hl as <-.
    split.
    + intros key v Hkv Hno.
      eapply from_fetch_none; [exact (Hwo _ _ Hkv)|].
      intros r v' [sn [-> Hkey]]. apply Hno. exact Hkey.
    + intros key v Hkv Hno.
      destruct (Hlo _ _ Hkv) as [_ Hf].
      eapply from_fetch_none; [exact Hf|].
      intros r v' [sn ->]. apply Hno.
Qed.

End SnapshotPlaceholders.

(** C10. For a device with a truthy serial number that is classified as a
    battery and whose device identifier is missing or falsy, the battery
    links are fetched (the events of that fetch follow those of the WiFi
    fetch, and end with its return or its raise) and the battery-links map
    is returned unchanged, whether the fetch returned or raised; the loop
    over the device records then goes on to the next record with that
    map.  In the snapshot of a cycle no battery-links map has an entry
    under a falsy identifier; and for every station whose device page is
    held with its two maps, every such device among the records of the page
    has had its battery links fetched during the cycle, while the
    battery-links map of the page has no entry for it. *)
Theorem battery_links_need_device_id (E : Env) (s : State) :
  (forall mapping record wifi links sn did code name,
     device_serial record = Ok sn ->
     truthy sn = true ->
     hashable sn = true ->
     py_get record (VStr "deviceId") VNone = Ok did ->
     truthy did = false ->
     py_get record (VStr "deviceType") VNone = Ok code ->
     Aggregator.device_type_name mapping code = Ok name ->
     Aggregator.is_battery name code = true ->
     let o := Aggregator.process_device E mapping record (wifi, links) s in
     let w := Client.async_get_device_wifi E sn s in
     let b := Client.async_get_battery_links E sn (post w) in
     res o = Ok (dict_set wifi sn (or_empty (res w)), links) /\
     evs o = evs w ++ evs b /\
     (In (EvRaise (RBatteryLinks sn)) (evs b) \/
      exists v, In (EvReturn (RBatteryLinks sn) v) (evs b)) /\
     forall rest,
       let l := Aggregator.devices_loop E mapping rest
                  (dict_set wifi sn (or_empty (res w)), links) (post o) in
       res (Aggregator.devices_loop E mapping (record :: rest) (wifi, links) s)
       = res l /\
       evs (Aggregator.devices_loop E mapping (record :: rest) (wifi, links) s)
       = evs w ++ evs b ++ evs l)
  /\
  (forall snap sid page links did,
     res (Aggregator.async_update_data E s) = Ok snap ->
     In (sid, VDict page) (Aggregator.stations_devices (Aggregator.maps snap)) ->
     dict_get page (VStr "battery_links") = Some (VDict links) ->
     truthy did = false ->
     has_key links did = false)
  /\
  (forall snap k info page,
     res (Aggregator.async_update_data E s) = Ok snap ->
     dict_get (Aggregator.stations_info (Aggregator.maps snap)) k = Some info ->
     dict_get (Aggregator.stations_devices (Aggregator.maps snap)) k
     = Some (VDict page) ->
     page <> [] ->
     exists wifi links mapping records,
       dict_get page (VStr "wifi_data") = Some (VDict wifi) /\
       dict_get page (VStr "battery_links") = Some (VDict links) /\
       device_types_of info = Ok mapping /\
       records_of (VDict page) = Ok records /\
       forall record sn did code name,
         In record records ->
         device_serial record = Ok sn ->
         truthy sn = true ->
         py_get record (VStr "deviceId") VNone = Ok did ->
         truthy did = false ->
         py_get record (VStr "deviceType") VNone = Ok code ->
         Aggregator.device_type_name mapping code = Ok name ->
         Aggregator.is_battery name code = true ->
         has_key wifi sn = true /\
         fetched (evs (Aggregator.async_update_data E s)) (RBatteryLinks sn) /\
         has_key links did = false).
Proof.
  split; [|split].
  - intros mapping record wifi links sn did code name
           Hsn Ht Hh Hdid Hfalsy Hcode Hname Hbat o w b.
    assert (Hhd : truthy did = true -> hashable did = true) by congruence.
    destruct (@process_device_battery E mapping record wifi links s sn did code
                name Hsn Ht Hh Hdid Hhd Hcode Hname Hbat) as [Hr [He _]].
    cbv zeta in Hr, He. rewrite Hfalsy in Hr.
    split; [exact Hr|]. split; [exact He|]. split.
    + subst b. unfold Client.async_get_battery_links.
      destruct (res (Client.fetch E (RBatteryLinks sn) (post w))) as [v|e] eqn:Hb.
      * right. exists v. apply fetch_return_event. exact Hb.
      * left. eapply fetch_raise_event. exact Hb.
    + intros rest l.
      destruct (@devices_loop_cons E mapping record rest (wifi, links) s _ Hr)
        as [Hlr [Hle _]].
      cbv zeta in Hlr, Hle. fold o in Hlr, Hle. fold l in Hlr, Hle.
      split; [exact Hlr|]. rewrite Hle. fold o in He. rewrite He.
      rewrite <- app_assoc. reflexivity.
  - intros snap sid page links did Hok Hin Hget Hfalsy.
    destruct (cycle_ok_inv E s Hok)
      as [records [evl [_ [_ [_ [_ Hrun]]]]]].
    destruct (stations_run_devices Hrun sid (VDict page) Hin) as [[]|Hentry].
    exact (@device_entry_links (VDict page) page links did Hentry eq_refl Hget Hfalsy).
  - intros snap k info page Hok Hi Hd Hne.
    destruct (@snapshot_devices_done E s snap Hok k info page Hi Hd Hne)
      as [wifi [links [mapping [records [Hw [Hl [Hm [Hr Hdone]]]]]]]].
    exists wifi, links, mapping, records.
    repeat (split; [assumption|]).
    intros record sn did code name Hin Hsn Ht Hdid Hfalsy Hcode Hname Hbat.
    rewrite Forall_forall in Hdone.
    destruct (Hdone record Hin sn Hsn Ht) as [H1 [_ H3]].
    destruct (H3 did code name Hdid Hcode Hname Hbat) as [H4 _].
    split; [exact H1|]. split; [exact H4|].
    exact (@snapshot_no_falsy_link E s snap Hok k page links did Hd Hl Hfalsy).
Qed.

(** A cycle over station 42, whose device [SN1] is of type code "battery"
    and has no device identifier: the battery links of [SN1] are fetched
    (the fetch raises) and the battery-links map stays empty. *)
Lemma battery_links_need_device_id_witness :
  let E := Examples.env_links_fail Examples.devices_body_no_id in
  let o := Aggregator.async_update_data E init_state in
  fetched (evs o) (RBatteryLinks (VStr "SN1")) /\
  exists snap page,
    res o = Ok snap /\
    dict_get (Aggregator.stations_devices (Aggregator.maps snap)) (VNum 42)
    = Some (VDict page) /\
    dict_get page (VStr "battery_links") = Some (VDict []).
Proof.
  cbv zeta.
  destruct (res (Aggregator.async_update_data
                   (Examples.env_links_fail Examples.devices_body_no_id)
                   init_state)) as [snap|e] eqn:Hres;
    [|vm_compute in Hres; discriminate Hres].
  destruct (battery_links_need_device_id
              (Examples.env_links_fail Examples.devices_body_no_id) init_state)
    as [_ [_ H]].
  assert (Hsnap : Ok snap = Ok snap) by reflexivity.
  revert Hsnap. rewrite <- Hres at 1. intros Hsnap.
  vm_compute in Hres. injection Hres as <-.
  match type of H with
  | forall snap k info page, _ = Ok snap -> _ =>
      specialize (H _ (VNum 42) Examples.info_value _ Hsnap eq_refl eq_refl)
  end.
  destruct H as [wifi [links [mapping [records [Hw [Hl [Hm [Hr Hall]]]]]]]];
    [discriminate|].
  vm_compute in Hl. injection Hl as <-.
  vm_compute in Hm. injection Hm as <-.
  vm_compute in Hr. injection Hr as <-.
  destruct (Hall Examples.device_record_no_id (VStr "SN1") VNone
              (VStr "battery") ""%string) as [_ [Hf _]];
    try reflexivity; [now left|].
  split; [exact Hf|].
  eexists. eexists. split; [reflexivity|]. split; reflexivity.
Defined.

(** C4, amended.  A raising report, component or device-page fetch is
    caught where it is made and the empty dictionary is stored under the
    window, respectively the station; for a device with a serial number the
    WiFi map gets the value of the WiFi fetch or the empty dictionary, and,
    when the device is a battery, the battery-links map gets the value of
    the battery-links fetch or the empty dictionary under the device
    identifier provided that identifier is truthy (otherwise the map is
    left as it is); [or_empty] is the value of a fetch that returned and
    the empty dictionary for one that raised.  None of this raises: the
    loop over station records that are objects always returns, and so does
    the cycle once the station list is fetched.  After a device, whatever
    its fetches did, the loop over the device records goes on to the next
    record with the two maps so updated, and after a station the loop over
    the station records goes on to the next record.

    In the snapshot that a cycle returns: every report, every component
    entry, every device page and every entry of the WiFi and battery-links
    maps is the empty dictionary or the value that a fetch of that very
    sub-resource returned during the cycle; the four dictionaries have the
    same keys, among them every station whose info fetch returned, and
    every report entry has the four windows; in every device page held with
    its two maps, every device record with a serial number has had its WiFi
    data fetched and has its entry in the WiFi map, and every battery among
    them has had its battery links fetched and, when its identifier is
    truthy, has its entry in the battery-links map; and an entry for which
    no fetch of its sub-resource returned during the cycle is the empty
    dictionary. *)
Theorem sub_resource_failures_degrade (E : Env) (s : State) :
  let now := datetime_now E in
  (forall sid entry tt e,
     res (Client.async_get_report E sid (Aggregator.search_time now tt) tt s)
     = Raise e ->
     res (Aggregator.fetch_window E now sid entry tt s)
     = Ok (dict_set entry (VStr tt) empty_dict))
  /\
  (forall sid component e,
     res (Client.async_get_component E sid (Aggregator.strftime_Ymd now) s)
     = Raise e ->
     res (Aggregator.fetch_component E now sid component s)
     = Ok (dict_set component sid empty_dict))
  /\
  (forall info sid devices e,
     res (Client.async_get_device_page E sid "all" 1 100 s) = Raise e ->
     res (Aggregator.fetch_devices E info sid devices s)
     = Ok (dict_set devices sid empty_dict))
  /\
  (forall mapping record wifi links sn did code name,
     device_serial record = Ok sn ->
     truthy sn = true ->
     hashable sn = true ->
     py_get record (VStr "deviceId") VNone = Ok did ->
     (truthy did = true -> hashable did = true) ->
     py_get record (VStr "deviceType") VNone = Ok code ->
     Aggregator.device_type_name mapping code = Ok name ->
     let o := Aggregator.process_device E mapping record (wifi, links) s in
     let w := Client.async_get_device_wifi E sn s in
     let b := Client.async_get_battery_links E sn (post w) in
     let wl := (dict_set wifi sn (or_empty (res w)),
                if Aggregator.is_battery name code && truthy did
                then dict_set links did (or_empty (res b))
                else links) in
     res o = Ok wl /\
     forall rest,
       let l := Aggregator.devices_loop E mapping rest wl (post o) in
       res (Aggregator.devices_loop E mapping (record :: rest) (wifi, links) s)
       = res l /\
       evs (Aggregator.devices_loop E mapping (record :: rest) (wifi, links) s)
       = evs o ++ evs l)
  /\
  (forall record rest m sid,
     py_get record (VStr "stationsId") VNone = Ok sid ->
     exists m1,
       res (Aggregator.process_station E now record m s) = Ok m1 /\
       let o := Aggregator.process_station E now record m s in
       let l := Aggregator.stations_loop E now rest m1 (post o) in
       res (Aggregator.stations_loop E now (record :: rest) m s) = res l /\
       evs (Aggregator.stations_loop E now (record :: rest) m s)
       = evs o ++ evs l)
  /\
  (forall records m,
     forallb is_dict records = true ->
     exists m', res (Aggregator.stations_loop E now records m s) = Ok m')
  /\
  (forall sd records,
     res (Client.async_get_stations E 1 100 s) = Ok sd ->
     records_of sd = Ok records ->
     forallb is_dict records = true ->
     exists snap, res (Aggregator.async_update_data E s) = Ok snap)
  /\
  (forall snap,
     res (Aggregator.async_update_data E s) = Ok snap ->
     let m := Aggregator.maps snap in
     let ev := evs (Aggregator.async_update_data E s) in
     provenance now m ev /\
     same_keys m /\
     (forall sid v,
        In (EvReturn (RStationInfo sid) v) ev -> hashable sid = true ->
        has_key (Aggregator.stations_info m) sid = true) /\
     (forall k v,
        In (k, v) (Aggregator.stations_reports m) ->
        exists entry,
          v = VDict entry /\
          map fst entry = [VStr "all"; VStr "day"; VStr "month"; VStr "year"]) /\
     (forall k info page,
        dict_get (Aggregator.stations_info m) k = Some info ->
        dict_get (Aggregator.stations_devices m) k = Some (VDict page) ->
        page <> [] ->
        exists wifi links mapping records,
          dict_get page (VStr "wifi_data") = Some (VDict wifi) /\
          dict_get page (VStr "battery_links") = Some (VDict links) /\
          device_types_of info = Ok mapping /\
          records_of (VDict page) = Ok records /\
          Forall (device_done ev mapping wifi links) records) /\
     (forall k entry tt v,
        In (k, VDict entry) (Aggregator.stations_reports m) ->
        In (VStr tt, v) entry ->
        (forall sid v', key_for k sid ->
           ~ In (EvReturn (RReport sid (Aggregator.search_time now tt) tt) v')
                ev) ->
        v = empty_dict) /\
     (forall k v,
        In (k, v) (Aggregator.stations_component m) ->
        (forall sid v', key_for k sid ->
           ~ In (EvReturn (RComponent sid (Aggregator.strftime_Ymd now)) v') ev) ->
        v = empty_dict) /\
     (forall k v,
        In (k, v) (Aggregator.stations_devices m) ->
        (forall sid v', key_for k sid ->
           ~ In (EvReturn (RDevicePage sid "all" 1 100) v') ev) ->
        v = empty_dict) /\
     (forall k page wifi links,
        In (k, VDict page) (Aggregator.stations_devices m) ->
        dict_get page (VStr "wifi_data") = Some (VDict wifi) ->
        dict_get page (VStr "battery_links") = Some (VDict links) ->
        (forall key v, In (key, v) wifi ->
           (forall sn v', key_for key sn ->
              ~ In (EvReturn (RDeviceWifi sn) v') ev) ->
           v = empty_dict) /\
        (forall key v, In (key, v) links ->
           (forall sn v', ~ In (EvReturn (RBatteryLinks sn) v') ev) ->
           v = empty_dict))).
Proof.
  intros now.
  split; [intros sid entry tt e; apply fetch_window_raises|].
  split; [intros sid component e; apply fetch_component_raises|].
  split; [intros info sid devices e; apply fetch_devices_raises|].
  split.
  { intros mapping record wifi links sn did code name
           Hsn Ht Hh Hdid Hhd Hcode Hname o w b wl.
    assert (Hr : res o = Ok wl).
    { subst wl. destruct (Aggregator.is_battery name code) eqn:Hbat.
      - destruct (@process_device_battery E mapping record wifi links s sn did
                    code name Hsn Ht Hh Hdid Hhd Hcode Hname Hbat) as [Hr _].
        exact Hr.
      - destruct (@process_device_plain E mapping record wifi links s sn did
                    code name Hsn Ht Hh Hdid Hcode Hname Hbat) as [Hr _].
        exact Hr. }
    split; [exact Hr|]. intros rest l.
    destruct (@devices_loop_cons E mapping record rest (wifi, links) s wl Hr)
      as [Hlr [Hle _]].
    split; [exact Hlr | exact Hle]. }
  split.
  { intros record rest m sid Hsid.
    destruct (@process_station_returns E now record sid m s Hsid) as [m1 Hm1].
    exists m1. split; [exact Hm1|]. intros o l.
    destruct (@stations_loop_cons E now record rest m s m1 Hm1)
      as [Hlr [Hle _]].
    split; [exact Hlr | exact Hle]. }
  split.
  { intros records m Hall.
    destruct (stations_loop_run E now records m s Hall) as [m' [Hm' _]].
    eauto. }
  split; [intros sd records; apply cycle_returns|].
  intros snap Hok m ev.
  split; [exact (@cycle_provenance E s snap Hok)|].
  split; [exact (@snapshot_same_keys E s snap Hok)|].
  split; [exact (@snapshot_station_key E s snap Hok)|].
  split; [exact (@snapshot_windows E s snap Hok)|].
  split; [exact (@snapshot_devices_done E s snap Hok)|].
  split; [exact (@snapshot_report_placeholder E s snap Hok)|].
  split; [exact (@snapshot_component_placeholder E s snap Hok)|].
  split; [exact (@snapshot_page_placeholder E s snap Hok)|].
  exact (@snapshot_device_placeholders E s snap Hok).
Qed.

(** A cycle over station 42 with the device [SN1] of type code "battery"
    and device identifier 7, whose WiFi fetch returns and whose
    battery-links fetch raises: the snapshot holds the WiFi data under
    [SN1] and the empty dictionary under 7. *)
Lemma sub_resource_failures_degrade_witness :
  let E := Examples.env_links_fail Examples.devices_body in
  let o := Aggregator.async_update_data E init_state in
  exists snap page wifi links,
    res o = Ok snap /\
    dict_get (Aggregator.stations_devices (Aggregator.maps snap)) (VNum 42)
    = Some (VDict page) /\
    dict_get page (VStr "wifi_data") = Some (VDict wifi) /\
    dict_get page (VStr "battery_links") = Some (VDict links) /\
    dict_get wifi (VStr "SN1") = Some Examples.wifi_value /\
    has_key links (VNum 7) = true /\
    (forall v, In (VNum 7, v) links -> v = empty_dict).
Proof.
  cbv zeta.
  destruct (res (Aggregator.async_update_data
                   (Examples.env_links_fail Examples.devices_body)
                   init_state)) as [snap|e] eqn:Hres;
    [|vm_compute in Hres; discriminate Hres].
  destruct (sub_resource_failures_degrade
              (Examples.env_links_fail Examples.devices_body) init_state)
    as [_ [_ [_ [_ [_ [_ [_ H]]]]]]].
  specialize (H snap Hres). cbv zeta in H.
  destruct H as [_ [_ [_ [_ [Hdone [_ [_ [_ Hph]]]]]]]].
  assert (Hno : Forall (fun e => forall sn v, e <> EvReturn (RBatteryLinks sn) v)
                  (evs (Aggregator.async_update_data
                          (Examples.env_links_fail Examples.devices_body)
                          init_state))).
  { vm_compute. repeat (constructor; [intros sn' v' Hc; discriminate Hc|]).
    constructor. }
  rewrite Forall_forall in Hno.
  vm_compute in Hres. injection Hres as <-.
  match type of Hdone with
  | forall k info page, _ -> _ = Some (VDict page) -> _ =>
      specialize (Hdone (VNum 42) Examples.info_value _ eq_refl eq_refl)
  end.
  destruct Hdone as [wifi [links [mapping [records [Hw [Hl [Hm [Hr Hall]]]]]]]];
    [discriminate|].
  match type of Hph with
  | forall k page wifi links, In (k, VDict page) _ -> _ =>
      destruct (Hph (VNum 42) _ wifi links (or_introl eq_refl) Hw Hl)
        as [_ Hlinks]
  end.
  vm_compute in Hm. injection Hm as <-.
  vm_compute in Hr. injection Hr as <-.
  rewrite Forall_forall in Hall.
  destruct (Hall Examples.device_record (or_introl eq_refl) (VStr "SN1")
              eq_refl eq_refl) as [_ [_ Hbat]].
  destruct (Hbat (VNum 7) (VStr "battery") ""%string
              eq_refl eq_refl eq_refl eq_refl) as [_ Hkey].
  eexists. eexists. exists wifi, links.
  split; [reflexivity|]. split; [reflexivity|].
  split; [exact Hw|]. split; [exact Hl|]. split.
  { vm_compute in Hw. injection Hw as <-. reflexivity. }
  split; [exact (Hkey eq_refl)|].
  intros v Hin. apply (Hlinks _ _ Hin).
  intros sn v' Hin'. exact (Hno _ Hin' sn v' eq_refl).
Defined.
